(* ===== verification/_CoqProject ===== *)
-Q . S2P
Prelude.v
CString.v
ULib.v
Shell.v
Fds.v
ShellRun.v
Basic.v
BasicProg.v
BasicRun.v
Fento.v
Tools.v
Pmm.v
Pipe.v
Sched.v
Disk.v
Ata.v
Layout.v
Minix.v
MinixTable.v
MinixZones.v
MinixTree.v
MinixDemo.v
MinixFile.v
MinixDir.v
MinixBytes.v
MinixNames.v
MinixPath.v
MinixMeta.v
MinixFree.v
Keyboard.v
Console.v
Paging.v
AddrSpace.v
Spaces.v
Image.v
SpaceClone.v
SpaceDemo.v
Heap.v
HeapSpec.v
KernelMap.v
HeapPages.v
File.v
FileSpec.v
Kernel.v
Syscall.v
Elf.v
Proc.v
KernelInv.v
SyscallInv.v
ProcInv.v
ElfSpec.v
StackSpec.v
DispatchInv.v
Ports.v
Intr.v
Serial.v
UserMem.v
KernelDemo.v
Trap.v
Boot.v
FileCalls.v
Calls.v
WaitSpec.v
FdCalls.v
Unistd.v
UMalloc.v
