(* ===== verification/Prelude.v ===== *)
(** * FentoOS: a verification library for the kernel and its programs

    FentoOS is a small i386 operating system: a kernel with paging, a heap, a
    round-robin scheduler, a MINIX v3 file system on an ATA disk, drivers for the
    keyboard, the text console and the serial line, BSD-style system calls, and a set of
    programs on a small C library.  This library models them as executable definitions,
    translated function by function from the C sources under src/kernel, src/include and
    src/user, and proves what makes the parts and their composition correct.

    ** The kernel: files and sources

    - Prelude: machine integers with their wrap, lists indexed by [Z], loops, the hint
      database [fento].
    - CString: kernel/lib/string.c, on byte-addressed memory ([Mem]) and on lists
      ([CStr], the view the other files use).
    - Pmm: kernel/mm/pmm.c, the bitmap of physical frames.
    - Paging, AddrSpace, Spaces, Image, SpaceClone: kernel/i386/paging.c.  A [machine] is
      physical memory with the frame allocator and the page directory registers; the
      tables are decoded from memory.  [AddrSpace.space] says that a directory is a tree
      of distinct frames in use, [Spaces.ubyte] is what a program reads at an address,
      and [Image.image] the bytes of a whole range.
    - Heap, HeapSpec: kernel/mm/vmm.c, the heap as a doubly linked list of blocks, whose
      headers are kept in a map beside the machine's memory.
    - KernelMap: the kernel's own mapping.  The other files access physical frames
      directly, as the code does through the identity mapping; here it is shown for which
      frames that mapping is in place once the heap is.  HeapPages: the frames below the
      pages of the heap; [HeapPages.backed] says that each page has a frame of its own, so
      that the headers and regions of Heap really are separate memory.
    - Sched: kernel/sched/sched.c over a class [KEnv] of the operations it calls (heap,
      address spaces, contexts, open files); tasks live in a store indexed by address,
      the run list is their [next] pointers.
    - Disk and Ata: kernel/drivers/ata.c at the level of ports over a class of devices
      with the laws of the protocol, and the contract on whole sectors that it implements
      on drives quick enough for it; Layout: the on-disk structures of
      include/minixfs.h; Minix: every function of kernel/fs/minixfs.c over the disk
      contract.  MinixTable (bitmaps and inode table), MinixZones (allocation),
      MinixTree (the tree of zones and the file-system invariant [fs_inv]), MinixFile
      and MinixBytes (reading and writing), MinixDir and MinixNames (directories),
      MinixPath (paths), MinixMeta (mounting) and MinixFree (truncation, unlinking) hold
      its properties.
    - Keyboard: kernel/drivers/keyboard.c; Console: kernel/drivers/vga.c.
    - Pipe and File: kernel/fs/file.c; [File.services] puts heap, open files and pipes
      together and implements [KEnv]; FileSpec holds the invariant of the reference
      counters.
    - Kernel: the state of the whole kernel, user memory, and the monad of handlers;
      Syscall: kernel/syscall/syscall.c; Elf: kernel/i386/elf.c; Proc:
      kernel/proc/proc.c and [dispatch].  KernelInv, SyscallInv, ProcInv and DispatchInv
      prove that scheduler operations and system calls keep the bookkeeping invariant;
      ElfSpec, StackSpec, UserMem, FileCalls, Calls and WaitSpec what single calls do.
    - Ports: the port instructions as a class, the interrupt controllers and the serial
      chip as devices with laws, and a simulated board that satisfies them; Intr:
      kernel/i386/idt.c, gdt.c and pit.c; Serial: kernel/drivers/serial.c; Trap: the
      dispatch of exceptions and interrupts (idt.c, pit.c, proc.c); Boot:
      kernel/main.c and the start of the first program.
    - MinixDemo, SpaceDemo and KernelDemo are small concrete states at which the theorems
      are exercised.

    ** Programs: files and sources

    - Fds: what the calls on descriptors promise to a program, as operations on tables.
      FdCalls shows that the kernel keeps the promise; ShellRun relies on it.
    - Unistd: user/lib/unistd.c, the wrappers of the system calls.
    - ULib: user/lib/string.c and stdio.c (numbers, formatted output, lines); UMalloc:
      user/lib/malloc.c and [sbrk], over the break that the kernel's [sys_brk] moves.
    - Shell: the tokenizer and parser of user/bin/sh.c and the lines of scripts;
      ShellRun: its built-in commands, redirections and pipelines, over a class [Os] of
      what the kernel decides.
    - Basic, BasicProg, BasicRun: user/bin/basic.c (expressions; the table of lines;
      statements, runs, files).  Fento: user/bin/fento.c.  Tools: user/bin/wc.c, head.c,
      cat.c, cp.c, echo.c, ls.c, rm.c, rmdir.c, mkdir.c and touch.c.

    ** What the theorems show

    - Memory: frames are conserved, mapping and copying touch only what they should, a
      clone is an equal and separate space, the heap hands out disjoint regions of the
      requested size, on pages with frames of their own, and merges what is released; so
      does the programs' [malloc].  The code does not check most results of
      [pmm_alloc_frame]: the theorems that need frames say how many must be free.
    - Files: reading returns what was written, other files are unaffected, names that are
      added are found, creating, truncating and unlinking do what they say, and the
      file-system invariant is preserved, while there are free zones and inodes; what the
      driver reads is right, and on a prompt drive it implements the sector contract.
    - Scheduling: no runnable task starves while the current task is on the run list (the
      idle task is not, and keeps the processor); the effects of exiting.
    - Processes: system calls keep the bookkeeping of tasks, descriptors, open files,
      pipes and heap exact ([Calls], [dispatch_keeps_invariant]); the invariant says
      nothing of the contents of memory, and calls that overwrite the kernel are [Beyond];
      fork, wait4, loading a program and its initial stack have functional specifications, writing, seeking and reading through a descriptor
      round-trips, and the calls on descriptors refine the tables of Fds.
    - The machine: the tables and controllers are set up as the processor needs them,
      an interrupt is acknowledged when its handler returns, or, when the timer's handler
      switched to another task, by the next task that had been switched away from in the
      same way, and until then no interrupt arrives; bytes reach the serial line in order,
      none lost; and the kernel boots to the first program.
    - Programs: numbers survive printing and reading; a command line is split and parsed
      into the pipeline it spells, the processes of the pipeline get exactly the ends of
      pipes they need, and all of them are reaped; BASIC expressions have the value of the expression they spell,
      statements end, programs survive saving and loading; the editor's buffer implements
      a text with a cursor; filters depend on their input only, not on how it is cut.
    - Some theorems describe where the code falls short of what it means to do (the
      idle task, reads of zero bytes from a pipe, [kill], the 255-character working
      directory, the heap over identity-mapped frames, huge requests of memory, operators
      glued to words in the shell, jumps of BASIC to missing lines).

    ** Modelling decisions and bounds

    - Integers are [Z] with [u8], [u16], [u32] and [i32] where the C code wraps.
    - Loops whose number of turns is not fixed take fuel that is enough by construction:
      the bytes to copy, the blocks of the heap, the tasks in the store, the characters
      of a path, a line or an expression, the turns of a polling loop that the device's
      laws allow.  Where it matters the theorems say that the result is reached.  Only a
      BASIC program can run for ever; [BasicRun.run] takes the number of statements.
    - Uninitialised local buffers are given by a class [Stack]; the theorems hold for
      all its values.
    - A device is a parameter with named laws (Ata, Ports), instantiated by a simulated
      one.  The laws of a drive leave open what its status shows while it is busy and which
      commands fail; what the driver needs beyond that is a class of its own
      ([AtaPrompt]).  A byte written to a busy serial line overwrites the one before.
    - A kernel stack is abstracted to what its saved context does.  A system call that
      gives the processor away returns [Waits] with what is left to do; [resume]
      continues it.
    - [Beyond] stands for behaviour outside the model: a store past a kernel buffer,
      kernel memory reached through a user pointer (the status of wait4 among them), pages
      of the kernel replaced by a program (a segment of an ELF file or a break below user
      space, which the code does not refuse), a run list that is not a ring.  [Halts] is a
      kernel that stops.  The theorems on single calls exclude both where they state a
      result; [dispatch_keeps_invariant] lists the calls that always return.
    - [write] and [read] copy the user buffer as a whole before or after the call of the
      file system; the calls do not interleave with other tasks there.
    - Strings of programs are lists of characters without the terminator.  A process
      forked by the shell runs up to its [execve] at once: until then it changes its own
      descriptors only, so that the order does not matter.

    ** Not modelled

    - Assembly (boot, interrupt stubs, context switch, port instructions): the effect of
      each routine on the modelled state is part of the definitions that use it.
    - The translation cache, and the order of interrupts inside the kernel.
    - The compiler and assembler under user/bin (fcc.c, fasm.c), the programs that
      only print (stat, env, pwd, clear, sleep, true, false) and the tool under tools/.  *)

From Stdlib Require Import ZArith Lia Bool.
From stdpp Require Import base list gmap numbers.

#[global] Open Scope Z_scope.

(** ** Machine integers: a [w]-bit value is a [Z] kept in range by an explicit
    wrap. *)

Definition u8 (x : Z) : Z := x mod 256.
Definition u16 (x : Z) : Z := x mod 65536.
Definition u32 (x : Z) : Z := x mod 4294967296.
Definition i32 (x : Z) : Z :=
  let y := u32 x in if y <? 2147483648 then y else y - 4294967296.

Definition is_u8 (x : Z) : Prop := 0 <= x < 256.
Definition is_u16 (x : Z) : Prop := 0 <= x < 65536.
Definition is_u32 (x : Z) : Prop := 0 <= x < 4294967296.

Definition bytes (l : list Z) : Prop := Forall is_u8 l.

(** The bitwise complement of a 32-bit word. *)
Definition not32 (x : Z) : Z := Z.lxor x 4294967295.

Create HintDb fento discriminated.

(** [dlia] is [lia] after the machine-width wraps, divisions and remainders have
    been turned into their defining equations. *)
Ltac unwrap := unfold u8, u16, u32, is_u8, is_u16, is_u32 in *.
Ltac dlia := unwrap; Z.div_mod_to_equations; lia.

(** Case analysis on the boolean tests that the translated C conditions use. *)
Ltac bcase :=
  match goal with
  | |- context [?a =? ?b] => destruct (Z.eqb_spec a b)
  | |- context [?a <? ?b] => destruct (Z.ltb_spec a b)
  | |- context [?a <=? ?b] => destruct (Z.leb_spec a b)
  end.
Ltac bcase_in H :=
  match type of H with
  | context [?a =? ?b] => destruct (Z.eqb_spec a b)
  | context [?a <? ?b] => destruct (Z.ltb_spec a b)
  | context [?a <=? ?b] => destruct (Z.leb_spec a b)
  end.

Lemma u8_range x : is_u8 (u8 x).
Proof. dlia. Qed.
Lemma u16_range x : is_u16 (u16 x).
Proof. dlia. Qed.
Lemma u32_range x : is_u32 (u32 x).
Proof. dlia. Qed.
Lemma u8_small x : is_u8 x -> u8 x = x.
Proof. dlia. Qed.
Lemma u16_small x : is_u16 x -> u16 x = x.
Proof. dlia. Qed.
Lemma u32_small x : is_u32 x -> u32 x = x.
Proof. dlia. Qed.
Lemma i32_small x : -2147483648 <= x < 2147483648 -> i32 x = x.
Proof. intros H. unfold i32. bcase; dlia. Qed.

#[export] Hint Resolve u8_range u16_range u32_range : fento.

(** ** Arrays: a C array is a list, indexed by a [Z].  Reading out of range gives
    the default and writing out of range leaves the array alone; every theorem
    that depends on an access states that it is in range. *)

Definition lenZ {A} (l : list A) : Z := Z.of_nat (length l).

Definition lget {A} (d : A) (l : list A) (i : Z) : A :=
  if i <? 0 then d else nth (Z.to_nat i) l d.

Definition lset {A} (l : list A) (i : Z) (x : A) : list A :=
  if i <? 0 then l else <[Z.to_nat i := x]> l.

(** [lsub l off n] is the slice [l[off .. off+n)]; [lsplice l off s] overwrites
    the slice that starts at [off] with [s] (a [memcpy] into the array). *)
Definition lsub {A} (l : list A) (off n : Z) : list A :=
  take (Z.to_nat n) (drop (Z.to_nat off) l).

Definition lsplice {A} (l : list A) (off : Z) (s : list A) : list A :=
  take (Z.to_nat off) l ++ s ++ drop (Z.to_nat off + length s) l.

Section arrays.
  Context {A : Type}.
  Implicit Types (l s : list A) (d x : A) (i j off n : Z).

Lemma lget_nth d l i : 0 <= i -> lget d l i = nth (Z.to_nat i) l d.
  Proof. intros H. unfold lget. bcase; [lia | done]. Qed.

Lemma lget_lookup d l i : 0 <= i < lenZ l -> l !! Z.to_nat i = Some (lget d l i).
  Proof.
    unfold lenZ. intros H. rewrite lget_nth by lia.
    destruct (nth_lookup_or_length l (Z.to_nat i) d); [done | lia].
  Qed.

Lemma lookup_lget d l i x : 0 <= i -> l !! Z.to_nat i = Some x -> lget d l i = x.
  Proof.
    intros Hi Hl. pose proof (lookup_lt_Some _ _ _ Hl).
    rewrite (lget_lookup d) in Hl by (unfold lenZ; lia). congruence.
  Qed.

Lemma lget_oob d l i : lenZ l <= i -> lget d l i = d.
  Proof.
    unfold lenZ. intros H. rewrite lget_nth by lia. apply nth_overflow. lia.
  Qed.

Lemma lenZ_nonneg l : 0 <= lenZ l.
  Proof. unfold lenZ. lia. Qed.

Lemma lenZ_lset l i x : lenZ (lset l i x) = lenZ l.
  Proof. unfold lenZ, lset. bcase; [done|]. by rewrite length_insert. Qed.

Lemma lget_lset_eq d l i x : 0 <= i < lenZ l -> lget d (lset l i x) i = x.
  Proof.
    intros H. apply lookup_lget; [lia|]. unfold lset. bcase; [lia|].
    apply list_lookup_insert_eq. unfold lenZ in H. lia.
  Qed.

Lemma lget_lset_ne d l i j x : i <> j -> lget d (lset l i x) j = lget d l j.
  Proof.
    intros H. unfold lset. bcase; [done|]. unfold lget. bcase; [done|].
    destruct (decide (Z.to_nat j < length l)%nat) as [Hj|Hj].
    - apply nth_lookup_Some. rewrite list_lookup_insert_ne by lia.
      destruct (nth_lookup_or_length l (Z.to_nat j) d); [done | lia].
    - rewrite !nth_overflow; [done | lia | rewrite length_insert; lia].
  Qed.

Lemma lget_lset d l i j x : 0 <= i < lenZ l ->
    lget d (lset l i x) j = if i =? j then x else lget d l j.
  Proof.
    intros H. bcase; [subst; by apply lget_lset_eq | by apply lget_lset_ne].
  Qed.

Lemma lset_lget_id d l i : 0 <= i < lenZ l -> lset l i (lget d l i) = l.
  Proof.
    intros H. unfold lset. bcase; [lia|]. apply list_insert_id.
    by apply lget_lookup.
  Qed.

Lemma lset_lset l i x y : lset (lset l i x) i y = lset l i y.
  Proof. unfold lset. bcase; [done|]. apply list_insert_insert_eq. Qed.

Lemma lget_In d l i : 0 <= i < lenZ l -> In (lget d l i) l.
  Proof.
    intros H. apply list_elem_of_In. eapply list_elem_of_lookup_2.
    by apply (lget_lookup d).
  Qed.

Lemma lists_eq_lget d l s :
    lenZ l = lenZ s -> (forall i, 0 <= i < lenZ l -> lget d l i = lget d s i) -> l = s.
  Proof.
    intros Hlen H. apply list_eq. intros n.
    destruct (decide (n < length l)%nat) as [Hn|Hn]; unfold lenZ in *.
    - specialize (H (Z.of_nat n) ltac:(lia)).
      replace n with (Z.to_nat (Z.of_nat n)) by lia.
      rewrite !(lget_lookup d) by (unfold lenZ; lia). by rewrite H.
    - rewrite !lookup_ge_None_2 by lia. done.
  Qed.
End arrays.

(** Slices and splices. *)
Section slices.
  Context {A : Type}.
  Implicit Types (l s : list A) (d x : A) (i j off n : Z).

Lemma lenZ_lsub l off n : 0 <= off -> 0 <= n -> off + n <= lenZ l -> lenZ (lsub l off n) = n.
  Proof.
    unfold lenZ, lsub. intros. rewrite length_take, length_drop. lia.
  Qed.

Lemma lget_lsub d l off n i : 0 <= off -> 0 <= i < n ->
    lget d (lsub l off n) i = lget d l (off + i).
  Proof.
    intros Ho Hi. rewrite !lget_nth by lia. unfold lsub.
    rewrite !nth_lookup, lookup_take_lt, lookup_drop by lia.
    repeat f_equal. lia.
  Qed.

Lemma lenZ_lsplice l off s : 0 <= off -> off + lenZ s <= lenZ l -> lenZ (lsplice l off s) = lenZ l.
  Proof.
    unfold lenZ, lsplice. intros. rewrite !length_app, length_take, length_drop. lia.
  Qed.

Lemma lget_lsplice d l off s i : 0 <= off -> off + lenZ s <= lenZ l -> 0 <= i ->
    lget d (lsplice l off s) i =
    if (off <=? i) && (i <? off + lenZ s) then lget d s (i - off) else lget d l i.
  Proof.
    unfold lenZ, lsplice. intros Ho Hl Hi.
    assert (Hlt : length (take (Z.to_nat off) l) = Z.to_nat off) by (rewrite length_take; lia).
    destruct (Z.leb_spec off i), (Z.ltb_spec i (off + Z.of_nat (length s))); simpl;
      rewrite !lget_nth, !nth_lookup by lia.
    - rewrite lookup_app_r, lookup_app_l by lia. rewrite Hlt. repeat f_equal. lia.
    - rewrite lookup_app_r, lookup_app_r, lookup_drop by lia. rewrite Hlt. repeat f_equal. lia.
    - rewrite lookup_app_l, lookup_take_lt by lia. done.
    - rewrite lookup_app_l, lookup_take_lt by lia. done.
  Qed.

Lemma lsub_lsplice_eq l off s : 0 <= off -> off + lenZ s <= lenZ l ->
    lsub (lsplice l off s) off (lenZ s) = s.
  Proof.
    unfold lenZ, lsub, lsplice. intros.
    rewrite drop_app_length' by (rewrite length_take; lia).
    rewrite take_app_length' by lia. done.
  Qed.

Lemma lsub_lsplice_disj l off s off' n : 0 <= off -> off + lenZ s <= lenZ l ->
    0 <= off' -> 0 <= n -> off' + n <= lenZ l ->
    off' + n <= off \/ off + lenZ s <= off' ->
    lsub (lsplice l off s) off' n = lsub l off' n.
  Proof.
    intros Ho Hl Ho' Hn Hl' Hdis.
    destruct (decide (n = 0)) as [->|Hne]; [done|].
    destruct l as [|d0 l0]; [unfold lenZ in *; simpl in *; lia|].
    apply (lists_eq_lget d0).
    - rewrite !lenZ_lsub; rewrite ?lenZ_lsplice; lia.
    - intros i Hi. rewrite lenZ_lsub in Hi by (rewrite ?lenZ_lsplice; lia).
      rewrite !lget_lsub, lget_lsplice by lia.
      destruct (Z.leb_spec off (off' + i)), (Z.ltb_spec (off' + i) (off + lenZ s));
        simpl; done || lia.
  Qed.

Lemma lsplice_lsub_id l off n : 0 <= off -> 0 <= n -> off + n <= lenZ l ->
    lsplice l off (lsub l off n) = l.
  Proof.
    unfold lenZ, lsplice, lsub. intros.
    rewrite length_take, length_drop.
    replace (Z.to_nat n `min` (length l - Z.to_nat off))%nat with (Z.to_nat n) by lia.
    rewrite <- drop_drop, take_drop, take_drop. done.
  Qed.

Lemma lsplice_lsplice l off s1 s2 : 0 <= off -> off + lenZ s1 <= lenZ l -> lenZ s2 = lenZ s1 ->
    lsplice (lsplice l off s1) off s2 = lsplice l off s2.
  Proof.
    unfold lenZ. intros Ho Hl Hs. unfold lsplice.
    assert (Hlt : length (take (Z.to_nat off) l) = Z.to_nat off) by (rewrite length_take; lia).
    rewrite take_app_length' by lia. f_equal. f_equal.
    rewrite app_assoc, drop_app_length' by (rewrite length_app; lia). f_equal. lia.
  Qed.

Lemma lsub_full l : lsub l 0 (lenZ l) = l.
  Proof. unfold lsub, lenZ. simpl. rewrite drop_0, take_ge; [done|lia]. Qed.
End slices.

Lemma bytes_lget l i : bytes l -> is_u8 (lget 0 l i).
Proof.
  intros H. destruct (decide (0 <= i < lenZ l)) as [Hi|Hi].
  - unfold bytes in H. rewrite List.Forall_forall in H. apply H. by apply lget_In.
  - unfold lget. bcase; [dlia|]. rewrite nth_overflow; [dlia|]. unfold lenZ in Hi. lia.
Qed.

Lemma bytes_app l s : bytes (l ++ s) <-> bytes l /\ bytes s.
Proof. apply Forall_app. Qed.

Lemma bytes_lsub l off n : bytes l -> bytes (lsub l off n).
Proof. intros H. unfold lsub. by apply Forall_take, Forall_drop. Qed.

Lemma bytes_lsplice l off s : bytes l -> bytes s -> bytes (lsplice l off s).
Proof.
  intros Hl Hs. unfold lsplice, bytes. rewrite !Forall_app.
  eauto using Forall_take, Forall_drop.
Qed.

Lemma bytes_lset l i x : bytes l -> is_u8 x -> bytes (lset l i x).
Proof. intros Hl Hx. unfold lset. bcase; [done|]. by apply Forall_insert. Qed.

#[export] Hint Resolve bytes_lget bytes_lsub bytes_lsplice bytes_lset : fento.

(** ** Bounded search: the first index of [start .. start+n) that satisfies [p],
    the shape of every [for (i = a; i < b; i++) if (p(i)) return i;] loop. *)

Fixpoint find_first (p : Z -> bool) (start : Z) (n : nat) : option Z :=
  match n with
  | O => None
  | S n' => if p start then Some start else find_first p (start + 1) n'
  end.

Lemma find_first_Some p start n i : find_first p start n = Some i ->
  start <= i < start + Z.of_nat n /\ p i = true /\ (forall j, start <= j < i -> p j = false).
Proof.
  revert start. induction n as [|n IH]; intros start H; simpl in H; [done|].
  destruct (p start) eqn:E.
  - simplify_eq. repeat split; [lia|lia|done|]. intros; lia.
  - apply IH in H as (Hr & Hp & Hmin). repeat split; [lia|lia|done|].
    intros j Hj. destruct (decide (j = start)) as [->|]; [done|]. apply Hmin. lia.
Qed.

Lemma find_first_None p start n : find_first p start n = None ->
  forall j, start <= j < start + Z.of_nat n -> p j = false.
Proof.
  revert start. induction n as [|n IH]; intros start H j Hj; simpl in H; [lia|].
  destruct (p start) eqn:E; [done|].
  destruct (decide (j = start)) as [->|]; [done|]. eapply IH; [done|lia].
Qed.

Lemma find_first_exists p start n j : start <= j < start + Z.of_nat n -> p j = true ->
  exists i, find_first p start n = Some i /\ i <= j.
Proof.
  intros Hj Hp. destruct (find_first p start n) as [i|] eqn:E.
  - exists i. split; [done|]. apply find_first_Some in E as (_ & _ & Hmin).
    destruct (Z.le_gt_cases i j); [done|]. rewrite Hmin in Hp by lia. done.
  - eapply find_first_None in E; [|done]. congruence.
Qed.

Lemma find_first_ext p q start n :
  (forall j, start <= j < start + Z.of_nat n -> p j = q j) ->
  find_first p start n = find_first q start n.
Proof.
  revert start. induction n as [|n IH]; intros start H; simpl; [done|].
  rewrite H by lia. destruct (q start); [done|]. apply IH. intros; apply H; lia.
Qed.

Lemma find_first_spec p start n i :
  start <= i < start + Z.of_nat n -> p i = true -> (forall j, start <= j < i -> p j = false) ->
  find_first p start n = Some i.
Proof.
  intros Hi Hp Hmin. destruct (find_first_exists p start n i Hi Hp) as (k & Hk & Hle).
  apply find_first_Some in Hk as Hk'. destruct Hk' as (? & Hpk & _).
  destruct (decide (k = i)) as [->|]; [done|].
  rewrite Hmin in Hpk by lia. done.
Qed.

Lemma list_find_app {A} (f : A -> bool) l1 l2 :
  List.find f (l1 ++ l2) = match List.find f l1 with Some x => Some x | None => List.find f l2 end.
Proof. induction l1 as [|x l1 IH]; simpl; [done|]. by destruct (f x). Qed.

(** ** Counted loops: [for_loop f start n s] runs [f i] on the state for
    [i = start, ..., start + n - 1]. *)

Fixpoint for_loop {S} (f : Z -> S -> S) (start : Z) (n : nat) (s : S) : S :=
  match n with
  | O => s
  | Datatypes.S n' => for_loop f (start + 1) n' (f start s)
  end.

Lemma for_loop_ind {S} (P : Z -> S -> Prop) f start n s :
  P start s ->
  (forall i t, start <= i < start + Z.of_nat n -> P i t -> P (i + 1) (f i t)) ->
  P (start + Z.of_nat n) (for_loop f start n s).
Proof.
  revert start s. induction n as [|n IH]; intros start s H0 Hstep; simpl.
  - by rewrite Z.add_0_r.
  - replace (start + Z.of_nat (Datatypes.S n)) with (start + 1 + Z.of_nat n) by lia.
    apply IH; [apply Hstep; [lia|done]|]. intros i t Hi. apply Hstep. lia.
Qed.

Lemma for_loop_snoc {S} (f : Z -> S -> S) start n s :
  for_loop f start (Datatypes.S n) s = f (start + Z.of_nat n) (for_loop f start n s).
Proof.
  revert start s. induction n as [|n IH]; intros start s.
  - simpl. by rewrite Z.add_0_r.
  - change (for_loop f start (Datatypes.S (Datatypes.S n)) s)
      with (for_loop f (start + 1) (Datatypes.S n) (f start s)).
    rewrite IH. simpl. f_equal. lia.
Qed.

Lemma for_loop_ext {S} (f g : Z -> S -> S) n : (forall i t, f i t = g i t) ->
  forall start s, for_loop f start n s = for_loop g start n s.
Proof.
  intros H. induction n as [|n IH]; intros start s; simpl; [done|]. by rewrite H, IH.
Qed.

(** ** Bits *)

Lemma lor_bit_spec x b i : 0 <= b -> 0 <= i ->
  Z.testbit (Z.lor x (Z.shiftl 1 b)) i = Z.testbit x i || (i =? b).
Proof.
  intros Hb Hi. rewrite Z.lor_spec. f_equal.
  rewrite Z.shiftl_1_l, Z.pow2_bits_eqb by lia. apply Z.eqb_sym.
Qed.

Lemma testbit_ones32 i : 0 <= i -> Z.testbit 4294967295 i = (i <? 32).
Proof.
  intros. change 4294967295 with (Z.ones 32). rewrite Z.testbit_ones_nonneg by lia. done.
Qed.

Lemma not32_spec x i : 0 <= i < 32 -> Z.testbit (not32 x) i = negb (Z.testbit x i).
Proof.
  intros H. unfold not32. rewrite Z.lxor_spec, testbit_ones32 by lia.
  destruct (Z.ltb_spec i 32); [|lia]. by destruct (Z.testbit x i).
Qed.

Lemma is_u32_testbit x i : is_u32 x -> 32 <= i -> Z.testbit x i = false.
Proof.
  intros H Hi. rewrite <- (Z.mod_small x (2 ^ 32)) by (unfold is_u32 in H; lia).
  apply Z.mod_pow2_bits_high. lia.
Qed.

Lemma is_u8_testbit x i : is_u8 x -> 8 <= i -> Z.testbit x i = false.
Proof.
  intros H Hi. rewrite <- (Z.mod_small x (2 ^ 8)) by (unfold is_u8 in H; lia).
  apply Z.mod_pow2_bits_high. lia.
Qed.

Lemma bounded_of_bits x n : 0 <= n -> 0 <= x -> (forall i, n <= i -> Z.testbit x i = false) -> x < 2 ^ n.
Proof.
  intros Hn Hx H. rewrite <- (Z.mod_small x (2 ^ n)) at 1.
  - apply Z.mod_pos_bound. lia.
  - split; [done|]. destruct (decide (x = 0)) as [->|]; [lia|].
    destruct (Z.lt_ge_cases x (2 ^ n)) as [|Hge]; [done|].
    assert (n <= Z.log2 x) by (apply Z.log2_le_pow2; lia).
    specialize (H (Z.log2 x) ltac:(lia)). rewrite Z.bit_log2 in H by lia. done.
Qed.

(** Masking with the complement of [y], and rounding down to a power of two. *)
Lemma land_not32 x y : is_u32 x -> Z.land x (not32 y) = Z.ldiff x y.
Proof.
  intros Hx. apply Z.bits_inj'. intros n Hn. rewrite Z.land_spec, Z.ldiff_spec.
  destruct (Z.lt_ge_cases n 32).
  - by rewrite not32_spec.
  - by rewrite is_u32_testbit.
Qed.

Lemma mask_low k x : 0 <= k -> is_u32 x -> Z.land x (not32 (Z.ones k)) = x - x mod 2 ^ k.
Proof.
  intros Hk Hx. rewrite land_not32, Z.ldiff_ones_r by done.
  rewrite Z.shiftr_div_pow2, Z.shiftl_mul_pow2 by done.
  pose proof (Z.div_mod x (2 ^ k) ltac:(lia)). lia.
Qed.

Lemma mask_page x : is_u32 x -> Z.land x (not32 4095) = x - x mod 4096.
Proof. apply (mask_low 12). lia. Qed.

Lemma low_page x : Z.land x 4095 = x mod 4096.
Proof. apply (Z.land_ones x 12). lia. Qed.

(** Testing, setting and clearing one bit of a word. *)
Lemma land_bit_zero x b : 0 <= b ->
  (Z.land x (Z.shiftl 1 b) =? 0) = negb (Z.testbit x b).
Proof.
  intros Hb. rewrite Z.shiftl_1_l.
  destruct (Z.testbit x b) eqn:E; simpl.
  - apply Z.eqb_neq. intros H0.
    assert (Z.testbit (Z.land x (2 ^ b)) b = false) as Hc by (rewrite H0; apply Z.bits_0).
    rewrite Z.land_spec, E, Z.pow2_bits_true in Hc by lia. done.
  - apply Z.eqb_eq. apply Z.bits_inj'. intros n Hn.
    rewrite Z.land_spec, Z.bits_0, Z.pow2_bits_eqb by lia.
    destruct (Z.eqb_spec b n); [subst; by rewrite E|]. apply andb_false_r.
Qed.

(** ** Little-endian integers *)

Fixpoint le_val (l : list Z) : Z :=
  match l with
  | [] => 0
  | b :: l' => b + 256 * le_val l'
  end.

Fixpoint le_bytes (n : nat) (v : Z) : list Z :=
  match n with
  | O => []
  | S n' => v mod 256 :: le_bytes n' (v / 256)
  end.

Lemma length_le_bytes n v : length (le_bytes n v) = n.
Proof. revert v. induction n; intros; simpl; [done|]. by rewrite IHn. Qed.

Lemma bytes_le_bytes n v : bytes (le_bytes n v).
Proof.
  revert v. induction n as [|n IH]; intros v; simpl; constructor; [dlia|apply IH].
Qed.

Lemma le_val_bytes n v : 0 <= v < 256 ^ Z.of_nat n -> le_val (le_bytes n v) = v.
Proof.
  revert v. induction n as [|n IH]; intros v Hv.
  - simpl in *. lia.
  - cbn [le_bytes le_val]. rewrite Nat2Z.inj_succ, Z.pow_succ_r in Hv by lia.
    rewrite IH; [dlia|]. split; [dlia|]. apply Z.div_lt_upper_bound; lia.
Qed.

Lemma le_bytes_val l : bytes l -> le_bytes (length l) (le_val l) = l.
Proof.
  induction 1 as [|b l Hb Hl IH]; [done|]. cbn [length le_bytes le_val]. f_equal.
  - dlia.
  - replace ((b + 256 * le_val l) / 256) with (le_val l) by dlia. done.
Qed.

Lemma le_val_range l : bytes l -> 0 <= le_val l < 256 ^ lenZ l.
Proof.
  unfold lenZ. induction 1 as [|b l Hb Hl IH]; [simpl; lia|].
  cbn [length le_val]. rewrite Nat2Z.inj_succ, Z.pow_succ_r by lia.
  unfold is_u8 in Hb. nia.
Qed.

#[export] Hint Resolve bytes_le_bytes : fento.

(** Decidable versions, so that concrete states can be checked by evaluation. *)
#[global] Instance is_u8_dec x : Decision (is_u8 x).
Proof. unfold is_u8. apply _. Defined.
#[global] Instance is_u16_dec x : Decision (is_u16 x).
Proof. unfold is_u16. apply _. Defined.
#[global] Instance is_u32_dec x : Decision (is_u32 x).
Proof. unfold is_u32. apply _. Defined.
#[global] Instance bytes_dec l : Decision (bytes l).
Proof. unfold bytes. apply _. Defined.

(** The integers [start .. start + n) and checks over them. *)
Fixpoint range (start : Z) (n : nat) : list Z :=
  match n with O => [] | S n' => start :: range (start + 1) n' end.

Lemma In_range x n : forall start, In x (range start n) <-> start <= x < start + Z.of_nat n.
Proof.
  induction n as [|n IH]; intros start; cbn [range In]; [lia|]. rewrite IH. lia.
Qed.

Lemma forallb_range f start n : forallb f (range start n) = true ->
  forall x, start <= x < start + Z.of_nat n -> f x = true.
Proof. intros H x Hx. rewrite forallb_forall in H. apply H. by apply In_range. Qed.

(** Lists by their first element, in two pieces, and as the values of a function. *)
Lemma lenZ_cons {A} (b : A) l : lenZ (b :: l) = lenZ l + 1.
Proof. unfold lenZ. simpl. lia. Qed.
Lemma lget_cons (b : Z) l j : 0 <= j -> lget 0 (b :: l) (j + 1) = lget 0 l j.
Proof.
  intros Hj. unfold lget. destruct (Z.ltb_spec (j + 1) 0), (Z.ltb_spec j 0); try lia.
  by replace (Z.to_nat (j + 1)) with (S (Z.to_nat j)) by lia.
Qed.

Lemma length_range start n : length (range start n) = n.
Proof. revert start. induction n as [|n IH]; intros start; cbn; [done|]. by rewrite IH. Qed.
Lemma lget_map_range (g : Z -> Z) n j : 0 <= j < Z.of_nat n -> lget 0 (map g (range 0 n)) j = g j.
Proof.
  intros Hj. assert (forall s, lget 0 (map g (range s n)) j = g (s + j)) as H; [|by rewrite H].
  revert j Hj. induction n as [|n IH]; intros j Hj s; [lia|]. cbn [range map].
  destruct (decide (j = 0)) as [->|]; [cbn; by rewrite Z.add_0_r|].
  replace j with (j - 1 + 1) at 1 by lia. rewrite lget_cons, IH by lia. f_equal. lia.
Qed.
Lemma lenZ_app {A} (l l' : list A) : lenZ (l ++ l') = lenZ l + lenZ l'.
Proof. unfold lenZ. rewrite length_app. lia. Qed.
Lemma lget_app {A} (x : A) l l' j : 0 <= j -> lget x (l ++ l') j = if j <? lenZ l then lget x l j else lget x l' (j - lenZ l).
Proof.
  intros Hj. unfold lget, lenZ. destruct (Z.ltb_spec j 0); [lia|]. destruct (Z.ltb_spec j (Z.of_nat (length l))).
  - apply app_nth1. lia.
  - destruct (Z.ltb_spec (j - Z.of_nat (length l)) 0); [lia|]. rewrite app_nth2 by lia. f_equal. lia.
Qed.

(** ** Moving the elements of an array by one place

    [shift_down d k i l] is [k] turns of [for (;; i++) l[i] = l[i + 1]], [shift_up d k i l] is [k]
    turns of [for (;; i--) l[i] = l[i - 1]]. *)
Fixpoint shift_down {A} (d : A) (k : nat) (i : Z) (l : list A) : list A :=
  match k with O => l | S k => shift_down d k (i + 1) (lset l i (lget d l (i + 1))) end.
Fixpoint shift_up {A} (d : A) (k : nat) (i : Z) (l : list A) : list A :=
  match k with O => l | S k => shift_up d k (i - 1) (lset l i (lget d l (i - 1))) end.

Section shifts.
Context {A : Type} (d : A).
Implicit Types (a b t l : list A) (x y z : A).

Lemma lget_mid a x b : lget d (a ++ x :: b) (lenZ a) = x.
Proof. rewrite lget_nth by apply lenZ_nonneg. unfold lenZ. rewrite Nat2Z.id. by rewrite app_nth2, Nat.sub_diag by lia. Qed.
Lemma lset_mid a x y b : lset (a ++ x :: b) (lenZ a) y = a ++ y :: b.
Proof.
  unfold lset, lenZ. rewrite (proj2 (Z.ltb_ge _ 0)), Nat2Z.id by lia. rewrite insert_app_r_alt, Nat.sub_diag by lia. done.
Qed.

Lemma shift_up_spec b : forall a x t, shift_up d (length b) (lenZ a + lenZ b) (a ++ b ++ x :: t) = a ++ List.hd x b :: b ++ t.
Proof.
  induction b as [|z b IH] using rev_ind; intros a x t; [done|].
  rewrite length_app, Nat.add_comm. cbn [length Nat.add shift_up].
  assert (lenZ (b ++ [z]) = lenZ b + 1) as El by (rewrite lenZ_app; reflexivity). rewrite El.
  replace (lenZ a + (lenZ b + 1) - 1) with (lenZ (a ++ b)) by (rewrite lenZ_app; lia).
  rewrite <- (app_assoc b). cbn [app]. rewrite (app_assoc a b) at 2. rewrite lget_mid.
  replace (lenZ a + (lenZ b + 1)) with (lenZ (a ++ b ++ [z])) by (rewrite lenZ_app, El; lia).
  replace (a ++ b ++ z :: x :: t) with ((a ++ b ++ [z]) ++ x :: t) by (rewrite <- !app_assoc; done). rewrite lset_mid.
  rewrite lenZ_app, <- !app_assoc. cbn [app]. rewrite IH. by destruct b.
Qed.

Lemma last_cons b : forall z x, List.last (z :: b) x = List.last b z.
Proof.
  induction b as [|y b IH]; intros z x; [done|]. change (List.last (z :: y :: b) x) with (List.last (y :: b) x). by rewrite !IH.
Qed.

Lemma shift_down_spec b : forall a x t, shift_down d (length b) (lenZ a) (a ++ x :: b ++ t) = a ++ b ++ List.last b x :: t.
Proof.
  induction b as [|z b IH]; intros a x t; [done|]. cbn [length shift_down].
  replace (lenZ a + 1) with (lenZ (a ++ [x])) by (rewrite lenZ_app; reflexivity).
  replace (a ++ x :: (z :: b) ++ t) with ((a ++ [x]) ++ z :: b ++ t) at 2 by (rewrite <- app_assoc; done).
  rewrite lget_mid, lset_mid. replace (lenZ (a ++ [x])) with (lenZ (a ++ [z])) by (rewrite !lenZ_app; reflexivity).
  replace (a ++ z :: (z :: b) ++ t) with ((a ++ [z]) ++ z :: b ++ t) by (rewrite <- app_assoc; done).
  rewrite IH, <- app_assoc. cbn [app]. by rewrite last_cons.
Qed.
End shifts.
