(* ===== verification/CString.v ===== *)
(** * The freestanding string library (kernel/lib/string.c)

    [Mem] models the functions on byte-addressed memory, loop by loop: the counted
    loops recurse on the count and the loops that stop at a NUL take fuel.  [CStr]
    is the view the rest of the kernel uses: a character array is the list of its
    bytes, read as 0 past its end, and the lemmas at the end of the file show that
    the two views agree. *)

From stdpp Require Import base list sets numbers.
From S2P Require Import Prelude.

#[local] Open Scope Z_scope.

Module Mem.

(** Memory maps an address to the byte stored there. *)
Definition mem := Z -> Z.

Definition store (a v : Z) (m : mem) : mem := fun x => if x =? a then v else m x.

Fixpoint memset (m : mem) (dst c : Z) (n : nat) : mem :=
  match n with
  | O => m
  | S n' => memset (store dst (u8 c) m) (dst + 1) c n'
  end.

Fixpoint memcpy (m : mem) (dst src : Z) (n : nat) : mem :=
  match n with
  | O => m
  | S n' => memcpy (store dst (m src) m) (dst + 1) (src + 1) n'
  end.

(** The descending loop of [memmove]: [d] and [s] point one past the bytes. *)
Fixpoint memcpy_down (m : mem) (d s : Z) (n : nat) : mem :=
  match n with
  | O => m
  | S n' => memcpy_down (store (d - 1) (m (s - 1)) m) (d - 1) (s - 1) n'
  end.

Definition memmove (m : mem) (dst src : Z) (n : nat) : mem :=
  if dst <? src then memcpy m dst src n
  else memcpy_down m (dst + Z.of_nat n) (src + Z.of_nat n) n.

Fixpoint memcmp (m : mem) (a b : Z) (n : nat) : Z :=
  match n with
  | O => 0
  | S n' => if negb (m a =? m b) then m a - m b else memcmp m (a + 1) (b + 1) n'
  end.

Fixpoint strlen (fuel : nat) (m : mem) (s n : Z) : option Z :=
  if m (s + n) =? 0 then Some n
  else match fuel with O => None | S f => strlen f m s (n + 1) end.

Fixpoint strcmp (fuel : nat) (m : mem) (a b : Z) : option Z :=
  if negb (m a =? 0) && (m a =? m b)
  then match fuel with O => None | S f => strcmp f m (a + 1) (b + 1) end
  else Some (m a - m b).

Fixpoint strncmp (m : mem) (a b : Z) (n : nat) : Z :=
  match n with
  | O => 0
  | S n' => if negb (m a =? 0) && (m a =? m b) then strncmp m (a + 1) (b + 1) n' else m a - m b
  end.

Fixpoint strcpy (fuel : nat) (m : mem) (dst src : Z) : option mem :=
  let m' := store dst (m src) m in
  if m src =? 0 then Some m'
  else match fuel with O => None | S f => strcpy f m' (dst + 1) (src + 1) end.

Fixpoint strncpy (m : mem) (dst src : Z) (n : nat) : mem :=
  match n with
  | O => m
  | S n' =>
      let m' := store dst (m src) m in
      if m src =? 0 then memset m' dst 0 n else strncpy m' (dst + 1) (src + 1) n'
  end.

(** The address found, or 0. *)
Fixpoint strchr (fuel : nat) (m : mem) (s c : Z) : option Z :=
  if m s =? 0 then Some (if u8 c =? 0 then s else 0)
  else if m s =? u8 c then Some s
  else match fuel with O => None | S f => strchr f m (s + 1) c end.

Fixpoint strrchr (fuel : nat) (m : mem) (s c last : Z) : option Z :=
  if m s =? 0 then Some (if u8 c =? 0 then s else last)
  else match fuel with
       | O => None
       | S f => strrchr f m (s + 1) c (if m s =? u8 c then s else last)
       end.

(** [holds m a l]: the bytes from address [a] on are [l]. *)
Definition holds (m : mem) (a : Z) (l : list Z) : Prop :=
  forall i, 0 <= i < lenZ l -> m (a + i) = lget 0 l i.

Lemma store_eq a v m : store a v m a = v.
Proof. unfold store. by rewrite Z.eqb_refl. Qed.

Lemma store_ne a v m x : x <> a -> store a v m x = m x.
Proof. intros Hne. unfold store. bcase; congruence. Qed.

Lemma memset_spec n : forall m dst c x,
  memset m dst c n x = if (dst <=? x) && (x <? dst + Z.of_nat n) then u8 c else m x.
Proof.
  induction n as [|n IH]; intros m dst c x; cbn [memset].
  - destruct (Z.leb_spec dst x), (Z.ltb_spec x (dst + Z.of_nat 0)); simpl; done || lia.
  - rewrite IH. unfold store.
    destruct (Z.leb_spec dst x), (Z.ltb_spec x (dst + Z.of_nat (S n))),
      (Z.leb_spec (dst + 1) x), (Z.ltb_spec x (dst + 1 + Z.of_nat n)), (Z.eqb_spec x dst);
      simpl; done || lia.
Qed.

(** Ascending copy: right unless the destination starts inside the source. *)
Lemma memcpy_spec n : forall m dst src x,
  (dst <= src \/ src + Z.of_nat n <= dst) ->
  memcpy m dst src n x = if (dst <=? x) && (x <? dst + Z.of_nat n) then m (src + (x - dst)) else m x.
Proof.
  induction n as [|n IH]; intros m dst src x Hov; cbn [memcpy].
  - destruct (Z.leb_spec dst x), (Z.ltb_spec x (dst + Z.of_nat 0)); simpl; done || lia.
  - rewrite IH by lia.
    destruct (Z.leb_spec (dst + 1) x), (Z.ltb_spec x (dst + 1 + Z.of_nat n)); simpl;
      destruct (Z.leb_spec dst x), (Z.ltb_spec x (dst + Z.of_nat (S n))); simpl; try lia.
    all: try (apply store_ne; lia).
    + rewrite store_ne by lia. f_equal. lia.
    + assert (x = dst) as -> by lia. rewrite store_eq. f_equal. lia.
Qed.

(** Descending copy: right unless the source starts inside the destination. *)
Lemma memcpy_down_spec n : forall m d s x,
  (s <= d \/ d <= s - Z.of_nat n) ->
  memcpy_down m d s n x = if (d - Z.of_nat n <=? x) && (x <? d) then m (s + (x - d)) else m x.
Proof.
  induction n as [|n IH]; intros m d s x Hov; cbn [memcpy_down].
  - destruct (Z.leb_spec (d - Z.of_nat 0) x), (Z.ltb_spec x d); simpl; done || lia.
  - rewrite IH by lia.
    destruct (Z.leb_spec (d - 1 - Z.of_nat n) x), (Z.ltb_spec x (d - 1)); simpl;
      destruct (Z.leb_spec (d - Z.of_nat (S n)) x), (Z.ltb_spec x d); simpl; try lia.
    all: try (apply store_ne; lia).
    + rewrite store_ne by lia. f_equal. lia.
    + assert (x = d - 1) as -> by lia. rewrite store_eq. f_equal. lia.
Qed.

(** [memmove] copies the [n] bytes of the source as they were before the call,
    for any overlap of the two regions, and changes nothing else. *)
Theorem memmove_correct m dst src n x :
  memmove m dst src n x =
    if (dst <=? x) && (x <? dst + Z.of_nat n) then m (src + (x - dst)) else m x.
Proof.
  unfold memmove. destruct (Z.ltb_spec dst src).
  - apply memcpy_spec. lia.
  - rewrite memcpy_down_spec by lia.
    replace (dst + Z.of_nat n - Z.of_nat n) with dst by lia.
    replace (src + Z.of_nat n + (x - (dst + Z.of_nat n))) with (src + (x - dst)) by lia. done.
Qed.

Lemma memcmp_zero n : forall m a b,
  memcmp m a b n = 0 <-> forall i, 0 <= i < Z.of_nat n -> m (a + i) = m (b + i).
Proof.
  induction n as [|n IH]; intros m a b; cbn [memcmp]; [split; [lia|done]|].
  destruct (Z.eqb_spec (m a) (m b)) as [He|He]; cbn [negb].
  - rewrite IH. split; intros Hall i Hi.
    + destruct (decide (i = 0)) as [->|]; [by rewrite !Z.add_0_r|].
      specialize (Hall (i - 1) ltac:(lia)).
      by replace (a + 1 + (i - 1)) with (a + i) in Hall by lia;
         replace (b + 1 + (i - 1)) with (b + i) in Hall by lia.
    + specialize (Hall (i + 1) ltac:(lia)). by rewrite <- !Z.add_assoc, (Z.add_comm 1 i).
  - split; [lia|]. intros Hall. specialize (Hall 0 ltac:(lia)). rewrite !Z.add_0_r in Hall. done.
Qed.

End Mem.

Module CStr.

(** Character arrays as lists; [cstring s] is the string an array holds. *)
Fixpoint cstring (a : list Z) : list Z :=
  match a with
  | [] => []
  | c :: a' => if c =? 0 then [] else c :: cstring a'
  end.

Fixpoint cstrncmp (n : nat) (a b : list Z) : Z :=
  match n with
  | O => 0
  | S n' =>
      let x := List.hd 0 a in let y := List.hd 0 b in
      if negb (x =? 0) && (x =? y) then cstrncmp n' (List.tl a) (List.tl b) else x - y
  end.

(** [strcmp] stops at the end of either string, so the length of [a] bounds it. *)
Definition cstrcmp (a b : list Z) : Z := cstrncmp (S (length a)) a b.

(** The [n] bytes that [strncpy] stores. *)
Definition cstrncpy (src : list Z) (n : nat) : list Z :=
  let s := take n (cstring src) in s ++ replicate (n - length s) 0.

Definition is_cstring (s : list Z) : Prop := 0 ∉ s.

Lemma cstring_id s : is_cstring s -> cstring s = s.
Proof.
  induction s as [|c s IH]; intros Hs; [done|]. simpl.
  destruct (Z.eqb_spec c 0) as [->|]; [destruct Hs; by left|].
  rewrite IH; [done|]. intros Hin. apply Hs. by right.
Qed.

Lemma cstring_app_nul s r : is_cstring s -> cstring (s ++ 0 :: r) = s.
Proof.
  induction s as [|c s IH]; intros Hs; [done|]. simpl.
  destruct (Z.eqb_spec c 0) as [->|]; [destruct Hs; by left|].
  rewrite IH; [done|]. intros Hin. apply Hs. by right.
Qed.

Lemma cstring_is s : is_cstring (cstring s).
Proof.
  unfold is_cstring. induction s as [|c s IH]; simpl; [set_solver|].
  destruct (Z.eqb_spec c 0); [set_solver|]. rewrite not_elem_of_cons. done.
Qed.

Lemma cstring_replicate n : cstring (replicate n 0) = [].
Proof. by destruct n. Qed.

Lemma length_strncpy src n : length (cstrncpy src n) = n.
Proof. unfold cstrncpy. rewrite length_app, length_replicate, length_take. lia. Qed.

Lemma cstring_strncpy src n : cstring (cstrncpy src n) = take n (cstring src).
Proof.
  unfold cstrncpy. set (s := take n (cstring src)).
  assert (is_cstring s) as Hs.
  { unfold is_cstring. intros Hin. apply (cstring_is src). by apply (subseteq_take n). }
  destruct (n - length s)%nat as [|k]; simpl.
  - rewrite app_nil_r. by apply cstring_id.
  - by apply cstring_app_nul.
Qed.

Lemma strncmp_zero n : forall a b,
  cstrncmp n a b = 0 <-> take n (cstring a) = take n (cstring b).
Proof.
  induction n as [|n IH]; intros a b; cbn [cstrncmp]; [by rewrite !take_0|].
  destruct a as [|x a], b as [|y b]; cbn [List.hd List.tl cstring].
  - by rewrite Z.eqb_refl.
  - rewrite Z.eqb_refl. cbn [negb andb]. destruct (Z.eqb_spec y 0); split; intros; done || lia.
  - destruct (Z.eqb_spec x 0) as [->|Hx]; cbn [negb andb]; [done|].
    split; [|done]. lia.
  - destruct (Z.eqb_spec x 0) as [->|Hx]; cbn [negb andb].
    + destruct (Z.eqb_spec y 0) as [->|Hy]; [done|]. split; [lia|done].
    + destruct (Z.eqb_spec x y) as [<-|Hxy].
      * destruct (Z.eqb_spec x 0); [done|]. cbn [take]. rewrite IH. split; congruence.
      * split; [lia|]. destruct (Z.eqb_spec y 0); [done|]. cbn [take]. congruence.
Qed.

Lemma strcmp_zero a b : cstrcmp a b = 0 <-> cstring a = cstring b.
Proof.
  unfold cstrcmp. rewrite strncmp_zero.
  assert (length (cstring a) <= length a)%nat as Ha.
  { clear. induction a as [|c a IH]; simpl; [lia|]. destruct (c =? 0); simpl; lia. }
  split.
  - intros Heq. rewrite (take_ge (cstring a)) in Heq by lia. rewrite Heq.
    apply (f_equal length) in Heq. rewrite length_take in Heq. apply take_ge. lia.
  - by intros ->.
Qed.
End CStr.

Module MemStr.
Import Mem.

(** Address [a] holds the string [s] and its terminator. *)
Definition holds_string (m : mem) (a : Z) (s : list Z) : Prop :=
  CStr.is_cstring s /\ holds m a (s ++ [0]).

Lemma holds_string_nil m a : holds_string m a [] -> m a = 0.
Proof. intros [_ H]. specialize (H 0 ltac:(done)). by rewrite Z.add_0_r in H. Qed.

Lemma holds_string_cons m a c s : holds_string m a (c :: s) ->
  m a = c /\ c <> 0 /\ holds_string m (a + 1) s.
Proof.
  intros [Hc H]. unfold CStr.is_cstring in *. apply not_elem_of_cons in Hc as [Hc Hs].
  split_and!; [|congruence|].
  - specialize (H 0). rewrite Z.add_0_r in H. apply H. unfold lenZ. simpl. lia.
  - split; [done|]. intros i Hi. specialize (H (i + 1)).
    change ((c :: s) ++ [0]) with (c :: (s ++ [0])) in H. unfold lenZ in *. rewrite length_cons in H.
    replace (a + 1 + i) with (a + (i + 1)) by lia. rewrite H by lia.
    rewrite !lget_nth by lia. by replace (Z.to_nat (i + 1)) with (S (Z.to_nat i)) by lia.
Qed.

(** [strlen] terminates on every NUL-terminated string and returns its length. *)
Theorem strlen_correct m a s : holds_string m a s -> strlen (length s) m a 0 = Some (lenZ s).
Proof.
  intros H. assert (forall fuel k, length s = fuel -> holds_string m (a + k) s ->
    strlen fuel m a k = Some (k + lenZ s)) as Hgen.
  { clear H. intros fuel. revert s. induction fuel as [|f IH]; intros s k Hl H.
    - destruct s; [|done]. apply holds_string_nil in H. cbn [strlen]. rewrite H, Z.eqb_refl.
      f_equal. unfold lenZ. simpl. lia.
    - destruct s as [|c s]; [done|]. apply holds_string_cons in H as (Hc & Hne & Ht).
      cbn [strlen]. rewrite Hc. destruct (Z.eqb_spec c 0); [done|].
      rewrite (IH s (k + 1)); [|simpl in Hl; lia|by rewrite Z.add_assoc].
      f_equal. unfold lenZ. simpl. lia. }
  rewrite (Hgen (length s) 0); [f_equal; lia|done|by rewrite Z.add_0_r].
Qed.

Lemma strncmp_agree n : forall m a b s t, holds_string m a s -> holds_string m b t ->
  strncmp m a b n = CStr.cstrncmp n s t.
Proof.
  induction n as [|n IH]; intros m a b s t Hs Ht; cbn [strncmp CStr.cstrncmp]; [done|].
  destruct s as [|x s].
  - rewrite (holds_string_nil _ _ Hs), Z.eqb_refl. cbn [negb andb List.hd].
    destruct t as [|y t]; [by rewrite (holds_string_nil _ _ Ht)|].
    by apply holds_string_cons in Ht as (-> & _).
  - apply holds_string_cons in Hs as (-> & Hx & Hs). cbn [List.hd List.tl].
    destruct t as [|y t].
    + rewrite (holds_string_nil _ _ Ht). cbn [List.hd].
      destruct (Z.eqb_spec x 0); [done|]. cbn. by destruct (Z.eqb_spec x 0).
    + apply holds_string_cons in Ht as (-> & _ & Ht). cbn [List.hd List.tl].
      destruct (negb (x =? 0) && (x =? y)); [by apply IH|done].
Qed.

Lemma strcmp_agree m : forall s t a b, holds_string m a s -> holds_string m b t ->
  strcmp (length s) m a b = Some (CStr.cstrcmp s t).
Proof.
  unfold CStr.cstrcmp. induction s as [|x s IH]; intros t a b Hs Ht; cbn [strcmp length CStr.cstrncmp].
  - rewrite (holds_string_nil _ _ Hs), Z.eqb_refl. cbn [negb andb List.hd].
    destruct t as [|y t]; [by rewrite (holds_string_nil _ _ Ht)|].
    by apply holds_string_cons in Ht as (-> & _).
  - apply holds_string_cons in Hs as (-> & Hx & Hs). cbn [List.hd List.tl].
    destruct t as [|y t].
    + rewrite (holds_string_nil _ _ Ht). cbn [List.hd].
      destruct (Z.eqb_spec x 0); [done|]. cbn. by destruct (Z.eqb_spec x 0).
    + apply holds_string_cons in Ht as (-> & _ & Ht). cbn [List.hd List.tl].
      destruct (negb (x =? 0) && (x =? y)); [by apply IH|done].
Qed.

(** [strcmp] terminates and [strncmp] and [strcmp] return 0 exactly when the strings
    agree: entirely for [strcmp], on their first [n] characters for [strncmp]. *)
Theorem string_compare_correct m a b s t n : holds_string m a s -> holds_string m b t ->
  (strncmp m a b n = 0 <-> take n s = take n t) /\
  exists r, strcmp (length s) m a b = Some r /\ (r = 0 <-> s = t).
Proof.
  intros Hs Ht. pose proof Hs as [Cs _]. pose proof Ht as [Ct _].
  rewrite (strncmp_agree n m a b s t), CStr.strncmp_zero, !CStr.cstring_id by done.
  split; [done|]. eexists. split; [by apply strcmp_agree|].
  rewrite CStr.strcmp_zero, !CStr.cstring_id by done. done.
Qed.

Lemma holds_store_before m a l x v : holds m a l -> x < a \/ a + lenZ l <= x -> holds (store x v m) a l.
Proof. intros H Hx i Hi. rewrite store_ne by lia. by apply H. Qed.

Lemma holds_string_store m a s x v : holds_string m a s -> x < a \/ a + lenZ s < x ->
  holds_string (store x v m) a s.
Proof.
  intros [Hc H] Hx. split; [done|]. apply holds_store_before; [done|].
  unfold lenZ in *. rewrite length_app. simpl. lia.
Qed.

(** [strncpy] stores exactly [n] bytes: the first [n] characters of the source,
    padded with NULs when it is shorter (so without a terminator when it is not), and
    changes nothing else, when the destination does not overlap the source. *)
Theorem strncpy_correct n : forall m dst src s x, holds_string m src s ->
  dst + Z.of_nat n <= src \/ src + lenZ s < dst ->
  strncpy m dst src n x =
    if (dst <=? x) && (x <? dst + Z.of_nat n) then lget 0 (CStr.cstrncpy s n) (x - dst) else m x.
Proof.
  induction n as [|n IH]; intros m dst src s x Hs Hov; cbn [strncpy].
  - destruct (Z.leb_spec dst x), (Z.ltb_spec x (dst + Z.of_nat 0)); cbn [andb]; done || lia.
  - unfold CStr.cstrncpy. rewrite CStr.cstring_id by apply Hs. destruct s as [|c s].
    + rewrite (holds_string_nil _ _ Hs), Z.eqb_refl, memset_spec.
      rewrite take_nil. cbn [app length].
      replace (S n - 0)%nat with (S n) by lia.
      destruct (Z.leb_spec dst x), (Z.ltb_spec x (dst + Z.of_nat (S n))); cbn [andb].
      2,3,4: apply store_ne; lia.
      rewrite lget_nth, nth_lookup, lookup_replicate_2 by lia. done.
    + pose proof (holds_string_cons _ _ _ _ Hs) as (Hc & Hne & Ht). rewrite Hc.
      destruct (Z.eqb_spec c 0); [done|]. unfold lenZ in Hov. cbn [length] in Hov.
      rewrite (IH _ _ _ s) by (try (apply holds_string_store; [done|]); unfold lenZ; lia).
      unfold CStr.cstrncpy. rewrite CStr.cstring_id by apply Ht. cbn [take length app].
      replace (S n - S (length (take n s)))%nat with (n - length (take n s))%nat by lia.
      destruct (Z.leb_spec (dst + 1) x), (Z.ltb_spec x (dst + 1 + Z.of_nat n)); cbn [andb];
        destruct (Z.leb_spec dst x), (Z.ltb_spec x (dst + Z.of_nat (S n))); cbn [andb]; try lia;
        try (apply store_ne; lia).
      * rewrite !lget_nth by lia. by replace (Z.to_nat (x - dst)) with (S (Z.to_nat (x - (dst + 1)))) by lia.
      * assert (x = dst) as -> by lia. rewrite store_eq, Z.sub_diag. done.
Qed.

(** A memory with the string "ab" at address 100. *)
Definition mem_ab : mem := store 100 97 (store 101 98 (store 102 0 (fun _ => 7))).

Lemma mem_ab_holds : holds_string mem_ab 100 [97; 98].
Proof.
  split.
  - unfold CStr.is_cstring. by apply (bool_decide_eq_true_1 (0 ∉ [97; 98])).
  - intros i Hi. change (lenZ ([97; 98] ++ [0])) with 3 in Hi.
    assert (i = 0 \/ i = 1 \/ i = 2) as [->|[->| ->]] by lia; reflexivity.
Qed.

Lemma strlen_correct_witness : strlen 2 mem_ab 100 0 = Some 2.
Proof. apply (strlen_correct mem_ab 100 [97; 98]). apply mem_ab_holds. Defined.

Lemma string_compare_correct_witness :
  (strncmp mem_ab 100 100 1 = 0 <-> take 1 [97; 98] = take 1 [97; 98]) /\
  exists r, strcmp 2 mem_ab 100 100 = Some r /\ (r = 0 <-> [97; 98] = [97; 98]).
Proof.
  apply (string_compare_correct mem_ab 100 100 [97; 98] [97; 98] 1); apply mem_ab_holds.
Defined.

Lemma strncpy_correct_witness :
  strncpy mem_ab 200 100 5 203 =
    if (200 <=? 203) && (203 <? 200 + Z.of_nat 5)
    then lget 0 (CStr.cstrncpy [97; 98] 5) (203 - 200) else mem_ab 203.
Proof.
  apply (strncpy_correct 5 mem_ab 200 100 [97; 98] 203); [apply mem_ab_holds|right; reflexivity].
Defined.
End MemStr.
