(* ===== verification/ULib.v ===== *)
(** * The C library of programs (user/lib/string.c and user/lib/stdio.c)

    Strings are lists of non-zero bytes.  Formatted output is the sequence of [write] calls
    it makes, input the bytes the calls of [read] deliver.  Numbers that are printed are
    read back by [atoi], for all 32-bit integers, and fit the buffers they are built in. *)

From stdpp Require Import base list numbers.
From S2P Require Import Prelude CString.

#[local] Open Scope Z_scope.

Module ULib.

(** ** Characters (user/lib/string.c) *)

Definition isalpha (c : Z) : bool := ((97 <=? c) && (c <=? 122)) || ((65 <=? c) && (c <=? 90)).
Definition isdigit (c : Z) : bool := (48 <=? c) && (c <=? 57).
Definition isalnum (c : Z) : bool := isalpha c || isdigit c.
Definition isspace (c : Z) : bool :=
  (c =? 32) || (c =? 9) || (c =? 10) || (c =? 13) || (c =? 12) || (c =? 11).
Definition toupper (c : Z) : Z := if (97 <=? c) && (c <=? 122) then c - 32 else c.
Definition tolower (c : Z) : Z := if (65 <=? c) && (c <=? 90) then c + 32 else c.

(** ** Reading numbers *)

Fixpoint skip_blanks (s : list Z) : list Z :=
  match s with
  | c :: s' => if (c =? 32) || (c =? 9) then skip_blanks s' else s
  | [] => []
  end.

Fixpoint digits_from (v : Z) (s : list Z) : Z :=
  match s with
  | c :: s' => if isdigit c then digits_from (i32 (i32 (v * 10) + (c - 48))) s' else v
  | [] => v
  end.

Definition atoi (s : list Z) : Z :=
  let s := skip_blanks s in
  let '(sign, s) :=
    match s with
    | c :: s' => if c =? 45 then (-1, s') else if c =? 43 then (1, s') else (1, s)
    | [] => (1, s)
    end in
  i32 (digits_from 0 s * sign).

(** ** Printing numbers (user/lib/stdio.c) *)

Definition digit (upper : bool) (d : Z) : Z := if d <? 10 then 48 + d else (if upper then 65 else 97) + (d - 10).

(** The loop that fills [tmp], least significant digit first; 32 digits are enough for any
    base from 2 on. *)
Fixpoint tmp_digits (fuel : nat) (v base : Z) (upper : bool) : list Z :=
  match fuel with
  | O => []
  | S f => if v =? 0 then [] else digit upper (v mod base) :: tmp_digits f (v / base) base upper
  end.

Definition itoa_u (v base : Z) (upper : bool) : list Z :=
  let tmp := if v =? 0 then [48] else tmp_digits 32 v base upper in
  rev tmp.

Definition itoa_s (v : Z) : list Z :=
  if v <? 0 then 45 :: itoa_u (u32 (- v)) 10 false else itoa_u (u32 v) 10 false.

(** ** Formatted output: the data of the [write] calls, in order *)

Inductive arg := AInt (v : Z) | AStr (s : option (list Z)).
Definition int_arg (a : list arg) : Z := match a with AInt v :: _ => v | _ => 0 end.
Definition str_arg (a : list arg) : list Z :=
  match a with AStr (Some s) :: _ => s | _ => [40; 110; 117; 108; 108; 41] end.

Fixpoint vformat (fmt : list Z) (ap : list arg) : list (list Z) :=
  match fmt with
  | [] => []
  | c :: p =>
      if negb (c =? 37) then [c] :: vformat p ap
      else
        match p with
        | [] => []
        | k :: p' =>
            if (k =? 100) || (k =? 105) then itoa_s (i32 (int_arg ap)) :: vformat p' (tail ap)
            else if k =? 117 then itoa_u (u32 (int_arg ap)) 10 false :: vformat p' (tail ap)
            else if k =? 120 then itoa_u (u32 (int_arg ap)) 16 false :: vformat p' (tail ap)
            else if k =? 88 then itoa_u (u32 (int_arg ap)) 16 true :: vformat p' (tail ap)
            else if k =? 99 then [u8 (int_arg ap)] :: vformat p' (tail ap)
            else if k =? 115 then str_arg ap :: vformat p' (tail ap)
            else if k =? 37 then [37] :: vformat p' ap
            else [37] :: [k] :: vformat p' ap
        end
  end.

Definition printf (fmt : list Z) (ap : list arg) : list Z := concat (vformat fmt ap).

(** ** Reading a line: the bytes [read] delivers one at a time, until it fails *)

Fixpoint getline_from (input buf : list Z) (n max : Z) : list Z * list Z :=
  if n <? max - 1 then
    match input with
    | [] => (buf, [])
    | c :: rest =>
        if c =? 10 then (buf, rest)
        else if (c =? 8) || (c =? 127) then
          if 0 <? n then getline_from rest (removelast buf) (n - 1) max else getline_from rest buf n max
        else getline_from rest (buf ++ [c]) (n + 1) max
    end
  else (buf, input).

(** The line without its terminator, and the input that is left. *)
Definition getline (max : Z) (input : list Z) : list Z * list Z := getline_from input [] 0 max.

(** ** Numbers are read back *)

Lemma digit_range d upper : 0 <= d < 10 -> isdigit (digit upper d) = true /\ digit upper d - 48 = d.
Proof.
  intros Hd. unfold digit, isdigit. destruct (Z.ltb_spec d 10); [|lia]. rewrite andb_true_iff, Z.leb_le, Z.leb_le. lia.
Qed.

Definition value (l : list Z) : Z := fold_left (fun v c => v * 10 + (c - 48)) l 0.

Lemma tmp_digits_spec fuel : forall v, 0 <= v < 10 ^ Z.of_nat fuel ->
  Forall (fun c => isdigit c = true) (tmp_digits fuel v 10 false) /\
  fold_right (fun c v => v * 10 + (c - 48)) 0 (tmp_digits fuel v 10 false) = v.
Proof.
  induction fuel as [|f IH]; intros v Hv; cbn [tmp_digits].
  - change (10 ^ Z.of_nat 0) with 1 in Hv. split; [constructor|cbn; lia].
  - destruct (Z.eqb_spec v 0) as [->|Hne]; [split; [constructor|done]|].
    rewrite Nat2Z.inj_succ, Z.pow_succ_r in Hv by lia.
    destruct (IH (v / 10)) as [H1 H2]; [split; [dlia|]; apply Z.div_lt_upper_bound; lia|].
    destruct (digit_range (v mod 10) false) as [D1 D2]; [dlia|]. cbn [fold_right]. split; [by constructor|].
    rewrite H2, D2. dlia.
Qed.

Lemma length_tmp_digits base upper fuel : 2 <= base -> forall v k, 0 <= v < base ^ Z.of_nat k -> (k <= fuel)%nat ->
  (length (tmp_digits fuel v base upper) <= k)%nat.
Proof.
  intros Hb. induction fuel as [|f IH]; intros v k Hv Hk; cbn [tmp_digits]; [cbn; lia|].
  destruct (Z.eqb_spec v 0); [cbn; lia|]. destruct k as [|k]; [change (base ^ Z.of_nat 0) with 1 in Hv; lia|].
  cbn [length]. rewrite Nat2Z.inj_succ, Z.pow_succ_r in Hv by lia.
  assert (0 <= v / base < base ^ Z.of_nat k) as Hd by (split; [apply Z.div_pos; lia|apply Z.div_lt_upper_bound; lia]).
  pose proof (IH (v / base) k Hd ltac:(lia)). lia.
Qed.

(** The digits of a number, most significant first. *)
Lemma itoa_u_value v : is_u32 v -> Forall (fun c => isdigit c = true) (itoa_u v 10 false) /\ value (itoa_u v 10 false) = v /\
  itoa_u v 10 false <> [] /\ lenZ (itoa_u v 10 false) <= 10.
Proof.
  intros Hv. unfold itoa_u. destruct (Z.eqb_spec v 0) as [->|Hne]; [split_and!; [repeat constructor|done|done|done]|].
  destruct (tmp_digits_spec 32 v) as [H1 H2]; [unfold is_u32 in Hv; lia|].
  pose proof (length_tmp_digits 10 false 32 ltac:(lia) v 10 ltac:(unfold is_u32 in Hv; lia) ltac:(lia)) as H3.
  set (l := tmp_digits _ _ _ _) in *. clearbody l.
  split_and!; [by apply Forall_rev| | |unfold lenZ; rewrite length_rev; lia].
  - unfold value. by rewrite <- fold_left_rev_right, rev_involutive.
  - intros E. apply (f_equal (@rev Z)) in E. rewrite rev_involutive in E. subst l. cbn in H2. lia.
Qed.

Lemma i32_i32 x y : u32 x = u32 y -> i32 x = i32 y.
Proof. unfold i32. by intros ->. Qed.
Lemma u32_i32 x : u32 (i32 x) = u32 x.
Proof. unfold i32. cbv zeta. bcase; dlia. Qed.
Lemma u32_of_i32 x y : i32 x = i32 y -> u32 x = u32 y.
Proof. intros H. by rewrite <- (u32_i32 x), H, u32_i32. Qed.

(** Reading digits computes their value modulo 2^32. *)
Lemma digits_from_value l rest : Forall (fun c => isdigit c = true) l ->
  (match rest with c :: _ => isdigit c = false | [] => True end) ->
  forall v w, i32 v = i32 w -> i32 (digits_from v (l ++ rest)) = i32 (fold_left (fun v c => v * 10 + (c - 48)) l w).
Proof.
  intros Hl Hr. induction Hl as [|c l Hc Hl IH]; intros v w E; cbn [app fold_left].
  - destruct rest as [|c r]; cbn [digits_from]; [done|]. by rewrite Hr.
  - cbn [digits_from]. rewrite Hc. apply IH. apply i32_i32. apply u32_of_i32 in E. rewrite u32_i32. unfold u32 in *.
    rewrite Zplus_mod. fold (u32 (i32 (v * 10))). rewrite u32_i32. unfold u32. by rewrite Zmult_mod, E, <- Zmult_mod, <- Zplus_mod.
Qed.

Lemma digit_not_blank c : isdigit c = true -> (c =? 32) || (c =? 9) = false /\ (c =? 45) = false /\ (c =? 43) = false.
Proof. unfold isdigit. rewrite andb_true_iff, Z.leb_le, Z.leb_le. intros. rewrite orb_false_iff, !Z.eqb_neq. lia. Qed.

Lemma itoa_value_fold l v : value l = v -> fold_left (fun v c => v * 10 + (c - 48)) l 0 = v.
Proof. done. Qed.

(** [atoi] of a printed number. *)
Lemma atoi_itoa_spec v blanks rest : -2147483648 <= v < 2147483648 -> Forall (fun c => c = 32 \/ c = 9) blanks ->
  (match rest with c :: _ => isdigit c = false | [] => True end) -> atoi (blanks ++ itoa_s v ++ rest) = v.
Proof.
  intros Hv Hb Hr.
  assert (forall s, skip_blanks (blanks ++ s) = skip_blanks s) as Hskip.
  { intros s. induction Hb as [|c l [-> | ->] _ IH]; cbn; done. }
  unfold atoi. rewrite Hskip. unfold itoa_s. destruct (Z.ltb_spec v 0).
  - destruct (itoa_u_value (u32 (- v)) (u32_range _)) as (H1 & H2 & _). cbn [app skip_blanks]. cbv match.
    replace ((45 =? 32) || (45 =? 9)) with false by done. cbv iota. replace (45 =? 45) with true by done. cbv iota.
    pose proof (digits_from_value _ rest H1 Hr 0 0 eq_refl) as Hd. rewrite (itoa_value_fold _ _ H2) in Hd.
    set (x := digits_from 0 _) in *. clearbody x. revert Hd. unfold i32, u32 in *. repeat case_match; intros; dlia.
  - destruct (itoa_u_value (u32 v) (u32_range _)) as (H1 & H2 & H3 & _).
    pose proof (digits_from_value _ rest H1 Hr 0 0 eq_refl) as Hd. rewrite (itoa_value_fold _ _ H2) in Hd.
    destruct (itoa_u (u32 v) 10 false) as [|c l]; [done|]. inversion H1 as [|? ? Hc _]; subst.
    destruct (digit_not_blank c Hc) as (B1 & B2 & B3). cbn [app skip_blanks]. rewrite B1. cbv iota. rewrite B2, B3.
    cbn [app] in Hd. rewrite Z.mul_1_r, Hd. rewrite u32_small by dlia. by apply i32_small.
Qed.

(** C36: Numbers survive printing and reading, for all 32-bit integers: [atoi] of what [itoa_s]
    (and so [printf] with %d) prints gives the number back, with blanks before it and
    anything but a digit after it.  The digits fit the buffers: at most 11 characters for
    [nb], and for every 32-bit value at most 10 decimal digits for [tmp], both of 16 bytes. *)
Theorem atoi_itoa v blanks rest : -2147483648 <= v < 2147483648 -> Forall (fun c => c = 32 \/ c = 9) blanks ->
  (match rest with c :: _ => isdigit c = false | [] => True end) ->
  atoi (blanks ++ itoa_s v ++ rest) = v /\ printf [37; 100] [AInt v] = itoa_s v /\
  lenZ (itoa_s v) <= 11 /\ (forall x, is_u32 x -> lenZ (itoa_u x 10 false) <= 10).
Proof.
  intros Hv Hb Hr. split_and!; [by apply atoi_itoa_spec| | |intros x Hx; by apply itoa_u_value].
  - unfold printf. cbn. rewrite app_nil_r. by rewrite i32_small.
  - unfold itoa_s. destruct (v <? 0); [|pose proof (itoa_u_value (u32 v) (u32_range _)); lia].
    pose proof (itoa_u_value (u32 (- v)) (u32_range _)). rewrite lenZ_cons. lia.
Qed.

Lemma atoi_itoa_witness : atoi ([32; 9] ++ itoa_s (-2147483648) ++ [10]) = -2147483648.
Proof. apply (atoi_itoa (-2147483648) [32; 9] [10]); [lia|repeat constructor; lia|reflexivity]. Defined.

(** ** Lines *)

(** The text a line holds after editing: a backspace removes the last character. *)
Definition edit (buf : list Z) (c : Z) : list Z := if (c =? 8) || (c =? 127) then removelast buf else buf ++ [c].

Lemma lenZ_removelast (l : list Z) : l <> [] -> lenZ (removelast l) = lenZ l - 1.
Proof.
  intros H. destruct (@exists_last Z l H) as (l' & x & ->). rewrite removelast_last. rewrite lenZ_app. change (lenZ [x]) with 1. lia.
Qed.

Lemma getline_from_spec max input : forall buf, lenZ buf < max ->
  let '(l, rest) := getline_from input buf (lenZ buf) max in
  lenZ l < max /\
  (forall line rest', input = line ++ 10 :: rest' -> (10 ∉ line) ->
     (forall k, lenZ (fold_left edit (take k line) buf) < max - 1) ->
     l = fold_left edit line buf /\ rest = rest').
Proof.
  induction input as [|c input IH]; intros buf Hb; cbn [getline_from].
  - destruct (_ <? _); (split; [done|]); intros [|? ?] ? H; done.
  - destruct (Z.ltb_spec (lenZ buf) (max - 1)) as [Hlt|Hge].
    2:{ split; [done|]. intros line rest' _ _ Hk. specialize (Hk O). cbn [take fold_left] in Hk. rewrite take_0 in Hk. cbn [fold_left] in Hk. lia. }
    assert (forall line rest', c :: input = line ++ 10 :: rest' -> c <> 10 -> exists line', line = c :: line' /\ input = line' ++ 10 :: rest') as Hsp.
    { intros [|x line'] rest' E Hc; [by injection E as ->|]. injection E as <- ->. eauto. }
    destruct (Z.eqb_spec c 10) as [->|Hc].
    { split; [done|]. intros line rest' E Hn _. destruct line as [|x line]; [by injection E as <-|].
      injection E as <- _. destruct Hn. by left. }
    assert (forall buf' : list Z, lenZ buf' < max -> buf' = edit buf c ->
      let '(l, rest) := getline_from input buf' (lenZ buf') max in
      lenZ l < max /\ (forall line rest', c :: input = line ++ 10 :: rest' -> (10 ∉ line) ->
        (forall k, lenZ (fold_left edit (take k line) buf) < max - 1) -> l = fold_left edit line buf /\ rest = rest')) as Hgo.
    { intros buf' Hb' Eb. specialize (IH buf' Hb'). destruct (getline_from input buf' (lenZ buf') max) as [l rest].
      destruct IH as [I1 I2]. split; [done|]. intros line rest' E Hn Hk. destruct (Hsp _ _ E Hc) as (line' & -> & Ei).
      rewrite not_elem_of_cons in Hn. cbn [fold_left]. rewrite <- Eb. apply I2; [done|tauto|].
      intros k. specialize (Hk (S k)). cbn [take fold_left] in Hk. by rewrite <- Eb in Hk. }
    pose proof (lenZ_nonneg buf) as H0. unfold edit in Hgo. destruct ((c =? 8) || (c =? 127)).
    + destruct (Z.ltb_spec 0 (lenZ buf)).
      * assert (buf <> []) as Hne by (intros ->; change (lenZ []) with 0 in *; lia).
        rewrite <- (lenZ_removelast buf Hne). apply Hgo; [rewrite lenZ_removelast by done; lia|done].
      * assert (buf = []) as -> by (destruct buf; [done|unfold lenZ in *; cbn [length] in *; lia]). by apply Hgo.
    + replace (lenZ buf + 1) with (lenZ (buf ++ [c])) by (by rewrite lenZ_app). apply Hgo; [|done]. rewrite lenZ_app. change (lenZ [c]) with 1. lia.
Qed.
End ULib.
