(* ===== verification/Shell.v ===== *)
(** * The shell's command lines (user/bin/sh.c)

    Splitting a line into tokens, parsing the tokens into a pipeline, reading lines and
    resolving command names.  Tokens point into the line, where the tokenizer has put
    terminators, or, for the operators of one character, into a static ring of 32 small
    buffers: [token] keeps the index and [tok_str] reads the buffer when the line has been
    split. *)

From Stdlib Require Import String Ascii.
From stdpp Require Import base list numbers.
From S2P Require Import Prelude CString.

#[local] Open Scope Z_scope.

Module Shell.

Definition MAXARGS : Z := 32.
Definition MAXCMDS : Z := 8.
Definition RING : Z := MAXCMDS * 4.

Definition is_space (c : Z) : bool := (c =? 32) || (c =? 9).
Definition is_op (c : Z) : bool := (c =? 124) || (c =? 60) || (c =? 62).

(** ** Tokens *)

Inductive token := TWord (w : list Z) | TAppend | TOp (slot : Z).

(** The static buffers [ops] (the character of each) and [opidx]. *)
Record ring := Ring { ops : list Z; opidx : Z }.

Definition tok_str (r : ring) (t : token) : list Z :=
  match t with TWord w => w | TAppend => [62; 62] | TOp i => [lget 0 (ops r) i] end.

Fixpoint skip_spaces (s : list Z) : list Z :=
  match s with
  | c :: s' => if is_space c then skip_spaces s' else s
  | [] => []
  end.

(** The characters up to a blank, an operator or the end, and the rest. *)
Fixpoint word (s : list Z) : list Z * list Z :=
  match s with
  | c :: s' => if is_space c || is_op c then ([], s) else let '(w, r) := word s' in (c :: w, r)
  | [] => ([], [])
  end.

(** The loop of [tokenize] with [n] tokens found; every turn takes a character away. *)
Fixpoint tokenize_from (fuel : nat) (s : list Z) (n max : Z) (r : ring) : list token * ring :=
  match fuel with
  | O => ([], r)
  | S f =>
      if (lenZ s =? 0) || negb (n <? max - 1) then ([], r)
      else
        match skip_spaces s with
        | [] => ([], r)
        | c :: p =>
            if is_op c then
              match (c =? 62), p with
              | true, 62 :: p' => let '(ts, r) := tokenize_from f p' (n + 1) max r in (TAppend :: ts, r)
              | _, _ =>
                  let i := opidx r mod RING in
                  let r := Ring (lset (ops r) i c) (opidx r + 1) in
                  let '(ts, r) := tokenize_from f p (n + 1) max r in
                  (TOp i :: ts, r)
              end
            else
              let '(w, rest) := word (c :: p) in
              let '(ts, r) := tokenize_from f (tail rest) (n + 1) max r in
              (TWord w :: ts, r)
        end
  end.

(** The tokens as the strings they point to when the loop has ended. *)
Definition tokenize (line : list Z) (max : Z) (r : ring) : list (list Z) * ring :=
  let s := CStr.cstring line in
  let '(ts, r) := tokenize_from (S (length s)) s 0 max r in
  (map (tok_str r) ts, r).

(** ** Pipelines *)

(** [struct cmd]; [argc] is the length of [argv]. *)
Record cmd := Cmd { argv : list (list Z); infile : option (list Z); outfile : option (list Z); append : bool }.
Definition zero_cmd : cmd := Cmd [] None None false.

Definition codes (s : string) : list Z := map (fun c => Z.of_N (N_of_ascii c)) (list_ascii_of_string s).
Definition tok_is (t : list Z) (s : string) : bool := CStr.cstrcmp t (codes s) =? 0.

Definition add_arg (t : list Z) (c : cmd) : cmd :=
  if lenZ (argv c) <? MAXARGS - 1 then Cmd (argv c ++ [t]) (infile c) (outfile c) (append c) else c.

(** The loop of [parse_pipeline]: the commands before the current one [c] are [cmds]. *)
Fixpoint parse_from (toks : list (list Z)) (cmds : list cmd) (c : cmd) (maxcmds : Z) : option (list cmd) :=
  match toks with
  | [] => Some (cmds ++ [c])
  | t :: ts =>
      if tok_is t "|" then
        if maxcmds <=? lenZ cmds + 1 then None else parse_from ts (cmds ++ [c]) zero_cmd maxcmds
      else if tok_is t "<" then
        match ts with
        | [] => None
        | f :: ts' => parse_from ts' cmds (Cmd (argv c) (Some f) (outfile c) (append c)) maxcmds
        end
      else if tok_is t ">" then
        match ts with
        | [] => None
        | f :: ts' => parse_from ts' cmds (Cmd (argv c) (infile c) (Some f) false) maxcmds
        end
      else if tok_is t ">>" then
        match ts with
        | [] => None
        | f :: ts' => parse_from ts' cmds (Cmd (argv c) (infile c) (Some f) true) maxcmds
        end
      else parse_from ts cmds (add_arg t c) maxcmds
  end.

(** [None] is the result -1. *)
Definition parse_pipeline (toks : list (list Z)) (maxcmds : Z) : option (list cmd) :=
  parse_from toks [] zero_cmd maxcmds.

(** [resolve]: the path of a command, copied to a buffer of [size] bytes; [None] when the
    copy would write past its end. *)
Definition resolve (name : list Z) (size : Z) : option (list Z) :=
  let path := if existsb (fun c => c =? 47) name then name else [47; 98; 105; 110; 47] ++ name in
  if lenZ path <? size then Some path else None.

(** ** Reading a line of a script *)

(** [read_fd_line]: the bytes of the file, the buffer, the result.  At the end of the file
    the line is not terminated. *)
Fixpoint read_fd_line_from (input line : list Z) (n : Z) (seen : bool) (max : Z) : Z * list Z * list Z :=
  if n <? max - 1 then
    match input with
    | [] => (if seen then n else -1, line, [])
    | c :: rest =>
        if c =? 13 then read_fd_line_from rest line n true max
        else if c =? 10 then (n, lset line n 0, rest)
        else read_fd_line_from rest (lset line n c) (n + 1) true max
    end
  else (n, lset line n 0, input).
Definition read_fd_line (input line : list Z) (max : Z) : Z * list Z * list Z := read_fd_line_from input line 0 false max.

(** ** Lines with blanks between the tokens *)

(** A word, and the tokens the shell knows. *)
Definition plain (c : Z) : Prop := c <> 0 /\ is_space c = false /\ is_op c = false.
Definition good_word (w : list Z) : Prop := w <> [] /\ Forall plain w.
Inductive good_token : list Z -> Prop :=
| good_is_word w : good_word w -> good_token w
| good_is_op c : is_op c = true -> good_token [c]
| good_is_append : good_token [62; 62].

(** The operator of one character that a token is. *)
Definition op_of (t : list Z) : option Z := match t with [c] => if is_op c then Some c else None | _ => None end.
Definition count_ops (ts : list (list Z)) : Z := lenZ (omap op_of ts).

Definition starts_blank (s : list Z) : Prop := s = [] \/ exists c s', s = c :: s' /\ is_space c = true.

(** A line made of the tokens, with blanks between them. *)
Inductive spaced : list (list Z) -> list Z -> Prop :=
| spaced_nil b : Forall (fun c => is_space c = true) b -> spaced [] b
| spaced_cons b t ts s : Forall (fun c => is_space c = true) b -> good_token t -> starts_blank s ->
    spaced ts s -> spaced (t :: ts) (b ++ t ++ s).

Lemma skip_spaces_app b s : Forall (fun c => is_space c = true) b -> skip_spaces (b ++ s) = skip_spaces s.
Proof. induction 1 as [|c b Hc _ IH]; cbn; [done|]. by rewrite Hc. Qed.

Lemma word_plain w s : Forall plain w -> starts_blank s -> word (w ++ s) = (w, s).
Proof.
  intros Hw Hs. induction Hw as [|c w (_ & H1 & H2) _ IH]; cbn.
  - destruct Hs as [->|(c & s' & -> & Hc)]; [done|]. cbn. by rewrite Hc.
  - by rewrite H1, H2, IH.
Qed.

Lemma good_first t : good_token t -> exists c t', t = c :: t' /\ is_space c = false.
Proof.
  intros Ht. destruct Ht as [w [Hne Hw]|c Hc|].
  - destruct w as [|c w]; [done|]. inversion Hw as [|? ? (_ & H & _)]; subst. eauto.
  - exists c, []. split; [done|]. unfold is_op, is_space in *. destruct (Z.eqb_spec c 32); [by subst|]. destruct (Z.eqb_spec c 9); [by subst|done].
  - by exists 62, [62].
Qed.

Lemma spaced_tail ts c s : spaced ts (c :: s) -> is_space c = true -> spaced ts s.
Proof.
  intros H Hc. remember (c :: s) as x eqn:E. destruct H as [b Hb|b t ts' s' Hb Ht Hs Hr].
  - subst b. constructor. by inversion Hb.
  - destruct (good_first t Ht) as (c' & t' & -> & Hc'). destruct b as [|c0 b]; cbn in *.
    + injection E as -> _. congruence.
    + injection E as -> <-. inversion Hb; subst. change (c' :: t' ++ s') with ((c' :: t') ++ s'). by constructor.
Qed.

(** The tokens the loop finds, with the slots of the operators, and the buffers afterwards. *)
Fixpoint assign (i : Z) (ts : list (list Z)) : list token :=
  match ts with
  | [] => []
  | t :: ts' =>
      match op_of t with
      | Some c => TOp (i mod RING) :: assign (i + 1) ts'
      | None => (if decide (t = [62; 62]) then TAppend else TWord t) :: assign i ts'
      end
  end.
Fixpoint written (r : ring) (ts : list (list Z)) : ring :=
  match ts with
  | [] => r
  | t :: ts' =>
      match op_of t with
      | Some c => written (Ring (lset (ops r) (opidx r mod RING) c) (opidx r + 1)) ts'
      | None => written r ts'
      end
  end.

Lemma tokenize_spaced fuel max : forall ts s n r, spaced ts s -> (length s < fuel)%nat -> n + lenZ ts <= max - 1 ->
  tokenize_from fuel s n max r = (assign (opidx r) ts, written r ts).
Proof.
  induction fuel as [|f IH]; intros ts s n r Hs Hf Hn; [lia|]. cbn [tokenize_from].
  revert Hf Hn. destruct Hs as [b Hb|b t ts s Hb Ht Hbl Hs]; intros Hf Hn.
  - cbn [assign written]. destruct (_ || _); [done|]. rewrite <- (app_nil_r b), skip_spaces_app by done. done.
  - destruct (good_first t Ht) as (c & t' & Et & Hc).
    assert (length s < f)%nat as Hlen by (revert Hf; rewrite !length_app, Et; cbn; lia).
    rewrite lenZ_cons in Hn. pose proof (lenZ_nonneg ts).
    rewrite (proj2 (Z.eqb_neq (lenZ (b ++ t ++ s)) 0)) by (rewrite !lenZ_app, Et, lenZ_cons; pose proof (lenZ_nonneg b); pose proof (lenZ_nonneg t'); pose proof (lenZ_nonneg s); lia).
    rewrite (proj2 (Z.ltb_lt n (max - 1))) by lia. cbn [orb negb].
    rewrite skip_spaces_app by done. rewrite Et at 1. cbn [app skip_spaces]. rewrite Hc.
    destruct Ht as [w [Hne Hw]|c0 Hc0|].
    + subst w. inversion Hw as [|? ? (Hz & Hsp & Hop) Hw']; subst. rewrite Hop.
      change (c :: t' ++ s) with ((c :: t') ++ s). rewrite word_plain by done.
      assert (spaced ts (tail s) /\ (length (tail s) < f)%nat) as [Hts Hlt].
      { destruct Hbl as [->|(x & s' & -> & Hx)]; [done|]. cbn in *. split; [by apply (spaced_tail _ x)|lia]. }
      rewrite (IH ts (tail s) (n + 1) r Hts Hlt) by lia.
      assert (op_of (c :: t') = None) as Eo by (unfold op_of; destruct t'; [by rewrite Hop|done]).
      cbn [assign written]. rewrite Eo. rewrite decide_False by (intros [= -> ->]; done). done.
    + injection Et as <- <-. rewrite Hc0. cbn [app].
      assert (op_of [c0] = Some c0) as Eo by (unfold op_of; by rewrite Hc0). cbn [assign written]. rewrite Eo.
      assert (forall (A : Type) (x : list Z -> A) y, match (c0 =? 62), s with true, 62 :: p' => x p' | _, _ => y end = y) as Hm.
      { intros A x y. destruct Hbl as [->|(z & s' & -> & Hz)]; [by destruct (c0 =? 62)|]. destruct (c0 =? 62); [|done].
        destruct z as [|z|z]; try done. do 6 (destruct z as [z|z|]; try done). }
      rewrite Hm. rewrite (IH ts s (n + 1) _ Hs Hlen) by lia. done.
    + injection Et as <- <-. cbn [app is_op Z.eqb Pos.eqb orb].
      rewrite (IH ts s (n + 1) r Hs Hlen) by lia. done.
Qed.

Lemma count_ops_cons t ts : count_ops (t :: ts) = (if op_of t is Some _ then 1 else 0) + count_ops ts.
Proof. unfold count_ops. cbn. destruct (op_of t); rewrite ?lenZ_cons; lia. Qed.
Lemma count_ops_nonneg ts : 0 <= count_ops ts.
Proof. apply lenZ_nonneg. Qed.

(** Slots written for the operators of [ts] are read back while there are at most 32. *)
Lemma written_other i ts : forall r, 0 <= i < 32 ->
  (forall j, 0 <= j < count_ops ts -> (opidx r + j) mod 32 <> i) -> lget 0 (ops (written r ts)) i = lget 0 (ops r) i.
Proof.
  induction ts as [|t ts IH]; intros r Hi Hj; cbn [written]; [done|]. pose proof (count_ops_nonneg ts).
  rewrite count_ops_cons in Hj. destruct (op_of t) as [c|].
  - rewrite IH; cbn [ops opidx]; [|done|].
    + specialize (Hj 0 ltac:(lia)). rewrite Z.add_0_r in Hj. by apply lget_lset_ne.
    + intros j Hjr. specialize (Hj (j + 1) ltac:(lia)). by replace (opidx r + 1 + j) with (opidx r + (j + 1)) by lia.
  - apply IH; [done|]. intros j Hjr. apply Hj. lia.
Qed.

Lemma assign_read ts : forall r, lenZ (ops r) = 32 -> count_ops ts <= 32 ->
  map (tok_str (written r ts)) (assign (opidx r) ts) = ts.
Proof.
  induction ts as [|t ts IH]; intros r Hl Hc; [done|]. cbn [assign written].
  rewrite count_ops_cons in Hc. destruct (op_of t) as [c|] eqn:E.
  - set (r1 := Ring _ _). assert (lenZ (ops r1) = 32) as Hl1 by (cbn; by rewrite lenZ_lset).
    cbn [map]. f_equal; [|apply (IH r1); (done || lia)]. cbn [tok_str].
    rewrite (written_other _ ts r1); [|unfold RING, MAXCMDS; dlia|].
    + cbn [r1 ops]. rewrite lget_lset_eq by (unfold RING, MAXCMDS; dlia).
      unfold op_of in E. destruct t as [|x [|]]; try done. destruct (is_op x); [by injection E as ->|done].
    + cbn [r1 opidx]. intros j Hj. unfold RING, MAXCMDS. change (8 * 4) with 32. dlia.
  - cbn [map]. f_equal; [|apply IH; (done || lia)]. case_decide as Hd; [by rewrite Hd|done].
Qed.

(** ** Commands printed as tokens *)

Definition redirections (c : cmd) : list (list Z) :=
  (match infile c with Some f => [[60]; f] | None => [] end) ++
  (match outfile c with Some f => [if append c then [62; 62] else [62]; f] | None => [] end).
Definition cmd_tokens (c : cmd) : list (list Z) := argv c ++ redirections c.
Fixpoint unparse (cmds : list cmd) : list (list Z) :=
  match cmds with
  | [] => []
  | [c] => cmd_tokens c
  | c :: cs => cmd_tokens c ++ [124] :: unparse cs
  end.

Definition good_file (f : option (list Z)) : Prop := match f with Some w => good_word w | None => True end.
(** The commands a line can give: at most 31 arguments, appending only with a file. *)
Definition good_cmd (c : cmd) : Prop :=
  Forall good_word (argv c) /\ lenZ (argv c) <= MAXARGS - 1 /\ good_file (infile c) /\ good_file (outfile c) /\
  (outfile c = None -> append c = false).

Lemma plain_cstring w : Forall plain w -> CStr.cstring w = w.
Proof.
  intros H. apply CStr.cstring_id. unfold CStr.is_cstring. intros Hin.
  by destruct (proj1 (list.Forall_forall _ _) H 0 Hin).
Qed.

(** No word is an operator. *)
Lemma word_not_op w s : good_word w -> (exists c, codes s = [c] /\ is_op c = true) \/ codes s = [62; 62] -> tok_is w s = false.
Proof.
  intros [Hne Hw] Hs. unfold tok_is. apply Z.eqb_neq. rewrite CStr.strcmp_zero, (plain_cstring w Hw).
  destruct Hs as [(c & Es & Hc)|Es]; rewrite Es; cbn.
  - destruct (Z.eqb_spec c 0); [by subst|]. intros ->. inversion Hw as [|? ? (_ & _ & H)]; subst. congruence.
  - intros ->. inversion Hw as [|? ? (_ & _ & H)]; subst. done.
Qed.

Lemma word_no_ops w : good_word w -> tok_is w "|" = false /\ tok_is w "<" = false /\ tok_is w ">" = false /\ tok_is w ">>" = false.
Proof. intros Hw. repeat split; apply word_not_op; try done; ((left; eexists; split; reflexivity) || by right). Qed.

Lemma parse_words ws : forall ts cmds c m, Forall good_word ws -> lenZ (argv c) + lenZ ws <= MAXARGS - 1 ->
  parse_from (ws ++ ts) cmds c m = parse_from ts cmds (Cmd (argv c ++ ws) (infile c) (outfile c) (append c)) m.
Proof.
  induction ws as [|w ws IH]; intros ts cmds c m Hw Hl; cbn [app]; [rewrite app_nil_r; by destruct c|].
  inversion Hw as [|? ? Hw1 Hw2]; subst. rewrite lenZ_cons in Hl. pose proof (lenZ_nonneg ws).
  cbn [parse_from]. destruct (word_no_ops w Hw1) as (-> & -> & -> & ->).
  unfold add_arg. rewrite (proj2 (Z.ltb_lt _ _)) by lia. rewrite IH; cbn [argv infile outfile append]; [|done|].
  - by rewrite <- app_assoc.
  - rewrite lenZ_app. unfold lenZ in *. cbn [length]. lia.
Qed.

Lemma parse_cmd c ts cmds m : good_cmd c -> parse_from (cmd_tokens c ++ ts) cmds zero_cmd m = parse_from ts cmds c m.
Proof.
  intros (Ha & Hl & _ & _ & Hn). unfold cmd_tokens. rewrite <- app_assoc, parse_words by done.
  destruct c as [av inf outf ap]; cbn in *. unfold redirections; cbn.
  destruct inf as [f|], outf as [g|]; cbn [app parse_from]; try (rewrite Hn by done); destruct ap; try reflexivity.
Qed.

Lemma parse_unparse cmds : forall done_ m, cmds <> [] -> Forall good_cmd cmds -> lenZ done_ + lenZ cmds <= m ->
  parse_from (unparse cmds) done_ zero_cmd m = Some (done_ ++ cmds).
Proof.
  induction cmds as [|c cmds IH]; intros dn m Hne Hg Hl; [done|]. inversion Hg as [|? ? Hc Hcs]; subst. rewrite lenZ_cons in Hl.
  destruct cmds as [|c2 cmds].
  - cbn [unparse]. rewrite <- (app_nil_r (cmd_tokens c)), parse_cmd by done. done.
  - cbn [unparse]. rewrite parse_cmd by done. cbn [parse_from]. rewrite (eq_refl : tok_is [124] "|" = true).
    rewrite lenZ_cons in Hl. pose proof (lenZ_nonneg cmds).
    rewrite (proj2 (Z.leb_gt _ _)) by lia.
    rewrite IH; [by rewrite <- app_assoc|done|done|]. rewrite lenZ_app, lenZ_cons. unfold lenZ in *. cbn [length]. lia.
Qed.

(** ** Splitting and parsing a printed pipeline *)

Lemma good_token_chars t : good_token t -> 0 ∉ t.
Proof.
  destruct 1 as [w [_ Hw]|c Hc|].
  - intros Hin. by destruct (proj1 (list.Forall_forall _ _) Hw 0 Hin).
  - intros E%list_elem_of_singleton. by subst c.
  - apply (bool_decide_eq_true_1 (0 ∉ [62; 62])). reflexivity.
Qed.

Lemma blank_chars b : Forall (fun c => is_space c = true) b -> 0 ∉ b.
Proof. intros Hb Hin. by discriminate (proj1 (list.Forall_forall _ _) Hb 0 Hin). Qed.

Lemma spaced_string ts s : spaced ts s -> CStr.cstring s = s.
Proof.
  intros H. apply CStr.cstring_id. unfold CStr.is_cstring.
  induction H as [b Hb|b t ts s Hb Ht _ _ IH]; [by apply blank_chars|].
  rewrite !elem_of_app. intros [H|[H|H]]; [by apply (blank_chars b)|by apply (good_token_chars t)|done].
Qed.

Lemma count_ops_app a b : count_ops (a ++ b) = count_ops a + count_ops b.
Proof. induction a as [|t a IH]; [done|]. cbn [app]. rewrite !count_ops_cons, IH. lia. Qed.

Lemma word_op_of w : good_word w -> op_of w = None.
Proof. intros [Hne Hw]. unfold op_of. destruct w as [|c [|]]; try done. inversion Hw as [|? ? (_ & _ & H)]; subst. by rewrite H. Qed.

Lemma words_count ws : Forall good_word ws -> count_ops ws = 0.
Proof. induction 1 as [|w ws Hw _ IH]; [done|]. rewrite count_ops_cons, IH, word_op_of by done. done. Qed.

Lemma file_count t f : good_word f -> count_ops [t; f] <= 1.
Proof. intros Hf. rewrite !count_ops_cons, (word_op_of f) by done. change (count_ops []) with 0. destruct (op_of t); lia. Qed.

Lemma cmd_count c : good_cmd c -> count_ops (cmd_tokens c) <= 2.
Proof.
  intros (Ha & _ & Hi & Ho & _). unfold cmd_tokens, redirections. rewrite !count_ops_app, words_count by done.
  assert (count_ops [] = 0) as E0 by done.
  destruct (infile c) as [f|], (outfile c) as [g|]; cbn [good_file] in *;
    repeat match goal with H : good_word ?w |- context [count_ops [?t; ?w]] => pose proof (file_count t w H); clear H end; lia.
Qed.

(** The ring of 32 buffers holds every operator of eight commands. *)
Lemma unparse_count cmds : Forall good_cmd cmds -> count_ops (unparse cmds) <= 3 * lenZ cmds.
Proof.
  induction 1 as [|c cmds Hc Hcs IH]; [done|]. pose proof (cmd_count c Hc). rewrite lenZ_cons. pose proof (lenZ_nonneg cmds).
  destruct cmds as [|c2 cmds]; cbn [unparse]; [lia|].
  rewrite count_ops_app, count_ops_cons. change (op_of [124]) with (Some 124). cbv beta iota. unfold unparse in *. lia.
Qed.

Lemma spaced_skip ts s : spaced ts s -> spaced ts (skip_spaces s).
Proof.
  induction s as [|c s IH]; intros H; cbn [skip_spaces]; [done|]. destruct (is_space c) eqn:E; [|done].
  apply IH. by apply (spaced_tail ts c).
Qed.

Lemma tokenize_tokens ts line max r : spaced ts line -> lenZ ts <= max - 1 -> count_ops ts <= 32 -> lenZ (ops r) = 32 ->
  tokenize line max r = (ts, written r ts).
Proof.
  intros Hs Hn Hc Hr. unfold tokenize. rewrite (spaced_string ts line Hs).
  rewrite (tokenize_spaced _ max ts line 0 r Hs) by lia. by rewrite assign_read.
Qed.

Lemma parse_line_spec cmds line r : cmds <> [] -> lenZ cmds <= MAXCMDS -> Forall good_cmd cmds ->
  lenZ (unparse cmds) <= 63 -> spaced (unparse cmds) line -> lenZ (ops r) = RING ->
  tokenize line (MAXARGS * 2) r = (unparse cmds, written r (unparse cmds)) /\ parse_pipeline (unparse cmds) MAXCMDS = Some cmds.
Proof.
  intros Hne Hl Hg Ht Hs Hr. split.
  - apply tokenize_tokens; try done. pose proof (unparse_count cmds Hg). unfold MAXCMDS in Hl. lia.
  - unfold parse_pipeline. by rewrite parse_unparse.
Qed.

(** A line that gives a pipeline of one to eight commands as tokens with blanks between them
    (each command at most 31 words and at most one redirection of each direction, at most 63
    tokens in all) is split and parsed into those commands, whatever operators earlier lines
    have left in the ring of buffers. *)
Theorem parse_line_correct cmds line r : cmds <> [] -> lenZ cmds <= MAXCMDS -> Forall good_cmd cmds ->
  lenZ (unparse cmds) <= 63 -> spaced (unparse cmds) line -> lenZ (ops r) = RING ->
  parse_pipeline (fst (tokenize line (MAXARGS * 2) r)) MAXCMDS = Some cmds.
Proof.
  intros Hne Hl Hg Ht Hs Hr. by destruct (parse_line_spec cmds line r Hne Hl Hg Ht Hs Hr) as [-> E].
Qed.

(** [cat <a | wc >>b], with blanks, after thirty operators of earlier lines. *)
Definition demo_cmds : list cmd :=
  [Cmd [codes "cat"; codes "-n"] (Some (codes "a")) None false; Cmd [codes "wc"] None (Some (codes "b")) true].
Definition demo_line : list Z := codes "  cat -n < a |  wc >> b".
Definition demo_ring : ring := Ring (replicate 32 62) 30.

Lemma demo_good w : forallb (fun c => negb (c =? 0) && negb (is_space c) && negb (is_op c)) w = true -> w <> [] -> good_word w.
Proof.
  intros H Hne. split; [done|]. apply list.Forall_forall. intros c Hc. rewrite forallb_forall in H.
  specialize (H c (proj1 (list_elem_of_In _ _) Hc)). unfold plain. destruct (Z.eqb_spec c 0), (is_space c), (is_op c); try discriminate. done.
Qed.

Lemma demo_spaced : spaced (unparse demo_cmds) demo_line.
Proof.
  assert (forall n, Forall (fun c => is_space c = true) (replicate n 32)) as Hb by (intros n; induction n; cbn; constructor; (done || by apply IHn)).
  assert (forall w s ts, good_token w -> starts_blank s -> spaced ts s -> spaced (w :: ts) ([] ++ w ++ s)) as H0
    by (intros; apply spaced_cons; try done; constructor).
  assert (forall n w s ts, good_token w -> starts_blank s -> spaced ts s -> spaced (w :: ts) (replicate n 32 ++ w ++ s)) as H1
    by (intros; apply spaced_cons; try done).
  assert (forall s, starts_blank (32 :: s)) as Hs by (intros s; right; by exists 32, s).
  unfold demo_line. cbn [unparse demo_cmds cmd_tokens redirections argv infile outfile append app].
  apply (H1 2%nat (codes "cat")); [apply good_is_word, demo_good; done|apply Hs|].
  apply (H1 1%nat (codes "-n")); [apply good_is_word, demo_good; done|apply Hs|].
  apply (H1 1%nat (codes "<")); [by apply good_is_op|apply Hs|].
  apply (H1 1%nat (codes "a")); [apply good_is_word, demo_good; done|apply Hs|].
  apply (H1 1%nat (codes "|")); [by apply good_is_op|apply Hs|].
  apply (H1 2%nat (codes "wc")); [apply good_is_word, demo_good; done|apply Hs|].
  apply (H1 1%nat (codes ">>")); [apply good_is_append|apply Hs|].
  apply (H1 1%nat (codes "b") []); [apply good_is_word, demo_good; done|by left|by apply spaced_nil].
Qed.

Lemma demo_cmds_good : Forall good_cmd demo_cmds.
Proof. repeat constructor; cbn; try (by apply demo_good); try done. Qed.

Lemma parse_line_correct_witness :
  parse_pipeline (fst (tokenize demo_line (MAXARGS * 2) demo_ring)) MAXCMDS = Some demo_cmds.
Proof.
  apply (parse_line_correct demo_cmds demo_line demo_ring); [done|by vm_compute|apply demo_cmds_good|by vm_compute|apply demo_spaced|reflexivity].
Defined.

(** ** Operators glued to the word before them *)

Lemma match_62 {A} (x : Z) (u v : A) : x <> 62 -> match x with 62 => u | _ => v end = v.
Proof. intros H. destruct x as [|k|k]; try done. do 6 (destruct k as [k|k|]; try done). Qed.

(** Two lines that agree up to a plain character and behind the delimiter after it. *)
Section glued.
Context (x c d : Z) (rest : list Z).
Hypothesis Hx : plain x.
Hypothesis Hc : is_space c || is_op c = true.
Hypothesis Hd : is_space d || is_op d = true.

Lemma skip_to s pre : skip_spaces (pre ++ x :: s) = skip_spaces pre ++ x :: s.
Proof.
  induction pre as [|y pre IH]; cbn [app skip_spaces]; [|by destruct (is_space y)].
  by destruct Hx as (_ & -> & _).
Qed.

(** The word at the start ends at the delimiter or before. *)
Lemma word_to pre :
  (forall e, is_space e || is_op e = true -> word (pre ++ x :: e :: rest) = (pre ++ [x], e :: rest)) \/
  exists w y q, (length (y :: q) <= length pre)%nat /\ forall s, word (pre ++ x :: s) = (w, y :: q ++ x :: s).
Proof.
  induction pre as [|y pre IH]; cbn [app word].
  - left. intros e He. destruct Hx as (_ & -> & ->). cbn [orb]. by rewrite He.
  - destruct (is_space y || is_op y) eqn:Ey.
    + right. exists [], y, pre. done.
    + destruct IH as [IH|(w & z & q & Hl & IH)].
      * left. intros e He. by rewrite IH.
      * right. exists (y :: w), z, q. split; [cbn in *; lia|]. intros s. by rewrite IH.
Qed.

Lemma tokenize_glued f : forall pre n max r,
  tokenize_from f (pre ++ x :: c :: rest) n max r = tokenize_from f (pre ++ x :: d :: rest) n max r.
Proof.
  induction f as [|f IH]; intros pre n max r; [done|]. cbn [tokenize_from].
  replace (lenZ (pre ++ x :: c :: rest)) with (lenZ (pre ++ x :: d :: rest)) by (by rewrite !lenZ_app, !lenZ_cons).
  destruct ((lenZ (pre ++ x :: d :: rest) =? 0) || negb (n <? max - 1)); [reflexivity|]. rewrite !skip_to. destruct (skip_spaces pre) as [|y p]; cbn [app].
  - destruct Hx as (_ & Hs & Ho). rewrite Ho. cbn [word]. rewrite Hs, Ho, Hc, Hd. done.
  - destruct (is_op y).
    + destruct (y =? 62); [|by rewrite IH]. destruct p as [|z p]; cbn [app].
      * assert (x <> 62) as H62 by (destruct Hx as (_ & _ & H); intros ->; done).
        rewrite !match_62 by done. by rewrite (IH []).
      * rewrite !IH. by rewrite (IH (z :: p)).
    + change (y :: p ++ ?s) with ((y :: p) ++ s). destruct (word_to (y :: p)) as [Hw|(w & z & q & _ & Hw)].
      * by rewrite !Hw by done.
      * rewrite !Hw. cbn [tail]. by rewrite IH.
Qed.
End glued.

(** C38: An operator written directly after a word is lost, wherever in the line the word is:
    the line is split as if the operator were a blank, so that [ls|wc] runs [ls] with the
    argument [wc] and no redirection is done by [echo a>b]. *)
Theorem glued_operator_lost pre x c rest max r : plain x -> is_op c = true ->
  tokenize (pre ++ x :: c :: rest) max r = tokenize (pre ++ x :: 32 :: rest) max r.
Proof.
  intros Hx Hc. unfold tokenize.
  assert (forall e, e <> 0 -> CStr.cstring (pre ++ x :: e :: rest) =
    if decide (0 ∈ pre) then CStr.cstring pre else pre ++ x :: e :: CStr.cstring rest) as Es.
  { intros e He. destruct Hx as (H0 & _). induction pre as [|y pre IH]; cbn.
    - by rewrite (proj2 (Z.eqb_neq x 0)), (proj2 (Z.eqb_neq e 0)).
    - destruct (Z.eqb_spec y 0) as [->|Hy]; [by rewrite decide_True by left|]. rewrite IH.
      destruct (decide (0 ∈ pre)); [by rewrite decide_True by (by right)|]. rewrite decide_False; [done|]. by intros [|]%elem_of_cons. }
  rewrite !Es by (try done; intros ->; done). destruct (decide (0 ∈ pre)); [done|].
  rewrite !length_app. cbn [length]. rewrite (tokenize_glued x c 32) by (rewrite ?Hc, ?orb_true_r; done). done.
Qed.

Lemma glued_operator_lost_witness :
  tokenize (codes "ls|wc") 64 demo_ring = tokenize (codes "ls wc") 64 demo_ring /\
  tokenize (codes "echo a>b") 64 demo_ring = tokenize (codes "echo a b") 64 demo_ring /\
  fst (tokenize (codes "echo a>b") 64 demo_ring) = [codes "echo"; codes "a"; codes "b"].
Proof.
  split; [|split; [|reflexivity]].
  - apply (glued_operator_lost (codes "l") 115 124 (codes "wc") 64 demo_ring); [by repeat split|reflexivity].
  - apply (glued_operator_lost (codes "echo ") 97 62 (codes "b") 64 demo_ring); [by repeat split|reflexivity].
Defined.

(** ** Lines of a script *)

Definition line_char (c : Z) : Prop := c <> 10 /\ c <> 13.

Lemma lset_here {A} (pre line : list A) x : (length pre < length line)%nat ->
  lset (pre ++ drop (length pre) line) (lenZ pre) x = (pre ++ [x]) ++ drop (length (pre ++ [x])) line.
Proof.
  intros Hl. unfold lset, lenZ. rewrite (proj2 (Z.ltb_ge _ 0)), Nat2Z.id by lia.
  rewrite insert_app_r_alt, Nat.sub_diag by lia. rewrite length_app, Nat.add_1_r, <- app_assoc. f_equal.
  destruct (drop (length pre) line) as [|y d] eqn:E; [apply (f_equal length) in E; rewrite length_drop in E; cbn in E; lia|].
  cbn. f_equal. by rewrite <- Nat.add_1_r, <- drop_drop, E.
Qed.

Lemma read_chars l : forall rest pre line seen max, Forall line_char l -> lenZ pre + lenZ l < max - 1 -> lenZ line = max ->
  read_fd_line_from (l ++ rest) (pre ++ drop (length pre) line) (lenZ pre) seen max =
    read_fd_line_from rest ((pre ++ l) ++ drop (length (pre ++ l)) line) (lenZ (pre ++ l)) (seen || negb (lenZ l =? 0)) max.
Proof.
  induction l as [|c l IH]; intros rest pre line seen max Hl Hn Hm; cbn [app]; [by rewrite app_nil_r, orb_false_r|].
  inversion Hl as [|? ? [H1 H2] Hl']; subst. rewrite lenZ_cons in Hn |- *. pose proof (lenZ_nonneg l).
  cbn [read_fd_line_from]. rewrite (proj2 (Z.ltb_lt _ _)) by lia. rewrite (proj2 (Z.eqb_neq c 13)), (proj2 (Z.eqb_neq c 10)) by done.
  rewrite lset_here by (unfold lenZ in *; lia). replace (lenZ pre + 1) with (lenZ (pre ++ [c])) by (rewrite lenZ_app; reflexivity).
  rewrite IH; [|done|rewrite lenZ_app; unfold lenZ in *; cbn; lia|done]. rewrite <- !app_assoc. cbn [app].
  rewrite (proj2 (Z.eqb_neq (lenZ l + 1) 0)) by lia. by rewrite orb_true_r, orb_true_l.
Qed.

(** A line that ends with a newline is stored with its terminator; the last line of a file
    without one is stored without a terminator, so that the end of the line before it, which
    the buffer still holds, is executed with it. *)
Theorem read_fd_line_correct l rest line : Forall line_char l -> lenZ l < 511 -> lenZ line = 512 ->
  read_fd_line (l ++ 10 :: rest) line 512 = (lenZ l, l ++ 0 :: drop (S (length l)) line, rest) /\
  (l <> [] -> read_fd_line l line 512 = (lenZ l, l ++ drop (length l) line, [])).
Proof.
  intros Hl Hn Hm. unfold read_fd_line. split.
  - pose proof (read_chars l (10 :: rest) [] line false 512 Hl) as E. cbn [app length drop] in E. rewrite drop_0 in E. change (lenZ []) with 0 in E.
    rewrite E by lia. cbn [read_fd_line_from]. rewrite (proj2 (Z.ltb_lt _ _)) by lia. cbn [Z.eqb Pos.eqb].
    rewrite lset_here by (unfold lenZ in *; lia). rewrite <- app_assoc, length_app. cbn [length app]. by rewrite Nat.add_1_r.
  - intros Hne. pose proof (read_chars l [] [] line false 512 Hl) as E. cbn [app length drop] in E. rewrite drop_0, app_nil_r in E. change (lenZ []) with 0 in E.
    rewrite E by lia. cbn [read_fd_line_from]. rewrite (proj2 (Z.ltb_lt _ _)) by lia. destruct l as [|c l]; [done|].
    rewrite lenZ_cons. pose proof (lenZ_nonneg l). rewrite (proj2 (Z.eqb_neq (lenZ l + 1) 0)) by lia. done.
Qed.

(** After [echo hello], the last line [ls] of the script runs as [lsho hello]. *)
Definition demo_buffer : list Z := codes "echo hello" ++ replicate 502 0.
Lemma read_fd_line_correct_witness : let '(n, line, rest) := read_fd_line (codes "ls") demo_buffer 512 in
  n = 2 /\ CStr.cstring line = codes "lsho hello" /\ rest = [].
Proof.
  destruct (read_fd_line_correct (codes "ls") [] demo_buffer) as [_ E]; [by repeat constructor|by vm_compute|by vm_compute|].
  rewrite E by discriminate. repeat split; vm_compute; reflexivity.
Defined.
End Shell.
