(* ===== verification/Fds.v ===== *)
(** * Descriptor tables

    What the calls on descriptors promise to a program: the table of a process as a list of
    [NFILES] entries, where [none] stands for a free one, and how [close], [dup2], [open] and
    [pipe] change it.  The entries are file pointers in the kernel (FdCalls.v shows that
    kernel/syscall/syscall.c implements this) and descriptions of the open files in the
    shell's model (ShellRun.v is proved against it). *)

From stdpp Require Import base list numbers.
From S2P Require Import Prelude.

#[local] Open Scope Z_scope.

Module Fds.
Section tables.
Context {A : Type} `{EqDecision A} (none : A).

Definition NFILES : Z := 32.
Implicit Types (t : list A) (x y : A).

Definition ok t (fd : Z) : bool := (0 <=? fd) && (fd <? NFILES) && negb (bool_decide (lget none t fd = none)).
(** The lowest free entry. *)
Definition alloc t : option Z := find_first (fun i => bool_decide (lget none t i = none)) 0 (Z.to_nat NFILES).

Definition close (fd : Z) t : Z * list A := if ok t fd then (0, lset t fd none) else (-1, t).
Definition dup2 (old new : Z) t : Z * list A :=
  if negb (ok t old) then (-1, t)
  else if (new <? 0) || (NFILES <=? new) then (-1, t)
  else if old =? new then (new, t)
  else (new, lset t new (lget none t old)).
(** A file [x] opened, and a pipe with ends [x] and [y]. *)
Definition open x t : Z * list A := match alloc t with Some a => (a, lset t a x) | None => (-1, t) end.
Definition pipe x y t : option (Z * Z) * list A :=
  match alloc t with
  | None => (None, t)
  | Some a => match alloc (lset t a x) with None => (None, t) | Some b => (Some (a, b), lset (lset t a x) b y) end
  end.

Fixpoint nfree t : Z := match t with [] => 0 | x :: t' => (if bool_decide (x = none) then 1 else 0) + nfree t' end.

Lemma alloc_Some t a : alloc t = Some a -> 0 <= a < NFILES /\ lget none t a = none.
Proof. intros (H1 & H2 & _)%find_first_Some. apply bool_decide_eq_true in H2. by split. Qed.

Lemma nfree_pos t : 0 < nfree t -> exists i, 0 <= i < lenZ t /\ lget none t i = none.
Proof.
  induction t as [|x t IH]; cbn [nfree]; [lia|]. rewrite lenZ_cons. case_bool_decide as Hx; intros Hp.
  - exists 0. split; [pose proof (lenZ_nonneg t); lia|]. by rewrite lget_nth by lia.
  - destruct IH as (i & Hi & E); [lia|]. exists (i + 1). split; [lia|]. rewrite lget_nth in E |- * by lia.
    by replace (Z.to_nat (i + 1)) with (S (Z.to_nat i)) by lia.
Qed.

Lemma alloc_free t : lenZ t = NFILES -> 0 < nfree t -> exists a, alloc t = Some a.
Proof.
  intros Hl Hp. destruct (nfree_pos t Hp) as (i & Hi & E). unfold alloc.
  destruct (find_first_exists (fun i => bool_decide (lget none t i = none)) 0 (Z.to_nat NFILES) i) as (a & Ea & _); [unfold NFILES in *; lia| |eauto].
  by apply bool_decide_eq_true.
Qed.

Lemma nfree_insert t x : forall i : nat, t !! i = Some none -> x <> none -> nfree (<[i := x]> t) = nfree t - 1.
Proof.
  induction t as [|y t IH]; intros i Hi Hx; [done|]. destruct i as [|i]; cbn in *.
  - injection Hi as ->. rewrite bool_decide_eq_false_2, bool_decide_eq_true_2 by done. lia.
  - rewrite IH by done. lia.
Qed.

Lemma nfree_lset t a x : 0 <= a < lenZ t -> lget none t a = none -> x <> none -> nfree (lset t a x) = nfree t - 1.
Proof.
  intros Ha E Hx. unfold lset. rewrite (proj2 (Z.ltb_ge a 0)) by lia. apply nfree_insert; [|done].
  by rewrite (lget_lookup none), E.
Qed.

Lemma ok_used t fd : 0 <= fd < NFILES -> lget none t fd <> none -> ok t fd = true.
Proof. intros H1 H2. unfold ok. rewrite bool_decide_eq_false_2 by done. bcase; lia. Qed.

Lemma close_used t fd : 0 <= fd < NFILES -> lget none t fd <> none -> close fd t = (0, lset t fd none).
Proof. intros H1 H2. unfold close. by rewrite ok_used. Qed.

Lemma dup2_used t old new : 0 <= old < NFILES -> lget none t old <> none -> 0 <= new < NFILES -> old <> new ->
  dup2 old new t = (new, lset t new (lget none t old)).
Proof.
  intros H1 H2 H3 H4. unfold dup2. rewrite ok_used by done. cbn [negb].
  rewrite (proj2 (Z.ltb_ge new 0)), (proj2 (Z.leb_gt NFILES new)), (proj2 (Z.eqb_neq old new)) by lia. done.
Qed.

(** Two entries of different positions are written in any order; freeing an entry that was
    free before it was used gives the table back. *)
Lemma lset_swap t i j x y : i <> j -> lset (lset t i x) j y = lset (lset t j y) i x.
Proof.
  intros Hij. unfold lset. destruct (Z.ltb_spec i 0), (Z.ltb_spec j 0); try done. apply list_insert_insert_ne. lia.
Qed.
Lemma lset_free t i x : 0 <= i < lenZ t -> lget none t i = none -> lset (lset t i x) i none = t.
Proof. intros Hi E. rewrite lset_lset. rewrite <- E. by apply lset_lget_id. Qed.

(** Two free entries are enough for a pipe. *)
Lemma pipe_free t x y : lenZ t = NFILES -> 1 < nfree t -> x <> none -> exists a b, pipe x y t = (Some (a, b), lset (lset t a x) b y) /\
  0 <= a < NFILES /\ 0 <= b < NFILES /\ a <> b /\ lget none t a = none /\ lget none t b = none.
Proof.
  intros Hl Hn Hx. destruct (alloc_free t Hl) as [a Ea]; [lia|]. destruct (alloc_Some _ _ Ea) as [Ha Hz].
  destruct (alloc_free (lset t a x)) as [b Eb]; [by rewrite lenZ_lset|rewrite nfree_lset; (done || lia)|].
  destruct (alloc_Some _ _ Eb) as [Hb Hzb]. assert (a <> b) as Hab by (intros ->; rewrite lget_lset_eq in Hzb by lia; done).
  exists a, b. unfold pipe. rewrite Ea, Eb. rewrite lget_lset_ne in Hzb by done. done.
Qed.

(** A file opened, copied to another entry and closed again. *)
Lemma open_move t x d : lenZ t = NFILES -> 0 < nfree t -> x <> none -> 0 <= d < NFILES -> lget none t d <> none ->
  exists a, open x t = (a, lset t a x) /\ 0 <= a < NFILES /\ dup2 a d (lset t a x) = (d, lset (lset t a x) d x) /\
    close a (lset (lset t a x) d x) = (0, lset t d x).
Proof.
  intros Hl Hn Hx Hd Hu. destruct (alloc_free t Hl Hn) as [a Ea]. destruct (alloc_Some _ _ Ea) as [Ha Hz].
  assert (a <> d) as Had by congruence. exists a. unfold open. rewrite Ea. split; [done|]. split; [done|].
  rewrite dup2_used by (rewrite ?lget_lset_eq by lia; done). rewrite lget_lset_eq by lia. split; [done|].
  rewrite (lset_swap _ a d) by done. rewrite close_used by (rewrite ?lget_lset_eq by (rewrite lenZ_lset; lia); done).
  rewrite lset_free; [done|rewrite lenZ_lset; lia|by rewrite lget_lset_ne].
Qed.
End tables.
End Fds.
