(* ===== verification/ShellRun.v ===== *)
(** * Running a command line (user/bin/sh.c)

    The part of the shell that calls the kernel: [builtin], [run_child], [run_pipeline],
    [execute_line] and the loops of [main].  The descriptors behave as Fds.v says; what the
    kernel decides (which files can be opened, whether a pipe or a process can be made) is
    the class [Os].  A process forked by the shell runs until it becomes the command or
    leaves, on its own copy of the descriptors; [children] records the descriptors it has
    then. *)

From Stdlib Require Import String.
From stdpp Require Import base list numbers.
From S2P Require Import Prelude CString ULib Shell Fds.

#[local] Open Scope Z_scope.

Module ShellRun.
Import Shell.

(** What a descriptor refers to: an entry the shell was started with, an end of a pipe (the
    pipes are numbered as they are made), a file opened by path. *)
Inductive obj := Closed | Given (n : Z) | Reader (p : Z) | Writer (p : Z) | Opened (path : list Z) (flags : Z).

#[global] Instance obj_eq_dec : EqDecision obj.
Proof. solve_decision. Defined.

(** How a process leaves the shell's code: [_exit], the new image, or a fault (the first word
    of a command without words is a null pointer, and a name that is too long for the buffer
    of [run_child] overwrites its stack). *)
Inductive stop := Exit (code : Z) | Exec (path : list Z) (args env : list (list Z)) | Fault.

(** [waited] are the processes whose end the shell has been told, [unreaped] those it has
    started and not been told of. *)
Record child := Child { child_pid : Z; child_table : list obj; child_stop : stop }.

Record world := World {
  table : list obj; cwd : list Z; pipes : Z; forks : Z;
  children : list child; waited : list Z; unreaped : list Z; said : list (obj * list Z); toks : ring }.

Definition set_table (t : list obj) (w : world) : world :=
  World t (cwd w) (pipes w) (forks w) (children w) (waited w) (unreaped w) (said w) (toks w).

Class Os := {
  can_open : list Z -> Z -> bool;           (* a path with the flags *)
  can_pipe : Z -> bool;                     (* the pipe of that number *)
  fork_pid : Z -> Z;                        (* the result of the fork of that number *)
  can_exec : list Z -> bool;
  ends_first : list Z -> nat;               (* which of these processes is reaped first *)
  chdir_to : list Z -> list Z -> option (list Z) (* from a directory along a path *) }.

(** ** Programs: a value and the new state, or a process that has left *)

Definition M (A : Type) : Type := world -> (A + stop) * world.
#[global] Instance run_ret : MRet M := fun A a w => (inl a, w).
#[global] Instance run_bind : MBind M := fun A B g m w =>
  match m w with (inl a, w') => g a w' | (inr e, w') => (inr e, w') end.

Definition leave {A} (e : stop) : M A := fun w => (inr e, w).
Definition on_table {A} (g : list obj -> A * list obj) : M A := fun w =>
  let '(a, t) := g (table w) in (inl a, set_table t w).

Definition close (fd : Z) : M Z := on_table (Fds.close Closed fd).
Definition dup2 (old new : Z) : M Z := on_table (Fds.dup2 Closed old new).
Definition fprintf (fd : Z) (fmt : string) (args : list ULib.arg) : M unit := fun w =>
  (inl tt, World (table w) (cwd w) (pipes w) (forks w) (children w) (waited w) (unreaped w)
     (said w ++ [(lget Closed (table w) fd, ULib.printf (codes fmt) args)]) (toks w)).
Definition O_RDONLY : Z := 0.
Definition O_WRONLY : Z := 1.
Definition O_CREAT : Z := 256.
Definition O_TRUNC : Z := 512.
Definition O_APPEND : Z := 1024.

Section calls.
Context `{Os}.

Definition open (path : list Z) (flags : Z) : M Z :=
  if can_open path flags then on_table (Fds.open Closed (Opened path flags)) else mret (-1).

(** [pipe]: the two descriptors, or failure. *)
Definition pipe : M (option (Z * Z)) := fun w =>
  if can_pipe (pipes w) then
    match Fds.pipe Closed (Reader (pipes w)) (Writer (pipes w)) (table w) with
    | (Some ab, t) => (inl (Some ab), World t (cwd w) (pipes w + 1) (forks w) (children w) (waited w) (unreaped w) (said w) (toks w))
    | (None, t) => (inl None, set_table t w)
    end
  else (inl None, w).

(** [waitpid]: the kernel ignores the number it is given ([sys_wait4_impl], see WaitSpec) and
    reaps whichever child it finds dead first; with no child left it fails. *)
Definition waitpid (pid : Z) : M Z := fun w =>
  let i := (ends_first (unreaped w) mod length (unreaped w))%nat in
  match unreaped w !! i with
  | Some p => (inl p, World (table w) (cwd w) (pipes w) (forks w) (children w) (waited w ++ [p]) (delete i (unreaped w)) (said w) (toks w))
  | None => (inl (-1), w)
  end.

(** [fork] and the code of the child, which never comes back. *)
Definition fork (body : M unit) : M Z := fun w =>
  let pid := fork_pid (forks w) in
  let w1 := World (table w) (cwd w) (pipes w) (forks w + 1) (children w) (waited w) (unreaped w) (said w) (toks w) in
  if pid <? 0 then (inl pid, w1)
  else
    let '(e, wc) := body w1 in
    let e := match e with inr e => e | inl _ => Fault end in
    (inl pid, World (table w) (cwd w) (pipes w) (forks w + 1) (children w ++ [Child pid (table wc) e]) (waited w) (unreaped w ++ [pid]) (said wc) (toks w)).

Definition execve (path : list Z) (args env : list (list Z)) : M Z :=
  if can_exec path then leave (Exec path args env) else mret (-1).

Definition chdir (dir : list Z) : M Z := fun w =>
  match chdir_to (cwd w) dir with
  | Some d => (inl 0, World (table w) d (pipes w) (forks w) (children w) (waited w) (unreaped w) (said w) (toks w))
  | None => (inl (-1), w)
  end.
Definition getcwd : M (list Z) := fun w => (inl (cwd w), w).

(** ** The commands of the shell itself *)

Definition builtin (c : cmd) : M bool :=
  match argv c with
  | [] => mret true
  | name :: args =>
      if tok_is name "exit" then leave (Exit (match args with a :: _ => ULib.atoi a | [] => 0 end))
      else if tok_is name "cd" then
        let dir := match args with a :: _ => a | [] => codes "/" end in
        r ← chdir dir;
        (if r <? 0 then fprintf 2 "cd: %s: no such directory
" [ULib.AStr (Some dir)] else mret tt);;
        mret true
      else if tok_is name "pwd" then
        d ← getcwd;
        fprintf 1 "%s
" [ULib.AStr (Some d)];;
        mret true
      else mret false
  end.

(** A redirection of [run_child]: open, copy, close. *)
Definition redirect (path : list Z) (flags d : Z) : M unit :=
  fd ← open path flags;
  if fd <? 0 then fprintf 2 "sh: cannot open %s
" [ULib.AStr (Some path)];; leave (Exit 1)
  else dup2 fd d;; close fd;; mret tt.

Definition out_flags (c : cmd) : Z := Z.lor (Z.lor O_WRONLY O_CREAT) (if append c then O_APPEND else O_TRUNC).
Definition envp : list (list Z) := [codes "PATH=/bin"; codes "HOME=/"].

Definition run_child (c : cmd) : M unit :=
  (match infile c with Some f => redirect f O_RDONLY 0 | None => mret tt end);;
  (match outfile c with Some f => redirect f (out_flags c) 1 | None => mret tt end);;
  match argv c with
  | [] => leave Fault
  | name :: _ =>
      match resolve name 256 with
      | None => leave Fault
      | Some path =>
          execve path (argv c) envp;;
          fprintf 2 "sh: %s: command not found
" [ULib.AStr (Some name)];;
          leave (Exit 127)
      end
  end.

(** ** Pipelines *)

Definition when_fd (fd : Z) (m : M unit) : M unit := if 0 <=? fd then m else mret tt.

(** The child of a stage: the read end of the pipe before it and the ends of the one after. *)
Definition stage (prev_read r w : Z) (c : cmd) : M unit :=
  when_fd prev_read (dup2 prev_read 0;; close prev_read;; mret tt);;
  when_fd w (dup2 w 1;; close w;; mret tt);;
  when_fd r (close r;; mret tt);;
  run_child c;;
  leave (Exit 127).

Fixpoint stages (cmds : list cmd) (prev_read : Z) (pids : list Z) : M (option (Z * list Z)) :=
  match cmds with
  | [] => mret (Some (prev_read, pids))
  | c :: rest =>
      pfd ← (match rest with [] => mret (Some (-1, -1)) | _ => pipe end);
      match pfd with
      | None => fprintf 2 "sh: pipe failed
" [];; mret None
      | Some (r, w) =>
          pid ← fork (stage prev_read r w c);
          when_fd prev_read (close prev_read;; mret tt);;
          when_fd w (close w;; mret tt);;
          stages rest r (pids ++ [pid])
      end
  end.

Fixpoint wait_all (pids : list Z) : M unit :=
  match pids with [] => mret tt | p :: ps => waitpid p;; wait_all ps end.

Definition run_pipeline (cmds : list cmd) : M unit :=
  b ← (match cmds with [c] => builtin c | _ => mret false end);
  if b : bool then mret tt
  else
    r ← stages cmds (-1) [];
    match r with
    | None => mret tt
    | Some (prev_read, pids) => when_fd prev_read (close prev_read;; mret tt);; wait_all pids
    end.

(** ** Lines *)

Definition help : M unit :=
  fprintf 1 "builtins: cd, pwd, exit, help
" [];;
  fprintf 1 "tools: fcc fasm basic fento ls cat echo cp rm mkdir
" [];;
  fprintf 1 "features: scripts, Ctrl-C, pipes, redirection, fork/exec
" [].

Definition tokenize_line (line : list Z) : M (list (list Z)) := fun w =>
  let '(ts, r) := tokenize line (MAXARGS * 2) (toks w) in
  (inl ts, World (table w) (cwd w) (pipes w) (forks w) (children w) (waited w) (unreaped w) (said w) r).

Definition execute_line (line : list Z) : M Z :=
  let line := skip_spaces (CStr.cstring line) in
  match line with
  | [] => mret 0
  | c :: _ =>
      if c =? 35 then mret 0
      else if tok_is line "help" then help;; mret 0
      else
        ts ← tokenize_line line;
        match ts with
        | [] => mret 0
        | _ =>
            match parse_pipeline ts MAXCMDS with
            | None => fprintf 2 "sh: syntax error
" [];; mret 2
            | Some cmds => run_pipeline cmds;; mret 0
            end
        end
  end.

(** The loop over a script, with the line buffer that is kept from line to line; every turn
    takes a byte of the file or ends. *)
Fixpoint script (fuel : nat) (input line : list Z) : M unit :=
  match fuel with
  | O => mret tt
  | S f =>
      let '(n, line, input) := read_fd_line input line 512 in
      if n <? 0 then mret tt
      else (if 0 <? n then execute_line line;; mret tt else mret tt);; script f input line
  end.
Definition run_script (input line : list Z) : M unit := script (S (length input)) input line.

(** [main] with a script of the given contents; the line buffer is uninitialised. *)
Definition main_script (path content line : list Z) : M Z :=
  fd ← open path O_RDONLY;
  if fd <? 0 then fprintf 2 "sh: cannot open %s
" [ULib.AStr (Some path)];; mret 1
  else run_script content line;; close fd;; mret 0.

(** A turn of the interactive loop of [main]: the bytes typed, and those left. *)
Definition prompt (input : list Z) : M (list Z) :=
  d ← getcwd;
  fprintf 1 "%s $ " [ULib.AStr (Some d)];;
  let '(line, rest) := ULib.getline 512 input in
  match line with
  | [] => mret rest
  | c :: _ => if c =? 3 then fprintf 1 "^C
" [];; mret rest else execute_line line;; mret rest
  end.

(** ** What a pipeline should look like *)

Definition put (d : Z) (o : option obj) (t : list obj) : list obj := match o with Some x => lset t d x | None => t end.

(** The descriptors of a stage: its input is the file it names, or else the pipe before it,
    or else the shell's; its output likewise; the other descriptors are the shell's. *)
Definition plumb (T : list obj) (before after : option obj) (c : cmd) : list obj :=
  put 1 (match outfile c with Some f => Some (Opened f (out_flags c)) | None => after end)
    (put 0 (match infile c with Some f => Some (Opened f O_RDONLY) | None => before end) T).

Definition command (c : cmd) : stop :=
  match argv c with
  | [] => Fault
  | name :: _ =>
      match resolve name 256 with
      | None => Fault
      | Some path => if can_exec path then Exec path (argv c) envp else Exit 127
      end
  end.

(** A command has a name, and its path fits the buffer. *)
Definition named (c : cmd) : Prop := exists name args path, argv c = name :: args /\ resolve name 256 = Some path.

(** The processes of a pipeline, from the numbers of its first pipe and its first fork. *)
Fixpoint plan (T : list obj) (p f : Z) (before : option obj) (cmds : list cmd) : list child :=
  match cmds with
  | [] => []
  | c :: rest =>
      Child (fork_pid f) (plumb T before (match rest with [] => None | _ => Some (Writer p) end) c) (command c)
      :: plan T (p + 1) (f + 1) (Some (Reader p)) rest
  end.

Definition openable (c : cmd) : Prop :=
  (forall f, infile c = Some f -> can_open f O_RDONLY = true) /\ (forall f, outfile c = Some f -> can_open f (out_flags c) = true).

(** The tables the shell may have: 32 entries, input and output in use. *)
Record usable (T : list obj) : Prop := {
  us_len : lenZ T = 32;
  us_in : lget Closed T 0 <> Closed;
  us_out : lget Closed T 1 <> Closed }.

Lemma bind_inl {A B} (m : M A) (g : A -> M B) w a w' : m w = (inl a, w') -> (m ≫= g) w = g a w'.
Proof. intros E. unfold mbind, run_bind. by rewrite E. Qed.
Lemma bind_inr {A B} (m : M A) (g : A -> M B) w e w' : m w = (inr e, w') -> (m ≫= g) w = (inr e, w').
Proof. intros E. unfold mbind, run_bind. by rewrite E. Qed.
Lemma on_table_eq {A} (g : list obj -> A * list obj) w a t : g (table w) = (a, t) -> on_table g w = (inl a, set_table t w).
Proof. intros E. unfold on_table. by rewrite E. Qed.

(** A descriptor moved to 0 or 1. *)
Lemma move_spec t a d x w : table w = lset t a x -> lenZ t = 32 -> 0 <= a < 32 -> 0 <= d < 32 -> a <> d ->
  lget Closed t a = Closed -> x <> Closed ->
  (dup2 a d;; close a;; mret tt) w = (inl tt, set_table (lset t d x) w).
Proof.
  intros Hw Hl Ha Hd Had Hz Hx. unfold dup2.
  erewrite bind_inl; [|apply on_table_eq; rewrite Hw; apply Fds.dup2_used; rewrite ?lget_lset_eq by lia; done].
  rewrite lget_lset_eq, (Fds.lset_swap _ a d) by lia.
  unfold close. erewrite bind_inl; [|apply on_table_eq; cbn [table set_table]; apply Fds.close_used; [done|rewrite lget_lset_eq by (rewrite lenZ_lset; lia); done]].
  rewrite Fds.lset_free by (rewrite ?lenZ_lset, ?lget_lset_ne; (lia || done)). done.
Qed.

Lemma close_spec t a x w : table w = lset t a x -> lenZ t = 32 -> 0 <= a < 32 -> lget Closed t a = Closed -> x <> Closed ->
  (close a;; mret tt) w = (inl tt, set_table t w).
Proof.
  intros Hw Hl Ha Hz Hx. unfold close.
  erewrite bind_inl; [|apply on_table_eq; rewrite Hw; apply Fds.close_used; [done|rewrite lget_lset_eq by lia; done]].
  by rewrite Fds.lset_free by (done || lia).
Qed.

Lemma redirect_spec path flags d w : lenZ (table w) = 32 -> 0 < Fds.nfree Closed (table w) -> can_open path flags = true ->
  0 <= d < 32 -> lget Closed (table w) d <> Closed -> redirect path flags d w = (inl tt, set_table (lset (table w) d (Opened path flags)) w).
Proof.
  intros Hl Hf Ho Hd Hu. destruct (Fds.open_move Closed (table w) (Opened path flags) d) as (a & E1 & Ha & E2 & E3); try done.
  unfold redirect, open. rewrite Ho. erewrite bind_inl by (by apply on_table_eq).
  rewrite (proj2 (Z.ltb_ge a 0)) by lia. unfold dup2, close.
  erewrite bind_inl by (by apply on_table_eq). by erewrite bind_inl by (by apply on_table_eq).
Qed.

Lemma nfree_used t d x : lenZ t = 32 -> 0 <= d < 32 -> lget Closed t d <> Closed -> x <> Closed -> Fds.nfree Closed (lset t d x) = Fds.nfree Closed t.
Proof.
  intros Hl Hd Hu Hx. pose proof (Fds.nfree_lset Closed (lset t d Closed) d x) as H1. rewrite lenZ_lset, lset_lset in H1.
  rewrite H1; [|lia|rewrite lget_lset_eq; [done|lia]|done].
  pose proof (Fds.nfree_lset Closed (lset t d Closed) d (lget Closed t d)) as H2. rewrite lenZ_lset, lset_lset, lset_lget_id in H2 by lia.
  rewrite H2; [done|lia|rewrite lget_lset_eq; [done|lia]|done].
Qed.

Lemma usable_set T d x : usable T -> 0 <= d < 32 -> x <> Closed -> usable (lset T d x).
Proof.
  intros [Hl H0 H1] Hd Hx. constructor; [by rewrite lenZ_lset| |]; rewrite lget_lset by lia; destruct (d =? _); done.
Qed.

(** The end of a child: it opens its files and becomes the command. *)
Lemma run_child_spec c w : usable (table w) -> 0 < Fds.nfree Closed (table w) -> openable c ->
  exists w', run_child c w = (inr (command c), w') /\ table w' = plumb (table w) None None c.
Proof.
  intros HT Hf [Hi Ho]. unfold run_child, plumb.
  assert (exists w1, match infile c with Some f => redirect f O_RDONLY 0 | None => mret tt end w = (inl tt, w1) /\
    table w1 = put 0 (match infile c with Some f => Some (Opened f O_RDONLY) | None => None end) (table w)) as (w1 & E1 & Ht1).
  { destruct (infile c) as [f|]; [|by exists w]. eexists. split; [apply redirect_spec|reflexivity]; try done; [apply HT|by apply Hi|apply HT]. }
  rewrite (bind_inl _ _ _ _ _ E1). set (t1 := put 0 _ _) in *.
  assert (usable t1 /\ Fds.nfree Closed t1 = Fds.nfree Closed (table w)) as [HT1 Hf1].
  { subst t1. destruct (infile c); cbn [put]; [|done]. split; [by apply usable_set|]. apply nfree_used; try done; apply HT. }
  assert (exists w2, match outfile c with Some f => redirect f (out_flags c) 1 | None => mret tt end w1 = (inl tt, w2) /\
    table w2 = put 1 (match outfile c with Some f => Some (Opened f (out_flags c)) | None => None end) t1) as (w2 & E2 & Ht2).
  { destruct (outfile c) as [f|]; [|by exists w1]. eexists. rewrite <- Ht1 in HT1, Hf1 |- *. split; [apply redirect_spec|reflexivity]; try done; [apply HT1|lia|by apply Ho|apply HT1]. }
  rewrite (bind_inl _ _ _ _ _ E2). rewrite <- Ht2. unfold command, execve. destruct (argv c) as [|name args]; [by exists w2|].
  destruct (resolve name 256) as [path|]; [|by exists w2].
  destruct (can_exec path); eexists; (split; [reflexivity|done]).
Qed.

Lemma plumb_merge T before after c : plumb (put 1 after (put 0 before T)) None None c = plumb T before after c.
Proof.
  unfold plumb. destruct (infile c), (outfile c), before, after; cbn [put];
    rewrite ?(Fds.lset_swap _ 1 0), ?lset_lset, ?(Fds.lset_swap _ 1 0), ?lset_lset by done; done.
Qed.

Definition free (T : list obj) (fd : Z) : Prop := 0 <= fd < 32 /\ lget Closed T fd = Closed.

(** A pipe end held at a descriptor that was free before, or no pipe. *)
Inductive held (T : list obj) : Z -> option obj -> Prop :=
| held_not : held T (-1) None
| held_at fd x : free T fd -> x <> Closed -> held T fd (Some x).

Lemma put_swap t i j a b : i <> j -> put i a (put j b t) = put j b (put i a t).
Proof. intros Hij. destruct a, b; cbn [put]; try done. by rewrite Fds.lset_swap. Qed.
Lemma lenZ_put t i a : lenZ (put i a t) = lenZ t.
Proof. destruct a; cbn [put]; [apply lenZ_lset|done]. Qed.
Lemma lget_put_ne t i j a : i <> j -> lget Closed (put i a t) j = lget Closed t j.
Proof. intros Hij. destruct a; cbn [put]; [by apply lget_lset_ne|done]. Qed.
Lemma free_not T fd : usable T -> free T fd -> fd <> 0 /\ fd <> 1.
Proof. intros [_ H0 H1] [_ Hz]. split; intros ->; done. Qed.

(** An end held at [fd] is moved to [d], or is closed, beside the others. *)
Lemma when_move T fd o d rest w : usable T -> held T fd o -> table w = put fd o rest -> lenZ rest = 32 ->
  lget Closed rest fd = lget Closed T fd -> d = 0 \/ d = 1 ->
  when_fd fd (dup2 fd d;; close fd;; mret tt) w = (inl tt, set_table (put d o rest) w).
Proof.
  intros HT Hh Hw Hl Hg Hd. unfold when_fd. destruct Hh as [|fd x [Hf Hz] Hx]; cbn [put] in *.
  - rewrite <- Hw. by destruct w.
  - destruct (free_not T fd HT (conj Hf Hz)). rewrite (proj2 (Z.leb_le 0 fd)) by lia. apply move_spec; try done; [lia|lia|congruence].
Qed.
Lemma when_close T fd o rest w : held T fd o -> table w = put fd o rest -> lenZ rest = 32 ->
  lget Closed rest fd = lget Closed T fd -> when_fd fd (close fd;; mret tt) w = (inl tt, set_table rest w).
Proof.
  intros Hh Hw Hl Hg. unfold when_fd. destruct Hh as [|fd x [Hf Hz] Hx]; cbn [put] in *.
  - rewrite <- Hw. by destruct w.
  - rewrite (proj2 (Z.leb_le 0 fd)) by lia. apply (close_spec _ _ x); try done. congruence.
Qed.

Lemma held_far T fd o : usable T -> held T fd o -> fd <> 0 /\ fd <> 1.
Proof. intros HT [|fd' x Hf _]; [lia|]. by apply (free_not T). Qed.

Lemma usable_put T d o : usable T -> (d = 0 \/ d = 1) -> o <> Some Closed -> usable (put d o T).
Proof. intros HT Hd Ho. destruct o as [x|]; cbn [put]; [|done]. apply usable_set; [done|lia|congruence]. Qed.
Lemma held_obj T fd o : held T fd o -> o <> Some Closed.
Proof. intros [|? x _ Hx]; congruence. Qed.
Lemma nfree_put T d o : usable T -> (d = 0 \/ d = 1) -> o <> Some Closed -> Fds.nfree Closed (put d o T) = Fds.nfree Closed T.
Proof.
  intros [Hl H0 H1] Hd Ho. destruct o as [x|]; cbn [put]; [|done]. apply nfree_used; [done|lia| |congruence]. by destruct Hd as [->| ->].
Qed.

Lemma stage_spec T prev before r rd wr after c w : usable T -> 0 < Fds.nfree Closed T -> openable c ->
  held T prev before -> held T r rd -> held T wr after -> (before <> None -> prev <> r /\ prev <> wr) -> (rd <> None -> r <> wr) ->
  table w = put wr after (put r rd (put prev before T)) ->
  exists w', stage prev r wr c w = (inr (command c), w') /\ table w' = plumb T before after c.
Proof.
  intros HT Hf Ho Hp Hr Hw Hne Hrw Ht. unfold stage.
  pose proof (held_far _ _ _ HT Hp) as [Hp0 Hp1]. pose proof (held_far _ _ _ HT Hr) as [Hr0 Hr1]. pose proof (held_far _ _ _ HT Hw) as [Hw0 Hw1].
  pose proof (held_obj _ _ _ Hp) as Hpo. pose proof (held_obj _ _ _ Hw) as Hwo.
  assert (lenZ T = 32) as Hl by apply HT.
  assert (table w = put prev before (put wr after (put r rd T)) /\ lget Closed (put wr after (put r rd T)) prev = lget Closed T prev) as [Ht1 Hg1].
  { rewrite Ht. destruct before as [x|]; cbn [put].
    - destruct Hne as [N1 N2]; [done|]. split; [|by rewrite !lget_put_ne by done].
      change (lset ?t prev x) with (put prev (Some x) t). by rewrite (put_swap _ r prev), (put_swap _ wr prev).
    - split; [done|]. inversion Hp; subst. unfold lget. done. }
  rewrite (bind_inl _ _ _ _ _ (when_move T prev before 0 _ w HT Hp Ht1 ltac:(by rewrite !lenZ_put) Hg1 (or_introl eq_refl))).
  assert (put 0 before (put wr after (put r rd T)) = put wr after (put r rd (put 0 before T))) as E0 by (by rewrite (put_swap _ 0 wr), (put_swap _ 0 r)).
  rewrite E0.
  assert (lget Closed (put r rd (put 0 before T)) wr = lget Closed T wr) as Hg2.
  { destruct rd as [y|]; [pose proof (Hrw ltac:(done)); by rewrite !lget_put_ne by lia|]. cbn [put]. by rewrite lget_put_ne by lia. }
  erewrite bind_inl; [|apply (when_move T wr after 1 (put r rd (put 0 before T)) _ HT Hw); [reflexivity|by rewrite !lenZ_put|done|by right]].
  erewrite bind_inl; [|apply (when_close T r rd (put 1 after (put 0 before T)) _ Hr); [cbn [table set_table]; by rewrite put_swap|by rewrite !lenZ_put|by rewrite !lget_put_ne]].
  destruct (run_child_spec c (set_table (put 1 after (put 0 before T)) (set_table (put 1 after (put r rd (put 0 before T))) (set_table (put wr after (put r rd (put 0 before T))) w)))) as (w' & E & Ew);
    [cbn [table set_table]; by apply usable_put; [apply usable_put; [|left|]|right|]|cbn [table set_table]; rewrite !nfree_put; (done || (by left) || (by right) || apply usable_put; (done || by left))|done|].
  exists w'. split; [by apply bind_inr|]. rewrite Ew. cbn [table set_table]. apply plumb_merge.
Qed.

Lemma fork_spec body w e t : 0 <= fork_pid (forks w) ->
  (exists wc, body (World (table w) (cwd w) (pipes w) (forks w + 1) (children w) (waited w) (unreaped w) (said w) (toks w)) = (inr e, wc) /\ table wc = t) ->
  exists sd, fork body w = (inl (fork_pid (forks w)),
    World (table w) (cwd w) (pipes w) (forks w + 1) (children w ++ [Child (fork_pid (forks w)) t e]) (waited w) (unreaped w ++ [fork_pid (forks w)]) sd (toks w)).
Proof.
  intros Hp (wc & E & <-). exists (said wc). unfold fork. rewrite E. by rewrite (proj2 (Z.ltb_ge _ 0)).
Qed.

(** What the kernel grants: pipes, processes and the files of the commands. *)
Record granted (cmds : list cmd) : Prop := {
  gr_pipe : forall p, can_pipe p = true;
  gr_fork : forall f, 0 <= fork_pid f;
  gr_open : Forall openable cmds }.

(** The pipe of a stage that is not the last, beside the end of the pipe before it. *)
Lemma next_pipe T prev before w : usable T -> 3 <= Fds.nfree Closed T -> held T prev before -> table w = put prev before T -> can_pipe (pipes w) = true ->
  exists a b, pipe w = (inl (Some (a, b)), World (put b (Some (Writer (pipes w))) (put a (Some (Reader (pipes w))) (put prev before T)))
      (cwd w) (pipes w + 1) (forks w) (children w) (waited w) (unreaped w) (said w) (toks w)) /\
    free T a /\ free T b /\ a <> b /\ (before <> None -> prev <> a /\ prev <> b).
Proof.
  intros HT Hn Hh Ht Hc. unfold pipe. rewrite Hc, Ht.
  assert (lenZ (put prev before T) = 32 /\ 1 < Fds.nfree Closed (put prev before T)) as [Hl Hf].
  { rewrite lenZ_put. split; [apply HT|]. destruct Hh as [|fd x [H1 H2] Hx]; cbn [put]; [lia|]. rewrite Fds.nfree_lset; [lia|rewrite (us_len T HT); lia|done|done]. }
  destruct (Fds.pipe_free Closed (put prev before T) (Reader (pipes w)) (Writer (pipes w)) Hl Hf) as (a & b & E & Ha & Hb & Hab & Za & Zb); [done|].
  exists a, b. rewrite E. split; [done|]. unfold free.
  destruct Hh as [|fd x [H1 H2] Hx]; cbn [put] in *; [by repeat split; try (by apply Ha || by apply Hb)|].
  assert (fd <> a) by (intros ->; by rewrite lget_lset_eq in Za by (rewrite (us_len T HT); lia)).
  assert (fd <> b) by (intros ->; by rewrite lget_lset_eq in Zb by (rewrite (us_len T HT); lia)).
  rewrite lget_lset_ne in Za, Zb by done. by repeat split; try (by apply Ha || by apply Hb).
Qed.

(** A stage that is not the last: afterwards the shell holds the read end of its pipe. *)
Lemma stage_step T prev before pids c rest w : rest <> [] -> usable T -> 3 <= Fds.nfree Closed T -> held T prev before -> table w = put prev before T ->
  openable c -> can_pipe (pipes w) = true -> 0 <= fork_pid (forks w) ->
  exists a w1, stages (c :: rest) prev pids w = stages rest a (pids ++ [fork_pid (forks w)]) w1 /\
    free T a /\ table w1 = put a (Some (Reader (pipes w))) T /\ pipes w1 = pipes w + 1 /\ forks w1 = forks w + 1 /\ waited w1 = waited w /\ unreaped w1 = unreaped w ++ [fork_pid (forks w)] /\
    children w1 = children w ++ [Child (fork_pid (forks w)) (plumb T before (Some (Writer (pipes w))) c) (command c)].
Proof.
  intros Hne HT Hn Hh Ht Ho Gp Gf. destruct rest as [|c2 rest]; [done|]. assert (lenZ T = 32) as Hl by apply HT. cbn [stages].
  destruct (next_pipe T prev before w HT Hn Hh Ht Gp) as (a & b & E & Ha & Hb & Hab & Hpab).
  rewrite (bind_inl _ _ _ _ _ E). set (w1 := World _ _ _ _ _ _ _ _ _).
  destruct (fork_spec (stage prev a b c) w1 (command c) (plumb T before (Some (Writer (pipes w))) c) Gf) as [sd E1].
  { apply (stage_spec T prev before a (Some (Reader (pipes w))) b (Some (Writer (pipes w))) c); try done; try (by constructor). lia. }
  rewrite (bind_inl _ _ _ _ _ E1). clear E1.
  erewrite bind_inl; [|apply (when_close T prev before (put b (Some (Writer (pipes w))) (put a (Some (Reader (pipes w))) T)) _ Hh);
    [cbn [table w1]; destruct before as [x|]; [|done]; destruct Hpab as [N1 N2]; [done|]; by rewrite (put_swap _ a prev), (put_swap _ b prev) by done
    |by rewrite !lenZ_put
    |destruct before as [x|]; [destruct Hpab as [N1 N2]; [done|]; by rewrite !lget_put_ne by done|inversion Hh; subst; by unfold lget]]].
  assert (held T b (Some (Writer (pipes w)))) as Hhb by (by constructor).
  erewrite bind_inl; [|apply (when_close T b (Some (Writer (pipes w))) (put a (Some (Reader (pipes w))) T) _ Hhb);
    [done|by rewrite lenZ_put|by rewrite lget_put_ne by done]].
  eexists a, _. split; [reflexivity|]. done.
Qed.

Lemma stages_spec T cmds : forall prev before pids w, cmds <> [] -> granted cmds -> usable T -> 3 <= Fds.nfree Closed T ->
  held T prev before -> table w = put prev before T ->
  exists w', stages cmds prev pids w = (inl (Some (-1, pids ++ map child_pid (plan T (pipes w) (forks w) before cmds))), w') /\
    table w' = T /\ children w' = children w ++ plan T (pipes w) (forks w) before cmds /\ waited w' = waited w /\
    unreaped w' = unreaped w ++ map child_pid (plan T (pipes w) (forks w) before cmds).
Proof.
  induction cmds as [|c rest IH]; intros prev before pids w Hne Hgr HT Hn Hh Ht; [done|].
  destruct Hgr as [Gp Gf Go]. inversion Go as [|? ? Ho Hor]; subst.
  assert (lenZ T = 32) as Hl by apply HT. destruct rest as [|c2 rest].
  - cbn [stages plan]. rewrite (bind_inl _ _ w (Some (-1, -1)) w) by done.
    destruct (fork_spec (stage prev (-1) (-1) c) w (command c) (plumb T before None c) (Gf _)) as [sd E].
    { apply (stage_spec T prev before (-1) None (-1) None c); try done; try (by constructor); [lia|destruct Hh as [|fd x [? ?] ?]; [done|lia]]. }
    rewrite (bind_inl _ _ _ _ _ E). erewrite bind_inl; [|apply (when_close T prev before T); done].
    rewrite (bind_inl _ _ _ tt (set_table T (World (table w) (cwd w) (pipes w) (forks w + 1) (children w ++ [Child (fork_pid (forks w)) (plumb T before None c) (command c)]) (waited w) (unreaped w ++ [fork_pid (forks w)]) sd (toks w)))) by done.
    eexists. split; [reflexivity|]. done.
  - destruct (stage_step T prev before pids c (c2 :: rest) w) as (a & w1 & E1 & Ha & T1 & P1 & F1 & W1 & U1 & C1); try done.
    destruct (IH a (Some (Reader (pipes w))) (pids ++ [fork_pid (forks w)]) w1) as (w' & E2 & T2 & C2 & W2 & U2); try done; [by constructor|].
    exists w'. change (plan T (pipes w) (forks w) before (c :: c2 :: rest)) with
      (Child (fork_pid (forks w)) (plumb T before (Some (Writer (pipes w))) c) (command c) :: plan T (pipes w + 1) (forks w + 1) (Some (Reader (pipes w))) (c2 :: rest)).
    rewrite E1, E2, T2, W2, U2, U1, C2, C1, P1, F1, W1. cbn [map child_pid]. rewrite <- !app_assoc. done.
Qed.

(** As many calls as there are children reap them all, in some order. *)
Lemma wait_all_spec pids : forall w, length pids = length (unreaped w) ->
  exists w' l, wait_all pids w = (inl tt, w') /\ table w' = table w /\ children w' = children w /\
    waited w' = waited w ++ l /\ l ≡ₚ unreaped w /\ unreaped w' = [].
Proof.
  induction pids as [|p ps IH]; intros w Hl; cbn [wait_all].
  - exists w, []. rewrite app_nil_r. destruct (unreaped w); [|done]. done.
  - set (i := (ends_first (unreaped w) mod length (unreaped w))%nat).
    assert (i < length (unreaped w))%nat as Hi by (apply Nat.mod_upper_bound; cbn in Hl; lia).
    destruct (lookup_lt_is_Some_2 _ _ Hi) as [x Hx].
    assert (waitpid p w = (inl x, World (table w) (cwd w) (pipes w) (forks w) (children w) (waited w ++ [x]) (delete i (unreaped w)) (said w) (toks w))) as E
      by (unfold waitpid; fold i; by rewrite Hx).
    rewrite (bind_inl _ _ _ _ _ E). clear E. set (w1 := World _ _ _ _ _ _ _ _ _).
    destruct (IH w1) as (w' & l & E & H1 & H2 & H3 & H4 & H5).
    { cbn [unreaped w1]. rewrite length_delete by done. cbn in Hl. lia. }
    exists w', (x :: l). cbn [table children waited unreaped w1] in *. rewrite E, H1, H2, H3, <- app_assoc. split_and!; try done.
    rewrite H4. symmetry. by apply delete_Permutation.
Qed.

(** Commands that are not the shell's own. *)
Definition external (cmds : list cmd) (w : world) : Prop :=
  match cmds with [] => False | [c] => builtin c w = (inl false, w) | _ => True end.

Lemma run_pipeline_spec cmds w : external cmds w -> granted cmds -> usable (table w) -> 3 <= Fds.nfree Closed (table w) -> unreaped w = [] ->
  exists w' l, run_pipeline cmds w = (inl tt, w') /\ table w' = table w /\
    children w' = children w ++ plan (table w) (pipes w) (forks w) None cmds /\
    waited w' = waited w ++ l /\ l ≡ₚ map child_pid (plan (table w) (pipes w) (forks w) None cmds) /\ unreaped w' = [].
Proof.
  intros Hb Hgr HT Hn Hu. unfold run_pipeline.
  rewrite (bind_inl _ _ w false w) by (by destruct cmds as [|c [|]]).
  destruct (stages_spec (table w) cmds (-1) None [] w) as (w1 & E & T1 & C1 & W1 & U1); try done; [by destruct cmds|constructor|].
  rewrite (bind_inl _ _ _ _ _ E). cbn [app]. rewrite (bind_inl _ _ w1 tt w1) by done.
  rewrite Hu in U1. cbn [app] in U1.
  destruct (wait_all_spec (map child_pid (plan (table w) (pipes w) (forks w) None cmds)) w1) as (w' & l & E2 & T2 & C2 & W2 & L2 & U2); [by rewrite U1|].
  exists w', l. rewrite E2, T2, C2, W2, T1, C1, W1, U2. by rewrite U1 in L2.
Qed.

(** The line is neither a comment nor [help]. *)
Definition plain_line (line : list Z) : Prop :=
  match skip_spaces line with 35 :: _ => False | s => tok_is s "help" = false end.

Lemma builtin_toks c w r : builtin c w = (inl false, w) ->
  builtin c (World (table w) (cwd w) (pipes w) (forks w) (children w) (waited w) (unreaped w) (said w) r) =
    (inl false, World (table w) (cwd w) (pipes w) (forks w) (children w) (waited w) (unreaped w) (said w) r).
Proof.
  unfold builtin. destruct (argv c) as [|name args]; [done|].
  destruct (tok_is name "exit"); [done|]. destruct (tok_is name "cd").
  - unfold mbind, run_bind, chdir. destruct (chdir_to _ _); intros E; apply (f_equal fst) in E; discriminate E.
  - destruct (tok_is name "pwd"); [|done]. intros E. apply (f_equal fst) in E. discriminate E.
Qed.

(** The ends of pipes in a table are of pipes made before number [p]. *)
Definition older (p : Z) (T : list obj) : Prop := forall fd q, lget Closed T fd = Reader q \/ lget Closed T fd = Writer q -> q < p.

(** Of the pipes from number [p] on, the [i]-th process holds at most the one that ends with
    it, for reading as descriptor 0, and the one that starts with it, for writing as
    descriptor 1. *)
Definition only_own (p i : Z) (x : child) : Prop := forall fd q, p <= q ->
  (lget Closed (child_table x) fd = Reader q -> fd = 0 /\ q = p + i - 1) /\
  (lget Closed (child_table x) fd = Writer q -> fd = 1 /\ q = p + i).

Lemma plumb_get T before after c fd : lenZ T = 32 -> let t := plumb T before after c in
  lget Closed t fd = lget Closed T fd \/ (exists f fl, lget Closed t fd = Opened f fl) \/
  fd = 0 /\ before = Some (lget Closed t fd) \/ fd = 1 /\ after = Some (lget Closed t fd).
Proof.
  intros Hl. cbv zeta. unfold plumb. set (o1 := match outfile c with Some _ => _ | None => _ end). set (o0 := match infile c with Some _ => _ | None => _ end).
  destruct (decide (fd = 1)) as [->|].
  { destruct o1 as [x|] eqn:E; cbn [put]; [rewrite lget_lset_eq by (rewrite lenZ_put; lia)|left; by rewrite lget_put_ne].
    subst o1. destruct (outfile c); [injection E as <-; right; left; by eexists _, _|]. by right; right; right. }
  rewrite lget_put_ne by done. destruct (decide (fd = 0)) as [->|]; [|rewrite lget_put_ne by done; by left].
  destruct o0 as [x|] eqn:E; cbn [put]; [rewrite lget_lset_eq by lia|by left].
  subst o0. destruct (infile c); [injection E as <-; right; left; by eexists _, _|]. by right; right; left.
Qed.

Lemma plan_runs T cmds : forall p f before i x, Forall named cmds -> plan T p f before cmds !! i = Some x -> child_stop x <> Fault.
Proof.
  induction cmds as [|c rest IH]; intros p f before i x Hn Hx; cbn [plan] in Hx; [done|]. apply Forall_cons_1 in Hn as [Hc Hr].
  destruct i as [|i]; cbn in Hx; [|by eapply IH]. injection Hx as <-. cbn [child_stop]. destruct Hc as (name & args & path & E1 & E2).
  unfold command. rewrite E1, E2. by destruct (can_exec path).
Qed.

Lemma plan_own T p0 cmds : lenZ T = 32 -> older p0 T -> forall i f before x (k : nat), 0 <= i ->
  (before = None \/ before = Some (Reader (p0 + i - 1))) -> plan T (p0 + i) f before cmds !! k = Some x -> only_own p0 (i + Z.of_nat k) x.
Proof.
  intros Hl Hold. induction cmds as [|c rest IH]; intros i f before x k Hi Hb Hx; cbn [plan] in Hx; [done|].
  destruct k as [|k]; cbn in Hx.
  - injection Hx as <-. intros fd q Hq. cbn [child_table].
    destruct (plumb_get T before (match rest with [] => None | _ => Some (Writer (p0 + i)) end) c fd Hl) as [E|[(g & fl & E)|[[-> E]|[-> E]]]].
    + rewrite E. split; intros E2; (assert (q < p0) by (apply (Hold fd); auto)); lia.
    + rewrite E. done.
    + destruct Hb as [->| ->]; [done|]. injection E as E. rewrite <- E. split; [|done]. intros [= <-]. split; [done|lia].
    + destruct rest; [done|]. injection E as E. rewrite <- E. split; [done|]. intros [= <-]. split; [done|lia].
  - replace (i + Z.of_nat (S k)) with (i + 1 + Z.of_nat k) by lia. replace (p0 + i + 1) with (p0 + (i + 1)) in Hx by lia.
    apply (IH (i + 1) (f + 1) (Some (Reader (p0 + i))) x k); [lia|right; do 2 f_equal; lia|done].
Qed.

(** C7: A line that gives a pipeline of commands that are not the shell's own, each with a
    name that fits the buffer for its path, with what they need granted by the kernel, in a
    shell that has reaped its earlier children, runs as planned: every command gets the file
    it names or the neighbouring pipe as input and output and the shell's other descriptors,
    and of the pipes of this line holds at most those two ends, so that the readers see the
    end of their input; the shell's own table is as before, with no end of these pipes in it;
    and although the kernel ignores the numbers the shell waits for and reaps the processes
    in any order, every process of the line, and nothing else, has been reaped at the end. *)
Theorem execute_line_correct cmds line w : external cmds w -> granted cmds -> Forall named cmds -> usable (table w) -> 3 <= Fds.nfree Closed (table w) ->
  older (pipes w) (table w) -> unreaped w = [] ->
  lenZ cmds <= MAXCMDS -> Forall good_cmd cmds -> lenZ (unparse cmds) <= 63 -> unparse cmds <> [] ->
  spaced (unparse cmds) line -> plain_line line -> lenZ (ops (toks w)) = RING ->
  let processes := plan (table w) (pipes w) (forks w) None cmds in
  exists w' order, execute_line line w = (inl 0, w') /\ table w' = table w /\ children w' = children w ++ processes /\
    (forall i x, processes !! i = Some x -> child_stop x <> Fault /\ only_own (pipes w) (Z.of_nat i) x) /\
    waited w' = waited w ++ order /\ order ≡ₚ map child_pid processes /\ unreaped w' = [].
Proof.
  intros Hb Hgr Hnm HT Hn Hold Hur Hl Hg Hu Hne Hs Hp Hr processes. unfold execute_line, plain_line in *. rewrite (spaced_string _ _ Hs).
  pose proof (spaced_skip _ _ Hs) as Hs'. set (s := skip_spaces line) in *.
  assert (cmds <> []) as Hcs by (by destruct cmds).
  destruct (parse_line_spec cmds s (toks w) Hcs Hl Hg Hu Hs' Hr) as [Et Ep].
  assert (exists c s', s = c :: s' /\ c <> 35) as (c & s' & Es & Hc).
  { destruct s as [|c s']; [inversion Hs'; subst; [congruence|]|].
    - destruct b; [|done]. destruct t; [|done]. destruct (good_first [] ltac:(done)) as (? & ? & ? & _); done.
    - exists c, s'. split; [done|]. intros ->. done. }
  assert (tok_is s "help" = false) as Hh.
  { rewrite Es in Hp |- *. destruct c as [|c|c]; try done. do 6 (destruct c as [c|c|]; try done). }
  rewrite Hh. rewrite Es in *. rewrite (proj2 (Z.eqb_neq c 35)) by done. rewrite <- Es in *.
  erewrite bind_inl; [|unfold tokenize_line; rewrite Et; reflexivity].
  destruct (unparse cmds) as [|t0 ts0] eqn:Eu; [done|]. rewrite Ep. set (w1 := World _ _ _ _ _ _ _ _ _).
  destruct (run_pipeline_spec cmds w1) as (w' & l & E & H1 & H2 & H3 & H4 & H5); try done.
  { unfold external in *. destruct cmds as [|c0 [|]]; try done. by apply builtin_toks. }
  exists w', l. rewrite (bind_inl _ _ _ _ _ E). split_and!; try done. intros i x Hx. split; [by apply (plan_runs _ _ _ _ _ _ _ Hnm Hx)|].
  apply (plan_own (table w) (pipes w) cmds (us_len _ HT) Hold 0 (forks w) None x i); [lia|by left|]. by rewrite Z.add_0_r.
Qed.

(** When the second pipe of a longer pipeline cannot be made, the shell gives up with the
    read end of the first pipe still open and without waiting for the process it has
    started. *)
Theorem pipe_failure_leaks c1 c2 c3 rest w : usable (table w) -> 3 <= Fds.nfree Closed (table w) -> openable c1 ->
  can_pipe (pipes w) = true -> can_pipe (pipes w + 1) = false -> 0 <= fork_pid (forks w) ->
  exists fd w', run_pipeline (c1 :: c2 :: c3 :: rest) w = (inl tt, w') /\ free (table w) fd /\
    table w' = lset (table w) fd (Reader (pipes w)) /\ waited w' = waited w /\ unreaped w' = unreaped w ++ [fork_pid (forks w)].
Proof.
  intros HT Hn Ho Hp Hp2 Hf. unfold run_pipeline. rewrite (bind_inl _ _ w false w) by done.
  destruct (stage_step (table w) (-1) None [] c1 (c2 :: c3 :: rest) w) as (a & w1 & E1 & Ha & T1 & P1 & F1 & W1 & U1 & C1); try done; [constructor|].
  assert (exists w2, stages (c2 :: c3 :: rest) a ([] ++ [fork_pid (forks w)]) w1 = (inl None, w2) /\ table w2 = table w1 /\ waited w2 = waited w1 /\ unreaped w2 = unreaped w1) as (w2 & E2 & T2 & W2 & U2).
  { cbn [stages]. erewrite bind_inl; [|unfold pipe; rewrite P1, Hp2; reflexivity]. eexists. split; [reflexivity|]. done. }
  rewrite (bind_inl _ _ w None w2) by (by rewrite E1). exists a, w2. split; [done|]. split; [done|].
  by rewrite T2, T1, W2, W1, U2, U1.
Qed.
End calls.

(** ** A shell with a console on its three descriptors *)

Definition demo_table : list obj := Given 0 :: Given 0 :: Given 0 :: replicate 29 Closed.
Definition demo_world : world := World demo_table (codes "/") 5 2 [] [] [] [] demo_ring.
Definition short_of_pipes : Os := {|
  can_open := fun _ _ => true; can_pipe := fun p => p <? 6; fork_pid := fun f => 3; can_exec := fun _ => true; ends_first := fun l => 1%nat; chdir_to := fun _ _ => None |}.
Definition demo_os : Os := {|
  can_open := fun _ _ => true; can_pipe := fun _ => true; fork_pid := fun f => Z.abs f; can_exec := fun _ => true; ends_first := fun l => 1%nat; chdir_to := fun _ _ => None |}.

Lemma demo_usable : usable demo_table.
Proof. by constructor. Qed.
Lemma demo_older p : older p demo_table.
Proof.
  assert (Forall (fun o => o = Given 0 \/ o = Closed) demo_table) as H.
  { do 3 (constructor; [by left|]). apply Forall_replicate. by right. }
  intros fd q Hq. unfold lget in Hq. destruct (_ <? 0) eqn:?; [by destruct Hq|]. exfalso. revert Hq.
  destruct (demo_table !! Z.to_nat fd) as [o|] eqn:E.
  - rewrite (nth_lookup_Some _ _ Closed _ E). destruct (Forall_lookup_1 _ _ _ _ H E) as [->| ->]; by intros [|].
  - rewrite nth_overflow by (by apply lookup_ge_None). by intros [|].
Qed.

(** The processes of [cat -n < a | wc >> b]. *)
Lemma execute_line_correct_witness : exists w' order, @execute_line demo_os demo_line demo_world = (inl 0, w') /\
  table w' = demo_table /\ waited w' = order /\ order ≡ₚ [2; 3] /\ unreaped w' = [] /\
  children w' = [
    Child 2 (Opened (codes "a") 0 :: Writer 5 :: Given 0 :: replicate 29 Closed) (Exec (codes "/bin/cat") [codes "cat"; codes "-n"] envp);
    Child 3 (Reader 5 :: Opened (codes "b") 1281 :: Given 0 :: replicate 29 Closed) (Exec (codes "/bin/wc") [codes "wc"] envp)].
Proof.
  destruct (@execute_line_correct demo_os demo_cmds demo_line demo_world) as (w' & order & E & H1 & H2 & _ & H3 & H4 & H5).
  - exact I.
  - constructor; [done|cbn; lia|]. repeat constructor; done.
  - constructor; [eexists _, _, _; split; reflexivity|]. constructor; [eexists _, _, _; split; reflexivity|constructor].
  - apply demo_usable.
  - vm_compute. discriminate.
  - apply demo_older.
  - reflexivity.
  - vm_compute. discriminate.
  - apply demo_cmds_good.
  - vm_compute. discriminate.
  - discriminate.
  - apply demo_spaced.
  - reflexivity.
  - reflexivity.
  - exists w', order. split; [exact E|]. split; [exact H1|]. rewrite H2, H3. split; [reflexivity|]. split; [exact H4|]. split; [exact H5|reflexivity].
Defined.

Lemma pipe_failure_leaks_witness : exists fd w',
  @run_pipeline short_of_pipes [zero_cmd; zero_cmd; zero_cmd] demo_world = (inl tt, w') /\ free demo_table fd /\
  table w' = lset demo_table fd (Reader 5) /\ waited w' = [] /\ unreaped w' = [3].
Proof.
  destruct (@pipe_failure_leaks short_of_pipes zero_cmd zero_cmd zero_cmd [] demo_world) as (fd & w' & E & H1 & H2 & H3 & H4);
    [apply demo_usable|vm_compute; discriminate|split; discriminate|reflexivity|reflexivity|cbn; lia|].
  exists fd, w'. split; [exact E|]. split; [exact H1|]. split; [exact H2|]. split; [exact H3|exact H4].
Defined.
End ShellRun.
