(* ===== verification/Basic.v ===== *)
(** * BASIC: expressions (user/bin/basic.c)

    The recursive-descent evaluator [factor], [term], [expr] on the rest [s] of the text at
    [ep].  Arithmetic wraps at 32 bits; the division of the least integer by -1 is the
    processor's divide error.  The evaluator is shown to end on every text, and to compute the
    value of the expression that a text denotes by the usual grammar, blanks, parentheses,
    precedence and associativity included. *)

From Stdlib Require Import String Ascii.
From stdpp Require Import base list numbers.
From S2P Require Import Prelude CString ULib.

#[local] Open Scope Z_scope.

Module Basic.
Import ULib.

(** The characters of a keyword or message. *)
Definition text (s : string) : list Z := map (fun c => Z.of_N (N_of_ascii c)) (list_ascii_of_string s).

Definition is_blank (c : Z) : bool := (c =? 32) || (c =? 9).
Fixpoint skip (s : list Z) : list Z :=
  match s with
  | c :: s' => if is_blank c then skip s' else s
  | [] => []
  end.

(** A value and the text that follows, a divide error, or too little fuel. *)
Inductive out := Val (v : Z) (s : list Z) | Trap | Fuel.
Definition andthen (o : out) (k : Z -> list Z -> out) : out :=
  match o with Val v s => k v s | Trap => Trap | Fuel => Fuel end.

Fixpoint number (v : Z) (s : list Z) : Z * list Z :=
  match s with
  | c :: s' => if isdigit c then number (i32 (v * 10 + c - 48)) s' else (v, s)
  | [] => (v, [])
  end.

Definition INT_MIN : Z := -2147483648.

(** [v op d] of [term] and [expr]; [None] is the divide error. *)
Definition apply_op (op v d : Z) : option Z :=
  if op =? 42 then Some (i32 (v * d))
  else if op =? 43 then Some (i32 (v + d))
  else if op =? 45 then Some (i32 (v - d))
  else if d =? 0 then Some 0
  else if (v =? INT_MIN) && (d =? -1) then None
  else if op =? 47 then Some (Z.quot v d) else Some (Z.rem v d).

Definition mul_op (c : Z) : bool := (c =? 42) || (c =? 47) || (c =? 37).
Definition add_op (c : Z) : bool := (c =? 43) || (c =? 45).

(** The loop of [term] and of [expr]: [ops] are its operators, [operand] reads the next one. *)
Fixpoint op_loop (ops : Z -> bool) (operand : list Z -> out) (n : nat) (v : Z) (s : list Z) : out :=
  match n with
  | O => Fuel
  | S n =>
      match skip s with
      | [] => Val v []
      | c :: s' =>
          if ops c then
            andthen (operand s') (fun d s =>
              match apply_op c v d with Some v => op_loop ops operand n v s | None => Trap end)
          else Val v (c :: s')
      end
  end.

Section eval.
Context (vars : list Z).

Definition term_of (fac : list Z -> out) (s : list Z) : out :=
  andthen (fac s) (fun v s => op_loop mul_op fac (S (length s)) v s).
Definition expr_of (fac : list Z -> out) (s : list Z) : out :=
  andthen (term_of fac s) (fun v s => op_loop add_op (term_of fac) (S (length s)) v s).

(** [factor], with fuel for the depth of nesting. *)
Fixpoint factor (n : nat) (s : list Z) : out :=
  match n with
  | O => Fuel
  | S n =>
      match skip s with
      | [] => Val 0 []
      | c :: s' =>
          if c =? 40 then
            andthen (expr_of (factor n) s') (fun v s =>
              match skip s with c :: s' => if c =? 41 then Val v s' else Val v (c :: s') | [] => Val v [] end)
          else if c =? 45 then andthen (factor n s') (fun v s => Val (i32 (- v)) s)
          else if isalpha c then Val (lget 0 vars (toupper c - 65)) s'
          else let '(v, r) := number 0 (c :: s') in Val v r
      end
  end.

(** Each level of nesting takes a character away. *)
Definition expr (s : list Z) : out := expr_of (factor (S (length s))) s.
End eval.

(** ** Every text is read to an end *)

Lemma skip_length s : (length (skip s) <= length s)%nat.
Proof. induction s as [|c s IH]; cbn; [lia|]. destruct (is_blank c); cbn; lia. Qed.
Lemma skip_idem s : skip (skip s) = skip s.
Proof. induction s as [|c s IH]; cbn; [done|]. destruct (is_blank c) eqn:E; [done|]. cbn. by rewrite E. Qed.
Lemma number_length v s : (length (snd (number v s)) <= length s)%nat.
Proof. revert v. induction s as [|c s IH]; intros v; cbn; [lia|]. destruct (isdigit c); cbn; [|lia]. specialize (IH (i32 (v * 10 + c - 48))). lia. Qed.

(** A reader that never runs out of fuel on texts shorter than [n], and never goes back. *)
Definition reads (n : nat) (f : list Z -> out) : Prop := forall s, (length s < n)%nat ->
  match f s with Val _ s' => (length s' <= length s)%nat | Trap => True | Fuel => False end.

Lemma op_loop_reads ops f n : reads n f -> forall m v s, (length s < m)%nat -> (length s < n)%nat ->
  match op_loop ops f m v s with Val _ s' => (length s' <= length s)%nat | Trap => True | Fuel => False end.
Proof.
  intros Hf. induction m as [|m IH]; intros v s Hm Hn; cbn [op_loop]; [lia|]. pose proof (skip_length s) as Hs.
  destruct (skip s) as [|c s']; cbn [length] in *; [lia|]. destruct (ops c); [|done].
  specialize (Hf s' ltac:(lia)). destruct (f s') as [d s2| |]; cbn [andthen]; try done.
  destruct (apply_op c v d) as [v'|]; [|done]. specialize (IH v' s2 ltac:(lia) ltac:(lia)).
  destruct (op_loop ops f m v' s2); try done. lia.
Qed.

Lemma term_reads n f : reads n f -> reads n (term_of f).
Proof.
  intros Hf s Hs. unfold term_of. pose proof (Hf s Hs) as H. destruct (f s) as [v s'| |]; cbn [andthen]; try done.
  pose proof (op_loop_reads mul_op f n Hf (S (length s')) v s' ltac:(lia) ltac:(lia)) as H2. destruct (op_loop _ _ _ _ _); try done. lia.
Qed.
Lemma expr_reads n f : reads n f -> reads n (expr_of f).
Proof.
  intros Hf%term_reads s Hs. unfold expr_of. pose proof (Hf s Hs) as H. destruct (term_of f s) as [v s'| |]; cbn [andthen]; try done.
  pose proof (op_loop_reads add_op _ n Hf (S (length s')) v s' ltac:(lia) ltac:(lia)) as H2. destruct (op_loop _ _ _ _ _); try done. lia.
Qed.

Lemma factor_reads vars n : reads n (factor vars n).
Proof.
  induction n as [|n IH]; intros s Hs; [lia|]. cbn [factor]. pose proof (skip_length s) as Hk.
  destruct (skip s) as [|c s']; cbn [length] in *; [lia|].
  destruct (c =? 40).
  { pose proof (expr_reads n _ IH s' ltac:(lia)) as H. destruct (expr_of _ s') as [v s2| |]; cbn [andthen]; try done.
    pose proof (skip_length s2). destruct (skip s2) as [|c2 s3]; cbn [length] in *; [lia|]. destruct (c2 =? 41); cbn [length]; lia. }
  destruct (c =? 45).
  { pose proof (IH s' ltac:(lia)) as H. destruct (factor vars n s') as [v s2| |]; cbn [andthen]; try done. lia. }
  destruct (isalpha c); [lia|]. pose proof (number_length 0 (c :: s')) as H. destruct (number 0 (c :: s')). cbn [snd length] in *. lia.
Qed.

(** Evaluation ends on every text: the fuel for nesting and loops, the length of the text,
    never runs out. *)
Theorem expr_ends vars s : expr vars s <> Fuel.
Proof.
  intros E. pose proof (expr_reads _ _ (factor_reads vars (S (length s))) s ltac:(lia)) as H. unfold expr in E. by rewrite E in H.
Qed.

(** ** The grammar and the value of an expression *)

Inductive binop := Mul | Div | Mod | Add | Sub.
Inductive ast := Num (v : Z) | Var (i : Z) | Neg (e : ast) | Bin (op : binop) (a b : ast).

(** 32-bit arithmetic; a division by zero gives 0, one whose result does not fit fails. *)
Definition arith (op : binop) (v d : Z) : option Z :=
  match op with
  | Mul => Some (i32 (v * d))
  | Add => Some (i32 (v + d))
  | Sub => Some (i32 (v - d))
  | Div => if decide (d = 0) then Some 0 else if decide (v = INT_MIN /\ d = -1) then None else Some (Z.quot v d)
  | Mod => if decide (d = 0) then Some 0 else if decide (v = INT_MIN /\ d = -1) then None else Some (Z.rem v d)
  end.
(** The character of an operator, and its level. *)
Definition char_of (op : binop) : Z := match op with Mul => 42 | Div => 47 | Mod => 37 | Add => 43 | Sub => 45 end.
Definition is_mul (op : binop) : bool := match op with Mul | Div | Mod => true | Add | Sub => false end.

Fixpoint eval (vars : list Z) (e : ast) : option Z :=
  match e with
  | Num v => Some v
  | Var i => Some (lget 0 vars i)
  | Neg e => v ← eval vars e; Some (i32 (- v))
  | Bin op a b => v ← eval vars a; d ← eval vars b; arith op v d
  end.

Definition blanks (b : list Z) : Prop := Forall (fun c => is_blank c = true) b.
Definition digits (ds : list Z) : Prop := ds <> [] /\ Forall (fun c => isdigit c = true) ds.

(** [txt l s e]: the text [s] denotes [e] at level [l] (0 an expression, 1 a term, 2 a
    factor); blanks may come before every token. *)
Inductive txt : nat -> list Z -> ast -> Prop :=
| txt_num b ds : blanks b -> digits ds -> txt 2 (b ++ ds) (Num (fst (number 0 ds)))
| txt_var b c : blanks b -> isalpha c = true -> txt 2 (b ++ [c]) (Var (toupper c - 65))
| txt_neg b s e : blanks b -> txt 2 s e -> txt 2 (b ++ 45 :: s) (Neg e)
| txt_paren b s b' e : blanks b -> blanks b' -> txt 0 s e -> txt 2 (b ++ 40 :: s ++ b' ++ [41]) e
| txt_factor s e : txt 2 s e -> txt 1 s e
| txt_mul s1 b op s2 e1 e2 : txt 1 s1 e1 -> blanks b -> is_mul op = true -> txt 2 s2 e2 -> txt 1 (s1 ++ b ++ char_of op :: s2) (Bin op e1 e2)
| txt_term s e : txt 1 s e -> txt 0 s e
| txt_add s1 b op s2 e1 e2 : txt 0 s1 e1 -> blanks b -> is_mul op = false -> txt 1 s2 e2 -> txt 0 (s1 ++ b ++ char_of op :: s2) (Bin op e1 e2).

Definition no_digit (s : list Z) : Prop := match s with c :: _ => isdigit c = false | [] => True end.
Definition no_op (ops : Z -> bool) (s : list Z) : Prop := match skip s with c :: _ => ops c = false | [] => True end.

Definition given (o : option Z) (k : Z -> out) : out := match o with Some v => k v | None => Trap end.

Lemma skip_blanks_app b s : blanks b -> skip (b ++ s) = skip s.
Proof. induction 1 as [|c b Hc _ IH]; cbn; [done|]. by rewrite Hc. Qed.

Lemma number_app v ds rest : Forall (fun c => isdigit c = true) ds -> no_digit rest -> number v (ds ++ rest) = (fst (number v ds), rest).
Proof.
  intros Hd Hr. revert v. induction Hd as [|c ds Hc _ IH]; intros v; cbn [app number].
  - destruct rest as [|c rest]; [done|]. cbn in *. by rewrite Hr.
  - rewrite Hc. apply IH.
Qed.

(** The fuel of the loops does not matter once it covers the text. *)
Lemma op_loop_fuel ops f n : reads n f -> forall m m' v s, (length s < m)%nat -> (length s < m')%nat -> (length s < n)%nat ->
  op_loop ops f m v s = op_loop ops f m' v s.
Proof.
  intros Hf. induction m as [|m IH]; intros [|m'] v s H1 H2 H3; try lia. cbn [op_loop]. pose proof (skip_length s) as Hk.
  destruct (skip s) as [|c s'] eqn:Es; [done|]. cbn [length] in *. destruct (ops c); [|done].
  specialize (Hf s' ltac:(lia)). destruct (f s') as [d s2| |]; cbn [andthen]; try done.
  destruct (apply_op c v d); [|done]. apply IH; lia.
Qed.

Definition loop_at (ops : Z -> bool) (f : list Z -> out) (v : Z) (s : list Z) : out := op_loop ops f (S (length s)) v s.

Lemma loop_at_skip ops f n v s : reads n f -> (length s < n)%nat -> loop_at ops f v (skip s) = loop_at ops f v s.
Proof.
  intros Hf Hn. unfold loop_at. pose proof (skip_length s).
  rewrite (op_loop_fuel ops f n Hf (S (length (skip s))) (S (length s)) v (skip s)) by lia. cbn [op_loop]. by rewrite skip_idem.
Qed.

Lemma loop_at_op ops f n v b op s : reads n f -> blanks b -> ops op = true -> is_blank op = false -> (length (b ++ op :: s) < n)%nat ->
  loop_at ops f v (b ++ op :: s) = andthen (f s) (fun d s => given (apply_op op v d) (fun v => loop_at ops f v s)).
Proof.
  intros Hf Hb Ho Hk Hn. unfold loop_at at 1. cbn [op_loop]. rewrite skip_blanks_app by done. cbn [skip]. rewrite Hk, Ho.
  rewrite length_app in *. cbn [length] in *. pose proof (Hf s ltac:(lia)) as H. destruct (f s) as [d s2| |]; cbn [andthen]; try done.
  destruct (apply_op op v d); cbn [given]; [|done]. unfold loop_at. apply (op_loop_fuel ops f n); (done || lia).
Qed.

Lemma loop_at_stop ops f v s : no_op ops s -> loop_at ops f v s = Val v (skip s).
Proof.
  unfold no_op, loop_at. cbn [op_loop]. destruct (skip s) as [|c s']; [done|]. by intros ->.
Qed.

Lemma op_not_blank op : mul_op op = true \/ add_op op = true -> is_blank op = false /\ isdigit op = false.
Proof.
  unfold mul_op, add_op, is_blank, isdigit. intros [H|H]; rewrite ?orb_true_iff, ?Z.eqb_eq in H; destruct_or! H; subst; done.
Qed.
Lemma add_not_mul op : add_op op = true -> mul_op op = false.
Proof. unfold mul_op, add_op. rewrite orb_true_iff, !Z.eqb_eq. by intros [->| ->]. Qed.
Lemma blanks_op_follow b op s : blanks b -> mul_op op = true \/ add_op op = true -> no_digit (b ++ op :: s).
Proof.
  intros Hb Ho. destruct Hb as [|c b Hc _]; cbn; [by apply op_not_blank|].
  unfold is_blank in Hc. rewrite orb_true_iff, !Z.eqb_eq in Hc. by destruct Hc as [->| ->].
Qed.
Lemma blanks_op_skip ops b op s : blanks b -> is_blank op = false -> ops op = false -> no_op ops (b ++ op :: s).
Proof. intros Hb Hk Ho. unfold no_op. rewrite skip_blanks_app by done. cbn. by rewrite Hk. Qed.

Lemma apply_op_arith op v d : apply_op (char_of op) v d = arith op v d.
Proof.
  unfold apply_op, arith. destruct op; cbn [char_of Z.eqb Pos.eqb]; try done;
    (destruct (Z.eqb_spec d 0), (decide (d = 0)); try done);
    destruct (Z.eqb_spec v INT_MIN), (Z.eqb_spec d (-1)); cbn [andb]; case_decide; (done || tauto).
Qed.
Lemma mul_char op : is_mul op = true -> mul_op (char_of op) = true.
Proof. by destruct op. Qed.
Lemma add_char op : is_mul op = false -> add_op (char_of op) = true.
Proof. by destruct op. Qed.

Section correct.
Context (vars : list Z).

(** What each level does on a text followed by [rest]. *)
Definition means (l : nat) (s : list Z) (e : ast) : Prop := forall n rest, (length (s ++ rest) < n)%nat -> no_digit rest ->
  match l with
  | 2%nat => factor vars n (s ++ rest) = given (eval vars e) (fun v => Val v rest)
  | 1%nat => term_of (factor vars n) (s ++ rest) = given (eval vars e) (fun v => loop_at mul_op (factor vars n) v rest)
  | _ => no_op mul_op rest -> expr_of (factor vars n) (s ++ rest) = given (eval vars e) (fun v => loop_at add_op (term_of (factor vars n)) v rest)
  end.

Lemma means_mul s1 b op s2 e1 e2 : means 1 s1 e1 -> blanks b -> is_mul op = true -> means 2 s2 e2 -> means 1 (s1 ++ b ++ char_of op :: s2) (Bin op e1 e2).
Proof.
  intros H1 Hb Ho%mul_char H2 n rest Hn Hd. destruct (op_not_blank (char_of op) (or_introl Ho)) as [Hk _].
  rewrite <- !app_assoc in *. cbn [app] in *. rewrite length_app in Hn.
  rewrite H1; [|by rewrite length_app|by apply blanks_op_follow; [|left]]. cbn [eval]. destruct (eval vars e1) as [v|]; cbn [given mbind option_bind]; [|done].
  rewrite (loop_at_op mul_op _ n); [|apply factor_reads|done|done|done|lia].
  rewrite H2; [|rewrite length_app in Hn; cbn [length] in Hn; lia|done]. destruct (eval vars e2) as [d|]; cbn [given andthen mbind option_bind]; [|done]. by rewrite apply_op_arith.
Qed.

Lemma means_add s1 b op s2 e1 e2 : means 0 s1 e1 -> blanks b -> is_mul op = false -> means 1 s2 e2 -> means 0 (s1 ++ b ++ char_of op :: s2) (Bin op e1 e2).
Proof.
  intros H1 Hb Ho%add_char H2 n rest Hn Hd Hm. destruct (op_not_blank (char_of op) (or_intror Ho)) as [Hk _].
  rewrite <- !app_assoc in *. cbn [app] in *. rewrite length_app in Hn.
  rewrite H1; [|by rewrite length_app|by apply blanks_op_follow; [|right]|by apply blanks_op_skip; [| |apply add_not_mul]].
  cbn [eval]. destruct (eval vars e1) as [v|]; cbn [given mbind option_bind]; [|done].
  assert (reads n (term_of (factor vars n))) as Ht by apply term_reads, factor_reads.
  rewrite (loop_at_op add_op _ n) by (done || lia). rewrite length_app in Hn. cbn [length] in Hn. rewrite length_app in Hn.
  rewrite H2; [|rewrite length_app; lia|done]. destruct (eval vars e2) as [d|]; cbn [given andthen mbind option_bind]; [|done].
  rewrite loop_at_stop by done. cbn [andthen]. rewrite apply_op_arith. destruct (arith op v d); cbn [given]; [|done]. apply (loop_at_skip _ _ n); [done|lia].
Qed.

Lemma txt_means l s e : txt l s e -> means l s e.
Proof.
  induction 1 as [b ds Hb [Hne Hd]|b c Hb Hc|b s e Hb _ IH|b s b' e Hb Hb' _ IH|s e _ IH|s1 b op s2 e1 e2 _ IH1 Hb Ho _ IH2|s e _ IH|s1 b op s2 e1 e2 _ IH1 Hb Ho _ IH2].
  - intros [|n] rest Hn Hr; [lia|]. cbn [factor eval given]. rewrite <- app_assoc, skip_blanks_app by done.
    pose proof (number_app 0 ds rest Hd Hr) as En. destruct ds as [|c ds]; [done|]. inversion Hd as [|? ? Hc _]; subst. cbn [app] in *.
    assert (is_blank c = false /\ (c =? 40) = false /\ (c =? 45) = false /\ isalpha c = false) as (E1 & E2 & E3 & E4).
    { unfold isdigit, is_blank, isalpha in *. rewrite andb_true_iff, !Z.leb_le in Hc. repeat split; bcase; lia. }
    cbn [skip]. by rewrite E1, E2, E3, E4, En.
  - intros [|n] rest Hn Hr; [lia|]. cbn [factor eval given]. rewrite <- app_assoc, skip_blanks_app by done. cbn [app skip].
    assert (is_blank c = false /\ (c =? 40) = false /\ (c =? 45) = false) as (E1 & E2 & E3).
    { unfold is_blank, isalpha in *. rewrite orb_true_iff, !andb_true_iff, !Z.leb_le in Hc. repeat split; bcase; lia. }
    by rewrite E1, E2, E3, Hc.
  - intros [|n] rest Hn Hr; [lia|]. cbn [factor]. rewrite <- app_assoc, skip_blanks_app by done. cbn [app skip is_blank Z.eqb Pos.eqb orb].
    rewrite length_app in Hn. rewrite length_app in Hn. cbn [length] in Hn.
    rewrite IH; [|rewrite length_app; lia|done]. cbn [eval]. by destruct (eval vars e).
  - intros [|n] rest Hn Hr; [lia|]. cbn [factor]. rewrite <- app_assoc, skip_blanks_app by done. cbn [app skip is_blank Z.eqb Pos.eqb orb].
    repeat (rewrite length_app in Hn; cbn [length] in Hn).
    rewrite <- !app_assoc. cbn [app]. rewrite IH.
    + destruct (eval vars e) as [v|]; cbn [given andthen]; [|done]. rewrite loop_at_stop by (by apply blanks_op_skip). cbn [andthen].
      rewrite skip_idem, skip_blanks_app by done. done.
    + rewrite !length_app. cbn [length]. lia.
    + destruct Hb' as [|c b0 Hc _]; cbn; [done|]. unfold is_blank in Hc. rewrite orb_true_iff, !Z.eqb_eq in Hc. by destruct Hc as [->| ->].
    + by apply blanks_op_skip.
  - intros n rest Hn Hr. unfold term_of. rewrite IH by done. by destruct (eval vars e).
  - by apply means_mul.
  - intros n rest Hn Hr Hm. unfold expr_of. rewrite IH by done. destruct (eval vars e) as [v|]; cbn [given andthen]; [|done].
    rewrite loop_at_stop by done. cbn [andthen]. fold (loop_at add_op (term_of (factor vars n)) v (skip rest)).
    rewrite length_app in Hn. apply (loop_at_skip _ _ n); [apply term_reads, factor_reads|lia].
  - by apply means_add.
Qed.
End correct.

(** C9: The evaluator computes the value of the expression that the text denotes and stops
    behind it: precedence, left associativity, parentheses, blanks, wrap-around, division by
    zero giving 0, and the divide error exactly where the value has one. *)
Theorem expr_correct vars s e rest : txt 0 s e -> no_digit rest -> no_op mul_op rest -> no_op add_op rest ->
  expr vars (s ++ rest) = match eval vars e with Some v => Val v (skip rest) | None => Trap end.
Proof.
  intros Ht Hd Hm Ha. unfold expr. rewrite (txt_means vars 0 s e Ht) by (done || lia).
  destruct (eval vars e); cbn [given]; [|done]. by apply loop_at_stop.
Qed.

(** [9 - 2 - A*(1+ 2)] with 4 in [A], as in [IF 9 - 2 - A*(1+ 2) < 0 THEN ...]. *)
Definition demo_vars : list Z := 4 :: replicate 25 0.
Definition demo_ast : ast := Bin Sub (Bin Sub (Num 9) (Num 2)) (Bin Mul (Var 0) (Bin Add (Num 1) (Num 2))).

Lemma txt_digit b c : blanks b -> isdigit c = true -> txt 2 (b ++ [c]) (Num (fst (number 0 [c]))).
Proof. intros Hb Hc. apply txt_num; [done|]. split; [done|]. by constructor. Qed.

Lemma demo_txt : txt 0 (text "9 - 2 - A*(1+ 2)") demo_ast.
Proof.
  assert (blanks [32]) as B by (by repeat constructor). assert (blanks []) as B0 by constructor.
  assert (txt 2 (text "(1+ 2)") (Bin Add (Num 1) (Num 2))) as Hp.
  { apply (txt_paren [] (text "1+ 2") []); [done|done|].
    apply (txt_add (text "1") [] Add (text " 2") (Num 1) (Num 2)); [apply txt_term, txt_factor, (txt_digit [] 49); done|done|done|apply txt_factor, (txt_digit [32] 50); done]. }
  assert (txt 1 (text " A*(1+ 2)") (Bin Mul (Var 0) (Bin Add (Num 1) (Num 2)))) as Hm.
  { apply (txt_mul (text " A") [] Mul (text "(1+ 2)")); [apply txt_factor, (txt_var [32] 65); done|done|done|done]. }
  apply (txt_add (text "9 - 2") [32] Sub (text " A*(1+ 2)")); [|done|done|done].
  apply (txt_add (text "9") [32] Sub (text " 2") (Num 9) (Num 2)); [apply txt_term, txt_factor, (txt_digit [] 57); done|done|done|apply txt_factor, (txt_digit [32] 50); done].
Qed.

Lemma expr_correct_witness : expr demo_vars (text "9 - 2 - A*(1+ 2) < 0") = Val (-5) (text "< 0").
Proof.
  apply (expr_correct demo_vars (text "9 - 2 - A*(1+ 2)") demo_ast (text " < 0") demo_txt); reflexivity.
Defined.
End Basic.
