(* ===== verification/BasicProg.v ===== *)
(** * BASIC: programs (user/bin/basic.c)

    The table of numbered lines ([find_line], [store]), the statements ([command]), running
    a program ([run]) and keeping it in a file ([load], [save]).  The table is an array of
    256 entries of which the first [count] are in use, in the order of their numbers. *)

From Stdlib Require Import String.
From stdpp Require Import base list numbers.
From S2P Require Import Prelude CString ULib Basic.

#[local] Open Scope Z_scope.

Module BasicProg.
Import ULib Basic.

Definition MAXLINES : Z := 256.
Definition LINELEN : Z := 128.

(** [struct line]; the text without its terminator. *)
Record line := Line { number_of : Z; text_of : list Z }.
Definition no_line : line := Line 0 [].

Record prog := Prog { program : list line; count : Z }.
Definition at_ (p : prog) (i : Z) : line := lget no_line (program p) i.

(** ** Lines by number *)

Definition find_line (n : Z) (p : prog) : Z :=
  match find_first (fun i => number_of (at_ p i) =? n) 0 (Z.to_nat (count p)) with Some i => i | None => -1 end.

(** The first loop of [store]. *)
Definition place (n : Z) (p : prog) : Z :=
  match find_first (fun i => negb (number_of (at_ p i) <? n)) 0 (Z.to_nat (count p)) with Some i => i | None => count p end.

Definition store (n : Z) (s : list Z) (p : prog) : prog :=
  let a := place n p in
  let found := (a <? count p) && (number_of (at_ p a) =? n) in
  match s with
  | [] =>
      if found then Prog (shift_down no_line (Z.to_nat (count p - 1 - a)) a (program p)) (count p - 1) else p
  | _ =>
      if found then Prog (lset (program p) a (Line (number_of (at_ p a)) s)) (count p)
      else if count p <? MAXLINES then
        let l := shift_up no_line (Z.to_nat (count p - a)) (count p) (program p) in
        Prog (lset l a (Line n (take (Z.to_nat (LINELEN - 1)) s))) (count p + 1)
      else p
  end.

(** ** The table in use *)

Definition live (p : prog) : list line := take (Z.to_nat (count p)) (program p).

(** What [store] does to the lines: the reference definition. *)
Fixpoint put_line (n : Z) (s : list Z) (l : list line) : list line :=
  match l with
  | [] => match s with [] => [] | _ => [Line n s] end
  | x :: l' =>
      if number_of x <? n then x :: put_line n s l'
      else if number_of x =? n then match s with [] => l' | _ => Line n s :: l' end
      else match s with [] => l | _ => Line n s :: l end
  end.

Fixpoint look (n : Z) (l : list line) : option (list Z) :=
  match l with [] => None | x :: l' => if number_of x =? n then Some (text_of x) else look n l' end.

Record wf (p : prog) : Prop := { wf_len : lenZ (program p) = MAXLINES; wf_count : 0 <= count p <= MAXLINES }.
Inductive sorted : list line -> Prop :=
| sorted_nil : sorted []
| sorted_cons x l : Forall (fun y => number_of x < number_of y) l -> sorted l -> sorted (x :: l).

(** The lines before the place have smaller numbers, the one at the place has not. *)
Lemma place_split n p : wf p -> exists a b t, program p = a ++ b ++ t /\ live p = a ++ b /\ lenZ a = place n p /\
  lenZ (a ++ b) = count p /\ Forall (fun x => number_of x < n) a /\ match b with [] => True | x :: _ => n <= number_of x end.
Proof.
  intros [Hl Hc]. unfold place, at_.
  assert (forall k, 0 <= k <= count p -> lenZ (take (Z.to_nat k) (live p)) = k) as Hk.
  { intros k Hk. unfold live, lenZ in *. rewrite !length_take. lia. }
  assert (program p = live p ++ drop (Z.to_nat (count p)) (program p)) as Ep by (unfold live; by rewrite take_drop).
  assert (forall i, 0 <= i < count p -> live p !! Z.to_nat i = Some (lget no_line (program p) i)) as Hi.
  { intros i Hi. unfold live. rewrite lookup_take_lt by lia. apply lget_lookup. lia. }
  set (at_n := match find_first _ _ _ with Some i => i | None => count p end).
  assert (0 <= at_n <= count p /\ (forall j, 0 <= j < at_n -> number_of (lget no_line (program p) j) < n) /\
    (at_n < count p -> n <= number_of (lget no_line (program p) at_n))) as (H1 & H2 & H3).
  { subst at_n. destruct (find_first _ _ _) as [i|] eqn:E.
    - apply find_first_Some in E as (R & F & M). apply negb_true_iff, Z.ltb_ge in F. split; [lia|]. split; [|done].
      intros j Hj. specialize (M j ltac:(lia)). apply negb_false_iff, Z.ltb_lt in M. done.
    - split; [lia|]. split; [|lia]. intros j Hj. pose proof (find_first_None _ _ _ E j ltac:(lia)) as M. apply negb_false_iff, Z.ltb_lt in M. done. }
  clearbody at_n. exists (take (Z.to_nat at_n) (live p)), (drop (Z.to_nat at_n) (live p)), (drop (Z.to_nat (count p)) (program p)).
  rewrite app_assoc, take_drop. split; [done|]. split; [done|]. split; [by apply Hk|].
  split; [unfold live, lenZ in *; rewrite length_take; lia|]. split.
  - apply list.Forall_forall. intros x Hx. apply list_elem_of_lookup in Hx as [i Hx]. apply lookup_take_Some in Hx as [Hx Hlt].
    rewrite <- (Nat2Z.id i), Hi in Hx by lia. injection Hx as <-. apply H2. lia.
  - destruct (drop (Z.to_nat at_n) (live p)) as [|x b] eqn:E; [done|].
    assert (live p !! Z.to_nat at_n = Some x) as Hx by (rewrite <- (Nat.add_0_r (Z.to_nat at_n)), <- lookup_drop, E; done).
    assert (at_n < count p) as Hlt by (apply lookup_lt_Some in Hx; unfold live in Hx; rewrite length_take in Hx; lia).
    rewrite Hi in Hx by lia. injection Hx as <-. by apply H3.
Qed.

Lemma put_line_split n s a b : Forall (fun x => number_of x < n) a -> put_line n s (a ++ b) = a ++ put_line n s b.
Proof. induction 1 as [|x a Hx _ IH]; cbn; [done|]. rewrite (proj2 (Z.ltb_lt _ _)) by done. by rewrite IH. Qed.

(** The line the loop has found. *)
Definition has (n : Z) (p : prog) : bool := let a := place n p in (a <? count p) && (number_of (at_ p a) =? n).

Lemma has_split n p a b t : program p = a ++ b ++ t -> lenZ a = place n p -> lenZ (a ++ b) = count p ->
  has n p = match b with x :: _ => number_of x =? n | [] => false end.
Proof.
  intros Ep Ea Ec. unfold has, at_. rewrite <- Ea, <- Ec, lenZ_app. destruct b as [|x b]; [rewrite (proj2 (Z.ltb_ge _ _)) by (unfold lenZ; cbn [length]; lia); done|].
  rewrite lenZ_cons. pose proof (lenZ_nonneg b). rewrite (proj2 (Z.ltb_lt _ _)) by lia. rewrite Ep. cbn [app]. by rewrite lget_mid.
Qed.

(** [store] with room in the table does what the reference definition says. *)
Lemma store_live n s p : wf p -> lenZ s < LINELEN -> (s = [] \/ has n p = true \/ count p < MAXLINES) ->
  wf (store n s p) /\ live (store n s p) = put_line n s (live p).
Proof.
  intros Hwf Hs Hroom. destruct (place_split n p Hwf) as (a & b & t & Ep & El & Ea & Ec & Ha & Hb). destruct Hwf as [Hl Hc].
  pose proof (has_split n p a b t Ep Ea Ec) as Hh. unfold store. fold (has n p). rewrite El, put_line_split by done.
  assert (forall q c, lenZ q = MAXLINES -> 0 <= c <= MAXLINES -> wf (Prog q c)) as W by (by constructor).
  assert (lenZ a + lenZ b + lenZ t = MAXLINES) as Hlen by (rewrite <- Hl, Ep, !lenZ_app; lia).
  rewrite lenZ_app in Ec. rewrite <- Ea, <- Ec in *. pose proof (lenZ_nonneg a). pose proof (lenZ_nonneg b). pose proof (lenZ_nonneg t).
  assert (forall (l r : list line) c, c = lenZ l -> live (Prog (l ++ r) c) = l) as Lv.
  { intros l r c ->. unfold live, lenZ. cbn [count program]. rewrite Nat2Z.id. apply take_app_length. }
  destruct (has n p) eqn:Eh.
  - destruct b as [|x b]; [done|]. apply eq_sym, Z.eqb_eq in Hh. rewrite lenZ_cons in *. pose proof (lenZ_nonneg b). cbn [put_line].
    rewrite (proj2 (Z.ltb_ge (number_of x) n)), (proj2 (Z.eqb_eq (number_of x) n)) by lia. unfold at_. rewrite Ep. cbn [app]. rewrite lget_mid, lset_mid. destruct s as [|c0 s].
    + replace (Z.to_nat (lenZ a + (lenZ b + 1) - 1 - lenZ a)) with (length b) by (unfold lenZ; lia). rewrite shift_down_spec, app_assoc.
      split; [|apply Lv; rewrite lenZ_app; lia]. apply W; [|lia]. rewrite !lenZ_app, lenZ_cons. lia.
    + split; [apply W; [rewrite !lenZ_app, lenZ_cons, lenZ_app; lia|lia]|]. rewrite Hh. change (Line n (c0 :: s) :: b ++ t) with ((Line n (c0 :: s) :: b) ++ t).
      rewrite app_assoc. apply Lv. rewrite lenZ_app, lenZ_cons. lia.
  - assert (put_line n s b = match s with [] => b | _ => Line n s :: b end) as ->.
    { destruct b as [|x b]; [destruct s; reflexivity|]. cbn [put_line]. rewrite (proj2 (Z.ltb_ge (number_of x) n)) by lia. by rewrite <- Hh. }
    destruct s as [|c0 s]; [split; [constructor; [done|lia]|done]|]. destruct Hroom as [|[|Hr]]; [done|done|].
    rewrite (proj2 (Z.ltb_lt _ MAXLINES)) by lia. replace (lenZ a + lenZ b - lenZ a) with (lenZ b) by lia. assert (Z.to_nat (lenZ b) = length b) as -> by apply Nat2Z.id. rewrite Ep.
    destruct t as [|y t]; [cbn in Hlen; unfold lenZ in *; cbn in *; lia|]. rewrite shift_up_spec, lset_mid, take_ge by (unfold lenZ, LINELEN in *; lia).
    rewrite lenZ_cons in Hlen. split; [apply W; [rewrite lenZ_app, lenZ_cons, lenZ_app; lia|lia]|].
    change (Line n (c0 :: s) :: b ++ t) with ((Line n (c0 :: s) :: b) ++ t). rewrite app_assoc. apply Lv. rewrite lenZ_app, lenZ_cons. lia.
Qed.

Lemma put_line_above n s l m : m < n -> Forall (fun y => m < number_of y) l -> Forall (fun y => m < number_of y) (put_line n s l).
Proof.
  intros Hm Hl. induction Hl as [|x l Hx Hl IH]; cbn [put_line]; [destruct s; by repeat constructor|].
  destruct (number_of x <? n); [by constructor|]. destruct (number_of x =? n), s; by repeat constructor.
Qed.

(** Storing keeps the numbers in order, and changes the text of one number only. *)
Lemma put_line_sorted n s l : sorted l -> sorted (put_line n s l).
Proof.
  induction 1 as [|x l Hx Hl IH]; cbn [put_line]; [destruct s; by repeat constructor|].
  destruct (Z.ltb_spec (number_of x) n); [constructor; [by apply put_line_above|done]|].
  destruct (Z.eqb_spec (number_of x) n) as [<-|Hne]; [destruct s; [done|by constructor]|].
  destruct s; [by constructor|]. constructor; [|by constructor]. constructor; [cbn; lia|].
  eapply list.Forall_impl; [done|]. cbn. lia.
Qed.

Lemma look_above n l : Forall (fun y => n < number_of y) l -> look n l = None.
Proof. induction 1 as [|x l Hx _ IH]; cbn; [done|]. by rewrite (proj2 (Z.eqb_neq _ _)) by lia. Qed.

Lemma look_put n s l m : sorted l -> look m (put_line n s l) = if m =? n then match s with [] => None | _ => Some s end else look m l.
Proof.
  intros Hs. induction Hs as [|x l Hx Hl IH]; cbn [put_line look].
  - destruct s; cbn [look number_of text_of]; rewrite ?(Z.eqb_sym n m); by destruct (m =? n).
  - destruct (Z.ltb_spec (number_of x) n).
    { cbn [look]. rewrite IH. destruct (Z.eqb_spec (number_of x) m), (Z.eqb_spec m n); (done || lia). }
    destruct (Z.eqb_spec (number_of x) n) as [<-|Hne].
    { destruct s; cbn [look number_of text_of]; rewrite (Z.eqb_sym (number_of x) m); destruct (Z.eqb_spec m (number_of x)) as [->|]; try done. by apply look_above. }
    assert (look n (x :: l) = None) as Hn by (apply look_above; constructor; [lia|]; eapply list.Forall_impl; [done|]; cbn; lia).
    destruct s; cbn [look number_of text_of] in *.
    + destruct (Z.eqb_spec m n) as [->|]; done.
    + rewrite (Z.eqb_sym n m). by destruct (m =? n).
Qed.

Lemma look_at l n : forall i, l !! i <> None -> (forall j y, (j < i)%nat -> l !! j = Some y -> number_of y <> n) ->
  look n l = match l !! i with Some x => if number_of x =? n then Some (text_of x) else look n (drop (S i) l) | None => None end.
Proof.
  induction l as [|x l IH]; intros i Hi Hj; [by destruct i|]. destruct i as [|i]; cbn [lookup list_lookup look drop]; [done|].
  rewrite (proj2 (Z.eqb_neq _ _)) by (apply (Hj 0%nat); [lia|done]). apply IH; [done|]. intros j y Hlt Hy. apply (Hj (S j)); [lia|done].
Qed.
Lemma look_none n l : (forall j y, l !! j = Some y -> number_of y <> n) -> look n l = None.
Proof.
  induction l as [|x l IH]; intros Hj; cbn; [done|]. rewrite (proj2 (Z.eqb_neq _ _)) by (by apply (Hj 0%nat)).
  apply IH. intros j y Hy. by apply (Hj (S j)).
Qed.

(** [find_line] finds the text of a number. *)
Lemma find_line_look n p : wf p -> look n (live p) = if find_line n p <? 0 then None else Some (text_of (at_ p (find_line n p))).
Proof.
  intros [Hl Hc]. unfold find_line.
  assert (forall (j : nat) y, live p !! j = Some y -> 0 <= Z.of_nat j < count p /\ at_ p (Z.of_nat j) = y) as Hat.
  { intros j y Hy. apply lookup_take_Some in Hy as [Hy Hlt]. split; [lia|]. apply lookup_lget; [lia|]. by rewrite Nat2Z.id. }
  destruct (find_first _ _ _) as [i|] eqn:E.
  - apply find_first_Some in E as (R & F & M). apply Z.eqb_eq in F. rewrite (proj2 (Z.ltb_ge i 0)) by lia.
    assert (live p !! Z.to_nat i = Some (at_ p i)) as Hi by (unfold live; rewrite lookup_take_lt by lia; apply lget_lookup; lia).
    rewrite (look_at (live p) n (Z.to_nat i)), Hi; [by rewrite (proj2 (Z.eqb_eq _ _))|congruence|].
    intros j y Hj Hy. destruct (Hat j y Hy) as [_ <-]. apply Z.eqb_neq, M. lia.
  - apply look_none. intros j y Hy. destruct (Hat j y Hy) as [Hr <-]. apply Z.eqb_neq. apply (find_first_None _ _ _ E). lia.
Qed.

(** The text of a number, or nothing. *)
Definition line_text (n : Z) (p : prog) : option (list Z) :=
  if find_line n p <? 0 then None else Some (text_of (at_ p (find_line n p))).

(** C34: A stored line is found with its text, a line stored empty is removed, every other number
    keeps its text, and the lines stay in the order of their numbers; in a full table a new
    line is dropped. *)
Theorem store_correct n s p : wf p -> sorted (live p) -> lenZ s < LINELEN ->
  let p' := store n s p in
  wf p' /\ sorted (live p') /\
  (forall m, line_text m p' =
     if (m =? n) && ((lenZ s =? 0) || (0 <=? find_line n p) || (count p <? MAXLINES)) then (if lenZ s =? 0 then None else Some s) else line_text m p).
Proof.
  intros Hwf Hs Hl. cbv zeta.
  assert ((0 <=? find_line n p) = has n p) as Ef.
  { destruct (place_split n p Hwf) as (a & b & t & Ep & El & Ea & Ec & Ha & Hb). rewrite (has_split n p a b t Ep Ea Ec).
    assert (look n (live p) = look n b) as Hab.
    { rewrite El. clear - Ha. induction Ha as [|x a Hx _ IH]; cbn; [done|]. by rewrite (proj2 (Z.eqb_neq _ _)) by lia. }
    rewrite (find_line_look n p Hwf) in Hab. rewrite El in Hs. assert (sorted b) as Hsb by (clear - Hs; induction a; [done|inversion Hs; auto]).
    rewrite <- (negb_involutive (0 <=? _)), <- Z.ltb_antisym. destruct b as [|x b]; [by destruct (find_line n p <? 0)|]. cbn [look] in Hab.
    destruct (Z.eqb_spec (number_of x) n); [by destruct (find_line n p <? 0)|]. inversion Hsb as [|? ? Hx]; subst.
    rewrite look_above in Hab by (eapply list.Forall_impl; [done|]; cbn; lia). by destruct (find_line n p <? 0). }
  destruct ((lenZ s =? 0) || (0 <=? find_line n p) || (count p <? MAXLINES)) eqn:E.
  - rewrite Ef, !orb_true_iff, Z.eqb_eq, Z.ltb_lt in E.
    destruct (store_live n s p Hwf Hl) as [Hw Hlive]; [destruct E as [[E|E]|E]; [left; by destruct s|by right; left|by right; right]|].
    split; [done|]. rewrite Hlive. split; [by apply put_line_sorted|]. intros m. unfold line_text. rewrite <- !find_line_look by done.
    rewrite Hlive, look_put by done. rewrite andb_true_r. destruct s as [|c s]; [done|]. rewrite lenZ_cons. pose proof (lenZ_nonneg s).
    by rewrite (proj2 (Z.eqb_neq (lenZ s + 1) 0)) by lia.
  - apply orb_false_iff in E as [E E3]. apply orb_false_iff in E as [E1 E2]. rewrite Ef in E2.
    assert (store n s p = p) as ->; [|by split; [|split; [|intros m; rewrite andb_false_r]]].
    unfold store. fold (has n p). rewrite E2, E3. by destruct s.
Qed.

(** Line 20 is replaced between 10 and 30. *)
Definition three_lines : prog := Prog ([Line 10 [65]; Line 20 [66]; Line 30 [67]] ++ replicate 253 no_line) 3.
Lemma store_correct_witness : let p := store 20 [68; 69] three_lines in
  sorted (live p) /\ line_text 20 p = Some [68; 69] /\ line_text 30 p = Some [67].
Proof.
  destruct (store_correct 20 [68; 69] three_lines) as (_ & H1 & H2); [constructor; [reflexivity|vm_compute; split; discriminate]|repeat constructor|reflexivity|].
  cbv zeta. split; [exact H1|]. split; rewrite H2; reflexivity.
Defined.
End BasicProg.
