(* ===== verification/BasicRun.v ===== *)
(** * BASIC: statements, runs and files (user/bin/basic.c)

    [command] executes a statement, [run] a program; [load] and [save] move a program to
    and from the bytes of a file.  [run] has fuel for its loop, since a BASIC program need
    not end. *)

From Stdlib Require Import String.
From stdpp Require Import base list numbers.
From S2P Require Import Prelude CString ULib Basic BasicProg.

#[local] Open Scope Z_scope.

Module BasicRun.
Import ULib Basic BasicProg.

(** The program, the variables, the input that [getline] still has and the output so far. *)
Record st := St { code : prog; vars : list Z; input : list Z; printed : list Z }.
Definition say (l : list Z) (w : st) : st := St (code w) (vars w) (input w) (printed w ++ l).
Definition set_var (i v : Z) (w : st) : st := St (code w) (lset (vars w) i v) (input w) (printed w).

(** The result of [command] and the value it leaves in [*jump]. *)
Inductive step := Done (r jump : Z) (w : st) | Trapped | NoFuel.

Definition value (w : st) (s : list Z) (k : Z -> list Z -> step) : step :=
  match expr (vars w) s with Val v s => k v s | Trap => Trapped | Fuel => NoFuel end.

Definition starts (kw : string) (s : list Z) : bool := CStr.cstrncmp (length (text kw)) s (text kw) =? 0.
Definition peek (s : list Z) : Z := List.hd 0 s.

Fixpoint quoted (s : list Z) : list Z :=
  match s with c :: s' => if c =? 34 then [] else c :: quoted s' | [] => [] end.

(** The comparison of [IF]: its value and the text behind it. *)
Definition compare (w : st) (a : Z) (s : list Z) (k : bool -> list Z -> step) : step :=
  if peek s =? 61 then value w (tail s) (fun b s => k (a =? b) s)
  else if peek s =? 60 then value w (tail s) (fun b s => k (a <? b) s)
  else if peek s =? 62 then value w (tail s) (fun b s => k (b <? a) s)
  else k false s.

Fixpoint command (fuel : nat) (s : list Z) (jump : Z) (w : st) : step :=
  match fuel with
  | O => NoFuel
  | S f =>
      let s := skip s in
      if starts "REM" s || (peek s =? 39) then Done 0 jump w
      else if starts "PRINT" s || (peek s =? 63) then
        let s := skip (drop (if peek s =? 63 then 1 else 5) s) in
        if peek s =? 34 then Done 0 jump (say [10] (say (quoted (tail s)) w))
        else value w s (fun v _ => Done 0 jump (say [10] (say (printf (text "%d") [AInt v]) w)))
      else if starts "INPUT" s then
        let s := skip (drop 5 s) in
        let v := toupper (peek s) - 65 in
        let w := say (text "? ") w in
        let '(b, rest) := getline 32 (input w) in
        let w := St (code w) (vars w) rest (printed w) in
        Done 0 jump (if (0 <=? v) && (v <? 26) then set_var v (atoi b) w else w)
      else
        let s := if starts "LET" s then drop 3 s else s in
        let s := skip s in
        let next := List.nth 1 s 0 in
        if isalpha (peek s) && ((next =? 32) || (next =? 61)) then
          let v := toupper (peek s) - 65 in
          let s := skip (tail s) in
          let s := if peek s =? 61 then tail s else s in
          value w s (fun x _ => Done 0 jump (set_var v x w))
        else if starts "GOTO" s then
          value w (drop 4 s) (fun n _ => let j := find_line n (code w) in Done (if j <? 0 then 1 else 2) j w)
        else if starts "IF" s then
          value w (drop 2 s) (fun a s =>
            compare w a (skip s) (fun ok s =>
              let s := skip s in
              let s := if starts "THEN" s then drop 4 s else s in
              if ok : bool then
                let s := skip s in
                if isdigit (peek s) then value w s (fun n _ => Done 2 (find_line n (code w)) w)
                else command f s jump w
              else Done 0 jump w))
        else if starts "END" s || starts "STOP" s then Done 3 jump w
        else Done 1 jump w
  end.

(** ** Running a program *)

(** [Wild]: the program counter is -1 and an entry before the table is read. *)
Inductive ran := Finished (w : st) | RunTrapped | Wild | Unfinished.

Fixpoint run_from (fuel : nat) (pc : Z) (w : st) : ran :=
  match fuel with
  | O => Unfinished
  | S f =>
      if pc <? count (code w) then
        if pc <? 0 then Wild
        else
          let l := at_ (code w) pc in
          match command (S (length (text_of l))) (text_of l) (-1) w with
          | Done r j w =>
              if r =? 3 then Finished w
              else if r =? 2 then run_from f j w
              else run_from f (pc + 1) (if r =? 1 then say (printf (text "Error at %d
") [AInt (number_of l)]) w else w)
          | Trapped => RunTrapped
          | NoFuel => Unfinished
          end
      else Finished w
  end.

Definition run (fuel : nat) (w : st) : ran := run_from fuel 0 (St (code w) (replicate 26 0) (input w) (printed w)).

Definition list_lines (w : st) : st :=
  fold_left (fun w l => say (printf (text "%d %s
") [AInt (number_of l); AStr (Some (text_of l))]) w) (live (code w)) w.

(** ** Programs in files *)

Fixpoint skip_digits (s : list Z) : list Z := match s with c :: s' => if isdigit c then skip_digits s' else s | [] => [] end.
Fixpoint skip_spaces (s : list Z) : list Z := match s with c :: s' => if c =? 32 then skip_spaces s' else s | [] => [] end.

(** A numbered line of a file. *)
Definition enter (buf : list Z) (p : prog) : prog :=
  let s := CStr.cstring buf in
  let no := atoi s in
  if negb (no =? 0) then store no (skip_spaces (skip_digits s)) p else p.

(** The loop of [load] over the bytes of the file, with the line read so far. *)
Fixpoint load_from (bytes buf : list Z) (p : prog) : prog :=
  match bytes with
  | [] => if lenZ buf =? 0 then p else enter buf p
  | c :: bytes =>
      if c =? 13 then load_from bytes buf p
      else if c =? 10 then load_from bytes [] (enter buf p)
      else if lenZ buf <? LINELEN - 1 then load_from bytes (buf ++ [c]) p
      else load_from bytes buf p
  end.
Definition load (bytes : list Z) (p : prog) : prog := load_from bytes [] p.

(** The digits of [rev], at most ten for an [int]. *)
Fixpoint rev_digits (fuel : nat) (n : Z) : list Z :=
  match fuel with
  | O => []
  | S f => (48 + Z.rem n 10) :: (if Z.quot n 10 =? 0 then [] else rev_digits f (Z.quot n 10))
  end.
Definition save_line (l : line) : list Z := rev (rev_digits 32 (number_of l)) ++ [32] ++ text_of l ++ [10].
Definition save (p : prog) : list Z := concat (map save_line (live p)).

(** ** The prompt: one line typed *)

Inductive prompt := Ready (w : st) | Bye | Lost (r : ran).

Definition on_run (r : ran) : prompt := match r with Finished w => Ready w | r => Lost r end.
Definition set_code (p : prog) (w : st) : st := St p (vars w) (input w) (printed w).
Definition is_cmd (s : string) (l : list Z) : bool := CStr.cstrcmp l (text s) =? 0.

(** [files] gives the bytes of the files that can be opened, [can_save] tells where a file
    can be written; what [SAVE] writes is the second part of the result. *)
Definition typed (fuel : nat) (files : list Z -> option (list Z)) (can_save : list Z -> bool) (l : list Z) (w : st)
    : prompt * option (list Z * list Z) :=
  if isdigit (peek l) then (Ready (set_code (store (atoi l) (skip_spaces (skip_digits l)) (code w)) w), None)
  else if is_cmd "RUN" l then (on_run (run fuel w), None)
  else if is_cmd "LIST" l then (Ready (list_lines w), None)
  else if is_cmd "NEW" l then (Ready (set_code (Prog (program (code w)) 0) w), None)
  else if starts "LOAD " l then
    let w := set_code (Prog (program (code w)) 0) w in
    match files (drop 5 l) with
    | Some bytes => (Ready (set_code (load bytes (code w)) w), None)
    | None => (Ready (say (text "Cannot load
") w), None)
    end
  else if starts "SAVE " l then
    if can_save (drop 5 l) then (Ready w, Some (drop 5 l, save (code w)))
    else (Ready (say (text "Cannot save
") w), None)
  else if is_cmd "BYE" l || is_cmd "EXIT" l then (Bye, None)
  else
    match command (S (length l)) l (-1) w with
    | Done r _ w => (Ready (if r =? 1 then say (text "Syntax error
") w else w), None)
    | Trapped => (Lost RunTrapped, None)
    | NoFuel => (Lost Unfinished, None)
    end.

(** ** Statements end *)

Lemma expr_takes vr s : match expr vr s with Val _ s' => (length s' <= length s)%nat | Trap => True | Fuel => False end.
Proof. apply (expr_reads (S (length s))); [apply factor_reads|lia]. Qed.

Lemma value_fuel w s k : (forall v s', (length s' <= length s)%nat -> k v s' <> NoFuel) -> value w s k <> NoFuel.
Proof. intros Hk. unfold value. pose proof (expr_takes (vars w) s) as H. by destruct (expr (vars w) s); [apply Hk| |]. Qed.

Lemma compare_fuel w a s k : (forall b s', (length s' <= length s)%nat -> k b s' <> NoFuel) -> compare w a s k <> NoFuel.
Proof.
  intros Hk. assert (length (tail s) <= length s)%nat as Ht by (destruct s; cbn; lia). unfold compare.
  destruct (peek s =? 61); [apply value_fuel; intros v s' H; apply Hk; lia|].
  destruct (peek s =? 60); [apply value_fuel; intros v s' H; apply Hk; lia|].
  destruct (peek s =? 62); [apply value_fuel; intros v s' H; apply Hk; lia|]. apply Hk. lia.
Qed.

(** A statement that begins with [IF] is not empty. *)
Lemma starts_if s : starts "IF" s = true -> (length (drop 2 s) < length s)%nat.
Proof. destruct s as [|c s]; [done|]. intros _. rewrite length_drop. cbn. lia. Qed.

Lemma command_fuel f : forall s j w, (length s < f)%nat -> command f s j w <> NoFuel.
Proof.
  induction f as [|f IH]; intros s j w Hf; [lia|]. cbn [command]. pose proof (skip_length s) as Hs.
  set (s0 := skip s) in *. clearbody s0. destruct (_ || _); [done|].
  destruct (_ || _). { destruct (_ =? 34); [done|]. by apply value_fuel. }
  destruct (starts "INPUT" s0). { by destruct (getline 32 _). }
  set (s1 := skip _). assert (length s1 <= length s0)%nat as H1.
  { subst s1. etrans; [apply skip_length|]. destruct (starts "LET" s0); [rewrite length_drop|]; lia. }
  clearbody s1. destruct (_ && _); [by apply value_fuel|]. destruct (starts "GOTO" s1); [by apply value_fuel|].
  destruct (starts "IF" s1) eqn:Eif; [|by destruct (_ || _)]. pose proof (starts_if s1 Eif).
  apply value_fuel. intros a s2 H2. apply compare_fuel. intros ok s3 H3. pose proof (skip_length s2). pose proof (skip_length s3).
  destruct ok; [|done]. set (s4 := skip _). assert (length s4 <= length s3)%nat as H5.
  { subst s4. etrans; [apply skip_length|]. destruct (starts "THEN" (skip s3)); [rewrite length_drop|]; lia. }
  clearbody s4. destruct (isdigit (peek s4)); [by apply value_fuel|]. apply IH. lia.
Qed.

(** C35: Every statement ends, whatever the text: evaluation and nested [IF ... THEN] take
    characters away, so that the length of the text is enough fuel. *)
Theorem command_ends s j w : command (S (length s)) s j w <> NoFuel.
Proof. apply command_fuel. lia. Qed.

(** ** Saving and loading *)

Definition saved_char (c : Z) : Prop := c <> 0 /\ c <> 10 /\ c <> 13.
(** What typing a line stores: a number, and a text without its leading blanks. *)
Record storable (l : line) : Prop := {
  sv_number : 0 <= number_of l < 2147483648;
  sv_text : text_of l <> [] /\ List.hd 0 (text_of l) <> 32;
  sv_chars : Forall saved_char (text_of l) }.
(** What [load] makes of the saved lines: number 0 is no line number for it, and what does
    not fit its buffer together with the number and the blank is cut off. *)
Definition room (l : line) : nat := Z.to_nat (LINELEN - 2 - lenZ (itoa_s (number_of l))).
Definition cut (l : line) : line := Line (number_of l) (take (room l) (text_of l)).
Definition reloaded (ls : list line) : list line := map cut (List.filter (fun l => negb (number_of l =? 0)) ls).
(** The lines that survive. *)
Definition savable (l : line) : Prop :=
  number_of l <> 0 /\ lenZ (itoa_s (number_of l)) + 1 + lenZ (text_of l) < LINELEN.

Lemma rev_digits_tmp f : forall n, 0 < n -> rev_digits f n = tmp_digits f n 10 false.
Proof.
  induction f as [|f IH]; intros n Hn; [done|]. cbn [rev_digits tmp_digits]. rewrite (proj2 (Z.eqb_neq n 0)) by lia.
  rewrite Z.rem_mod_nonneg, Z.quot_div_nonneg by lia. f_equal.
  - unfold digit. by rewrite (proj2 (Z.ltb_lt (n mod 10) 10)) by dlia.
  - destruct (Z.eqb_spec (n / 10) 0) as [E|E]; [rewrite E; by destruct f|]. apply IH. dlia.
Qed.

Lemma save_digits n : 0 <= n < 2147483648 -> rev (rev_digits 32 n) = itoa_s n.
Proof.
  intros Hn. destruct (decide (n = 0)) as [->|]; [reflexivity|]. rewrite rev_digits_tmp by lia. unfold itoa_s, itoa_u. rewrite (proj2 (Z.ltb_ge n 0)) by lia.
  rewrite u32_small by (unfold is_u32; lia). by rewrite (proj2 (Z.eqb_neq n 0)) by lia.
Qed.

Lemma itoa_s_digits n : 0 <= n < 2147483648 -> Forall (fun c => isdigit c = true) (itoa_s n).
Proof.
  intros Hn. unfold itoa_s. rewrite (proj2 (Z.ltb_ge n 0)) by lia. apply itoa_u_value. apply u32_range.
Qed.

Lemma digit_saved c : isdigit c = true -> saved_char c.
Proof. unfold isdigit, saved_char. rewrite andb_true_iff, !Z.leb_le. lia. Qed.

Lemma load_chars cs : forall rest buf p, Forall saved_char cs -> lenZ buf <= LINELEN - 1 ->
  load_from (cs ++ rest) buf p = load_from rest (take (Z.to_nat (LINELEN - 1)) (buf ++ cs)) p.
Proof.
  induction cs as [|c cs IH]; intros rest buf p Hc Hl.
  { rewrite app_nil_r, take_ge; [done|]. unfold lenZ in Hl. lia. }
  inversion Hc as [|? ? (H0 & H1 & H2) Hcs]; subst.
  cbn [app load_from]. rewrite (proj2 (Z.eqb_neq c 13)), (proj2 (Z.eqb_neq c 10)) by done.
  destruct (Z.ltb_spec (lenZ buf) (LINELEN - 1)) as [Hlt|Hge].
  - rewrite IH; [by rewrite <- app_assoc|done|]. rewrite lenZ_app. unfold lenZ in *. cbn [length]. lia.
  - rewrite IH by done. f_equal. unfold lenZ in *. by rewrite !take_app_le by lia.
Qed.

Lemma saved_cstring cs : Forall saved_char cs -> CStr.cstring cs = cs.
Proof. intros H. apply CStr.cstring_id. intros Hin. by destruct (proj1 (list.Forall_forall _ _) H 0 Hin). Qed.

Lemma skip_digits_app ds rest : Forall (fun c => isdigit c = true) ds -> no_digit rest -> skip_digits (ds ++ rest) = rest.
Proof.
  intros Hd Hr. induction Hd as [|c ds Hc _ IH]; cbn [app skip_digits]; [|by rewrite Hc]. destruct rest as [|c rest]; [done|]. cbn in *. by rewrite Hr.
Qed.

Lemma saved_line_len l : storable l -> 0 < lenZ (itoa_s (number_of l)) <= 10.
Proof.
  intros [Hn _ _]. unfold itoa_s. rewrite (proj2 (Z.ltb_ge _ 0)) by lia.
  destruct (itoa_u_value (u32 (number_of l)) (u32_range _)) as (_ & _ & Hne & ?).
  destruct (itoa_u _ _ _) as [|c s]; [done|]. rewrite lenZ_cons in *. pose proof (lenZ_nonneg s). lia.
Qed.

Lemma cut_text l : storable l -> text_of (cut l) <> [] /\ List.hd 0 (text_of (cut l)) <> 32 /\ Forall saved_char (text_of (cut l)).
Proof.
  intros Hl. pose proof (saved_line_len l Hl) as Hlen. destruct Hl as [_ [Ht Hs] Hc]. unfold cut, room, LINELEN. cbn [text_of].
  destruct (text_of l) as [|c s]; [done|]. destruct (Z.to_nat _) as [|k] eqn:E; [lia|]. cbn [take List.hd] in *.
  split_and!; [done|done|]. inversion Hc; subst. constructor; [done|]. by apply Forall_take.
Qed.

Lemma enter_saved l p : storable l -> enter (itoa_s (number_of l) ++ 32 :: text_of (cut l)) p =
  if number_of l =? 0 then p else store (number_of l) (text_of (cut l)) p.
Proof.
  intros Hl. destruct (cut_text l Hl) as (Ht & Hsp & Hc). destruct Hl as [Hn _ _]. pose proof (itoa_s_digits _ Hn) as Hd. unfold enter. rewrite saved_cstring.
  - assert (atoi (itoa_s (number_of l) ++ 32 :: text_of (cut l)) = number_of l) as -> by (apply (atoi_itoa_spec (number_of l) []); (done || lia || constructor)).
    destruct (number_of l =? 0); [done|]. cbn [negb]. rewrite skip_digits_app by done. f_equal. cbn [skip_spaces Z.eqb Pos.eqb].
    destruct (text_of (cut l)) as [|c s]; [done|]. cbn in *. by rewrite (proj2 (Z.eqb_neq c 32)).
  - apply Forall_app. split; [eapply list.Forall_impl; [done|]; apply digit_saved|]. constructor; [by repeat split|done].
Qed.

Lemma load_line l rest p : storable l -> load_from (save_line l ++ rest) [] p =
  load_from rest [] (if number_of l =? 0 then p else store (number_of l) (text_of (cut l)) p).
Proof.
  intros Hl. pose proof (saved_line_len l Hl) as Hlen. pose proof Hl as [Hn _ Hc]. unfold save_line. rewrite save_digits by done.
  set (cs := itoa_s (number_of l) ++ 32 :: text_of l).
  replace ((itoa_s (number_of l) ++ [32] ++ text_of l ++ [10]) ++ rest) with (cs ++ 10 :: rest) by (unfold cs; by rewrite <- !app_assoc).
  rewrite load_chars; cbn [app].
  - cbn [load_from Z.eqb Pos.eqb]. rewrite <- (enter_saved l p Hl). do 2 f_equal. unfold cs, cut, room. cbn [text_of].
    unfold lenZ, LINELEN in *. rewrite take_app_ge by lia. f_equal.
    replace (Z.to_nat (128 - 1) - length (itoa_s (number_of l)))%nat with (S (Z.to_nat (128 - 2 - Z.of_nat (length (itoa_s (number_of l)))))) by lia.
    reflexivity.
  - apply Forall_app. split; [eapply list.Forall_impl; [by apply itoa_s_digits|]; apply digit_saved|]. constructor; [by repeat split|done].
  - done.
Qed.

Lemma put_line_end n s l : Forall (fun x => number_of x < n) l -> s <> [] -> put_line n s l = l ++ [Line n s].
Proof. intros Hl Hs. rewrite <- (app_nil_r l) at 1. rewrite put_line_split by done. by destruct s. Qed.

Lemma sorted_mid a x b : sorted (a ++ x :: b) -> Forall (fun y => number_of y < number_of x) a.
Proof.
  induction a as [|y a IH]; intros Hs; [constructor|]. cbn [app] in Hs. inversion Hs as [|? ? Hy Hr]; subst. constructor; [|by apply IH].
  by apply Forall_app in Hy as [_ Hy%Forall_inv].
Qed.

Lemma reloaded_cons l ls : reloaded (l :: ls) = if number_of l =? 0 then reloaded ls else cut l :: reloaded ls.
Proof. unfold reloaded. cbn [List.filter]. by destruct (number_of l =? 0). Qed.

Lemma reloaded_len ls : lenZ (reloaded ls) <= lenZ ls.
Proof. induction ls as [|l ls IH]; [done|]. rewrite reloaded_cons. destruct (_ =? _); rewrite ?lenZ_cons; lia. Qed.

Lemma reloaded_above n ls : Forall (fun y => n < number_of y) ls -> Forall (fun y => n < number_of y) (reloaded ls).
Proof. induction 1 as [|l ls Hl _ IH]; [constructor|]. rewrite reloaded_cons. destruct (_ =? _); [done|]. by constructor. Qed.

Lemma reloaded_sorted ls : sorted ls -> sorted (reloaded ls).
Proof.
  induction 1 as [|l ls Hl _ IH]; [constructor|]. rewrite reloaded_cons. destruct (_ =? _); [done|].
  constructor; [|done]. by apply reloaded_above.
Qed.

Lemma reloaded_savable ls : Forall savable ls -> reloaded ls = ls.
Proof.
  induction 1 as [|l ls [Hn Hf] _ IH]; [done|]. rewrite reloaded_cons, (proj2 (Z.eqb_neq _ 0)) by done. rewrite IH. f_equal.
  destruct l as [n s]. unfold cut, room. cbn [number_of text_of] in *. f_equal. apply take_ge. unfold lenZ, LINELEN in *. lia.
Qed.

Lemma load_lines ls : forall p, wf p -> Forall storable ls -> sorted (live p ++ reloaded ls) -> lenZ (live p ++ reloaded ls) <= MAXLINES ->
  live (load_from (concat (map save_line ls)) [] p) = live p ++ reloaded ls.
Proof.
  induction ls as [|l ls IH]; intros p Hwf Hsv Hs Hl; cbn [map concat]; [by rewrite app_nil_r|]. inversion Hsv as [|? ? Hv Hvs]; subst.
  rewrite load_line by done. rewrite reloaded_cons in *. destruct (number_of l =? 0); [by apply IH|].
  pose proof (sorted_mid _ _ _ Hs) as Hlt. change (number_of (cut l)) with (number_of l) in Hlt.
  rewrite lenZ_app, lenZ_cons in Hl. pose proof (lenZ_nonneg (reloaded ls)).
  assert (lenZ (live p) = count p) as Hc by (destruct Hwf as [W1 W2]; unfold live, lenZ in *; rewrite length_take; lia).
  pose proof (saved_line_len l Hv).
  assert (lenZ (text_of (cut l)) < LINELEN) as Hct by (unfold cut, room, LINELEN, lenZ in *; cbn [text_of]; rewrite length_take; lia).
  destruct (store_live (number_of l) (text_of (cut l)) p Hwf) as [Hw' Hl']; [lia|right; right; lia|].
  rewrite put_line_end in Hl' by (done || apply (cut_text l Hv)).
  change (Line (number_of l) (text_of (cut l))) with (cut l) in Hl'.
  rewrite IH; [|done|done| |]; rewrite Hl', <- app_assoc; try done. cbn [app]. rewrite lenZ_app, lenZ_cons. lia.
Qed.

(** C12: A program is saved and loaded again, whatever the table held before, for lines with
    numbers from 0 to 2147483647 and texts that are not empty, do not begin with a blank and
    hold no NUL, CR or LF: what comes back is the program as it was when every number is at
    least 1 and number, blank and text of every line together have at most 127 characters.
    Otherwise lines are lost, and the theorem says which: a line 0, which can be typed and is
    saved, is dropped, and a longer line (typed without the blank, which [save] adds) loses
    the characters that do not fit. *)
Theorem save_load p old : wf p -> sorted (live p) -> Forall storable (live p) -> lenZ old = MAXLINES ->
  live (load (save p) (Prog old 0)) = reloaded (live p) /\
  (Forall savable (live p) -> live (load (save p) (Prog old 0)) = live p).
Proof.
  intros Hwf Hs Hv Ho.
  assert (live (load (save p) (Prog old 0)) = reloaded (live p)) as E.
  { unfold load, save. change (live (Prog old 0)) with (@nil line). rewrite load_lines; [done|by constructor|done|by apply reloaded_sorted|].
    change (live (Prog old 0)) with (@nil line). cbn [app]. pose proof (reloaded_len (live p)). destruct Hwf as [W1 W2].
    unfold live, lenZ in *. rewrite length_take in *. lia. }
  split; [done|]. intros Hsv. by rewrite E, reloaded_savable.
Qed.

(** ** A conditional jump to a line that does not exist *)

Lemma value_text w s e v : txt 0 s e -> eval (vars w) e = Some v -> forall k rest, no_digit rest -> no_op mul_op rest -> no_op add_op rest ->
  value w (s ++ rest) k = k v (skip rest).
Proof.
  intros Ht He k rest Hd Hm Ha. unfold value, expr. rewrite (txt_means (vars w) 0 s e Ht) by (done || lia). rewrite He. cbn [given].
  by rewrite loop_at_stop.
Qed.

Definition if_text (s1 s2 ds : list Z) : list Z := text "IF" ++ s1 ++ 61 :: s2 ++ text " THEN " ++ ds.

Lemma command_if f w j s1 s2 ds e1 e2 v : txt 0 s1 e1 -> txt 0 s2 e2 -> eval (vars w) e1 = Some v -> eval (vars w) e2 = Some v -> digits ds ->
  command (S f) (if_text s1 s2 ds) j w = Done 2 (find_line (fst (number 0 ds)) (code w)) w.
Proof.
  intros T1 T2 E1 E2 Hds. cbn [command].
  assert (skip (if_text s1 s2 ds) = if_text s1 s2 ds) as -> by done.
  assert (starts "REM" (if_text s1 s2 ds) = false /\ starts "PRINT" (if_text s1 s2 ds) = false /\ starts "INPUT" (if_text s1 s2 ds) = false /\
    starts "LET" (if_text s1 s2 ds) = false /\ starts "GOTO" (if_text s1 s2 ds) = false /\ starts "IF" (if_text s1 s2 ds) = true /\
    peek (if_text s1 s2 ds) = 73 /\ List.nth 1 (if_text s1 s2 ds) 0 = 70 /\ skip (if_text s1 s2 ds) = if_text s1 s2 ds)
    as (H1 & H2 & H3 & H4 & H5 & H6 & H7 & H8 & H9) by (by repeat split).
  rewrite H1, H2, H3, H4, H9, H5, H6, H7, H8. cbn [orb andb Z.eqb Pos.eqb]. rewrite andb_false_r.
  change (drop 2 (if_text s1 s2 ds)) with (s1 ++ 61 :: s2 ++ text " THEN " ++ ds).
  rewrite (value_text w s1 e1 v T1 E1) by done. change (skip (skip (61 :: ?r))) with (61 :: r). unfold compare. change (peek (61 :: ?r)) with 61.
  cbn [Z.eqb Pos.eqb tail]. rewrite (value_text w s2 e2 v T2 E2) by done. rewrite Z.eqb_refl.
  change (skip (skip (text " THEN " ++ ds))) with (text "THEN " ++ ds). change (starts "THEN" (text "THEN " ++ ds)) with true. cbv iota.
  change (drop 4 (text "THEN " ++ ds)) with (32 :: ds).
  destruct Hds as [Hne Hd]. assert (skip (32 :: ds) = ds /\ isdigit (peek ds) = true) as [-> ->].
  { destruct ds as [|c ds]; [done|]. inversion Hd as [|? ? Hc _]; subst. cbn. split; [|done].
    unfold is_blank. unfold isdigit in Hc. rewrite andb_true_iff, !Z.leb_le in Hc. by rewrite (proj2 (Z.eqb_neq c 32)), (proj2 (Z.eqb_neq c 9)) by lia. }
  rewrite <- (app_nil_r ds) at 1. rewrite (value_text w ds (Num (fst (number 0 ds))) (fst (number 0 ds))); try done.
  by apply txt_term, txt_factor, (txt_num [] ds); [constructor|].
Qed.

(** [IF a=b THEN n] whose sides have equal values goes to the line of number [n]; when there
    is no such line, the run goes on at the entry before the table. *)
Theorem if_then_jumps f pc w s1 s2 ds e1 e2 v : 0 <= pc < count (code w) -> text_of (at_ (code w) pc) = if_text s1 s2 ds ->
  txt 0 s1 e1 -> txt 0 s2 e2 -> eval (vars w) e1 = Some v -> eval (vars w) e2 = Some v -> digits ds ->
  let i := find_line (fst (number 0 ds)) (code w) in
  run_from (S f) pc w = run_from f i w /\ (i < 0 -> run_from (S (S f)) pc w = Wild).
Proof.
  intros Hpc Ht T1 T2 E1 E2 Hds. cbv zeta.
  assert (forall g, run_from (S g) pc w = run_from g (find_line (fst (number 0 ds)) (code w)) w) as E.
  { intros g. cbn [run_from]. rewrite (proj2 (Z.ltb_lt pc (count (code w)))), (proj2 (Z.ltb_ge pc 0)) by lia.
    cbv zeta. rewrite Ht, (command_if _ w (-1) s1 s2 ds e1 e2 v) by done. done. }
  split; [apply E|]. intros Hi. rewrite E. cbn [run_from]. rewrite (proj2 (Z.ltb_lt _ (count (code w)))), (proj2 (Z.ltb_lt _ 0)) by lia. done.
Qed.

(** ** A program *)

(** Counting to three: 10 I=I+1, 20 PRINT I, 30 IF I=3 THEN 99 and, when it is stored, 99 END. *)
Definition demo_lines : list (Z * string) := [(10, "I=I+1"); (20, "PRINT I"); (30, "IF I=3 THEN 99"); (40, "GOTO 10")]%string.
Definition empty_prog : prog := Prog (replicate 256 no_line) 0.
Definition enter_all (ls : list (Z * string)) (p : prog) : prog := fold_left (fun p x => store (fst x) (text (snd x)) p) ls p.
Definition demo_prog : prog := enter_all demo_lines empty_prog.
Definition start (p : prog) : st := St p (replicate 26 0) [] [].

(** The statements of the program: with a last line it prints 1, 2, 3 and ends. *)
Example demo_runs : run 20 (start (store 99 (text "END") demo_prog)) =
  Finished (St (store 99 (text "END") demo_prog) (lset (replicate 26 0) 8 3) [] [49; 10; 50; 10; 51; 10]).
Proof. vm_compute. reflexivity. Qed.

Lemma txt_one b c e : blanks b -> isdigit c = true \/ isalpha c = true -> e = (if isdigit c then Num (fst (number 0 [c])) else Var (toupper c - 65)) -> txt 0 (b ++ [c]) e.
Proof.
  intros Hb Hc ->. apply txt_term, txt_factor. destruct (isdigit c) eqn:E; [by apply txt_digit|]. destruct Hc; [done|]. by apply txt_var.
Qed.

Lemma if_then_jumps_witness : run_from 2 2 (St demo_prog (lset (replicate 26 0) 8 3) [] []) = Wild.
Proof.
  apply (if_then_jumps 0 2 (St demo_prog (lset (replicate 26 0) 8 3) [] []) (text " I") (text "3") (text "99") (Var 8) (Num 3) 3);
    [vm_compute; split; congruence|vm_compute; reflexivity| | |reflexivity|reflexivity|split; [discriminate|by repeat constructor]|vm_compute; reflexivity].
  - apply (txt_one [32] 73); [by repeat constructor|by right|reflexivity].
  - apply (txt_one [] 51); [by constructor|by left|reflexivity].
Defined.

Lemma demo_sorted : sorted (live demo_prog).
Proof. assert (live demo_prog = map (fun x => Line (fst x) (text (snd x))) demo_lines) as -> by (vm_compute; reflexivity). repeat constructor. Qed.

Lemma demo_storable : Forall storable (live demo_prog).
Proof.
  assert (live demo_prog = map (fun x => Line (fst x) (text (snd x))) demo_lines) as -> by (vm_compute; reflexivity).
  repeat constructor; cbn; discriminate.
Qed.

Lemma demo_savable : Forall savable (live demo_prog).
Proof.
  assert (live demo_prog = map (fun x => Line (fst x) (text (snd x))) demo_lines) as -> by (vm_compute; reflexivity).
  repeat constructor; cbn; discriminate.
Qed.

Lemma demo_prog_wf : wf demo_prog.
Proof. constructor; [vm_compute; reflexivity|]. vm_compute. split; discriminate. Qed.

Lemma save_load_witness : live (load (save demo_prog) (Prog (replicate 256 (Line 7 [65])) 0)) = live demo_prog.
Proof. apply (save_load demo_prog (replicate 256 (Line 7 [65])) demo_prog_wf demo_sorted demo_storable eq_refl). exact demo_savable. Defined.

End BasicRun.
