(* ===== verification/Fento.v ===== *)
(** * The text editor (user/bin/fento.c)

    The buffer of [CAP] bytes with its length and cursor, the keys of the main loop, and the
    part of the text that is on the screen.  The buffer is shown to implement a text split
    at the cursor, and scrolling to end with the cursor on the screen. *)

From Stdlib Require Import String Ascii.
From stdpp Require Import base list numbers.
From S2P Require Import Prelude CString ULib.

#[local] Open Scope Z_scope.

Module Fento.

Definition CAP : Z := 32768.
Definition ROWS : Z := 23.
Definition COLS : Z := 80.

Record ed := Ed { text : list Z; len : Z; pos : Z; top : Z; dirty : bool }.
Definition set_pos (p : Z) (e : ed) : ed := Ed (text e) (len e) p (top e) (dirty e).
Definition set_top (t : Z) (e : ed) : ed := Ed (text e) (len e) (pos e) t (dirty e).

(** ** Lines *)

Fixpoint back (t : list Z) (p : nat) : Z :=
  match p with
  | O => 0
  | S p' => if lget 0 t (Z.of_nat p') =? 10 then Z.of_nat (S p') else back t p'
  end.
Definition line_start (e : ed) (p : Z) : Z := back (text e) (Z.to_nat p).

(** [k] bounds the turns: the bytes from [p] to the end. *)
Fixpoint forth (t : list Z) (k : nat) (p : Z) : Z :=
  match k with
  | O => p
  | S k => if lget 0 t p =? 10 then p else forth t k (p + 1)
  end.
Definition line_end (e : ed) (p : Z) : Z := forth (text e) (Z.to_nat (len e - p)) p.

Definition prev_line (e : ed) (p : Z) : Z :=
  let p := line_start e p in if negb (p =? 0) then line_start e (p - 1) else 0.
Definition next_line (e : ed) (p : Z) : Z :=
  let p := line_end e p in if p <? len e then p + 1 else len e.
Definition column (e : ed) (p : Z) : Z := p - line_start e p.

(** ** Editing *)

Definition insert (c : Z) (e : ed) : ed :=
  if CAP - 1 <=? len e then e
  else
    let t := shift_up 0 (Z.to_nat (len e - pos e)) (len e) (text e) in
    Ed (lset t (pos e) c) (len e + 1) (pos e + 1) (top e) true.

(** The byte at [p] taken out: the loop of [backspace] and of the delete key. *)
Definition remove (p : Z) (e : ed) : ed :=
  Ed (shift_down 0 (Z.to_nat (len e - 1 - p)) p (text e)) (len e - 1) p (top e) true.
Definition backspace (e : ed) : ed := if pos e =? 0 then e else remove (pos e - 1) e.
Definition delete (e : ed) : ed := if pos e <? len e then remove (pos e) e else e.

(** ** Keys *)

Definition vertical (p : Z) (e : ed) : ed :=
  let col := column e (pos e) in
  let n := line_end e p in
  set_pos (p + (if col <? n - p then col else n - p)) e.

(** The result of a turn of the main loop on the bytes typed: the editor waits for more
    bytes, has ended, or goes on; [saves] tells whether the file is written. *)
Inductive turn := Await | Quit | Next (e : ed) (rest : list Z) (saves : bool).

Definition key (saved : bool) (input : list Z) (e : ed) : turn :=
  match input with
  | [] => Await
  | c :: i1 =>
      if c =? 17 then Quit
      else if c =? 19 then Next (if saved then Ed (text e) (len e) (pos e) (top e) false else e) i1 true
      else if (c =? 8) || (c =? 127) then Next (backspace e) i1 false
      else if c =? 27 then
        match i1 with
        | [] => Await
        | a :: i2 =>
            if negb (a =? 91) then Next e i2 false
            else
              match i2 with
              | [] => Await
              | b :: i3 =>
                  if (b =? 68) && (0 <? pos e) then Next (set_pos (pos e - 1) e) i3 false
                  else if (b =? 67) && (pos e <? len e) then Next (set_pos (pos e + 1) e) i3 false
                  else if b =? 65 then Next (vertical (prev_line e (pos e)) e) i3 false
                  else if b =? 66 then Next (vertical (next_line e (pos e)) e) i3 false
                  else if b =? 51 then
                    match i3 with
                    | [] => Await
                    | z :: i4 => Next (if z =? 126 then delete e else e) i4 false
                    end
                  else Next e i3 false
              end
        end
      else
        let c := if c =? 13 then 10 else c in
        Next (if (32 <=? c) || (c =? 10) || (c =? 9) then insert c e else e) i1 false
  end.

(** The bytes that [save] writes. *)
Definition contents (e : ed) : list Z := take (Z.to_nat (len e)) (text e).

(** ** The screen *)

Fixpoint rows_from (t : list Z) (k : nat) (q r : Z) : Z :=
  match k with
  | O => r
  | S k => if r <? ROWS then rows_from t k (q + 1) (if lget 0 t q =? 10 then r + 1 else r) else r
  end.
(** The row and column of [locate]. *)
Definition locate (p : Z) (e : ed) : Z * Z :=
  let col := p - line_start e p in
  (rows_from (text e) (Z.to_nat (p - top e)) (top e) 0, if COLS <=? col then COLS - 1 else col).

Fixpoint scroll_up (k : nat) (e : ed) : option ed :=
  match k with
  | O => None
  | S k => if pos e <? top e then scroll_up k (set_top (prev_line e (top e)) e) else Some e
  end.
Fixpoint scroll_down (k : nat) (e : ed) : option ed :=
  match k with
  | O => None
  | S k => if ROWS <=? fst (locate (pos e) e) then scroll_down k (set_top (next_line e (top e)) e) else Some e
  end.
(** [None] is too little fuel: the first loop moves [top] towards 0, the second towards [len]. *)
Definition adjust (e : ed) : option ed :=
  e ← scroll_up (S (Z.to_nat (top e))) e;
  scroll_down (S (Z.to_nat (len e - top e))) e.

(** The characters of a line that fit the screen, with tabs as blanks up to the next column
    that is a multiple of 4: the bytes written, the position reached and the column. *)
Fixpoint draw_chars (e : ed) (k : nat) (p c : Z) : list Z * Z * Z :=
  match k with
  | O => ([], p, c)
  | S k =>
      if (p <? len e) && negb (lget 0 (text e) p =? 10) && (c <? COLS) then
        if lget 0 (text e) p =? 9 then
          let n := Z.min (4 - c mod 4) (COLS - c) in
          let '(o, p', c') := draw_chars e k (p + 1) (c + n) in (replicate (Z.to_nat n) 32 ++ o, p', c')
        else let '(o, p', c') := draw_chars e k (p + 1) (c + 1) in (lget 0 (text e) p :: o, p', c')
      else ([], p, c)
  end.

Definition esc (s : string) : list Z := 27 :: map (fun c => Z.of_N (N_of_ascii c)) (list_ascii_of_string s).
(** The rows from [r] on, each behind an order to clear the line. *)
Fixpoint draw_rows (e : ed) (k : nat) (r p : Z) : list Z :=
  match k with
  | O => []
  | S k =>
      let '(o, p, _) := draw_chars e (Z.to_nat (len e - p)) p 0 in
      let p := line_end e p in
      let p := if p <? len e then p + 1 else p in
      esc "[K" ++ o ++ (if r <? ROWS - 1 then [10] else []) ++ draw_rows e k (r + 1) p
  end.

(** [draw] behind [adjust]: the rows, the status line and the cursor. *)
Definition draw (path : list Z) (e : ed) : list Z :=
  let '(row, col) := locate (pos e) e in
  esc "[H" ++ draw_rows e (Z.to_nat ROWS) 0 (top e) ++
  ULib.printf (esc "[24;1H" ++ esc "[7m Fento  %s  %d bytes %s  Ctrl-S save  Ctrl-Q quit " ++ esc "[K" ++ esc "[0m")
    [ULib.AStr (Some path); ULib.AInt (len e);
     ULib.AStr (Some (tail (esc (if dirty e then "modified" else "saved"))))] ++
  ULib.printf (esc "[%d;%dH") [ULib.AInt (row + 1); ULib.AInt (col + 1)].

(** The file read at the start, as much of it as there is room for. *)
Definition load_text (content : list Z) : ed :=
  let s := take (Z.to_nat (CAP - 1)) content in
  Ed (s ++ replicate (Z.to_nat (CAP - lenZ s)) 0) (lenZ s) 0 0 false.

(** ** A text split at the cursor *)

Record wf (e : ed) : Prop := {
  wf_text : lenZ (text e) = CAP;
  wf_len : 0 <= pos e <= len e;
  wf_room : len e <= CAP - 1;
  wf_top : 0 <= top e }.

(** The editor holds the text [b ++ a] with the cursor between the two. *)
Record holds (e : ed) (b a : list Z) : Prop := {
  h_split : exists t, text e = b ++ a ++ t;
  h_pos : pos e = lenZ b;
  h_len : len e = lenZ b + lenZ a }.

Lemma wf_holds e : wf e -> exists b a, holds e b a.
Proof.
  intros [Ht Hp Hr _]. exists (take (Z.to_nat (pos e)) (text e)), (take (Z.to_nat (len e - pos e)) (drop (Z.to_nat (pos e)) (text e))).
  unfold lenZ in *. split; unfold lenZ; rewrite ?length_take, ?length_drop; [|lia|lia].
  exists (drop (Z.to_nat (len e - pos e)) (drop (Z.to_nat (pos e)) (text e))). by rewrite take_drop, take_drop.
Qed.

Lemma holds_contents e b a : holds e b a -> contents e = b ++ a.
Proof.
  intros [[t Et] Hp Hl]. unfold contents. rewrite Et, Hl, app_assoc. apply take_app_length'. rewrite length_app. unfold lenZ. lia.
Qed.

Lemma load_holds content : wf (load_text content) /\ holds (load_text content) [] (take (Z.to_nat (CAP - 1)) content).
Proof.
  unfold load_text. set (s := take _ _). assert (lenZ s <= CAP - 1) as Hs by (unfold s, lenZ, CAP; rewrite length_take; lia).
  pose proof (lenZ_nonneg s). split; constructor; cbn [text len pos top]; try lia; try done.
  - rewrite lenZ_app. unfold lenZ at 2. rewrite length_replicate. lia.
  - by eexists.
Qed.

(** No row is wider than the screen. *)
Lemma draw_chars_width e k : forall p c, 0 <= c <= COLS -> let '(o, _, c') := draw_chars e k p c in c' = c + lenZ o /\ c' <= COLS.
Proof.
  induction k as [|k IH]; intros p c Hc; cbn [draw_chars]; [unfold lenZ; cbn; lia|].
  destruct (_ && _) eqn:E; [|unfold lenZ; cbn; lia]. apply andb_true_iff in E as [_ E%Z.ltb_lt].
  destruct (lget 0 (text e) p =? 9).
  - assert (0 <= 4 - c mod 4) as Hm by dlia. set (n := Z.min (4 - c mod 4) (COLS - c)).
    assert (0 <= n <= COLS - c) as Hn by (unfold n; lia). clearbody n. specialize (IH (p + 1) (c + n) ltac:(lia)).
    destruct (draw_chars e k (p + 1) (c + n)) as [[o p'] c']. rewrite lenZ_app. unfold lenZ at 1. rewrite length_replicate. lia.
  - specialize (IH (p + 1) (c + 1) ltac:(lia)). destruct (draw_chars e k (p + 1) (c + 1)) as [[o p'] c']. rewrite lenZ_cons. lia.
Qed.

Lemma insert_holds e b a c : wf e -> holds e b a -> len e < CAP - 1 -> wf (insert c e) /\ holds (insert c e) (b ++ [c]) a.
Proof.
  intros [Wt Wp Wr Wo] [[t Et] Hp Hl] Hroom. pose proof (lenZ_nonneg a). pose proof (lenZ_nonneg b).
  assert (exists x t', t = x :: t') as (x & t' & ->).
  { destruct t as [|x t']; [|eauto]. rewrite Et, app_nil_r, lenZ_app in Wt. lia. }
  unfold insert. rewrite (proj2 (Z.leb_gt (CAP - 1) (len e))) by lia. cbv zeta.
  replace (Z.to_nat (len e - pos e)) with (length a) by (rewrite Hl, Hp; unfold lenZ; lia). rewrite Hl, Et, shift_up_spec, Hp, lset_mid.
  rewrite Et in Wt. rewrite !lenZ_app, lenZ_cons in Wt.
  split; constructor; cbn [text len pos top]; try lia.
  - rewrite lenZ_app, lenZ_cons, lenZ_app. lia.
  - exists t'. by rewrite <- app_assoc.
  - rewrite lenZ_app. reflexivity.
  - rewrite lenZ_app. unfold lenZ. cbn [length]. lia.
Qed.

Lemma remove_holds e b a x : wf e -> holds e b (x :: a) -> wf (remove (pos e) e) /\ holds (remove (pos e) e) b a.
Proof.
  intros [Wt Wp Wr Wo] [[t Et] Hp Hl]. pose proof (lenZ_nonneg a). pose proof (lenZ_nonneg b). rewrite lenZ_cons in Hl.
  unfold remove. replace (Z.to_nat (len e - 1 - pos e)) with (length a) by (rewrite Hl, Hp; unfold lenZ; lia).
  rewrite Hp, Et. cbn [app]. rewrite shift_down_spec. rewrite Et in Wt. cbn [app] in Wt. rewrite lenZ_app, lenZ_cons, lenZ_app in Wt.
  split; constructor; cbn [text len pos top]; try lia.
  - rewrite !lenZ_app, lenZ_cons. lia.
  - by eexists.
Qed.

Lemma move_holds e b a x : wf e -> holds e b (x :: a) -> wf (set_pos (pos e + 1) e) /\ holds (set_pos (pos e + 1) e) (b ++ [x]) a.
Proof.
  intros [Wt Wp Wr Wo] [[t Et] Hp Hl]. pose proof (lenZ_nonneg a). rewrite lenZ_cons in Hl.
  split; constructor; cbn [text len pos top set_pos]; try lia; rewrite ?lenZ_app; try (unfold lenZ in *; cbn [length]; lia).
  exists t. by rewrite <- app_assoc.
Qed.

Lemma move_back e b a x : wf e -> holds e (b ++ [x]) a -> wf (set_pos (pos e - 1) e) /\ holds (set_pos (pos e - 1) e) b (x :: a).
Proof.
  intros [Wt Wp Wr Wo] [[t Et] Hp Hl]. pose proof (lenZ_nonneg b). rewrite lenZ_app in *. change (lenZ [x]) with 1 in *.
  split; constructor; cbn [text len pos top set_pos]; try lia; rewrite ?lenZ_cons; try lia.
  exists t. by rewrite Et, <- app_assoc.
Qed.

Lemma backspace_holds e b a x : wf e -> holds e (b ++ [x]) a -> wf (backspace e) /\ holds (backspace e) b a.
Proof.
  intros Hw Hh. pose proof (h_pos _ _ _ Hh) as Hp. rewrite lenZ_app in Hp. change (lenZ [x]) with 1 in Hp. pose proof (lenZ_nonneg b).
  unfold backspace. rewrite (proj2 (Z.eqb_neq (pos e) 0)) by lia. destruct (move_back e b a x Hw Hh) as [Hw' Hh'].
  by apply (remove_holds (set_pos (pos e - 1) e) b a x).
Qed.

(** ** Moving between lines *)

Definition one_line (l : list Z) : Prop := Forall (fun c => c <> 10) l.
(** The text before a line is empty or ends with a newline; the text after it likewise. *)
Definition ends_line (b : list Z) : Prop := b = [] \/ exists b', b = b' ++ [10].
Definition starts_line (a : list Z) : Prop := a = [] \/ exists a', a = 10 :: a'.

Lemma back_line b l rest : ends_line b -> one_line l -> back (b ++ l ++ rest) (length (b ++ l)) = lenZ b.
Proof.
  intros Hb Hl. revert rest. induction l as [|c l IH] using rev_ind; intros rest.
  - rewrite app_nil_r. destruct Hb as [->|[b' ->]]; [done|]. rewrite length_app, Nat.add_1_r. cbn [back].
    rewrite <- app_assoc. fold (lenZ b'). cbn [app]. rewrite lget_mid. cbn [Z.eqb Pos.eqb]. unfold lenZ. rewrite length_app. cbn [length]. lia.
  - apply Forall_app in Hl as [Hl Hc]. inversion Hc as [|? ? Hc' _]; subst. assert (length (b ++ l ++ [c]) = S (length (b ++ l))) as -> by (rewrite !length_app; cbn; lia). cbn [back].
    fold (lenZ (b ++ l)). rewrite <- (app_assoc l [c]), (app_assoc b l). cbn [app]. rewrite lget_mid, (proj2 (Z.eqb_neq c 10)) by done.
    rewrite <- app_assoc. apply (IH Hl (c :: rest)).
Qed.

Lemma forth_line l : forall b rest, one_line l -> forth (b ++ l ++ 10 :: rest) (S (length l)) (lenZ b) = lenZ (b ++ l).
Proof.
  induction l as [|c l IH]; intros b rest Hl; cbn [app forth length].
  - by rewrite lget_mid, app_nil_r.
  - inversion Hl as [|? ? Hc Hl']; subst. rewrite lget_mid, (proj2 (Z.eqb_neq c 10)) by done.
    specialize (IH (b ++ [c]) rest Hl'). rewrite <- !app_assoc in IH. cbn [app] in IH. rewrite lenZ_app in IH. exact IH.
Qed.
Lemma forth_more t k : forall p, forth t k p < p + Z.of_nat k -> forall k', (k <= k')%nat -> forth t k' p = forth t k p.
Proof.
  induction k as [|k IH]; intros p Hp k' Hk; [cbn in Hp; lia|]. destruct k' as [|k']; [lia|]. cbn [forth] in *.
  destruct (lget 0 t p =? 10); [done|]. apply IH; lia.
Qed.
Lemma forth_end t l : forall b, one_line l -> forth (b ++ l ++ t) (length l) (lenZ b) = lenZ (b ++ l).
Proof.
  induction l as [|c l IH]; intros b Hl; cbn [app forth length]; [by rewrite app_nil_r|].
  inversion Hl as [|? ? Hc Hl']; subst. rewrite lget_mid, (proj2 (Z.eqb_neq c 10)) by done.
  specialize (IH (b ++ [c]) Hl'). rewrite <- !app_assoc in IH. cbn [app] in IH. rewrite lenZ_app in IH. exact IH.
Qed.

(** The end of the line [l] that starts behind [b], with [a] behind it. *)
Lemma line_end_at e b l a t : text e = b ++ l ++ a ++ t -> len e = lenZ b + lenZ l + lenZ a -> one_line l -> starts_line a -> line_end e (lenZ b) = lenZ b + lenZ l.
Proof.
  intros Et El Hl [->|[a' ->]]; unfold line_end; rewrite Et, El, <- lenZ_app.
  - rewrite lenZ_app. change (lenZ []) with 0. replace (Z.to_nat (lenZ b + lenZ l + 0 - lenZ b)) with (length l) by (unfold lenZ; lia).
    cbn [app]. rewrite forth_end by done. apply lenZ_app.
  - pose proof (forth_line l b (a' ++ t) Hl) as E. cbn [app]. rewrite lenZ_cons. pose proof (lenZ_nonneg a').
    rewrite (forth_more _ (S (length l))); [exact E| |rewrite lenZ_app; unfold lenZ in *; lia]. rewrite E, lenZ_app. unfold lenZ. lia.
Qed.
Lemma line_start_at e b l rest : text e = b ++ l ++ rest -> ends_line b -> one_line l -> line_start e (lenZ b + lenZ l) = lenZ b.
Proof.
  intros Et Hb Hl. unfold line_start. rewrite <- lenZ_app. unfold lenZ at 1. rewrite Nat2Z.id, Et. by apply back_line.
Qed.

Lemma vertical_to e b l a t (cur : list Z) : text e = b ++ l ++ a ++ t -> len e = lenZ b + lenZ l + lenZ a -> one_line l -> starts_line a ->
  column e (pos e) = lenZ cur -> pos (vertical (lenZ b) e) = lenZ b + Z.min (lenZ cur) (lenZ l) /\ text (vertical (lenZ b) e) = text e.
Proof.
  intros Et El Hl Ha Hc. unfold vertical. rewrite Hc, (line_end_at e b l a t) by done. split; [|done]. cbn [pos set_pos].
  destruct (Z.ltb_spec (lenZ cur) (lenZ b + lenZ l - lenZ b)); lia.
Qed.

(** The cursor goes to column [n] of the line [l] that starts behind [p], or to its end. *)
Lemma vertical_holds e p l q t n : wf e -> text e = p ++ l ++ q ++ t -> len e = lenZ p + lenZ l + lenZ q -> one_line l -> starts_line q ->
  column e (pos e) = Z.of_nat n -> wf (vertical (lenZ p) e) /\ holds (vertical (lenZ p) e) (p ++ take n l) (drop n l ++ q).
Proof.
  intros [Wt Wp Wr Wo] Et El Hl Hq Hc. destruct (vertical_to e p l q t (replicate n 0) Et El Hl Hq) as [Ep _].
  { rewrite Hc. unfold lenZ. by rewrite length_replicate. }
  assert (lenZ (p ++ take n l) = lenZ p + Z.min (lenZ (replicate n 0)) (lenZ l)) as En.
  { rewrite lenZ_app. unfold lenZ. rewrite length_take, length_replicate. lia. }
  pose proof (lenZ_nonneg p). pose proof (lenZ_nonneg l). pose proof (lenZ_nonneg q). pose proof (lenZ_nonneg (replicate n 0)).
  split; constructor.
  - exact Wt.
  - rewrite Ep. change (len (vertical (lenZ p) e)) with (len e). lia.
  - exact Wr.
  - exact Wo.
  - exists t. change (text (vertical (lenZ p) e)) with (text e). rewrite Et, <- !app_assoc. f_equal. by rewrite (app_assoc (take n l)), take_drop.
  - by rewrite Ep, En.
  - change (len (vertical (lenZ p) e)) with (len e). rewrite El, !lenZ_app. rewrite <- (take_drop n l) at 1. rewrite lenZ_app. lia.
Qed.

(** ** Sessions *)

Inductive action := AType (c : Z) | ABack | ADel | ALeft | ARight | AUp | ADown.

(** The bytes the keyboard sends. *)
Definition bytes_of (x : action) : list Z :=
  match x with
  | AType c => [c]
  | ABack => [127]
  | ADel => [27; 91; 51; 126]
  | ALeft => [27; 91; 68]
  | ARight => [27; 91; 67]
  | AUp => [27; 91; 65]
  | ADown => [27; 91; 66]
  end.
Definition typable (x : action) : Prop :=
  match x with AType c => (32 <= c /\ c <> 127) \/ c = 10 \/ c = 9 | _ => True end.

(** A text up to its first newline and from there on; and up to behind its last newline
    and from there on. *)
Fixpoint first_line (a : list Z) : list Z * list Z :=
  match a with
  | [] => ([], [])
  | c :: a' => if c =? 10 then ([], a) else let '(l, r) := first_line a' in (c :: l, r)
  end.
Definition last_line (b : list Z) : list Z * list Z :=
  let '(l, r) := first_line (reverse b) in (reverse r, reverse l).

(** What the keys mean for the text before and after the cursor: up and down go to the same
    column of the line above or below, or to its end if it is shorter; up does nothing in
    the first line, and down in the last goes to the end of the text. *)
Definition edit (x : action) (z : list Z * list Z) : list Z * list Z :=
  let '(b, a) := z in
  match x with
  | AType c => if lenZ b + lenZ a <? CAP - 1 then (b ++ [c], a) else (b, a)
  | ABack => (removelast b, a)
  | ADel => (b, tail a)
  | ALeft => match b with [] => (b, a) | _ => (removelast b, List.last b 0 :: a) end
  | ARight => match a with [] => (b, a) | x :: a' => (b ++ [x], a') end
  | AUp =>
      let '(above, cur) := last_line b in
      match above with
      | [] => (b, a)
      | _ => let '(p, l) := last_line (removelast above) in
          (p ++ take (length cur) l, drop (length cur) l ++ 10 :: cur ++ a)
      end
  | ADown =>
      let '(_, cur) := last_line b in
      let '(r, below) := first_line a in
      match below with
      | [] => (b ++ a, [])
      | _ => let '(l, q) := first_line (tail below) in
          (b ++ r ++ 10 :: take (length cur) l, drop (length cur) l ++ q)
      end
  end.

Lemma first_line_spec a : let '(l, r) := first_line a in a = l ++ r /\ one_line l /\ starts_line r.
Proof.
  induction a as [|c a IH]; cbn [first_line]; [split_and!; [done|by constructor|by left]|].
  destruct (Z.eqb_spec c 10) as [->|Hc]; [split_and!; [done|by constructor|right; by eexists]|].
  destruct (first_line a) as [l r]. destruct IH as (-> & Hl & Hr). split_and!; [done|by constructor|done].
Qed.
Lemma last_line_spec b : let '(p, l) := last_line b in b = p ++ l /\ one_line l /\ ends_line p.
Proof.
  unfold last_line. pose proof (first_line_spec (reverse b)) as H. destruct (first_line (reverse b)) as [l r]. destruct H as (Hb & Hl & Hr).
  split_and!; [by rewrite <- (reverse_involutive b), Hb, reverse_app|by apply Forall_reverse|].
  destruct Hr as [->|[r' ->]]; [by left|]. right. exists (reverse r'). apply reverse_cons.
Qed.

(** The up key. *)
Lemma up_edits e b a : wf e -> holds e b a ->
  wf (vertical (prev_line e (pos e)) e) /\ holds (vertical (prev_line e (pos e)) e) (fst (edit AUp (b, a))) (snd (edit AUp (b, a))).
Proof.
  intros Hw Hh. pose proof Hh as [[t Et] Hp Hl]. cbn [edit]. pose proof (last_line_spec b) as Hb. destruct (last_line b) as [p cur].
  destruct Hb as (-> & Hcur & Hend). rewrite <- app_assoc in Et. rewrite lenZ_app in Hp, Hl.
  assert (line_start e (pos e) = lenZ p) as Es by (rewrite Hp; by apply (line_start_at e p cur (a ++ t))).
  assert (column e (pos e) = Z.of_nat (length cur)) as Ec by (unfold column; rewrite Es, Hp; unfold lenZ; lia).
  unfold prev_line. rewrite Es. destruct Hend as [->|[p' ->]].
  - change (lenZ [] =? 0) with true. cbn [negb app fst snd] in *. pose proof (first_line_spec a) as Ha.
    destruct (first_line a) as [r q]. destruct Ha as (-> & Hr & Hq). change (lenZ []) with 0 in *.
    destruct (vertical_holds e [] (cur ++ r) q t (length cur) Hw) as [K1 K2]; [by rewrite Et, <- !app_assoc|rewrite Hl, !lenZ_app; change (lenZ []) with 0; lia|by apply Forall_app|done|done|].
    change (lenZ []) with 0 in *. split; [done|]. by rewrite take_app_length, drop_app_length in K2.
  - rewrite lenZ_app. change (lenZ [10]) with 1. pose proof (lenZ_nonneg p'). rewrite (proj2 (Z.eqb_neq (lenZ p' + 1) 0)) by lia. cbn [negb].
    destruct (p' ++ [10]) as [|y yl] eqn:Ey; [by destruct p'|]. rewrite <- Ey in *. clear Ey y yl. rewrite removelast_last.
    pose proof (last_line_spec p') as Hp'. destruct (last_line p') as [p2 l]. destruct Hp' as (-> & Hl2 & Hend2). cbn [fst snd].
    replace (lenZ (p2 ++ l) + 1 - 1) with (lenZ p2 + lenZ l) by (rewrite lenZ_app; lia). rewrite <- !app_assoc in Et. cbn [app] in Et.
    rewrite (line_start_at e p2 l (10 :: cur ++ a ++ t)) by done.
    apply (vertical_holds e p2 l (10 :: cur ++ a) t (length cur)); [done|rewrite Et; cbn [app]; by rewrite <- app_assoc| |done|right; by eexists|done].
    rewrite Hl, lenZ_cons, !lenZ_app. change (lenZ [10]) with 1. lia.
Qed.

(** The down key. *)
Lemma down_edits e b a : wf e -> holds e b a ->
  wf (vertical (next_line e (pos e)) e) /\ holds (vertical (next_line e (pos e)) e) (fst (edit ADown (b, a))) (snd (edit ADown (b, a))).
Proof.
  intros Hw Hh. pose proof Hh as [[t Et] Hp Hl]. cbn [edit]. pose proof (last_line_spec b) as Hb. destruct (last_line b) as [p cur].
  destruct Hb as (Eb & Hcur & Hend).
  assert (column e (pos e) = Z.of_nat (length cur)) as Ec.
  { unfold column. rewrite Hp, Eb, lenZ_app, (line_start_at e p cur (a ++ t)); [unfold lenZ; lia|by rewrite Et, Eb, <- app_assoc|done|done]. }
  pose proof (first_line_spec a) as Ha. destruct (first_line a) as [r q]. destruct Ha as (-> & Hr & Hq).
  rewrite <- app_assoc in Et. rewrite lenZ_app in Hl. pose proof (lenZ_nonneg q).
  unfold next_line. rewrite Hp, (line_end_at e b r q t) by (done || lia). destruct Hq as [->|[q' ->]]; cbn [fst snd tail].
  - rewrite app_nil_r. change (lenZ []) with 0 in *. rewrite (proj2 (Z.ltb_ge _ _)) by lia.
    destruct (vertical_holds e (b ++ r) [] [] t (length cur) Hw) as [K1 K2]; [by rewrite Et, <- app_assoc|rewrite lenZ_app; change (lenZ []) with 0; lia|by constructor|by left|done|].
    rewrite lenZ_app in K1, K2. replace (len e) with (lenZ b + lenZ r) by lia. split; [done|]. by rewrite take_nil, drop_nil, !app_nil_r in K2.
  - rewrite lenZ_cons in *. pose proof (lenZ_nonneg q'). rewrite (proj2 (Z.ltb_lt _ _)) by lia.
    pose proof (first_line_spec q') as Hq'. destruct (first_line q') as [l q2]. destruct Hq' as (-> & Hl2 & Hq2). cbn [fst snd].
    rewrite lenZ_app in *. destruct (vertical_holds e (b ++ r ++ [10]) l q2 t (length cur) Hw) as [K1 K2]; [| |done|done|done|].
    { rewrite Et. repeat (rewrite <- !app_assoc; cbn [app]). done. }
    { rewrite !lenZ_app. change (lenZ [10]) with 1. lia. }
    rewrite !lenZ_app in K1, K2. change (lenZ [10]) with 1 in K1, K2. rewrite Z.add_assoc in K1, K2. split; [done|].
    rewrite <- !app_assoc in K2. cbn [app] in K2. exact K2.
Qed.

(** The main loop until it waits or ends; every turn takes a byte. *)
Fixpoint session (fuel : nat) (input : list Z) (e : ed) : ed :=
  match fuel with
  | O => e
  | S f => match key true input e with Next e' rest _ => session f rest e' | _ => e end
  end.

Lemma key_edits x rest e b a : wf e -> holds e b a -> typable x ->
  exists e', key true (bytes_of x ++ rest) e = Next e' rest false /\ wf e' /\ holds e' (fst (edit x (b, a))) (snd (edit x (b, a))).
Proof.
  intros Hw Hh Ht. pose proof (h_pos _ _ _ Hh) as Hp. pose proof (h_len _ _ _ Hh) as Hl. pose proof (lenZ_nonneg a). pose proof (lenZ_nonneg b).
  destruct x as [c| | | | | |]; [cbn [bytes_of app edit]..|exists (vertical (prev_line e (pos e)) e)|exists (vertical (next_line e (pos e)) e)].
  - assert (key true (c :: rest) e = Next (insert c e) rest false) as ->.
    { unfold typable in Ht. unfold key.
      rewrite (proj2 (Z.eqb_neq c 17)), (proj2 (Z.eqb_neq c 19)), (proj2 (Z.eqb_neq c 8)), (proj2 (Z.eqb_neq c 127)), (proj2 (Z.eqb_neq c 27)), (proj2 (Z.eqb_neq c 13)) by lia.
      assert ((32 <=? c) || (c =? 10) || (c =? 9) = true) as Hc by (bcase; lia). by rewrite Hc. }
    eexists. split; [reflexivity|]. destruct (Z.ltb_spec (lenZ b + lenZ a) (CAP - 1)); cbn [fst snd]; [apply insert_holds; (done || lia)|].
    unfold insert. by rewrite (proj2 (Z.leb_le (CAP - 1) (len e))) by lia.
  - eexists. split; [reflexivity|]. destruct b as [|x b _] using rev_ind; cbn [fst snd removelast].
    + unfold backspace. by rewrite Hp.
    + rewrite removelast_last. by apply (backspace_holds e b a x).
  - eexists. split; [reflexivity|]. unfold delete. destruct a as [|x a]; cbn [fst snd tail].
    + rewrite (proj2 (Z.ltb_ge (pos e) (len e))) by (rewrite Hl, Hp; unfold lenZ; cbn; lia). done.
    + rewrite lenZ_cons in Hl. pose proof (lenZ_nonneg a). rewrite (proj2 (Z.ltb_lt (pos e) (len e))) by lia. by apply (remove_holds e b a x).
  - destruct b as [|x b _] using rev_ind.
    + eexists. split; [unfold key; rewrite Hp; reflexivity|done].
    + rewrite lenZ_app in Hp. change (lenZ [x]) with 1 in Hp. pose proof (lenZ_nonneg b).
      exists (set_pos (pos e - 1) e). split; [unfold key; rewrite (proj2 (Z.ltb_lt 0 (pos e))) by lia; reflexivity|].
      pose proof (move_back e b a x Hw Hh). destruct (b ++ [x]) as [|y l] eqn:E; [by destruct b|]. rewrite <- E. cbn [fst snd]. by rewrite removelast_last, last_last.
  - destruct a as [|x a].
    + eexists. split; [unfold key; rewrite (proj2 (Z.ltb_ge (pos e) (len e))) by (rewrite Hl, Hp; unfold lenZ; cbn; lia); reflexivity|done].
    + rewrite lenZ_cons in Hl. pose proof (lenZ_nonneg a). exists (set_pos (pos e + 1) e).
      split; [unfold key; rewrite (proj2 (Z.ltb_lt (pos e) (len e))) by lia; reflexivity|]. cbn [fst snd]. by apply move_holds.
  - split; [reflexivity|]. by apply up_edits.
  - split; [reflexivity|]. by apply down_edits.
Qed.

Lemma bytes_length x : (1 <= length (bytes_of x))%nat.
Proof. destruct x; cbn; lia. Qed.

(** C11: Typing, erasing (backspace and delete) and moving (left, right, up, down) in any order
    edits the text as meant: the buffer holds the text split at the cursor that the keys make
    of the text it held before, never more than it has room for.  Up and down go to the same
    column of the line above or below, or to its end if it is shorter; up stays where it is
    in the first line, and down in the last line goes to the end of the text. *)
Theorem session_correct keys : forall e b a, wf e -> holds e b a -> Forall typable keys ->
  let e' := session (length (concat (map bytes_of keys))) (concat (map bytes_of keys)) e in
  let z := fold_left (fun z x => edit x z) keys (b, a) in
  wf e' /\ holds e' (fst z) (snd z) /\ contents e' = fst z ++ snd z.
Proof.
  intros e b a Hw Hh Hk. cbv zeta.
  assert (forall n, (length (concat (map bytes_of keys)) <= n)%nat ->
    let e' := session n (concat (map bytes_of keys)) e in
    let z := fold_left (fun z x => edit x z) keys (b, a) in wf e' /\ holds e' (fst z) (snd z)) as H.
  { revert e b a Hw Hh. induction Hk as [|x keys Hx _ IH]; intros e b a Hw Hh n Hn; cbn [map concat fold_left] in *; [by destruct n|].
    destruct (key_edits x (concat (map bytes_of keys)) e b a Hw Hh Hx) as (e' & E & Hw' & Hh').
    rewrite length_app in Hn. pose proof (bytes_length x). destruct n as [|n]; [lia|]. cbn [session]. rewrite E.
    rewrite (surjective_pairing (edit x (b, a))). apply IH; [done|done|lia]. }
  destruct (H _ (Nat.le_refl _)) as [H1 H2]. split; [done|]. split; [done|]. by apply holds_contents.
Qed.

(** A new file: the lines abc and d, up, X, left, left, delete, down. *)
Definition empty_ed : ed := Ed (replicate (Z.to_nat CAP) 0) 0 0 0 false.
Definition demo_keys : list action :=
  [AType 97; AType 98; AType 99; AType 10; AType 100; AUp; AType 88; ALeft; ALeft; ADel; ADown; AType 89].
Lemma empty_wf : wf empty_ed.
Proof. constructor; [unfold empty_ed, lenZ; cbn [text]; rewrite length_replicate; done|split; reflexivity|discriminate|reflexivity]. Qed.

Lemma session_correct_witness : contents (session 23 (concat (map bytes_of demo_keys)) empty_ed) = [88; 98; 99; 10; 89; 100].
Proof.
  apply (session_correct demo_keys empty_ed [] []).
  - apply empty_wf.
  - constructor; [exists (text empty_ed); reflexivity|reflexivity|reflexivity].
  - repeat constructor; lia.
Defined.

(** ** Scrolling *)

Lemma back_range t p : 0 <= back t p <= Z.of_nat p.
Proof. induction p as [|p IH]; cbn [back]; [lia|]. destruct (_ =? 10); lia. Qed.
Lemma line_start_range e p : 0 <= p -> 0 <= line_start e p <= p.
Proof. intros Hp. unfold line_start. pose proof (back_range (text e) (Z.to_nat p)). lia. Qed.
Lemma forth_range t k : forall p, p <= forth t k p <= p + Z.of_nat k.
Proof. induction k as [|k IH]; intros p; cbn [forth]; [lia|]. destruct (_ =? 10); [lia|]. specialize (IH (p + 1)). lia. Qed.
Lemma line_end_range e p : p <= len e -> p <= line_end e p <= len e.
Proof. intros Hp. unfold line_end. pose proof (forth_range (text e) (Z.to_nat (len e - p)) p). lia. Qed.

Lemma prev_line_before e p : 0 < p -> 0 <= prev_line e p < p.
Proof.
  intros Hp. unfold prev_line. pose proof (line_start_range e p ltac:(lia)). destruct (Z.eqb_spec (line_start e p) 0); cbn [negb]; [lia|].
  pose proof (line_start_range e (line_start e p - 1) ltac:(lia)). lia.
Qed.
Lemma next_line_after e p : p < len e -> p < next_line e p <= len e.
Proof. intros Hp. unfold next_line. pose proof (line_end_range e p ltac:(lia)). destruct (Z.ltb_spec (line_end e p) (len e)); lia. Qed.

(** Rows are counted only past the end of the line. *)
Lemma rows_line t k : forall K q, (k <= K)%nat -> forth t K q < q + Z.of_nat k \/ rows_from t k q 0 = 0.
Proof.
  induction k as [|k IH]; intros K q Hk; [by right|]. destruct K as [|K]; [lia|]. cbn [forth rows_from].
  destruct (lget 0 t q =? 10); [lia|]. change (0 <? ROWS) with true. cbv iota. destruct (IH K (q + 1)) as [H|H]; [lia|left; lia|by right].
Qed.

Lemma scroll_up_spec k : forall e, 0 <= top e < Z.of_nat k -> 0 <= pos e -> exists t, scroll_up k e = Some (set_top t e) /\ 0 <= t <= pos e.
Proof.
  induction k as [|k IH]; intros e Hk Hp; [lia|]. cbn [scroll_up]. destruct (Z.ltb_spec (pos e) (top e)).
  - pose proof (prev_line_before e (top e) ltac:(lia)). destruct (IH (set_top (prev_line e (top e)) e)) as (t & -> & H1); cbn [top len pos set_top] in *; [lia|lia|].
    by exists t.
  - exists (top e). split; [by destruct e|lia].
Qed.

Lemma scroll_down_spec k : forall e, 0 <= top e -> top e <= pos e <= len e -> len e - top e < Z.of_nat k ->
  exists t, scroll_down k e = Some (set_top t e) /\ 0 <= t <= pos e /\ fst (locate (pos e) (set_top t e)) < ROWS.
Proof.
  induction k as [|k IH]; intros e H0 Ht Hk; [lia|]. cbn [scroll_down].
  destruct (Z.leb_spec ROWS (fst (locate (pos e) e))) as [Hr|Hr].
  - assert (line_end e (top e) < pos e) as Hle.
    { destruct (rows_line (text e) (Z.to_nat (pos e - top e)) (Z.to_nat (len e - top e)) (top e)) as [H|H]; [lia|unfold line_end; lia|].
      unfold locate in Hr. cbn [fst] in Hr. rewrite H in Hr. by vm_compute in Hr. }
    pose proof (line_end_range e (top e) ltac:(lia)).
    assert (next_line e (top e) = line_end e (top e) + 1) as En by (unfold next_line; by rewrite (proj2 (Z.ltb_lt _ _)) by lia).
    destruct (IH (set_top (next_line e (top e)) e)) as (t & -> & H1 & H2); cbn [top len pos set_top] in *; [lia|lia|lia|]. by exists t.
  - exists (top e). replace (set_top (top e) e) with e by (by destruct e). split; [done|]. split; [lia|done].
Qed.

(** Scrolling ends, with the cursor on one of the 23 rows of the screen and the text as it
    was. *)
Theorem adjust_shows e : wf e -> exists t, adjust e = Some (set_top t e) /\ 0 <= t <= pos e /\ fst (locate (pos e) (set_top t e)) < ROWS.
Proof.
  intros [_ Hp _ Ht]. unfold adjust.
  destruct (scroll_up_spec (S (Z.to_nat (top e))) e) as (t & -> & H1); [lia|lia|]. cbn [mbind option_bind].
  destruct (scroll_down_spec (S (Z.to_nat (len (set_top t e) - top (set_top t e)))) (set_top t e)) as (t' & E & H3); cbn [len top pos set_top] in *; [lia|lia|lia|].
  exists t'. rewrite E. done.
Qed.

(** Thirty lines with the cursor at the end, shown from the top. *)
Definition long_ed : ed := Ed (concat (replicate 30 [65; 10]) ++ replicate (Z.to_nat CAP - 60) 0) 60 60 0 true.
Lemma long_wf : wf long_ed.
Proof.
  constructor; [|split; discriminate|discriminate|reflexivity].
  unfold long_ed, lenZ. cbn [text]. rewrite length_app, length_replicate. vm_compute. reflexivity.
Qed.
Lemma adjust_shows_witness : exists t, adjust long_ed = Some (set_top t long_ed) /\ 0 <= t <= 60 /\ fst (locate 60 (set_top t long_ed)) < 23.
Proof. exact (adjust_shows long_ed long_wf). Defined.

(** In the line [cur ++ r] between the lines [pl] and [nl], with the cursor behind [cur]: the
    up and down keys go to the same column of the line above or below, or to its end when it
    is shorter, and change nothing else. *)
Theorem vertical_moves e b0 pl cur r nl a : holds e (b0 ++ pl ++ 10 :: cur) (r ++ 10 :: nl ++ a) ->
  ends_line b0 -> starts_line a -> one_line pl -> one_line cur -> one_line r -> one_line nl ->
  let up := vertical (prev_line e (pos e)) e in
  let down := vertical (next_line e (pos e)) e in
  pos up = lenZ b0 + Z.min (lenZ cur) (lenZ pl) /\ text up = text e /\
  pos down = pos e + lenZ r + 1 + Z.min (lenZ cur) (lenZ nl) /\ text down = text e.
Proof.
  intros [[t Et] Hp Hl] Hb Ha Hpl Hcur Hr Hnl. cbv zeta. pose proof (lenZ_nonneg r). pose proof (lenZ_nonneg nl). pose proof (lenZ_nonneg a).
  pose proof (lenZ_nonneg b0). pose proof (lenZ_nonneg pl). pose proof (lenZ_nonneg cur).
  set (b1 := b0 ++ pl ++ [10]). assert (b0 ++ pl ++ 10 :: cur = b1 ++ cur) as Eb by (unfold b1; rewrite <- !app_assoc; done).
  rewrite Eb in Et, Hp, Hl. assert (lenZ b1 = lenZ b0 + lenZ pl + 1) as Lb1 by (unfold b1; rewrite !lenZ_app; change (lenZ [10]) with 1; lia).
  rewrite !lenZ_app, lenZ_cons, lenZ_app in Hl. rewrite lenZ_app in Hp.
  assert (line_start e (pos e) = lenZ b1) as Es.
  { rewrite Hp. apply (line_start_at e b1 cur ((r ++ 10 :: nl ++ a) ++ t)); [by rewrite Et, <- app_assoc|right; exists (b0 ++ pl); unfold b1; by rewrite app_assoc|done]. }
  assert (column e (pos e) = lenZ cur) as Ec by (unfold column; lia).
  assert (prev_line e (pos e) = lenZ b0) as ->.
  { unfold prev_line. rewrite Es, (proj2 (Z.eqb_neq (lenZ b1) 0)) by lia. cbn [negb]. replace (lenZ b1 - 1) with (lenZ b0 + lenZ pl) by lia.
    apply (line_start_at e b0 pl (10 :: cur ++ (r ++ 10 :: nl ++ a) ++ t)); [|done|done]. rewrite Et. unfold b1. rewrite <- !app_assoc. done. }
  assert (next_line e (pos e) = lenZ (b1 ++ cur ++ r ++ [10])) as ->.
  { unfold next_line. assert (line_end e (pos e) = pos e + lenZ r) as ->.
    { rewrite Hp, <- lenZ_app. apply (line_end_at e (b1 ++ cur) r (10 :: nl ++ a) t); [by rewrite Et, <- (app_assoc r)|rewrite lenZ_app, lenZ_cons, lenZ_app; lia|done|right; by eexists]. }
    rewrite (proj2 (Z.ltb_lt _ _)) by lia. rewrite !lenZ_app. change (lenZ [10]) with 1. lia. }
  destruct (vertical_to e b0 pl (10 :: cur ++ r ++ 10 :: nl ++ a) t cur) as [-> ->]; [| |done|right; by eexists|done|].
  { rewrite Et. unfold b1. repeat (rewrite <- !app_assoc; cbn [app]). done. }
  { rewrite lenZ_cons, !lenZ_app, lenZ_cons, lenZ_app. lia. }
  destruct (vertical_to e (b1 ++ cur ++ r ++ [10]) nl a t cur) as [-> ->]; [| |done|done|done|].
  { rewrite Et. repeat (rewrite <- !app_assoc; cbn [app]). done. }
  { rewrite !lenZ_app. change (lenZ [10]) with 1. lia. }
  split; [done|]. split; [done|]. split; [|done]. rewrite !lenZ_app. change (lenZ [10]) with 1. lia.
Qed.

(** Between [ab] and [x], behind the third of five characters. *)
Definition mid_ed : ed := Ed ([97; 98; 10; 99; 100; 101; 102; 103; 10; 120] ++ replicate (Z.to_nat CAP - 10) 0) 10 6 0 true.
Lemma vertical_moves_witness : pos (vertical (prev_line mid_ed 6) mid_ed) = 2 /\ pos (vertical (next_line mid_ed 6) mid_ed) = 10.
Proof.
  destruct (vertical_moves mid_ed [] [97; 98] [99; 100; 101] [102; 103] [120] []) as (H1 & _ & H2 & _).
  - split; [|reflexivity|reflexivity]. exists (replicate (Z.to_nat CAP - 10) 0). reflexivity.
  - by left.
  - by left.
  - repeat constructor; lia.
  - repeat constructor; lia.
  - repeat constructor; lia.
  - repeat constructor; lia.
  - split; [exact H1|exact H2].
Defined.
End Fento.
