(* ===== verification/Tools.v ===== *)
(** * Filters (user/bin/wc.c, head.c, cat.c, cp.c, echo.c)

    An open file or a pipe delivers its bytes in pieces, the non-empty results of [read];
    the programs are shown to depend on the bytes only, not on how they are cut.  [files]
    gives the pieces of the files that can be opened. *)

From Stdlib Require Import String Ascii.
From stdpp Require Import base list numbers.
From S2P Require Import Prelude CString ULib.

#[local] Open Scope Z_scope.

Module Tools.
Import ULib.

Definition codes (s : string) : list Z := map (fun c => Z.of_N (N_of_ascii c)) (list_ascii_of_string s).

(** What a program writes: the descriptor and the bytes; its exit code. *)
Record result := Result { wrote : list (Z * list Z); status : Z }.
Definition out (r : result) : list Z := concat (map snd (List.filter (fun x => fst x =? 1) (wrote r))).

Section tools.
Context (files : list Z -> option (list (list Z))).

(** ** wc *)

(** [*lines], [*words], [*bytes] and [inword]. *)
Record counts := Counts { lines : Z; words : Z; bytes : Z; inword : bool }.
Definition blank (c : Z) : bool := (c =? 32) || (c =? 9) || (c =? 10).

Definition count_char (k : counts) (c : Z) : counts :=
  let b := u32 (bytes k + 1) in
  let l := if c =? 10 then u32 (lines k + 1) else lines k in
  if blank c then Counts l (words k) b false
  else if inword k then Counts l (words k) b true
  else Counts l (u32 (words k + 1)) b true.

Definition count_fd (input : list (list Z)) : counts :=
  fold_left (fun k buf => fold_left count_char buf k) input (Counts 0 0 0 false).

Definition wc_line (k : counts) (name : option (list Z)) : list Z :=
  match name with
  | None => printf (codes "%u %u %u
") [AInt (lines k); AInt (words k); AInt (bytes k)]
  | Some n => printf (codes "%u %u %u %s
") [AInt (lines k); AInt (words k); AInt (bytes k); AStr (Some n)]
  end.

Definition wc (args : list (list Z)) (stdin : list (list Z)) : result :=
  match args with
  | [] => Result [(1, wc_line (count_fd stdin) None)] 0
  | _ => Result (map (fun a => match files a with
                               | None => (2, printf (codes "wc: %s: cannot open
") [AStr (Some a)])
                               | Some f => (1, wc_line (count_fd f) (Some a))
                               end) args) 0
  end.

(** ** head *)

(** The inner loop: the bytes written, the lines printed, and whether [head_fd] returns. *)
Fixpoint head_buf (buf : list Z) (printed nlines : Z) : list Z * Z * bool :=
  match buf with
  | [] => ([], printed, false)
  | c :: buf =>
      if c =? 10 then
        let printed := printed + 1 in
        if nlines <=? printed then ([c], printed, true)
        else let '(w, p, r) := head_buf buf printed nlines in (c :: w, p, r)
      else let '(w, p, r) := head_buf buf printed nlines in (c :: w, p, r)
  end.
Fixpoint head_fd (input : list (list Z)) (printed nlines : Z) : list Z :=
  match input with
  | [] => []
  | buf :: input =>
      if printed <? nlines then
        let '(w, p, r) := head_buf buf printed nlines in
        if r then w else w ++ head_fd input p nlines
      else []
  end.

Definition head (args : list (list Z)) (stdin : list (list Z)) : result :=
  let '(nlines, rest) :=
    match args with
    | a :: n :: rest => if CStr.cstrcmp a (codes "-n") =? 0 then (atoi n, rest) else (10, args)
    | _ => (10, args)
    end in
  match rest with
  | [] => Result [(1, head_fd stdin 0 nlines)] 0
  | _ => Result (map (fun a => match files a with
                               | None => (2, printf (codes "head: %s: cannot open
") [AStr (Some a)])
                               | Some f => (1, head_fd f 0 nlines)
                               end) rest) 0
  end.

(** ** cat, cp, echo *)

Definition dump (input : list (list Z)) : list (Z * list Z) := map (fun buf => (1, buf)) input.

Definition cat (args : list (list Z)) (stdin : list (list Z)) : result :=
  match args with
  | [] => Result (dump stdin) 0
  | _ => Result (concat (map (fun a => match files a with
                                       | None => [(2, printf (codes "cat: %s: cannot open
") [AStr (Some a)])]
                                       | Some f => dump f
                                       end) args))
           (if forallb (fun a => match files a with Some _ => true | None => false end) args then 0 else 1)
  end.

(** [cp]: the messages and status, and what the destination receives when it is created. *)
Definition cp (can_create : list Z -> bool) (args : list (list Z)) : result * option (list Z * list (list Z)) :=
  match args with
  | [src; dst] =>
      match files src with
      | None => (Result [(2, printf (codes "cp: %s: cannot open
") [AStr (Some src)])] 1, None)
      | Some f =>
          if can_create dst then (Result [] 0, Some (dst, f))
          else (Result [(2, printf (codes "cp: %s: cannot create
") [AStr (Some dst)])] 1, None)
      end
  | _ => (Result [(2, printf (codes "usage: cp SRC DST
") [])] 1, None)
  end.
End tools.

Fixpoint echo_words (args : list (list Z)) : list (Z * list Z) :=
  match args with
  | [] => []
  | [a] => [(1, a)]
  | a :: args => (1, a) :: (1, [32]) :: echo_words args
  end.
Definition echo (args : list (list Z)) : result :=
  match args with
  | a :: args' => if CStr.cstrcmp a (codes "-n") =? 0 then Result (echo_words args') 0
                  else Result (echo_words args ++ [(1, [10])]) 0
  | [] => Result [(1, [10])] 0
  end.

(** ** rm, rmdir, mkdir, touch *)

Section each.
(** The call made for an argument: its result and the new state of the file system. *)
Context {S : Type} (call : list Z -> S -> Z * S).

(** The loop over the arguments: messages, [rc] and the state. *)
Fixpoint each_from (name : string) (args : list (list Z)) (rc : Z) (s : S) : list (Z * list Z) * Z * S :=
  match args with
  | [] => ([], rc, s)
  | a :: args =>
      let '(r, s) := call a s in
      if r <? 0 then
        let '(w, rc, s) := each_from name args 1 s in
        ((2, printf (codes name ++ codes ": %s: failed
") [AStr (Some a)]) :: w, rc, s)
      else each_from name args rc s
  end.
Definition each (name usage : string) (args : list (list Z)) (s : S) : result * S :=
  match args with
  | [] => (Result [(2, printf (codes usage) [])] 1, s)
  | _ => let '(w, rc, s) := each_from name args 0 s in (Result w rc, s)
  end.
Definition rm : list (list Z) -> S -> result * S := each "rm" "usage: rm FILE...
".
Definition rmdir : list (list Z) -> S -> result * S := each "rmdir" "usage: rmdir DIR...
".
Definition mkdir : list (list Z) -> S -> result * S := each "mkdir" "usage: mkdir DIR...
".
(** For [touch] the call is [open] and, when it succeeds, [close]. *)
Definition touch : list (list Z) -> S -> result * S := each "touch" "usage: touch FILE...
".
End each.

(** ** ls *)

Definition bit (m k : Z) (c : Z) : Z := if negb (Z.land m k =? 0) then c else 45.
Definition S_IFMT : Z := 61440.
Definition modestr (m : Z) : list Z :=
  (if Z.land m S_IFMT =? 16384 then 100 else if Z.land m S_IFMT =? 8192 then 99 else 45) ::
  [bit m 256 114; bit m 128 119; bit m 64 120; bit m 32 114; bit m 16 119; bit m 8 120; bit m 4 114; bit m 2 119; bit m 1 120].

(** [full]: the path of an entry. *)
Definition full_path (path name : list Z) : list Z :=
  (if negb (lenZ path =? 0) && negb (lget 0 path (lenZ path - 1) =? 47) then path ++ [47] else path) ++ name.

Section ls.
(** The entries of the directories that can be opened, and [stat]: mode and size. *)
Context (dirs : list Z -> option (list (list Z))) (stat : list Z -> option (Z * Z)).

Definition hidden (name : list Z) : bool :=
  (lenZ name =? 0) || (CStr.cstrcmp name (codes ".") =? 0) || (CStr.cstrcmp name (codes "..") =? 0).

Definition ls_entry (longfmt : bool) (path name : list Z) : Z * list Z :=
  (1, if longfmt then
        match stat (full_path path name) with
        | Some (mode, size) => printf (codes "%s %u %s
") [AStr (Some (modestr mode)); AInt size; AStr (Some name)]
        | None => printf (codes "?????????? 0 %s
") [AStr (Some name)]
        end
      else printf (codes "%s
") [AStr (Some name)]).

Definition list_dir (longfmt : bool) (path : list Z) : list (Z * list Z) :=
  match dirs path with
  | None => [(2, printf (codes "ls: %s: cannot open
") [AStr (Some path)])]
  | Some names => map (ls_entry longfmt path) (List.filter (fun n => negb (hidden n)) names)
  end.

Definition ls (args : list (list Z)) : result :=
  let '(longfmt, rest) :=
    match args with a :: rest => if CStr.cstrcmp a (codes "-l") =? 0 then (true, rest) else (false, args) | [] => (false, []) end in
  match rest with
  | [] => Result (list_dir longfmt (codes ".")) 0
  | _ => Result (concat (map (fun a => (if 1 <? lenZ rest then [(1, printf (codes "%s:
") [AStr (Some a)])] else []) ++ list_dir longfmt a) rest)) 0
  end.
End ls.

(** ** The bytes count, not the pieces *)

(** The words of a text: the pieces between blanks that are not empty. *)
Fixpoint words_in (inword : bool) (s : list Z) : Z :=
  match s with
  | [] => 0
  | c :: s' => if blank c then words_in false s' else (if inword then 0 else 1) + words_in true s'
  end.
Fixpoint newlines (s : list Z) : Z := match s with [] => 0 | c :: s' => (if c =? 10 then 1 else 0) + newlines s' end.

Lemma fold_pieces {A B} (f : B -> A -> B) pieces : forall k, fold_left (fun k buf => fold_left f buf k) pieces k = fold_left f (concat pieces) k.
Proof. induction pieces as [|b l IH]; intros k; cbn [fold_left concat]; [done|]. by rewrite IH, fold_left_app. Qed.

Lemma u32_add_u32 x y : u32 (u32 x + y) = u32 (x + y).
Proof. unfold u32. by rewrite Zplus_mod_idemp_l. Qed.

Lemma count_spec s : forall k, lines k = u32 (lines k) -> words k = u32 (words k) -> bytes k = u32 (bytes k) ->
  let k' := fold_left count_char s k in
  lines k' = u32 (lines k + newlines s) /\ words k' = u32 (words k + words_in (inword k) s) /\ bytes k' = u32 (bytes k + lenZ s).
Proof.
  induction s as [|c s IH]; intros k Hl Hw Hb; cbn [fold_left newlines words_in]; [rewrite !Z.add_0_r; done|].
  rewrite lenZ_cons. cbv zeta in *. set (k1 := count_char k c).
  assert (u32 (u32 (lines k + 1)) = u32 (lines k + 1) /\ u32 (u32 (words k + 1)) = u32 (words k + 1) /\ u32 (u32 (bytes k + 1)) = u32 (bytes k + 1)) as (U1 & U2 & U3)
    by (repeat split; apply u32_small, u32_range).
  assert (lines k1 = (if c =? 10 then u32 (lines k + 1) else lines k) /\ bytes k1 = u32 (bytes k + 1) /\ inword k1 = negb (blank c) /\
    words k1 = (if blank c || inword k then words k else u32 (words k + 1))) as (E1 & E2 & E3 & E4).
  { unfold k1, count_char. destruct (blank c), (inword k); done. }
  destruct (IH k1) as (H1 & H2 & H3).
  - rewrite E1. by destruct (c =? 10).
  - rewrite E4. by destruct (blank c || inword k).
  - by rewrite E2.
  - rewrite H1, H2, H3, E1, E2, E3, E4. split; [|split].
    + destruct (c =? 10); [rewrite u32_add_u32; f_equal; lia|by rewrite Z.add_0_l].
    + destruct (blank c), (inword k); cbn [orb negb]; try done. rewrite u32_add_u32. f_equal. lia.
    + rewrite u32_add_u32. f_equal. lia.
Qed.

(** The text up to the end of its [n]-th line. *)
Fixpoint first_lines (n : Z) (s : list Z) : list Z :=
  match s with
  | [] => []
  | c :: s' => if c =? 10 then (if n <=? 1 then [c] else c :: first_lines (n - 1) s') else c :: first_lines n s'
  end.

Lemma head_buf_spec buf : forall p n rest, p < n ->
  let '(w, p', r) := head_buf buf p n in
  first_lines (n - p) (buf ++ rest) = (if r then w else w ++ first_lines (n - p') rest) /\ (r = false -> p' < n).
Proof.
  induction buf as [|c buf IH]; intros p n rest Hp; cbn [head_buf app first_lines]; [done|]. destruct (c =? 10).
  - destruct (Z.leb_spec n (p + 1)).
    + rewrite (proj2 (Z.leb_le (n - p) 1)) by lia. done.
    + specialize (IH (p + 1) n rest ltac:(lia)). destruct (head_buf buf (p + 1) n) as [[w p'] r]. destruct IH as [IH1 IH2].
      rewrite (proj2 (Z.leb_gt (n - p) 1)) by lia. replace (n - p - 1) with (n - (p + 1)) by lia. rewrite IH1. by destruct r.
  - specialize (IH p n rest Hp). destruct (head_buf buf p n) as [[w p'] r]. destruct IH as [IH1 IH2]. rewrite IH1. by destruct r.
Qed.

Lemma head_fd_spec input : forall p n, p < n -> head_fd input p n = first_lines (n - p) (concat input).
Proof.
  induction input as [|buf input IH]; intros p n Hp; cbn [head_fd concat]; [done|]. rewrite (proj2 (Z.ltb_lt p n)) by done.
  pose proof (head_buf_spec buf p n (concat input) Hp) as H. destruct (head_buf buf p n) as [[w p'] r]. destruct H as [-> H].
  destruct r; [done|]. f_equal. apply IH. by apply H.
Qed.

(** C37: However the bytes of the input are cut, [wc] counts its newlines, words and bytes (modulo
    2^32), [head] prints it up to the end of its tenth line, or of the line asked for, and
    [cat] prints it whole. *)
Theorem filters_correct files pieces : let s := concat pieces in
  (lines (count_fd pieces), words (count_fd pieces), bytes (count_fd pieces)) = (u32 (newlines s), u32 (words_in false s), u32 (lenZ s)) /\
  out (head files [] pieces) = first_lines 10 s /\
  (forall n, atoi n > 0 -> out (head files [codes "-n"; n] pieces) = first_lines (atoi n) s) /\
  out (cat files [] pieces) = s.
Proof.
  cbv zeta. split_and!.
  - unfold count_fd. rewrite fold_pieces. destruct (count_spec (concat pieces) (Counts 0 0 0 false)) as (-> & -> & ->); done.
  - unfold head, out. cbn. rewrite app_nil_r. by rewrite head_fd_spec.
  - intros n Hn. unfold head, out. change (CStr.cstrcmp (codes "-n") (codes "-n") =? 0) with true. cbn. rewrite app_nil_r, head_fd_spec by lia. by rewrite Z.sub_0_r.
  - unfold cat, out, dump. cbn [wrote]. induction pieces as [|b l IH]; cbn; [done|]. by rewrite <- IH.
Qed.

(** Three lines in two pieces. *)
Lemma filters_correct_witness : out (head (fun _ => None) [codes "-n"; codes "2"] [codes "ab
c"; codes "d
e
"]) = codes "ab
cd
".
Proof.
  destruct (filters_correct (fun _ => None) [codes "ab
c"; codes "d
e
"]) as (_ & _ & H & _).
  rewrite (H (codes "2")) by (vm_compute; reflexivity). vm_compute. reflexivity.
Defined.

(** ** What ls shows *)

(** The permission bits read back from the letters. *)
Definition perm_of (s : list Z) : Z := fold_left (fun v c => 2 * v + (if c =? 45 then 0 else 1)) (tail s) 0.

Lemma perm_low m : perm_of (modestr m) = perm_of (modestr (Z.land m 511)).
Proof.
  assert (forall k c, Z.land 511 k = k -> bit (Z.land m 511) k c = bit m k c) as H.
  { intros k c Hk. unfold bit. by rewrite <- Z.land_assoc, Hk. }
  unfold perm_of, modestr. cbn [tail]. by rewrite !H.
Qed.

Lemma land_511 m : 0 <= Z.land m 511 < 512.
Proof. change 511 with (Z.ones 9). rewrite Z.land_ones by lia. apply Z.mod_pos_bound. lia. Qed.

Lemma perm_small m : 0 <= m < 512 -> perm_of (modestr m) = m.
Proof.
  intros Hm. apply Z.eqb_eq. revert m Hm.
  assert (forallb (fun m => perm_of (modestr m) =? m) (range 0 512) = true) as H by (vm_compute; reflexivity).
  intros m Hm. by apply (forallb_range _ _ _ H).
Qed.

Lemma hidden_spec n : hidden n = false <-> n <> [] /\ CStr.cstring n <> codes "." /\ CStr.cstring n <> codes "..".
Proof.
  unfold hidden. rewrite !orb_false_iff, !Z.eqb_neq, !CStr.strcmp_zero.
  change (CStr.cstring (codes ".")) with (codes "."). change (CStr.cstring (codes "..")) with (codes "..").
  assert (lenZ n <> 0 <-> n <> []) as -> by (destruct n; [done|]; rewrite lenZ_cons; pose proof (lenZ_nonneg n); split; [done|lia]). tauto.
Qed.

(** The mode of a file is shown without loss: type letter and permission bits; and the
    entries shown of a directory are those that are in use and are not [.] and [..], in
    their order. *)
Theorem ls_correct dirs stat path names m : dirs path = Some names ->
  perm_of (modestr m) = Z.land m 511 /\ length (modestr m) = 10%nat /\
  (exists shown, list_dir dirs stat false path = map (fun n => (1, n ++ [10])) shown /\ shown `sublist_of` names /\
    forall n, In n shown <-> In n names /\ n <> [] /\ CStr.cstring n <> codes "." /\ CStr.cstring n <> codes "..").
Proof.
  intros Hd. split; [rewrite perm_low; apply perm_small, land_511|]. split; [done|].
  exists (List.filter (fun n => negb (hidden n)) names). split; [|split].
  - unfold list_dir. rewrite Hd. apply map_ext. intros n. done.
  - clear Hd. induction names as [|n names IH]; cbn; [done|]. destruct (negb (hidden n)); by constructor.
  - intros n. rewrite filter_In, negb_true_iff, hidden_spec. done.
Qed.

Lemma ls_correct_witness : perm_of (modestr 33188) = 420 /\
  exists shown, list_dir (fun _ => Some [codes "."; codes "a"; []; codes "b"]) (fun _ => None) false (codes "/") = map (fun n => (1, n ++ [10])) shown /\
    In (codes "b") shown.
Proof.
  destruct (ls_correct (fun _ => Some [codes "."; codes "a"; []; codes "b"]) (fun _ => None) (codes "/") [codes "."; codes "a"; []; codes "b"] 33188 eq_refl)
    as (H1 & _ & shown & H2 & _ & H3).
  split; [exact H1|]. exists shown. split; [exact H2|]. apply H3. split; [right; right; right; left; reflexivity|]. split; [discriminate|]. split; discriminate.
Defined.
End Tools.
