(* ===== verification/Pmm.v ===== *)
(** * The physical memory manager (kernel/mm/pmm.c)

    The frame allocator keeps a bitmap of one bit per 4 KiB frame (set = in use)
    and two counters.  [Pmm.pmm] is the module's static state, the definitions are
    its functions, [free_set] is the set of frames the bitmap says are free and
    the theorems show that the code implements an allocator on that set. *)

From stdpp Require Import base list gmap numbers sets.
From S2P Require Import Prelude.

#[local] Open Scope Z_scope.

Module Pmm.

Definition PMM_FRAME_SIZE : Z := 4096.
Definition MAX_FRAMES : Z := 1048576.

Record pmm := Pmm {
  bitmap : list Z;
  total_frames : Z;
  free_frames : Z;
}.

Definition with_bitmap (s : pmm) (b : list Z) : pmm := Pmm b (total_frames s) (free_frames s).
Definition with_free (s : pmm) (n : Z) : pmm := Pmm (bitmap s) (total_frames s) n.

Definition set_used (frame : Z) (s : pmm) : pmm :=
  with_bitmap s (lset (bitmap s) (frame / 32)
    (Z.lor (lget 0 (bitmap s) (frame / 32)) (Z.shiftl 1 (frame mod 32)))).

Definition set_free (frame : Z) (s : pmm) : pmm :=
  with_bitmap s (lset (bitmap s) (frame / 32)
    (Z.land (lget 0 (bitmap s) (frame / 32)) (not32 (Z.shiftl 1 (frame mod 32))))).

Definition test_frame (s : pmm) (frame : Z) : bool :=
  negb (Z.land (lget 0 (bitmap s) (frame / 32)) (Z.shiftl 1 (frame mod 32)) =? 0).

(** The frames below the end of the kernel image, rounded up, plus one more MiB,
    stay marked in use. *)
Definition reserved_end (kernel_end : Z) : Z :=
  u32 (Z.land (u32 (kernel_end + PMM_FRAME_SIZE - 1)) (not32 (PMM_FRAME_SIZE - 1)) + 1048576).

(** [memset(bitmap, 0xFF, sizeof(bitmap))]. *)
Definition all_used : list Z := replicate (Z.to_nat (MAX_FRAMES / 32)) 4294967295.

Definition pmm_init (mem_upper_kb kernel_end : Z) : pmm :=
  let mem_bytes := u32 (u32 (1024 + mem_upper_kb) * 1024) in
  let total := mem_bytes / PMM_FRAME_SIZE in
  let total := if MAX_FRAMES <? total then MAX_FRAMES else total in
  let s := Pmm all_used total 0 in
  let start := reserved_end kernel_end / PMM_FRAME_SIZE in
  for_loop (fun f s => let s := set_free f s in with_free s (u32 (free_frames s + 1)))
    start (Z.to_nat (total - start)) s.

Definition pmm_alloc_frame (s : pmm) : Z * pmm :=
  match find_first (fun f => negb (test_frame s f)) 0 (Z.to_nat (total_frames s)) with
  | Some f =>
      let s := set_used f s in
      (u32 (f * PMM_FRAME_SIZE), with_free s (u32 (free_frames s - 1)))
  | None => (0, s)
  end.

Definition pmm_free_frame (frame : Z) (s : pmm) : pmm :=
  let f := frame / PMM_FRAME_SIZE in
  if total_frames s <=? f then s
  else if test_frame s f then
    let s := set_free f s in with_free s (u32 (free_frames s + 1))
  else s.

Definition pmm_free_count (s : pmm) : Z := free_frames s.
Definition pmm_total_count (s : pmm) : Z := total_frames s.

(** ** The abstraction: the set of free frames *)

Definition frames (n : Z) : gset Z := list_to_set (seqZ 0 n).

Definition free_set (s : pmm) : gset Z :=
  filter (fun f => test_frame s f = false) (frames (total_frames s)).

Record wf (s : pmm) : Prop := {
  wf_len : lenZ (bitmap s) = MAX_FRAMES / 32;
  wf_words : Forall is_u32 (bitmap s);
  wf_total : 0 <= total_frames s <= MAX_FRAMES;
  wf_count : free_frames s = Z.of_nat (size (free_set s));
}.

Lemma elem_of_frames n f : f ∈ frames n <-> 0 <= f < n.
Proof. unfold frames. rewrite elem_of_list_to_set, elem_of_seqZ. lia. Qed.

Lemma elem_of_free_set s f : f ∈ free_set s <-> 0 <= f < total_frames s /\ test_frame s f = false.
Proof. unfold free_set. rewrite elem_of_filter, elem_of_frames. tauto. Qed.

Lemma test_frame_bit s f : test_frame s f = Z.testbit (lget 0 (bitmap s) (f / 32)) (f mod 32).
Proof. unfold test_frame. rewrite land_bit_zero by dlia. apply negb_involutive. Qed.

Lemma test_set_used s f g : 0 <= f < 32 * lenZ (bitmap s) -> 0 <= g ->
  test_frame (set_used f s) g = (f =? g) || test_frame s g.
Proof.
  intros Hf Hg. rewrite !test_frame_bit. simpl.
  rewrite lget_lset by dlia.
  destruct (Z.eqb_spec (f / 32) (g / 32)) as [Hw|Hw].
  - rewrite lor_bit_spec by dlia. rewrite Hw, orb_comm. f_equal.
    destruct (Z.eqb_spec (g mod 32) (f mod 32)), (Z.eqb_spec f g); done || dlia.
  - destruct (Z.eqb_spec f g); [subst; done|done].
Qed.

Lemma test_set_free s f g : 0 <= f < 32 * lenZ (bitmap s) -> 0 <= g ->
  test_frame (set_free f s) g = negb (f =? g) && test_frame s g.
Proof.
  intros Hf Hg. rewrite !test_frame_bit. simpl.
  rewrite lget_lset by dlia.
  destruct (Z.eqb_spec (f / 32) (g / 32)) as [Hw|Hw].
  - rewrite Z.land_spec, not32_spec, Z.shiftl_1_l, Z.pow2_bits_eqb by dlia.
    rewrite Hw, andb_comm. f_equal. f_equal.
    destruct (Z.eqb_spec (f mod 32) (g mod 32)), (Z.eqb_spec f g); done || dlia.
  - destruct (Z.eqb_spec f g); [subst; done|done].
Qed.

Lemma is_u32_bits x : 0 <= x -> (forall i, 32 <= i -> Z.testbit x i = false) -> is_u32 x.
Proof. intros Hx H. split; [done|]. change 4294967296 with (2 ^ 32). by apply bounded_of_bits. Qed.

Lemma lor_bit_u32 x b : is_u32 x -> 0 <= b < 32 -> is_u32 (Z.lor x (Z.shiftl 1 b)).
Proof.
  intros Hx Hb. apply is_u32_bits.
  - apply Z.lor_nonneg. split; [dlia|]. rewrite Z.shiftl_1_l. lia.
  - intros i Hi. rewrite lor_bit_spec, is_u32_testbit by (done || lia). simpl. by bcase; [lia|].
Qed.

Lemma land_u32 x y : is_u32 x -> is_u32 (Z.land x y).
Proof.
  intros Hx. apply is_u32_bits.
  - apply Z.land_nonneg. left. dlia.
  - intros i Hi. by rewrite Z.land_spec, is_u32_testbit.
Qed.

Lemma Forall_lget_u32 l i : Forall is_u32 l -> is_u32 (lget 0 l i).
Proof.
  intros H. destruct (decide (0 <= i < lenZ l)) as [Hi|Hi].
  - rewrite List.Forall_forall in H. by apply H, lget_In.
  - unfold lget. bcase; [dlia|]. rewrite nth_overflow; [dlia|]. unfold lenZ in Hi. lia.
Qed.

Lemma Forall_lset {A} (P : A -> Prop) l i x : Forall P l -> P x -> Forall P (lset l i x).
Proof. intros. unfold lset. bcase; [done|]. by apply Forall_insert. Qed.

Lemma set_used_words s f : 0 <= f -> Forall is_u32 (bitmap s) -> Forall is_u32 (bitmap (set_used f s)).
Proof.
  intros Hf H. simpl. apply Forall_lset; [done|].
  apply lor_bit_u32; [by apply Forall_lget_u32|dlia].
Qed.

Lemma set_free_words s f : Forall is_u32 (bitmap s) -> Forall is_u32 (bitmap (set_free f s)).
Proof.
  intros H. simpl. apply Forall_lset; [done|]. by apply land_u32, Forall_lget_u32.
Qed.

Lemma free_set_used s f : lenZ (bitmap s) = MAX_FRAMES / 32 -> 0 <= f < MAX_FRAMES ->
  free_set (set_used f s) = free_set s ∖ {[f]}.
Proof.
  intros Hlen Hf. apply set_eq. intros g.
  rewrite elem_of_difference, elem_of_singleton, !elem_of_free_set. simpl.
  split.
  - intros [Hg Ht]. rewrite test_set_used in Ht by (rewrite ?Hlen; unfold MAX_FRAMES in *; dlia).
    apply orb_false_iff in Ht as [Hne Ht]. apply Z.eqb_neq in Hne. split; [done | congruence].
  - intros [[Hg Ht] Hne]. split; [done|].
    rewrite test_set_used by (rewrite ?Hlen; unfold MAX_FRAMES in *; dlia).
    apply orb_false_iff. split; [|done]. apply Z.eqb_neq. congruence.
Qed.

Lemma free_set_free s f : lenZ (bitmap s) = MAX_FRAMES / 32 -> 0 <= f < total_frames s ->
  total_frames s <= MAX_FRAMES -> free_set (set_free f s) = {[f]} ∪ free_set s.
Proof.
  intros Hlen Hf Htot. apply set_eq. intros g.
  rewrite elem_of_union, elem_of_singleton, !elem_of_free_set. simpl.
  split.
  - intros [Hg Ht]. rewrite test_set_free in Ht by (rewrite ?Hlen; unfold MAX_FRAMES in *; dlia).
    destruct (Z.eqb_spec f g); [by left|]. simpl in Ht. by right.
  - intros [->|[Hg Ht]]; (split; [done|]);
      rewrite test_set_free by (rewrite ?Hlen; unfold MAX_FRAMES in *; dlia).
    + by rewrite Z.eqb_refl.
    + rewrite Ht. apply andb_false_r.
Qed.

Lemma free_set_size s : 0 <= total_frames s -> Z.of_nat (size (free_set s)) <= total_frames s.
Proof.
  intros H. assert (size (free_set s) <= size (frames (total_frames s)))%nat as Hle.
  { apply subseteq_size. intros f. rewrite elem_of_free_set, elem_of_frames. tauto. }
  unfold frames in Hle. rewrite size_list_to_set in Hle by apply NoDup_seqZ.
  rewrite length_seqZ in Hle. lia.
Qed.

(** ** What each operation does to the free set *)

Lemma pmm_alloc_none s : wf s -> free_set s = ∅ -> pmm_alloc_frame s = (0, s).
Proof.
  intros Hwf He. unfold pmm_alloc_frame.
  destruct (find_first _ _ _) as [f|] eqn:E; [|done].
  apply find_first_Some in E as (Hf & Ht & _). apply negb_true_iff in Ht.
  assert (f ∈ free_set s) as Hin by (apply elem_of_free_set; destruct Hwf; split; [lia|done]).
  by rewrite He in Hin.
Qed.

Lemma pmm_alloc_some s : wf s -> free_set s <> ∅ ->
  exists f, f ∈ free_set s /\ (forall g, g ∈ free_set s -> f <= g) /\
    exists s', pmm_alloc_frame s = (f * PMM_FRAME_SIZE, s') /\
      free_set s' = free_set s ∖ {[f]} /\ total_frames s' = total_frames s /\ wf s'.
Proof.
  intros Hwf Hne. destruct Hwf as [Hlen Hwords Htot Hcount].
  apply set_choose_L in Hne as [g Hg].
  apply elem_of_free_set in Hg as [Hgr Hgt].
  destruct (find_first_exists (fun f => negb (test_frame s f)) 0 (Z.to_nat (total_frames s)) g)
    as (f & Hf & _); [lia|by rewrite Hgt|].
  pose proof (find_first_Some _ _ _ _ Hf) as (Hfr & Hft & Hmin).
  apply negb_true_iff in Hft.
  assert (f ∈ free_set s) as Hin by (apply elem_of_free_set; split; [lia|done]).
  exists f. split_and!; [done| |].
  { intros k Hk. apply elem_of_free_set in Hk as [Hkr Hkt].
    destruct (Z.le_gt_cases f k); [done|]. specialize (Hmin k ltac:(lia)).
    rewrite Hkt in Hmin. done. }
  pose proof (free_set_used s f Hlen ltac:(unfold MAX_FRAMES in *; lia)) as Hfs.
  pose proof (free_set_size s ltac:(lia)) as Hsz.
  assert (size (free_set s ∖ {[f]}) = size (free_set s) - 1)%nat as Hsd.
  { rewrite size_difference by (by apply singleton_subseteq_l). by rewrite size_singleton. }
  assert (size (free_set s) <> 0)%nat as Hpos.
  { intros H0. apply size_empty_inv in H0. by apply (H0 f) in Hin. }
  unfold pmm_alloc_frame. rewrite Hf. eexists. split; [|split_and!].
  - f_equal. apply u32_small. unfold PMM_FRAME_SIZE, MAX_FRAMES in *. dlia.
  - done.
  - done.
  - constructor; simpl.
    + by rewrite lenZ_lset.
    + apply (set_used_words s f); [lia|done].
    + done.
    + change (free_set (with_free (set_used f s) _)) with (free_set (set_used f s)).
      rewrite Hfs, Hsd. rewrite u32_small; [lia|]. unfold MAX_FRAMES in *. dlia.
Qed.

Lemma pmm_free_in_use s frame : wf s -> 0 <= frame -> frame / PMM_FRAME_SIZE < total_frames s ->
  frame / PMM_FRAME_SIZE ∉ free_set s ->
  free_set (pmm_free_frame frame s) = {[frame / PMM_FRAME_SIZE]} ∪ free_set s /\
  total_frames (pmm_free_frame frame s) = total_frames s /\ wf (pmm_free_frame frame s).
Proof.
  intros [Hlen Hwords Htot Hcount] H0 Hlt Hnin.
  set (f := frame / PMM_FRAME_SIZE) in *.
  assert (0 <= f) by (subst f; unfold PMM_FRAME_SIZE; dlia).
  assert (test_frame s f = true) as Ht.
  { destruct (test_frame s f) eqn:E; [done|]. destruct Hnin. by apply elem_of_free_set. }
  unfold pmm_free_frame. fold f. bcase; [lia|]. rewrite Ht.
  pose proof (free_set_free s f Hlen ltac:(lia) ltac:(lia)) as Hfs.
  pose proof (free_set_size (set_free f s) ltac:(simpl; lia)) as Hsz.
  split_and!; [done|done|]. constructor; simpl.
  - by rewrite lenZ_lset.
  - by apply (set_free_words s f).
  - done.
  - change (free_set (with_free (set_free f s) _)) with (free_set (set_free f s)).
    assert ({[f]} ## free_set s) as Hdis by (by apply disjoint_singleton_l).
    rewrite Hfs, size_union, size_singleton in * by done. simpl in Hsz.
    rewrite u32_small; [lia|]. unfold MAX_FRAMES in *. dlia.
Qed.

(** A frame that is already free, or out of range, is left alone. *)
Lemma pmm_free_noop s frame : 0 <= frame ->
  (total_frames s <= frame / PMM_FRAME_SIZE \/ frame / PMM_FRAME_SIZE ∈ free_set s) ->
  pmm_free_frame frame s = s.
Proof.
  intros H0 H. unfold pmm_free_frame. bcase; [done|].
  destruct H as [|Hin]; [lia|]. apply elem_of_free_set in Hin as [_ ->]. done.
Qed.

Lemma pmm_free_wf s frame : wf s -> 0 <= frame -> wf (pmm_free_frame frame s).
Proof.
  intros Hwf H0. destruct (Z.lt_ge_cases (frame / PMM_FRAME_SIZE) (total_frames s)).
  - destruct (decide (frame / PMM_FRAME_SIZE ∈ free_set s)).
    + rewrite pmm_free_noop; auto.
    + by apply pmm_free_in_use.
  - rewrite pmm_free_noop; auto.
Qed.

Lemma reserved_start_range ke : 0 <= reserved_end ke / PMM_FRAME_SIZE < MAX_FRAMES.
Proof. unfold reserved_end, PMM_FRAME_SIZE, MAX_FRAMES. dlia. Qed.

Lemma reserved_start_pos ke : 0 <= ke <= 4292866048 -> 256 <= reserved_end ke / PMM_FRAME_SIZE.
Proof.
  intros H. unfold reserved_end, PMM_FRAME_SIZE.
  set (a := Z.land _ _).
  assert (0 <= a <= ke + 4095) as Ha.
  { subst a. rewrite u32_small by dlia.
    change (not32 (4096 - 1)) with (not32 4095). rewrite mask_page by dlia. dlia. }
  rewrite u32_small by dlia. dlia.
Qed.

Lemma total_init_range mu :
  0 <= u32 (u32 (1024 + mu) * 1024) / PMM_FRAME_SIZE < MAX_FRAMES.
Proof. unfold PMM_FRAME_SIZE, MAX_FRAMES. dlia. Qed.

Lemma all_used_u32 : Forall is_u32 all_used.
Proof. apply Forall_replicate. unfold is_u32. lia. Qed.

Lemma all_used_len : lenZ all_used = MAX_FRAMES / 32.
Proof. unfold lenZ, all_used. rewrite length_replicate. apply Z2Nat.id. done. Qed.

Lemma test_frame_init total free f : 0 <= f < MAX_FRAMES ->
  test_frame (Pmm all_used total free) f = true.
Proof.
  intros Hf. rewrite test_frame_bit. cbn [bitmap].
  rewrite (lookup_lget 0 _ _ 4294967295).
  - rewrite testbit_ones32 by dlia. apply Z.ltb_lt. dlia.
  - dlia.
  - apply lookup_replicate. split; [done|]. apply Z2Nat.inj_lt; unfold MAX_FRAMES in *; dlia.
Qed.

(** Booting gives a well-formed state in which exactly the frames from the end of
    the reserved area to the end of memory are free. *)
Lemma pmm_init_spec mu ke :
  let s := pmm_init mu ke in
  wf s /\ free_set s = frames (total_frames s) ∖ frames (reserved_end ke / PMM_FRAME_SIZE).
Proof.
  cbv zeta. unfold pmm_init.
  set (t := u32 (u32 (1024 + mu) * 1024) / PMM_FRAME_SIZE).
  pose proof (total_init_range mu) as Ht. fold t in Ht.
  replace (if MAX_FRAMES <? t then MAX_FRAMES else t) with t by (bcase; lia).
  set (start := reserved_end ke / PMM_FRAME_SIZE).
  pose proof (reserved_start_range ke) as Hs. fold start in Hs.
  set (f := fun _ _ => _). set (s0 := Pmm _ _ _).
  assert (wf s0 /\ free_set s0 = ∅) as [Hwf0 He0].
  { assert (free_set s0 = ∅) as He.
    { apply set_eq. intros g. rewrite elem_of_free_set. split; [|set_solver].
      intros [Hg Hf]. unfold s0 in Hf, Hg. rewrite test_frame_init in Hf; [done|]. simpl in Hg. lia. }
    split; [|done]. constructor; [apply all_used_len|apply all_used_u32| |by rewrite He].
    simpl. lia. }
  set (P := fun i s => wf s /\ total_frames s = t /\
    forall g, g ∈ free_set s <-> start <= g < i /\ g < t).
  assert (P (start + Z.of_nat (Z.to_nat (t - start))) (for_loop f start (Z.to_nat (t - start)) s0))
    as (Hwf & Htot & Hfs).
  { apply for_loop_ind.
    - split_and!; [done|done|]. intros g. rewrite He0. set_solver by lia.
    - intros i s Hi ([Hlen Hw Hb Hc] & Htot & Hfs). unfold P, f.
      assert (i ∉ free_set s) as Hnin by (rewrite Hfs; lia).
      pose proof (free_set_free s i Hlen ltac:(lia) ltac:(lia)) as Hadd.
      pose proof (free_set_size (set_free i s) ltac:(simpl; lia)) as Hsz. simpl in Hsz.
      assert ({[i]} ## free_set s) as Hdis by (by apply disjoint_singleton_l).
      split_and!; [|done|].
      + constructor; simpl; [by rewrite lenZ_lset|by apply (set_free_words s i)|done|].
        change (free_set (with_free (set_free i s) _)) with (free_set (set_free i s)).
        rewrite Hadd, size_union, size_singleton in * by done.
        rewrite u32_small; [lia|]. unfold MAX_FRAMES in *. dlia.
      + intros g. change (free_set (with_free (set_free i s) _)) with (free_set (set_free i s)).
        rewrite Hadd, elem_of_union, elem_of_singleton, Hfs. lia. }
  split; [done|]. apply set_eq. intros g.
  rewrite Hfs, elem_of_difference, !elem_of_frames, Htot. lia.
Qed.

(** ** Any history of the allocator *)

(** [run ke s owned]: [s] is reachable from a boot by allocations and by frees of
    frames that are out, and [owned] are the frames that are out. *)
Inductive run (ke : Z) : pmm -> gset Z -> Prop :=
| run_init mu : run ke (pmm_init mu ke) ∅
| run_alloc s o a s' : run ke s o -> pmm_alloc_frame s = (a, s') -> a <> 0 ->
    run ke s' ({[a / PMM_FRAME_SIZE]} ∪ o)
| run_alloc_fail s o s' : run ke s o -> pmm_alloc_frame s = (0, s') -> run ke s' o
| run_free s o f : run ke s o -> f ∈ o -> run ke (pmm_free_frame (f * PMM_FRAME_SIZE) s) (o ∖ {[f]}).

Definition usable (ke : Z) (s : pmm) : gset Z :=
  frames (total_frames s) ∖ frames (reserved_end ke / PMM_FRAME_SIZE).

Lemma run_inv ke s o : 0 <= ke <= 4292866048 -> run ke s o ->
  wf s /\ o ## free_set s /\ o ∪ free_set s = usable ke s.
Proof.
  intros Hke. pose proof (reserved_start_pos ke Hke) as Hpos.
  induction 1 as [mu|s o a s' _ (Hwf & Hd & Hu) Ha Hne|s o s' _ (Hwf & Hd & Hu) Ha
                 |s o f _ (Hwf & Hd & Hu) Hf].
  - destruct (pmm_init_spec mu ke) as [Hwf Hfs]. split_and!; [done|set_solver|].
    unfold usable. rewrite Hfs. set_solver.
  - destruct (decide (free_set s = ∅)) as [He|Hne'].
    { rewrite pmm_alloc_none in Ha by done. simplify_eq. }
    destruct (pmm_alloc_some s Hwf Hne') as (f & Hin & _ & s2 & Ha2 & Hfs & Htot & Hwf2).
    rewrite Ha in Ha2. simplify_eq.
    replace (f * PMM_FRAME_SIZE / PMM_FRAME_SIZE) with f by (unfold PMM_FRAME_SIZE; dlia).
    split_and!; [done|set_solver|]. unfold usable in *. rewrite Htot, <- Hu, Hfs.
    apply set_eq. intros g. destruct (decide (g = f)); set_solver.
  - destruct (decide (free_set s = ∅)) as [He|Hne'].
    { rewrite pmm_alloc_none in Ha by done. by simplify_eq. }
    destruct (pmm_alloc_some s Hwf Hne') as (f & Hin & _ & s2 & Ha2 & Hfs & Htot & Hwf2).
    rewrite Ha in Ha2. simplify_eq.
    assert (f ∈ usable ke s) as Hfu by (rewrite <- Hu; set_solver).
    unfold usable in Hfu. rewrite elem_of_difference, !elem_of_frames in Hfu.
    unfold PMM_FRAME_SIZE in *. lia.
  - assert (f ∈ usable ke s) as Hfu by (rewrite <- Hu; set_solver).
    unfold usable in Hfu. rewrite elem_of_difference, !elem_of_frames in Hfu.
    assert (f * PMM_FRAME_SIZE / PMM_FRAME_SIZE = f) as Hdiv by (unfold PMM_FRAME_SIZE; dlia).
    destruct (pmm_free_in_use s (f * PMM_FRAME_SIZE)) as (Hfs & Htot & Hwf2);
      rewrite ?Hdiv; [done|unfold PMM_FRAME_SIZE; lia|lia|set_solver|].
    rewrite Hdiv in Hfs. split_and!; [done|set_solver|].
    unfold usable in *. rewrite Htot, <- Hu, Hfs.
    apply set_eq. intros g. destruct (decide (g = f)); set_solver.
Qed.

Lemma set_used_free_id s f : wf s -> f ∈ free_set s -> set_free f (set_used f s) = s.
Proof.
  intros [Hlen Hw Htot _] Hf. apply elem_of_free_set in Hf as [Hr Ht].
  rewrite test_frame_bit in Ht.
  assert (0 <= f / 32 < lenZ (bitmap s)) by (rewrite Hlen; unfold MAX_FRAMES in *; dlia).
  assert (0 <= f mod 32 < 32) by dlia.
  unfold set_free, set_used, with_bitmap. destruct s as [b t n]. cbn [bitmap] in *. f_equal.
  rewrite lget_lset_eq, lset_lset by done. rewrite <- (lset_lget_id 0 b (f / 32)) at 3 by done.
  f_equal. pose proof (Forall_lget_u32 b (f / 32) Hw) as Hu.
  rewrite land_not32 by (by apply lor_bit_u32).
  apply Z.bits_inj'. intros i Hi. rewrite Z.ldiff_spec, lor_bit_spec by lia.
  rewrite Z.shiftl_1_l, Z.pow2_bits_eqb by lia.
  destruct (Z.eqb_spec (f mod 32) i) as [<-|].
  - by rewrite Ht, Z.eqb_refl.
  - destruct (Z.eqb_spec i (f mod 32)); [congruence|]. by rewrite orb_false_r, andb_true_r.
Qed.

(** ** Properties *)

(** C17: in every state reachable from a boot by allocations and by frees of frames
    that are out, no frame is both handed out and free, every usable frame (above
    the kernel image and its extra MiB, below the end of memory) is one or the
    other, and [free_frames] counts exactly the usable frames that are not out. *)
Theorem pmm_conservation ke s o :
  0 <= ke <= 4292866048 -> run ke s o ->
  o ## free_set s /\ o ∪ free_set s = usable ke s /\
  pmm_free_count s = Z.of_nat (size (usable ke s)) - Z.of_nat (size o).
Proof.
  intros Hke Hr. destruct (run_inv ke s o Hke Hr) as ([_ _ _ Hc] & Hd & Hu).
  split_and!; [done|done|]. unfold pmm_free_count.
  rewrite Hc, <- Hu, size_union by done. lia.
Qed.

(** A small machine: 2 MiB of memory, 256 usable frames. *)
Definition small : pmm := pmm_init 1024 0.

Lemma pmm_conservation_witness :
  run 0 (snd (pmm_alloc_frame small)) ({[fst (pmm_alloc_frame small) / PMM_FRAME_SIZE]} ∪ ∅) /\
  ({[fst (pmm_alloc_frame small) / PMM_FRAME_SIZE]} ∪ ∅ ## free_set (snd (pmm_alloc_frame small)) /\
   pmm_free_count (snd (pmm_alloc_frame small)) = 255).
Proof.
  assert (run 0 (snd (pmm_alloc_frame small)) ({[fst (pmm_alloc_frame small) / PMM_FRAME_SIZE]} ∪ ∅)) as Hr.
  { apply (run_alloc 0 small); [apply run_init|apply surjective_pairing|vm_compute; discriminate]. }
  split; [exact Hr|]. split.
  - exact (proj1 (pmm_conservation 0 _ _ ltac:(lia) Hr)).
  - vm_compute. reflexivity.
Defined.

(** an allocation in a reachable state returns the lowest usable frame that is
    not out, page aligned, and it returns 0, changing nothing, exactly when every
    usable frame is out. *)
Theorem pmm_alloc_lowest_fresh ke s o a s' :
  0 <= ke <= 4292866048 -> run ke s o -> pmm_alloc_frame s = (a, s') ->
  (a = 0 <-> o = usable ke s) /\ (a = 0 -> s' = s) /\
  (a <> 0 -> a mod PMM_FRAME_SIZE = 0 /\ a / PMM_FRAME_SIZE ∈ usable ke s ∖ o /\
    forall g, g ∈ usable ke s ∖ o -> a / PMM_FRAME_SIZE <= g).
Proof.
  intros Hke Hr Ha. destruct (run_inv ke s o Hke Hr) as (Hwf & Hd & Hu).
  pose proof (reserved_start_pos ke Hke) as Hpos.
  assert (usable ke s ∖ o = free_set s) as -> by set_solver.
  destruct (decide (free_set s = ∅)) as [He|Hne].
  - rewrite pmm_alloc_none in Ha by done. simplify_eq.
    split_and!; [|done|done]. split; [|done]. intros _. rewrite <- Hu, He. set_solver.
  - destruct (pmm_alloc_some s Hwf Hne) as (f & Hin & Hmin & s2 & Ha2 & _).
    rewrite Ha in Ha2. simplify_eq.
    assert (f ∈ usable ke s) as Hfu by (rewrite <- Hu; set_solver).
    unfold usable in Hfu. rewrite elem_of_difference, !elem_of_frames in Hfu.
    replace (f * PMM_FRAME_SIZE / PMM_FRAME_SIZE) with f by (unfold PMM_FRAME_SIZE; dlia).
    split_and!; [|unfold PMM_FRAME_SIZE; lia|intros _; split_and!; [unfold PMM_FRAME_SIZE; dlia|done|done]].
    split; [unfold PMM_FRAME_SIZE; lia|]. intros ->. set_solver.
Qed.

Lemma pmm_alloc_lowest_fresh_witness :
  fst (pmm_alloc_frame small) = 1048576 /\
  fst (pmm_alloc_frame small) / PMM_FRAME_SIZE ∈ usable 0 small ∖ ∅.
Proof.
  split; [vm_compute; reflexivity|].
  apply (pmm_alloc_lowest_fresh 0 small ∅ (fst (pmm_alloc_frame small)) (snd (pmm_alloc_frame small))).
  - lia.
  - apply run_init.
  - apply surjective_pairing.
  - vm_compute. discriminate.
Defined.

(** freeing a frame that was just allocated restores the allocator's state
    exactly, bitmap words and counters included. *)
Theorem pmm_alloc_free_roundtrip s a s' :
  wf s -> free_set s <> ∅ -> pmm_alloc_frame s = (a, s') -> pmm_free_frame a s' = s.
Proof.
  intros Hwf Hne Ha.
  destruct (pmm_alloc_some s Hwf Hne) as (f & Hin & _ & s2 & Ha2 & Hfs & Htot & Hwf2).
  rewrite Ha in Ha2. simplify_eq.
  pose proof (set_used_free_id s f Hwf Hin) as Hid.
  pose proof Hin as Hin'. apply elem_of_free_set in Hin' as [Hr Ht].
  unfold pmm_alloc_frame in Ha.
  destruct (find_first _ _ _) as [f'|] eqn:Hf; [|by injection Ha as _ <-; rewrite Hfs in Hin; set_solver].
  assert (f' = f) as ->.
  { injection Ha as Ha _. apply find_first_Some in Hf as (Hfr & _). destruct Hwf as [_ _ Hb _].
    rewrite u32_small in Ha by (unfold PMM_FRAME_SIZE, MAX_FRAMES in *; dlia).
    unfold PMM_FRAME_SIZE in Ha. lia. }
  injection Ha as _ <-. unfold pmm_free_frame.
  replace (f * PMM_FRAME_SIZE / PMM_FRAME_SIZE) with f by (unfold PMM_FRAME_SIZE; dlia).
  cbn [total_frames with_free set_used with_bitmap]. bcase; [lia|].
  change (test_frame (with_free ?x _) f) with (test_frame x f).
  destruct Hwf as [Hlen _ Hb Hc].
  rewrite test_set_used, Z.eqb_refl by (rewrite ?Hlen; unfold MAX_FRAMES in *; dlia). cbn [orb].
  change (set_free f (with_free ?x ?n)) with (with_free (set_free f x) n). rewrite Hid.
  pose proof (free_set_size s ltac:(lia)) as Hsz.
  destruct s as [b t n]. unfold with_free. simpl in *. f_equal.
  assert (size (free_set (Pmm b t n)) <> 0)%nat.
  { intros H0. apply size_empty_inv in H0. by apply (H0 f) in Hin. }
  unfold MAX_FRAMES in *. rewrite (u32_small (n - 1)) by dlia. rewrite u32_small by dlia. lia.
Qed.

Lemma pmm_alloc_free_roundtrip_witness :
  pmm_free_frame (fst (pmm_alloc_frame small)) (snd (pmm_alloc_frame small)) = small.
Proof.
  apply (pmm_alloc_free_roundtrip small (fst (pmm_alloc_frame small)) (snd (pmm_alloc_frame small))).
  - exact (proj1 (pmm_init_spec 1024 0)).
  - assert (256 ∈ free_set small) as Hin.
    { apply elem_of_free_set. split; [split|]; vm_compute; [discriminate|reflexivity|reflexivity]. }
    intros He. rewrite He in Hin. by apply not_elem_of_empty in Hin.
  - apply surjective_pairing.
Defined.

End Pmm.
