(* ===== verification/Pipe.v ===== *)
(** * Pipes (kernel/fs/file.c, include/file.h)

    A pipe is a 4096-byte ring shared by a reader and a writer.  Each pass of the
    copy loops runs with interrupts disabled, so a pass is one atomic step
    ([pipe_drain], [pipe_fill]); between passes the code calls [sched_yield], where
    any other task may act on the pipe.  [contents] is the queue of bytes the ring
    holds, and the theorems show that the ring implements a FIFO queue. *)

From stdpp Require Import base list numbers.
From S2P Require Import Prelude.

#[local] Open Scope Z_scope.

Module Pipe.

Definition PIPE_BUF_SIZE : Z := 4096.

Record pipe := MkPipe {
  buf : list Z;
  rpos : Z;
  wpos : Z;
  count : Z;
  readers : Z;
  writers : Z;
}.

(** [memset(p, 0, sizeof *p)] followed by the two assignments. *)
Definition pipe_init : pipe := MkPipe (replicate (Z.to_nat PIPE_BUF_SIZE) 0) 0 0 0 1 1.

(** The inner loop of [pipe_read]; [n] is [count - got]. *)
Fixpoint pipe_drain (n : nat) (p : pipe) (got : list Z) : list Z * pipe :=
  match n with
  | O => (got, p)
  | S n' =>
      if 0 <? count p then
        pipe_drain n'
          (MkPipe (buf p) ((rpos p + 1) mod PIPE_BUF_SIZE) (wpos p) (u32 (count p - 1))
                  (readers p) (writers p))
          (got ++ [lget 0 (buf p) (rpos p)])
      else (got, p)
  end.

(** The inner loop of [pipe_write]; [data] is what is left of the caller's buffer. *)
Fixpoint pipe_fill (data : list Z) (p : pipe) (done : Z) : Z * pipe :=
  match data with
  | [] => (done, p)
  | b :: data' =>
      if count p <? PIPE_BUF_SIZE then
        pipe_fill data'
          (MkPipe (lset (buf p) (wpos p) b) (rpos p) ((wpos p + 1) mod PIPE_BUF_SIZE)
                  (u32 (count p + 1)) (readers p) (writers p))
          (done + 1)
      else (done, p)
  end.

(** [pipe_read(p, buf, n)].  [env] lists what the other tasks do to the pipe at
    each successive [sched_yield]; [None] means the caller is still waiting when
    the list is used up.  The result is the bytes stored in the caller's buffer
    (their number is the return value) and the pipe. *)
Fixpoint pipe_read (env : list (pipe -> pipe)) (p : pipe) (n : Z) : option (list Z * pipe) :=
  let '(got, p') := pipe_drain (Z.to_nat n) p [] in
  if 0 <? lenZ got then Some (got, p')
  else if writers p' =? 0 then Some ([], p')
  else match env with
       | [] => None
       | e :: env' => pipe_read env' (e p') n
       end.

(** [pipe_write(p, buf, len)], where [data] is the part of the caller's buffer that
    is still to be written and [done] the number of bytes already written. *)
Fixpoint pipe_write_from (env : list (pipe -> pipe)) (p : pipe) (data : list Z) (done : Z)
    : option (Z * pipe) :=
  if lenZ data =? 0 then Some (done, p)
  else if readers p =? 0 then Some (done, p)
  else
    let '(done', p') := pipe_fill data p done in
    let rest := drop (Z.to_nat (done' - done)) data in
    if 0 <? lenZ rest then
      match env with
      | [] => None
      | e :: env' => pipe_write_from env' (e p') rest done'
      end
    else Some (done', p').

Definition pipe_write (env : list (pipe -> pipe)) (p : pipe) (data : list Z) : option (Z * pipe) :=
  pipe_write_from env p data 0.

(** ** The abstract queue *)

Definition contents (p : pipe) : list Z :=
  map (fun i => lget 0 (buf p) ((rpos p + i) mod PIPE_BUF_SIZE)) (seqZ 0 (count p)).

Record wf (p : pipe) : Prop := {
  wf_buf : lenZ (buf p) = PIPE_BUF_SIZE;
  wf_rpos : 0 <= rpos p < PIPE_BUF_SIZE;
  wf_count : 0 <= count p <= PIPE_BUF_SIZE;
  wf_wpos : wpos p = (rpos p + count p) mod PIPE_BUF_SIZE;
}.

Lemma wf_init : wf pipe_init.
Proof.
  split; unfold pipe_init, lenZ; cbn [buf rpos wpos count];
    [|unfold PIPE_BUF_SIZE; lia..|done].
  rewrite length_replicate. apply Z2Nat.id. done.
Qed.

Lemma contents_init : contents pipe_init = [].
Proof. done. Qed.

Lemma lenZ_contents p : 0 <= count p -> lenZ (contents p) = count p.
Proof. intros H. unfold lenZ, contents. rewrite length_map, length_seqZ. lia. Qed.

Lemma seqZ_cons_l n : 0 < n -> seqZ 0 n = 0 :: map (Z.add 1) (seqZ 0 (n - 1)).
Proof.
  intros H. rewrite seqZ_cons by lia. f_equal.
  change (Z.succ 0) with (1 + 0). rewrite <- fmap_add_seqZ.
  replace (Z.pred n) with (n - 1) by lia. done.
Qed.

Lemma seqZ_snoc n : 0 <= n -> seqZ 0 (n + 1) = seqZ 0 n ++ [n].
Proof. intros H. rewrite seqZ_app by lia. done. Qed.

(** One byte out: the front of the queue. *)
Lemma pop_spec p : wf p -> 0 < count p ->
  let p' := MkPipe (buf p) ((rpos p + 1) mod PIPE_BUF_SIZE) (wpos p) (u32 (count p - 1))
                   (readers p) (writers p) in
  wf p' /\ contents p = lget 0 (buf p) (rpos p) :: contents p'.
Proof.
  intros [Hb Hr Hc Hw] H. unfold PIPE_BUF_SIZE in *.
  assert (u32 (count p - 1) = count p - 1) as Hu by (apply u32_small; dlia).
  split.
  - constructor; simpl; rewrite ?Hu; unfold PIPE_BUF_SIZE; [done|dlia|lia|].
    rewrite Hw, Zplus_mod_idemp_l. f_equal. lia.
  - unfold contents. simpl. rewrite Hu, seqZ_cons_l by done. simpl. unfold PIPE_BUF_SIZE. f_equal.
    + rewrite Z.add_0_r, Z.mod_small by lia. done.
    + rewrite map_map. apply map_ext. intros i. rewrite Zplus_mod_idemp_l. do 2 f_equal. lia.
Qed.

(** One byte in: the back of the queue. *)
Lemma push_spec p b : wf p -> count p < PIPE_BUF_SIZE ->
  let p' := MkPipe (lset (buf p) (wpos p) b) (rpos p) ((wpos p + 1) mod PIPE_BUF_SIZE)
                   (u32 (count p + 1)) (readers p) (writers p) in
  wf p' /\ contents p' = contents p ++ [b].
Proof.
  intros [Hb Hr Hc Hw] H. unfold PIPE_BUF_SIZE in *.
  assert (u32 (count p + 1) = count p + 1) as Hu by (apply u32_small; dlia).
  split.
  - constructor; simpl; rewrite ?Hu; unfold PIPE_BUF_SIZE; [by rewrite lenZ_lset|done|lia|].
    rewrite Hw, Zplus_mod_idemp_l. f_equal. lia.
  - unfold contents. simpl. rewrite Hu, seqZ_snoc by lia. rewrite map_app. f_equal.
    + apply map_ext_in. intros i Hi. apply list_elem_of_In, elem_of_seqZ in Hi.
      unfold PIPE_BUF_SIZE. rewrite lget_lset_ne; [done|]. rewrite Hw. dlia.
    + simpl. f_equal. unfold PIPE_BUF_SIZE. rewrite <- Hw.
      apply lget_lset_eq. rewrite Hb, Hw. dlia.
Qed.

Lemma pipe_drain_ends n p got got' p' : pipe_drain n p got = (got', p') ->
  readers p' = readers p /\ writers p' = writers p.
Proof.
  revert p got. induction n as [|n IH]; intros p got H; simpl in H; [by simplify_eq|].
  bcase_in H; [|by simplify_eq]. by apply IH in H.
Qed.

Lemma pipe_fill_ends data p done done' p' : pipe_fill data p done = (done', p') ->
  readers p' = readers p /\ writers p' = writers p.
Proof.
  revert p done. induction data as [|b data IH]; intros p done H; simpl in H; [by simplify_eq|].
  bcase_in H; [|by simplify_eq]. by apply IH in H.
Qed.

(** A pass of the read loop takes the first [min n (length q)] bytes of the queue. *)
Lemma pipe_drain_spec n p got : wf p ->
  exists p', pipe_drain n p got = (got ++ take n (contents p), p') /\
    wf p' /\ contents p' = drop n (contents p).
Proof.
  revert p got. induction n as [|n IH]; intros p got Hwf.
  - exists p. simpl. rewrite app_nil_r. done.
  - simpl. bcase.
    + destruct (pop_spec p Hwf) as [Hwf' Hc]; [done|].
      destruct (IH _ (got ++ [lget 0 (buf p) (rpos p)]) Hwf') as (p' & Hd & Hwf2 & Hc2).
      exists p'. rewrite Hd, Hc. simpl. rewrite <- app_assoc. done.
    + assert (contents p = []) as ->.
      { destruct Hwf as [_ _ Hb _]. unfold contents. by replace (count p) with 0 by lia. }
      exists p. rewrite take_nil, app_nil_r, drop_nil. split_and!; [done|done|].
      destruct Hwf as [_ _ Hb _]. unfold contents. by replace (count p) with 0 by lia.
Qed.

(** A pass of the write loop appends the first [min (length data) (free space)]
    bytes of the data. *)
Lemma pipe_fill_spec data p done : wf p ->
  let k := Z.min (lenZ data) (PIPE_BUF_SIZE - count p) in
  exists p', pipe_fill data p done = (done + k, p') /\
    wf p' /\ contents p' = contents p ++ take (Z.to_nat k) data.
Proof.
  revert p done. induction data as [|b data IH]; intros p done Hwf; cbv zeta.
  - exists p. pose proof (wf_count p Hwf). unfold lenZ. simpl.
    rewrite Z.min_l, Z.add_0_r, take_nil, app_nil_r by lia. done.
  - pose proof (wf_count p Hwf) as Hcr. simpl. bcase.
    + destruct (push_spec p b Hwf) as [Hwf' Hc]; [done|].
      destruct (IH _ (done + 1) Hwf') as (p' & Hf & Hwf2 & Hc2).
      rewrite Hf. simpl in Hc2 |- *. rewrite Hc, u32_small in Hc2 by (unfold PIPE_BUF_SIZE in *; dlia).
      rewrite u32_small by (unfold PIPE_BUF_SIZE in *; dlia).
      exists p'. unfold lenZ in *. simpl length. split_and!; [f_equal; lia|done|].
      rewrite Hc2, <- app_assoc. f_equal.
      replace (Z.to_nat (Z.min (Z.of_nat (S (length data))) (PIPE_BUF_SIZE - count p)))
        with (S (Z.to_nat (Z.min (Z.of_nat (length data)) (PIPE_BUF_SIZE - (count p + 1))))) by lia.
      done.
    + exists p. unfold lenZ. replace (Z.min _ _) with 0 by (simpl; lia).
      rewrite Z.add_0_r, app_nil_r. done.
Qed.

Lemma contents_nil p : wf p -> contents p = [] <-> count p = 0.
Proof.
  intros [_ _ Hc _]. split; intros H.
  - rewrite <- (lenZ_contents p) by lia. by rewrite H.
  - unfold contents. by rewrite H.
Qed.

(** The bytes written to and read from a pipe by any interleaving of passes of
    [pipe_read] and [pipe_write] and of closes of either end. *)
Inductive stream : pipe -> list Z -> list Z -> Prop :=
| stream_create : stream pipe_init [] []
| stream_read n p w r got p' : stream p w r -> pipe_drain n p [] = (got, p') -> stream p' w (r ++ got)
| stream_write data p w r k p' : stream p w r -> pipe_fill data p 0 = (k, p') ->
    stream p' (w ++ take (Z.to_nat k) data) r
| stream_close p w r rd wr : stream p w r ->
    stream (MkPipe (buf p) (rpos p) (wpos p) (count p) rd wr) w r.

Lemma stream_inv p w r : stream p w r -> wf p /\ w = r ++ contents p.
Proof.
  induction 1 as [|n p w r got p' _ [Hwf ->] Hd|data p w r k p' _ [Hwf ->] Hf|p w r rd wr _ [Hwf ->]].
  - split; [apply wf_init|by rewrite contents_init].
  - destruct (pipe_drain_spec n p [] Hwf) as (p2 & Hd2 & Hwf2 & Hc2).
    rewrite Hd in Hd2. simplify_eq. split; [done|].
    rewrite Hc2. simpl. rewrite <- app_assoc, take_drop. done.
  - destruct (pipe_fill_spec data p 0 Hwf) as (p2 & Hf2 & Hwf2 & Hc2).
    rewrite Hf in Hf2. simplify_eq. split; [done|].
    rewrite Hc2, Z.add_0_l, app_assoc. done.
  - split; [|done]. destruct Hwf. by constructor.
Qed.

(** ** Properties *)

(** C33: whatever the interleaving of reads, writes and closes, the bytes that have
    been written are exactly the bytes that have been read followed by the bytes
    still in the ring: nothing is lost, duplicated or reordered, and at most 4096
    bytes are held. *)
Theorem pipe_fifo p w r :
  stream p w r -> w = r ++ contents p /\ lenZ (contents p) <= PIPE_BUF_SIZE.
Proof.
  intros H. apply stream_inv in H as [Hwf Hw]. split; [done|].
  destruct Hwf as [_ _ Hc _]. rewrite lenZ_contents; lia.
Qed.

(** Writing [10; 20; 30] and reading two bytes. *)
Definition sample_pipe : pipe := snd (pipe_fill [10; 20; 30] pipe_init 0).

Lemma sample_stream :
  stream (snd (pipe_drain 2 sample_pipe [])) [10; 20; 30] [10; 20].
Proof.
  apply (stream_read 2 sample_pipe [10; 20; 30] [] [10; 20]).
  - apply (stream_write [10; 20; 30] pipe_init [] [] 3); [constructor|apply surjective_pairing].
  - apply surjective_pairing.
Qed.

Lemma pipe_fifo_witness :
  stream (snd (pipe_drain 2 sample_pipe [])) [10; 20; 30] [10; 20] /\
  [10; 20; 30] = [10; 20] ++ contents (snd (pipe_drain 2 sample_pipe [])).
Proof.
  split; [apply sample_stream|].
  apply (pipe_fifo (snd (pipe_drain 2 sample_pipe [])) [10; 20; 30] [10; 20]), sample_stream.
Defined.

Lemma pipe_read_eq env p n :
  pipe_read env p n =
    let '(got, p') := pipe_drain (Z.to_nat n) p [] in
    if 0 <? lenZ got then Some (got, p')
    else if writers p' =? 0 then Some ([], p')
    else match env with [] => None | e :: env' => pipe_read env' (e p') n end.
Proof. by destruct env. Qed.

(** a read of [n > 0] bytes returns at once with the first [n] queued bytes
    when there are any, returns end of file when the ring is empty and no writer is
    left, and otherwise waits: it goes on from the pipe the other tasks leave. *)
Theorem pipe_read_spec env p n :
  wf p -> 0 < n ->
  (contents p <> [] -> exists p', pipe_read env p n = Some (take (Z.to_nat n) (contents p), p') /\
     wf p' /\ contents p' = drop (Z.to_nat n) (contents p)) /\
  (contents p = [] -> writers p = 0 -> pipe_read env p n = Some ([], p)) /\
  (contents p = [] -> writers p <> 0 ->
     pipe_read env p n = match env with [] => None | e :: env' => pipe_read env' (e p) n end).
Proof.
  intros Hwf Hn. destruct (pipe_drain_spec (Z.to_nat n) p [] Hwf) as (p' & Hd & Hwf' & Hc').
  rewrite app_nil_l in Hd.
  assert (forall q, contents p = [] -> pipe_drain (Z.to_nat n) p [] = (q, p') -> p' = p) as Hsame.
  { intros q H0 _. apply contents_nil in H0; [|done].
    assert (pipe_drain (Z.to_nat n) p [] = ([], p)) as Hd0.
    { destruct (Z.to_nat n); [done|]. simpl. by rewrite H0. }
    rewrite Hd in Hd0. by simplify_eq. }
  split_and!.
  - intros Hne. exists p'. split; [|done].
    rewrite pipe_read_eq.
    rewrite Hd. destruct (contents p) as [|b q]; [done|].
    destruct (Z.to_nat n) eqn:E; [lia|]. by replace (0 <? lenZ (take (S n0) (b :: q))) with true.
  - intros H0 Hw. pose proof (Hsame _ H0 Hd) as ->. rewrite H0, take_nil in Hd.
    rewrite pipe_read_eq, Hd, Hw. done.
  - intros H0 Hw. pose proof (Hsame _ H0 Hd) as ->. rewrite H0, take_nil in Hd.
    rewrite pipe_read_eq, Hd. change (0 <? lenZ []) with false. cbv iota. by bcase.
Qed.

Lemma wf_sample : wf sample_pipe.
Proof.
  destruct (pipe_fill_spec [10; 20; 30] pipe_init 0 wf_init) as (p' & Hf & Hwf & _).
  unfold sample_pipe. by rewrite Hf.
Qed.

Lemma pipe_read_spec_witness :
  exists p', pipe_read [] sample_pipe 2 = Some ([10; 20], p') /\ contents p' = [30].
Proof.
  destruct (proj1 (pipe_read_spec [] sample_pipe 2 wf_sample ltac:(lia))) as (p' & H1 & H2 & H3).
  - vm_compute. discriminate.
  - exists p'. split; [exact H1|exact H3].
Defined.

(** What the other tasks do during a yield, as a writer relies on it: the ring
    stays well formed, a reader stays, and some room is made. *)
Definition makes_room (e : pipe -> pipe) : Prop :=
  forall q, wf q -> readers q <> 0 -> wf (e q) /\ readers (e q) <> 0 /\ count (e q) < PIPE_BUF_SIZE.

Lemma pipe_write_from_eq env p data done : wf p -> readers p <> 0 ->
  let k := Z.min (lenZ data) (PIPE_BUF_SIZE - count p) in
  exists p', wf p' /\ readers p' <> 0 /\
    pipe_write_from env p data done =
      if k <? lenZ data then
        match env with [] => None | e :: env' => pipe_write_from env' (e p') (drop (Z.to_nat k) data) (done + k) end
      else Some (done + lenZ data, p').
Proof.
  intros Hwf Hr k. destruct (pipe_fill_spec data p done Hwf) as (p' & Hf & Hwf' & Hc').
  pose proof (pipe_fill_ends _ _ _ _ _ Hf) as [Hr' _]. fold k in Hf.
  pose proof (wf_count p Hwf) as Hcr.
  assert (pipe_write_from env p data done =
    if lenZ data =? 0 then Some (done, p) else if readers p =? 0 then Some (done, p)
    else let '(done', p') := pipe_fill data p done in
      let rest := drop (Z.to_nat (done' - done)) data in
      if 0 <? lenZ rest then match env with [] => None | e :: env' => pipe_write_from env' (e p') rest done' end
      else Some (done', p')) as -> by (by destruct env).
  destruct (Z.eqb_spec (lenZ data) 0) as [H0|H0].
  - exists p. split_and!; [done|done|]. bcase; [lia|]. by rewrite H0, Z.add_0_r.
  - destruct (Z.eqb_spec (readers p) 0); [done|]. rewrite Hf. cbv zeta.
    replace (done + k - done) with k by lia. exists p'. split_and!; [done|congruence|].
    unfold lenZ at 1. rewrite length_drop. pose proof (lenZ_nonneg data). unfold lenZ in *.
    destruct (Z.ltb_spec k (Z.of_nat (length data))); bcase; try lia; [done|].
    f_equal. f_equal. lia.
Qed.

Lemma pipe_write_completes_room env : Forall makes_room env -> forall p data done,
  wf p -> readers p <> 0 -> count p < PIPE_BUF_SIZE -> (length data <= S (length env))%nat ->
  exists p', pipe_write_from env p data done = Some (done + lenZ data, p') /\ wf p'.
Proof.
  induction 1 as [|e env He _ IH]; intros p data done Hwf Hr Hc Hl.
  - destruct (pipe_write_from_eq [] p data done Hwf Hr) as (p' & Hwf' & _ & ->).
    exists p'. split; [|done]. bcase; [|done]. unfold lenZ in *. simpl in Hl. lia.
  - destruct (pipe_write_from_eq (e :: env) p data done Hwf Hr) as (p' & Hwf' & Hr' & ->).
    bcase; [|by exists p'].
    destruct (He p' Hwf' Hr') as (Hwf2 & Hr2 & Hc2). unfold lenZ in *.
    set (k := Z.min _ _) in *.
    destruct (IH (e p') (drop (Z.to_nat k) data) (done + k) Hwf2 Hr2 Hc2) as (p2 & -> & Hwf3).
    + rewrite length_drop. simpl in Hl. lia.
    + exists p2. split; [|done]. do 2 f_equal. rewrite length_drop. lia.
Qed.

(** a write terminates with every byte written if, at each yield, the other
    tasks keep a reader and make some room; as many yields as there are bytes are
    enough. *)
Theorem pipe_write_completes env p data :
  wf p -> readers p <> 0 -> Forall makes_room env -> (length data <= length env)%nat ->
  exists p', pipe_write env p data = Some (lenZ data, p') /\ wf p'.
Proof.
  intros Hwf Hr He Hl. pose proof (wf_count p Hwf) as Hcr. unfold pipe_write. rewrite <- (Z.add_0_l (lenZ data)).
  destruct (Z.lt_ge_cases (count p) PIPE_BUF_SIZE) as [Hc|Hc].
  { apply pipe_write_completes_room; auto. }
  destruct (pipe_write_from_eq env p data 0 Hwf Hr) as (p' & Hwf' & Hr' & ->).
  bcase; [|by exists p']. destruct env as [|e env].
  { unfold lenZ in *. simpl in *. lia. }
  apply Forall_cons_1 in He as [He Henv].
  destruct (He p' Hwf' Hr') as (Hwf2 & Hr2 & Hc2).
  set (k := Z.min _ _) in *.
  destruct (pipe_write_completes_room env Henv (e p') (drop (Z.to_nat k) data) (0 + k) Hwf2 Hr2 Hc2)
    as (p2 & -> & Hwf3).
  - rewrite length_drop. simpl in Hl. lia.
  - exists p2. split; [|done]. do 2 f_equal. unfold lenZ in *. rewrite length_drop. lia.
Qed.

Lemma drain_all_makes_room : makes_room (fun q => snd (pipe_drain 1 q [])).
Proof.
  intros q Hwf Hr. destruct (pipe_drain_spec 1 q [] Hwf) as (p' & Hd & Hwf' & Hc').
  rewrite Hd. simpl. pose proof (pipe_drain_ends _ _ _ _ _ Hd) as [-> _].
  split_and!; [done|done|]. pose proof (wf_count p' Hwf'). pose proof (wf_count q Hwf).
  rewrite <- (lenZ_contents p'), Hc' by lia. unfold lenZ. rewrite length_drop.
  pose proof (lenZ_contents q ltac:(lia)) as Hq. unfold lenZ in Hq. unfold PIPE_BUF_SIZE in *. lia.
Qed.

Lemma pipe_write_completes_witness :
  exists p', pipe_write [fun q => snd (pipe_drain 1 q []); fun q => snd (pipe_drain 1 q [])]
               sample_pipe [40; 50] = Some (2, p') /\ wf p'.
Proof.
  apply (pipe_write_completes _ sample_pipe [40; 50]).
  - exact wf_sample.
  - vm_compute. discriminate.
  - do 2 (apply Forall_cons_2; [exact drain_all_makes_room|]). apply Forall_nil_2.
  - apply le_n.
Defined.

(** a read of zero bytes from a pipe that has a writer never returns, however
    many bytes are queued, as long as the other tasks leave a writer. *)
Theorem pipe_read_zero_hangs env p :
  writers p <> 0 -> Forall (fun e => forall q, writers q <> 0 -> writers (e q) <> 0) env ->
  pipe_read env p 0 = None.
Proof.
  intros Hw He. revert p Hw. induction He as [|e env He _ IH]; intros p Hw;
    rewrite pipe_read_eq; change (Z.to_nat 0) with 0%nat; cbn [pipe_drain];
    change (0 <? lenZ []) with false; cbv iota; (destruct (Z.eqb_spec (writers p) 0); [done|]);
    [done|]. apply IH. by apply He.
Qed.

Lemma pipe_read_zero_hangs_witness : pipe_read [id; id] sample_pipe 0 = None.
Proof.
  apply (pipe_read_zero_hangs [id; id] sample_pipe).
  - vm_compute. discriminate.
  - do 2 (apply Forall_cons_2; [intros q Hq; exact Hq|]). apply Forall_nil_2.
Defined.

End Pipe.
