(* ===== verification/Sched.v ===== *)
(** * The scheduler (kernel/sched/sched.c, include/sched.h)

    Tasks live in a store indexed by their address, the slot table [tasks] and the
    circular run list are kept as the code keeps them (through pointers), and the
    parts of the kernel the scheduler calls (heap, address spaces, descriptor
    tables, files) are the operations of the class [KEnv].  A context switch is
    modelled up to the point where the processor leaves the old task. *)

From stdpp Require Import base list gmap numbers.
From S2P Require Import Prelude.

#[local] Open Scope Z_scope.

(** What the scheduler uses of the rest of the kernel, on a state of type [E]. *)
Class KEnv (E : Type) := {
  kmalloc : Z -> E -> Z * E;
  kfree : Z -> E -> E;
  hal_paging_kernel_dir : E -> Z;
  hal_addrspace_current : E -> Z;
  hal_paging_switch : Z -> E -> E;
  hal_addrspace_destroy : Z -> E -> E;
  hal_tss_set_kernel_stack : Z -> E -> E;
  hal_context_init : Z -> Z -> E -> Z * E;
  filp_close : Z -> E -> E;
}.

Module Sched.

Definition TASK_UNUSED : Z := 0.
Definition TASK_READY : Z := 1.
Definition TASK_RUNNING : Z := 2.
Definition TASK_BLOCKED : Z := 3.
Definition TASK_ZOMBIE : Z := 4.

Definition MAX_TASKS : Z := 64.
Definition MAX_FILES : Z := 32.
Definition KSTACK_SIZE : Z := 32768.
Definition QUANTUM : Z := 5.
Definition sizeof_task : Z := 488.

(** [struct task].  Pointers are addresses (0 is [NULL]); the [name] and [cwd]
    arrays are the strings they hold. *)
Record task := Task {
  pid : Z; ppid : Z; name : list Z; state : Z; ctx : Z; kstack : Z;
  time_slice : Z; next : Z; uid : Z; gid : Z; exit_code : Z; addrspace : Z;
  files : list Z; cwd : list Z; parent : Z; waiting : bool; user : bool;
  entry : Z; user_stack : Z; brk : Z; tty_raw : bool; tty_echo : bool;
}.

(** [memset(t, 0, sizeof(struct task))]. *)
Definition zero_task : task :=
  Task 0 0 [] 0 0 0 0 0 0 0 0 0 (replicate (Z.to_nat MAX_FILES) 0) [] 0 false false 0 0 0 false false.

#[global] Instance task_inhabited : Inhabited task := populate zero_task.

Definition set_state (v : Z) (t : task) : task :=
  Task (pid t) (ppid t) (name t) v (ctx t) (kstack t) (time_slice t) (next t) (uid t) (gid t)
    (exit_code t) (addrspace t) (files t) (cwd t) (parent t) (waiting t) (user t) (entry t)
    (user_stack t) (brk t) (tty_raw t) (tty_echo t).
Definition set_slice (v : Z) (t : task) : task :=
  Task (pid t) (ppid t) (name t) (state t) (ctx t) (kstack t) v (next t) (uid t) (gid t)
    (exit_code t) (addrspace t) (files t) (cwd t) (parent t) (waiting t) (user t) (entry t)
    (user_stack t) (brk t) (tty_raw t) (tty_echo t).
Definition set_next (v : Z) (t : task) : task :=
  Task (pid t) (ppid t) (name t) (state t) (ctx t) (kstack t) (time_slice t) v (uid t) (gid t)
    (exit_code t) (addrspace t) (files t) (cwd t) (parent t) (waiting t) (user t) (entry t)
    (user_stack t) (brk t) (tty_raw t) (tty_echo t).
Definition set_ctx (v : Z) (t : task) : task :=
  Task (pid t) (ppid t) (name t) (state t) v (kstack t) (time_slice t) (next t) (uid t) (gid t)
    (exit_code t) (addrspace t) (files t) (cwd t) (parent t) (waiting t) (user t) (entry t)
    (user_stack t) (brk t) (tty_raw t) (tty_echo t).
Definition set_exit_code (v : Z) (t : task) : task :=
  Task (pid t) (ppid t) (name t) (state t) (ctx t) (kstack t) (time_slice t) (next t) (uid t) (gid t)
    v (addrspace t) (files t) (cwd t) (parent t) (waiting t) (user t) (entry t)
    (user_stack t) (brk t) (tty_raw t) (tty_echo t).
(** The first two assignments of [sched_exit]. *)
Definition zombify (code : Z) (t : task) : task := set_state TASK_ZOMBIE (set_exit_code code t).
Definition set_files (v : list Z) (t : task) : task :=
  Task (pid t) (ppid t) (name t) (state t) (ctx t) (kstack t) (time_slice t) (next t) (uid t) (gid t)
    (exit_code t) (addrspace t) v (cwd t) (parent t) (waiting t) (user t) (entry t)
    (user_stack t) (brk t) (tty_raw t) (tty_echo t).
Definition set_parent (v w : Z) (t : task) : task :=
  Task (pid t) w (name t) (state t) (ctx t) (kstack t) (time_slice t) (next t) (uid t) (gid t)
    (exit_code t) (addrspace t) (files t) (cwd t) v (waiting t) (user t) (entry t)
    (user_stack t) (brk t) (tty_raw t) (tty_echo t).
Definition set_waiting (v : bool) (t : task) : task :=
  Task (pid t) (ppid t) (name t) (state t) (ctx t) (kstack t) (time_slice t) (next t) (uid t) (gid t)
    (exit_code t) (addrspace t) (files t) (cwd t) (parent t) v (user t) (entry t)
    (user_stack t) (brk t) (tty_raw t) (tty_echo t).

(** The module's static variables; [env] is the rest of the kernel. *)
Record sched (E : Type) := MkSched {
  store : gmap Z task;
  tasks : list Z;
  current : Z;
  task_list : Z;
  next_pid : Z;
  started : bool;
  env : E;
}.
Arguments MkSched {E}. Arguments store {E}. Arguments tasks {E}. Arguments current {E}.
Arguments task_list {E}. Arguments next_pid {E}. Arguments started {E}. Arguments env {E}.

(** The addresses of the static [idle_task] and [idle_stack]. *)
Definition idle_task : Z := 4096.
Definition idle_stack : Z := 8192.
Definition idle_entry : Z := 16384.

Definition runnable (t : task) : bool :=
  (state t =? TASK_READY) || (state t =? TASK_RUNNING).

Section Sched.
  Context {E : Type} `{KEnv E}.
  Implicit Types s : sched E.

Definition get s (p : Z) : task := store s !!! p.
Definition upd (f : task -> task) (p : Z) s : sched E :=
    MkSched (<[p := f (get s p)]> (store s)) (tasks s) (current s) (task_list s) (next_pid s)
      (started s) (env s).
Definition with_env (e : E) s : sched E :=
    MkSched (store s) (tasks s) (current s) (task_list s) (next_pid s) (started s) e.
Definition with_current (p : Z) s : sched E :=
    MkSched (store s) (tasks s) p (task_list s) (next_pid s) (started s) (env s).
Definition with_task_list (p : Z) s : sched E :=
    MkSched (store s) (tasks s) (current s) p (next_pid s) (started s) (env s).
Definition with_tasks (l : list Z) s : sched E :=
    MkSched (store s) l (current s) (task_list s) (next_pid s) (started s) (env s).

Definition idle_name : list Z := [105; 100; 108; 101].

Definition sched_init (e : E) : sched E :=
    let '(c, e') := hal_context_init (idle_stack + 16384) idle_entry e in
    let idle := Task 0 0 idle_name TASK_READY c idle_stack QUANTUM 0 0 0 0 (hal_paging_kernel_dir e)
                  (replicate (Z.to_nat MAX_FILES) 0) [] 0 false false 0 0 0 false false in
    MkSched {[ idle_task := idle ]} (replicate (Z.to_nat MAX_TASKS) 0) 0 0 1 false e'.

  (** [sched_alloc]: the new task's address (0 when the heap is exhausted). *)
Definition sched_alloc (nm : list Z) s : Z * sched E :=
    let '(t, e1) := kmalloc sizeof_task (env s) in
    if t =? 0 then (0, with_env e1 s)
    else
      let '(ks, e2) := kmalloc KSTACK_SIZE e1 in
      let tk := Task (next_pid s) 0 (take 31 nm) TASK_READY 0 ks QUANTUM 0 0 0 0
                  (hal_paging_kernel_dir e1) (replicate (Z.to_nat MAX_FILES) 0) [47] 0 false false
                  0 0 0 false true in
      let tbl := match find_first (fun i => lget 0 (tasks s) i =? 0) 0 (Z.to_nat MAX_TASKS) with
                 | Some slot => lset (tasks s) slot t
                 | None => tasks s
                 end in
      (t, MkSched (<[t := tk]> (store s)) tbl (current s) (task_list s) (i32 (next_pid s + 1))
            (started s) e2).

  (** The walk [while (p->next != task_list) p = p->next;]. *)
Fixpoint find_tail (fuel : nat) s (p : Z) : option Z :=
    if next (get s p) =? task_list s then Some p
    else match fuel with
         | O => None
         | S fuel' => find_tail fuel' s (next (get s p))
         end.

Definition fuel_of s : nat := size (store s).

Definition sched_add (t : Z) s : option (sched E) :=
    if task_list s =? 0 then
      Some (upd (set_next t) t (with_task_list t s))
    else
      p ← find_tail (fuel_of s) s (task_list s);
      Some (upd (set_next (task_list s)) t (upd (set_next t) p s)).

Definition sched_create (nm : list Z) (entry : Z) s : option (Z * sched E) :=
    let '(t, s) := sched_alloc nm s in
    if t =? 0 then Some (0, s)
    else
      let '(c, e) := hal_context_init (kstack (get s t) + KSTACK_SIZE) entry (env s) in
      s ← sched_add t (upd (set_ctx c) t (with_env e s));
      Some (t, s).

Definition sched_find_slot (i : Z) s : Z :=
    if (i <? 0) || (MAX_TASKS <=? i) then 0 else lget 0 (tasks s) i.

Definition sched_find (p : Z) s : Z :=
    match find_first (fun i => negb (lget 0 (tasks s) i =? 0) && (pid (get s (lget 0 (tasks s) i)) =? p))
            0 (Z.to_nat MAX_TASKS) with
    | Some i => lget 0 (tasks s) i
    | None => 0
    end.

  (** The unlinking loop of [sched_reap], started at [p]. *)
Fixpoint reap_unlink (fuel : nat) (t p : Z) s : option (sched E) :=
    if next (get s p) =? t then
      let s1 := upd (set_next (next (get s t))) p s in
      Some (if task_list s1 =? t
            then with_task_list (if next (get s1 t) =? t then 0 else next (get s1 t)) s1
            else s1)
    else
      let p' := next (get s p) in
      if p' =? task_list s then Some s
      else match fuel with
           | O => None
           | S fuel' => reap_unlink fuel' t p' s
           end.

Definition sched_reap (t : Z) s : option (sched E) :=
    s1 ← (if task_list s =? 0 then Some s else reap_unlink (fuel_of s) t (task_list s) s);
    let s2 := with_tasks (map (fun q => if q =? t then 0 else q) (tasks s1)) s1 in
    let tk := get s2 t in
    let e := env s2 in
    let e := if negb (addrspace tk =? 0) && negb (addrspace tk =? hal_paging_kernel_dir e)
             then hal_addrspace_destroy (addrspace tk) e else e in
    let e := if negb (kstack tk =? 0) then kfree (kstack tk) e else e in
    Some (with_env (kfree t e) (MkSched (delete t (store s2)) (tasks s2) (current s2) (task_list s2)
                                  (next_pid s2) (started s2) (env s2))).

  (** The search of [pick_next], started at [t]. *)
Fixpoint pick_from (fuel : nat) s (start t : Z) : option Z :=
    if runnable (get s t) then Some t
    else
      let t' := next (get s t) in
      if t' =? start then Some idle_task
      else match fuel with
           | O => None
           | S fuel' => pick_from fuel' s start t'
           end.

Definition pick_next s : option Z :=
    let start := if negb (current s =? 0) then next (get s (current s)) else task_list s in
    if start =? 0 then Some idle_task else pick_from (fuel_of s) s start start.

  (** [switch_to], up to the switch of the processor's context. *)
Definition switch_to (nx : Z) s : sched E :=
    let s := with_current nx s in
    let s := upd (fun t => set_slice QUANTUM (set_state TASK_RUNNING t)) nx s in
    let e := hal_tss_set_kernel_stack (kstack (get s nx) + KSTACK_SIZE) (env s) in
    let e := if negb (addrspace (get s nx) =? 0) && negb (addrspace (get s nx) =? hal_addrspace_current e)
             then hal_paging_switch (addrspace (get s nx)) e else e in
    with_env e s.

Definition sched_start s : sched E :=
    let s := MkSched (store s) (tasks s)
               (if negb (task_list s =? 0) then task_list s else idle_task)
               (task_list s) (next_pid s) true (env s) in
    let s := upd (set_state TASK_RUNNING) (current s) s in
    let e := hal_tss_set_kernel_stack (kstack (get s (current s)) + KSTACK_SIZE) (env s) in
    let e := if negb (addrspace (get s (current s)) =? 0)
             then hal_paging_switch (addrspace (get s (current s))) e else e in
    with_env e s.

  (** [if (current->state == TASK_RUNNING) current->state = TASK_READY;] *)
Definition preempt_current s : sched E :=
    if state (get s (current s)) =? TASK_RUNNING
    then upd (set_state TASK_READY) (current s) s else s.

Definition sched_yield s : option (sched E) :=
    if negb (started s) then Some s
    else
      nx ← pick_next s;
      Some (if nx =? current s then s else switch_to nx (preempt_current s)).

Definition sched_tick s : option (sched E) :=
    if negb (started s) || (current s =? 0) then Some s
    else
      let s := if 0 <? time_slice (get s (current s))
               then upd (fun t => set_slice (u32 (time_slice t - 1)) t) (current s) s else s in
      if time_slice (get s (current s)) =? 0 then
        nx ← pick_next s;
        Some (if nx =? current s then upd (set_slice QUANTUM) (current s) s
              else switch_to nx (preempt_current s))
      else Some s.

Definition sched_wakeup_parent (t : Z) s : sched E :=
    let p := parent (get s t) in
    if negb (p =? 0) && (state (get s p) =? TASK_BLOCKED) && waiting (get s p)
    then upd (fun k => set_state TASK_READY (set_waiting false k)) p s
    else s.

  (** The loop of [sched_exit] that gives the task's children away. *)
Definition orphan_children (t : Z) s : sched E :=
    for_loop (fun i s =>
        let c := lget 0 (tasks s) i in
        if negb (c =? 0) && (parent (get s c) =? t) then upd (set_parent 0 1) c s else s)
      0 (Z.to_nat MAX_TASKS) s.

  (** The loop of [sched_exit] that closes the task's files. *)
Definition close_files (t : Z) s : sched E :=
    for_loop (fun i s =>
        let f := lget 0 (files (get s t)) i in
        if negb (f =? 0)
        then upd (fun k => set_files (lset (files k) i 0) k) t (with_env (filp_close f (env s)) s)
        else s)
      0 (Z.to_nat MAX_FILES) s.

  (** [sched_exit] up to the choice of the next task. *)
Definition exit_prepare (code : Z) s : sched E :=
    let me := current s in
    let s := upd (zombify code) me s in
    let s := orphan_children me s in
    let s := close_files me s in
    sched_wakeup_parent me s.

Definition sched_exit (code : Z) s : option (sched E) :=
    let s := exit_prepare code s in
    nx ← pick_next s;
    Some (switch_to nx s).

Definition sched_block s : option (sched E) :=
    let s := upd (set_state TASK_BLOCKED) (current s) s in
    nx ← pick_next s;
    Some (if nx =? current s then s else switch_to nx s).

Definition sched_unblock (t : Z) s : sched E :=
    if state (get s t) =? TASK_BLOCKED then upd (set_state TASK_READY) t s else s.
End Sched.

(** ** The run list *)

Section RunList.
  Context {E : Type} `{KEnv E}.
  Implicit Types (s : sched E) (l q : list Z) (p t c x : Z).

  (** [chain s l stop]: following [next] from the head of [l] visits [l] and then
      reaches [stop]. *)
Fixpoint chain s l (stop : Z) : Prop :=
    match l with
    | [] => True
    | x :: l' => next (get s x) = List.hd stop l' /\ chain s l' stop
    end.

Definition present s l : Prop := forall p, p ∈ l -> is_Some (store s !! p).

  (** [cyc s c l]: the run list, read from [c] on, is [c] followed by [l]. *)
Record cyc s c l : Prop := {
    cyc_nodup : NoDup (c :: l);
    cyc_chain : chain s (c :: l) c;
    cyc_present : present s (c :: l);
    cyc_valid : (0 ∉ (c :: l)) /\ (idle_task ∉ (c :: l));
  }.

  (** [ring s q]: the run list, read from [task_list] on, is [q]. *)
Definition ring s q : Prop :=
    match q with
    | [] => task_list s = 0
    | c :: l => task_list s = c /\ cyc s c l
    end.

Lemma chain_app s l1 l2 stop :
    chain s (l1 ++ l2) stop <-> chain s l1 (List.hd stop l2) /\ chain s l2 stop.
  Proof.
    induction l1 as [|x l1 IH]; simpl; [tauto|]. rewrite IH.
    destruct l1; simpl; tauto.
  Qed.

Lemma chain_ext s s' l stop :
    (forall p, p ∈ l -> next (get s' p) = next (get s p)) -> chain s l stop -> chain s' l stop.
  Proof.
    induction l as [|x l IH]; simpl; [done|]. intros He [Hx Hc]. split.
    - rewrite He by set_solver. done.
    - apply IH; [|done]. intros p Hp. apply He. set_solver.
  Qed.

Lemma cyc_rotate s c l1 x l2 : cyc s c (l1 ++ x :: l2) -> cyc s x (l2 ++ c :: l1).
  Proof.
    intros [Hn Hc Hp Hv].
    assert ((c :: l1 ++ x :: l2) ≡ₚ (x :: l2 ++ c :: l1)) as HP.
    { change (c :: l1 ++ x :: l2) with ((c :: l1) ++ x :: l2).
      rewrite (Permutation_app_comm (c :: l1)). done. }
    split.
    - by rewrite <- HP.
    - change (c :: l1 ++ x :: l2) with ((c :: l1) ++ x :: l2) in Hc.
      apply chain_app in Hc as [Hc1 Hc2]. simpl in Hc1.
      change (x :: l2 ++ c :: l1) with ((x :: l2) ++ c :: l1). apply chain_app. by split.
    - intros p Hin. apply Hp. by rewrite HP.
    - by rewrite <- HP.
  Qed.

Lemma ring_cyc s a c b : ring s (a ++ c :: b) -> cyc s c (b ++ a).
  Proof.
    destruct a as [|h a]; simpl.
    - intros [_ Hc]. by rewrite app_nil_r.
    - intros [_ Hc]. by apply cyc_rotate.
  Qed.

Lemma fuel_enough s l : NoDup l -> present s l -> (length l <= fuel_of s)%nat.
  Proof.
    intros Hn Hp. unfold fuel_of. rewrite <- size_dom.
    rewrite <- (size_list_to_set (C := gset Z) l) by done.
    apply subseteq_size. intros p. rewrite elem_of_list_to_set, elem_of_dom. apply Hp.
  Qed.

  (** *** The search of [pick_next] *)

Definition first_runnable s l : Z :=
    match List.find (fun p => runnable (get s p)) l with
    | Some p => p
    | None => idle_task
    end.

Lemma pick_from_spec s start t l fuel :
    chain s (t :: l) start -> start ∉ l -> (length l <= fuel)%nat ->
    pick_from fuel s start t = Some (first_runnable s (t :: l)).
  Proof.
    unfold first_runnable. revert t fuel. induction l as [|x l IH]; intros t fuel [Hn Hc] Hs Hf.
    - destruct fuel; simpl in *; destruct (runnable (get s t)); try done; rewrite Hn, Z.eqb_refl; done.
    - destruct fuel as [|fuel]; [simpl in Hf; lia|].
      cbn [pick_from List.find]. destruct (runnable (get s t)); [done|].
      simpl in Hn. rewrite Hn. destruct (Z.eqb_spec x start) as [->|]; [set_solver|].
      rewrite IH; [done|done|set_solver|simpl in Hf; lia].
  Qed.

  (** From a current task on the run list, the search goes round the list, the
      current task last. *)
Lemma pick_next_cyc s c l : cyc s c l -> current s = c ->
    pick_next s = Some (first_runnable s (l ++ [c])).
  Proof.
    intros [Hn Hc Hp [Hz _]] Hcur. unfold pick_next. rewrite Hcur.
    destruct (Z.eqb_spec c 0) as [->|]; [set_solver|]. simpl negb. cbv iota.
    destruct Hc as [Hnx Hc]. rewrite Hnx.
    assert (exists h r, l ++ [c] = h :: r /\ List.hd c l = h) as (h & r & Hrot & Hh).
    { destruct l; simpl; eauto. }
    rewrite Hh, Hrot.
    assert (NoDup (h :: r)) as Hnd by (rewrite <- Hrot, Permutation_app_comm; done).
    destruct (Z.eqb_spec h 0) as [->|].
    { destruct Hz. change (c :: l) with ([c] ++ l). rewrite elem_of_app.
      destruct l as [|y l]; simpl in Hh; subst; set_solver. }
    apply pick_from_spec.
    - rewrite <- Hrot. apply chain_app. simpl. split; [done|]. split; [|done].
      rewrite Hnx. done.
    - by inversion Hnd.
    - assert (length (h :: r) <= fuel_of s)%nat; [|simpl in *; lia].
      apply fuel_enough; [done|]. intros p Hin. apply Hp. rewrite <- Hrot in Hin. set_solver.
  Qed.

  (** Before the first task runs the search starts at the head of the list. *)
Lemma pick_next_boot s q : ring s q -> current s = 0 ->
    pick_next s = Some (first_runnable s q).
  Proof.
    intros Hr Hcur. unfold pick_next. rewrite Hcur. simpl negb. cbv iota.
    destruct q as [|c l]; simpl in Hr.
    - rewrite Hr. done.
    - destruct Hr as [Htl [Hn Hc Hp [Hz _]]]. rewrite Htl.
      destruct (Z.eqb_spec c 0) as [->|]; [set_solver|].
      apply pick_from_spec; [done|by inversion Hn|].
      pose proof (fuel_enough s (c :: l) Hn Hp). simpl in *. lia.
  Qed.

Lemma first_runnable_spec s l x : x ∈ l -> runnable (get s x) = true -> idle_task ∉ l ->
    exists l1 l2, l = l1 ++ first_runnable s l :: l2 /\
      runnable (get s (first_runnable s l)) = true /\ Forall (fun p => runnable (get s p) = false) l1.
  Proof.
    intros Hx Hr Hi. unfold first_runnable. induction l as [|y l IH]; [set_solver|].
    simpl. destruct (runnable (get s y)) eqn:Ey.
    - exists [], l. by split_and!.
    - apply elem_of_cons in Hx as [->|Hx]; [congruence|].
      destruct IH as (l1 & l2 & Hl & Hrn & Hf); [done|intros Hin; apply Hi; by right|].
      exists (y :: l1), l2. split_and!; [simpl; congruence|done|by constructor].
  Qed.

Lemma first_runnable_none s l : first_runnable s l = idle_task -> idle_task ∉ l ->
    Forall (fun p => runnable (get s p) = false) l.
  Proof.
    unfold first_runnable. intros Hf Hi. destruct (List.find _ l) as [p|] eqn:Ef.
    - apply find_some in Ef as [Hin _]. apply list_elem_of_In in Hin. set_solver.
    - apply List.Forall_forall. intros p Hp. by apply (find_none _ _ Ef).
  Qed.
End RunList.

(** ** The operations on the run list *)

Section Ops.
  Context {E : Type} `{KEnv E}.
  Implicit Types (s : sched E) (l q : list Z) (p t c x : Z).

Lemma get_upd f p s x : get (upd f p s) x = if p =? x then f (get s p) else get s x.
  Proof.
    unfold get, upd. simpl. bcase; subst.
    - by rewrite lookup_total_insert_eq.
    - by rewrite lookup_total_insert_ne.
  Qed.

Lemma next_upd f p s x : (forall k : task, next (f k) = next k) -> next (get (upd f p s) x) = next (get s x).
  Proof. intros Hf. rewrite get_upd. bcase; [subst; apply Hf|done]. Qed.

Lemma present_upd f p s l : present s l -> present (upd f p s) l.
  Proof.
    intros Hp x Hx. unfold upd. simpl. destruct (decide (p = x)) as [->|].
    - rewrite lookup_insert_eq. eauto.
    - rewrite lookup_insert_ne by done. by apply Hp.
  Qed.

Lemma cyc_ext s s' c l : (forall p, next (get s' p) = next (get s p)) ->
    (forall p, is_Some (store s !! p) -> is_Some (store s' !! p)) -> cyc s c l -> cyc s' c l.
  Proof.
    intros Hn Hs [Hnd Hc Hp Hv]. split; [done| |by intros p Hin; apply Hs, Hp|done].
    eapply chain_ext; [|done]. intros p _. apply Hn.
  Qed.

Lemma preempt_next s p : next (get (preempt_current s) p) = next (get s p).
  Proof. unfold preempt_current. bcase; [|done]. by apply next_upd. Qed.

Lemma switch_get nx s p : get (switch_to nx s) p =
    if nx =? p then set_slice QUANTUM (set_state TASK_RUNNING (get s nx)) else get s p.
  Proof.
    unfold switch_to. unfold get at 1. simpl. bcase; subst.
    - by rewrite lookup_total_insert_eq.
    - by rewrite lookup_total_insert_ne.
  Qed.

Lemma switch_next nx s p : next (get (switch_to nx s) p) = next (get s p).
  Proof. rewrite switch_get. bcase; [by subst|done]. Qed.

Lemma preempt_store s p : is_Some (store s !! p) -> is_Some (store (preempt_current s) !! p).
  Proof.
    intros Hp. unfold preempt_current. bcase; [|done].
    eapply (present_upd _ _ s [p]); [|set_solver]. intros x Hx. by apply list_elem_of_singleton in Hx as ->.
  Qed.

Lemma switch_store nx s p : is_Some (store s !! p) -> is_Some (store (switch_to nx s) !! p).
  Proof.
    intros Hp. unfold switch_to. simpl.
    destruct (decide (nx = p)) as [->|]; [rewrite lookup_insert_eq; eauto|].
    by rewrite lookup_insert_ne.
  Qed.

Lemma switch_cyc nx s c l : cyc s c l -> cyc (switch_to nx (preempt_current s)) c l.
  Proof.
    apply cyc_ext; intros p.
    - by rewrite switch_next, preempt_next.
    - intros Hp. by apply switch_store, preempt_store.
  Qed.

Lemma preempt_runnable s p : runnable (get s p) = true -> runnable (get (preempt_current s) p) = true.
  Proof.
    intros Hr. unfold preempt_current. bcase; [|done]. rewrite get_upd. by bcase.
  Qed.

Lemma switch_runnable nx s p : runnable (get s p) = true -> runnable (get (switch_to nx s) p) = true.
  Proof. intros Hr. rewrite switch_get. by bcase. Qed.

Lemma switch_current nx s : current (switch_to nx s) = nx.
  Proof. done. Qed.

Lemma preempt_started s : started (preempt_current s) = started s.
  Proof. unfold preempt_current. by bcase. Qed.

  (** *** Adding and removing tasks *)

Lemma find_tail_spec s l p fuel : chain s (p :: l) (task_list s) -> task_list s ∉ l ->
    (length l <= fuel)%nat -> find_tail fuel s p = Some (List.last (p :: l) 0).
  Proof.
    revert p fuel. induction l as [|x l IH]; intros p fuel [Hn Hc] Htl Hf.
    - destruct fuel; simpl in *; by rewrite Hn, Z.eqb_refl.
    - destruct fuel as [|fuel]; [simpl in Hf; lia|]. simpl in Hn. cbn [find_tail]. rewrite Hn.
      destruct (Z.eqb_spec x (task_list s)) as [->|]; [set_solver|].
      rewrite IH; [done|done|set_solver|simpl in Hf; lia].
  Qed.

Lemma sched_add_ring s q t : ring s q -> t ∉ q -> t <> 0 -> t <> idle_task -> is_Some (store s !! t) ->
    exists s', sched_add t s = Some s' /\ ring s' (q ++ [t]) /\
      (forall p, p ∈ q -> state (get s' p) = state (get s p)) /\ current s' = current s.
  Proof.
    intros Hr Ht Hz Hi Hin. unfold sched_add. destruct q as [|c l]; simpl in Hr.
    - rewrite Hr, Z.eqb_refl. eexists. split; [done|]. split_and!; [|set_solver|done].
      split; [done|]. split; [apply NoDup_singleton| | |set_solver].
      + simpl. rewrite get_upd, Z.eqb_refl. done.
      + apply present_upd. intros p Hp. by apply list_elem_of_singleton in Hp as ->.
    - destruct Hr as [Htl Hc]. pose proof Hc as [Hn Hch Hp [Hz0 Hi0]].
      destruct (Z.eqb_spec (task_list s) 0); [set_solver|].
      rewrite Htl, (find_tail_spec s l c).
      2:{ by rewrite Htl. } 2:{ rewrite Htl. by inversion Hn. }
      2:{ pose proof (fuel_enough s (c :: l) Hn Hp). simpl in *. lia. }
      set (z := List.last (c :: l) 0). cbn [mbind option_bind].
      assert (exists l0, c :: l = l0 ++ [z]) as [l0 Hl0].
      { exists (removelast (c :: l)). apply app_removelast_last. done. }
      assert (z ∈ c :: l) as Hzin by (rewrite Hl0; set_solver).
      assert (z <> t) as Hzt by (intros ->; done).
      eexists. split; [done|]. split_and!.
      + split; [done|]. split.
        * change (c :: l ++ [t]) with ((c :: l) ++ [t]). apply list.NoDup_app. split_and!; [done|set_solver|apply NoDup_singleton].
        * change (c :: l ++ [t]) with ((c :: l) ++ [t]). rewrite Hl0, <- app_assoc. simpl.
          rewrite Hl0 in Hch. apply chain_app in Hch as [Hc1 _]. apply chain_app. split.
          -- eapply chain_ext; [|exact Hc1]. intros p Hpl. rewrite !get_upd.
             assert (p <> t) by (intros ->; apply Ht; rewrite Hl0; set_solver).
             assert (p <> z). { intros ->. rewrite Hl0 in Hn. apply list.NoDup_app in Hn as (_ & Hd & _). set_solver. }
             repeat bcase; congruence.
          -- simpl. rewrite !get_upd. repeat bcase; try congruence; done.
        * change (c :: l ++ [t]) with ((c :: l) ++ [t]). intros p Hpin.
          apply (present_upd _ _ _ [p]); [|set_solver]. apply present_upd.
          intros y Hy. apply list_elem_of_singleton in Hy as ->.
          apply elem_of_app in Hpin as [Hpin|Hpin]; [by apply Hp|].
          by apply list_elem_of_singleton in Hpin as ->.
        * change (c :: l ++ [t]) with ((c :: l) ++ [t]). set_solver.
      + intros p Hpin. rewrite !get_upd. assert (t <> p) by (intros ->; done).
        repeat bcase; subst; done.
      + done.
  Qed.
  (** The three assignments of [sched_reap] once the predecessor [p] is found. *)
Definition unlink t p s : sched E :=
    let s1 := upd (set_next (next (get s t))) p s in
    if task_list s1 =? t
    then with_task_list (if next (get s1 t) =? t then 0 else next (get s1 t)) s1 else s1.

Lemma reap_unlink_walk s t a p rest fuel :
    chain s (a ++ p :: rest) (task_list s) -> task_list s ∉ List.tl (a ++ p :: rest) ->
    Forall (fun x => next (get s x) <> t) a -> next (get s p) = t -> (length a <= fuel)%nat ->
    reap_unlink fuel t (List.hd p a) s = Some (unlink t p s).
  Proof.
    revert fuel. induction a as [|x a IH]; intros fuel Hc Htl Ha Hp Hf.
    - destruct fuel; simpl; by rewrite Hp, Z.eqb_refl.
    - destruct fuel as [|fuel]; [simpl in Hf; lia|].
      inversion Ha as [|? ? Hx Ha']; subst. simpl in Hc. destruct Hc as [Hnx Hc].
      assert (List.hd (task_list s) (a ++ p :: rest) = List.hd p a) as Hhd by (by destruct a).
      rewrite Hhd in Hnx. cbn [List.hd]. cbn [reap_unlink].
      destruct (Z.eqb_spec (next (get s x)) (next (get s p))); [congruence|].
      rewrite Hnx. simpl in Htl.
      destruct (Z.eqb_spec (List.hd p a) (task_list s)) as [He|].
      { destruct Htl. rewrite <- He. destruct a; simpl; set_solver. }
      apply IH; [done| |done|done|simpl in Hf; lia].
      intros Hin. apply Htl. destruct a; simpl in *; set_solver.
  Qed.

Lemma chain_inner s a p stop x : chain s (a ++ [p]) stop -> x ∈ a ->
    next (get s x) ∈ List.tl (a ++ [p]).
  Proof.
    induction a as [|y a IH]; [set_solver|]. simpl. intros [Hy Hc] Hx.
    apply elem_of_cons in Hx as [->|Hx].
    - rewrite Hy. destruct a; simpl; set_solver.
    - specialize (IH Hc Hx). destruct a; simpl in *; set_solver.
  Qed.

Lemma unlink_next t p s x : next (get (unlink t p s) x) = if p =? x then next (get s t) else next (get s x).
  Proof.
    unfold unlink. cbv zeta. destruct (task_list _ =? t).
    - change (get (with_task_list ?n ?s') x) with (get s' x). rewrite get_upd. by bcase.
    - rewrite get_upd. by bcase.
  Qed.

Lemma unlink_present t p s l : present s l -> present (unlink t p s) l.
  Proof.
    intros Hp. unfold unlink. cbv zeta. destruct (task_list _ =? t); apply present_upd; done.
  Qed.

  (** Unlinking the head of the list. *)
Lemma unlink_head s t l : cyc s t l -> task_list s = t ->
    exists s', reap_unlink (fuel_of s) t t s = Some s' /\ ring s' l /\ tasks s' = tasks s /\
      (forall p, is_Some (store s !! p) -> is_Some (store s' !! p)) /\ current s' = current s /\
      (forall p, state (get s' p) = state (get s p)).
  Proof.
    intros [Hn Hc Hp [Hz Hi]] Htl.
    destruct (exists_last (l := t :: l)) as (a & z & Hl); [done|].
    assert (List.hd z a = t) as Hhd by (destruct a; simpl in *; congruence).
    assert (next (get s z) = t) as Hzt.
    { rewrite Hl in Hc. apply chain_app in Hc as [_ [Hc _]]. done. }
    assert (t ∉ l) as Htl' by (by inversion Hn).
    exists (unlink t z s).
    assert (reap_unlink (fuel_of s) t t s = Some (unlink t z s)) as ->.
    { rewrite <- Hhd at 2. apply reap_unlink_walk with (rest := []); rewrite <- ?Hl, ?Htl; [done|done| |done|].
      - apply List.Forall_forall. intros x Hx. apply list_elem_of_In in Hx. intros He.
        rewrite Hl in Hc. pose proof (chain_inner _ _ _ _ _ Hc Hx) as Hin.
        rewrite <- Hl in Hin. simpl in Hin. congruence.
      - pose proof (fuel_enough s (t :: l) Hn Hp) as Hfu. rewrite Hl, length_app in Hfu. simpl in Hfu. lia. }
    assert (forall p, state (get (unlink t z s) p) = state (get s p)) as Hst.
    { intros p. unfold unlink. cbv zeta. destruct (task_list _ =? t);
        [change (get (with_task_list ?n ?s') p) with (get s' p)|]; rewrite get_upd; bcase; by subst. }
    assert (forall p, is_Some (store s !! p) -> is_Some (store (unlink t z s) !! p)) as Hpr.
    { intros p Hps. apply (unlink_present t z s [p]); [|set_solver].
      intros y Hy. by apply list_elem_of_singleton in Hy as ->. }
    split_and!; [done| | |done| |done]; [|unfold unlink; cbv zeta; by destruct (task_list _ =? t)..].
    destruct l as [|d l].
    - simpl. assert (z = t) as -> by (destruct a as [|? [|]]; simpl in *; congruence).
      unfold unlink. simpl. rewrite Htl, Z.eqb_refl, get_upd, Z.eqb_refl. simpl. rewrite Hzt, Z.eqb_refl. done.
    - destruct Hc as [Hnt Hc]. simpl in Hnt.
      assert (z <> t). { intros ->. rewrite Hl in Hn. apply list.NoDup_app in Hn as (_ & Hd & _).
        destruct a; simpl in *; [congruence|]. simplify_eq. set_solver. }
      destruct a as [|y a']; simpl in Hhd, Hl; [congruence|]. subst y.
      injection Hl as Hl.
      split.
      + unfold unlink. cbn [task_list upd]. rewrite Htl, Z.eqb_refl, get_upd.
        destruct (Z.eqb_spec z t); [done|]. rewrite Hnt.
        destruct (Z.eqb_spec d t); [subst; set_solver|done].
      + split; [by inversion Hn| |intros p Hpin; apply Hpr, Hp; by right|split; set_solver].
        rewrite Hl in *. apply chain_app in Hc as [Hc _]. apply chain_app. split.
        * eapply chain_ext; [|exact Hc]. intros p Hpin. rewrite unlink_next. bcase; [|done]. subst.
          apply list.NoDup_cons in Hn as [_ Hn]. apply list.NoDup_app in Hn as (_ & Hd & _). set_solver.
        * simpl. rewrite unlink_next, Z.eqb_refl. done.
  Qed.

  (** Unlinking another task of the list. *)
Lemma unlink_inner s c l1 t l2 : cyc s c (l1 ++ t :: l2) -> task_list s = c ->
    exists s', reap_unlink (fuel_of s) t c s = Some s' /\ ring s' (c :: l1 ++ l2) /\ tasks s' = tasks s /\
      (forall p, is_Some (store s !! p) -> is_Some (store s' !! p)) /\ current s' = current s /\
      (forall p, state (get s' p) = state (get s p)).
  Proof.
    intros [Hn Hc Hp [Hz Hi]] Htl.
    destruct (exists_last (l := c :: l1)) as (a & z & Hl); [done|].
    assert (c :: l1 ++ t :: l2 = a ++ z :: t :: l2) as Hq.
    { change (c :: l1 ++ t :: l2) with ((c :: l1) ++ t :: l2). rewrite Hl, <- app_assoc. done. }
    assert (List.hd z a = c) as Hhd by (destruct a; simpl in *; congruence).
    pose proof Hc as Hc0. rewrite Hq in Hc. apply chain_app in Hc as [Hca (Hzt & Htn & Hc2)]. simpl in Hzt, Hca.
    pose proof Hn as Hn0. rewrite Hq in Hn0. apply list.NoDup_app in Hn0 as (Hna & Hd & Hnb).
    apply list.NoDup_cons in Hnb as [Hzb Hnb]. apply list.NoDup_cons in Hnb as [Htb Hnb].
    exists (unlink t z s).
    assert (reap_unlink (fuel_of s) t c s = Some (unlink t z s)) as ->.
    { rewrite <- Hhd at 1. apply reap_unlink_walk with (rest := t :: l2); rewrite <- ?Hq, ?Htl; [done| | |done|].
      - simpl. by inversion Hn.
      - apply List.Forall_forall. intros x Hx. apply list_elem_of_In in Hx. intros He.
        assert (chain s (a ++ [z]) t) as Hcz by (apply chain_app; simpl; split; [done|split; [done|done]]).
        pose proof (chain_inner _ _ _ _ _ Hcz Hx) as Hin. rewrite He in Hin.
        assert (t ∈ a ++ [z]) as Hin' by (destruct a; simpl in *; set_solver).
        apply elem_of_app in Hin' as [Hin'|Hin']; set_solver.
      - pose proof (fuel_enough s _ Hn Hp) as Hfu. rewrite Hq, length_app in Hfu. simpl in Hfu. lia. }
    assert (t <> c) as Htc by (intros ->; apply list.NoDup_cons in Hn as [Hn _]; set_solver).
    assert (unlink t z s = upd (set_next (next (get s t))) z s) as Hu.
    { unfold unlink. simpl. rewrite Htl. bcase; [congruence|done]. }
    assert (forall p, is_Some (store s !! p) -> is_Some (store (unlink t z s) !! p)) as Hpr.
    { intros p Hps. apply (unlink_present t z s [p]); [|set_solver].
      intros y Hy. by apply list_elem_of_singleton in Hy as ->. }
    split_and!; [done| |by rewrite Hu|done|by rewrite Hu|].
    2:{ intros p. rewrite Hu, get_upd. bcase; by subst. }
    assert (c :: l1 ++ l2 = a ++ z :: l2) as Hq2.
    { change (c :: l1 ++ l2) with ((c :: l1) ++ l2). rewrite Hl, <- app_assoc. done. }
    split; [by rewrite Hu|]. split.
    - rewrite Hq2. apply list.NoDup_app. split_and!; [done|set_solver|apply list.NoDup_cons; set_solver].
    - rewrite Hq2. apply chain_app. split; [|split].
      + eapply chain_ext; [|exact Hca]. intros p Hpin. rewrite unlink_next. bcase; [|done]. subst. set_solver.
      + rewrite unlink_next, Z.eqb_refl. done.
      + eapply chain_ext; [|exact Hc2]. intros p Hpin. rewrite unlink_next. bcase; [|done]. subst. set_solver.
    - intros p Hpin. apply Hpr, Hp. set_solver.
    - split; set_solver.
  Qed.

Lemma ring_ext s s' q : task_list s' = task_list s ->
    (forall p, p ∈ q -> next (get s' p) = next (get s p)) ->
    (forall p, p ∈ q -> is_Some (store s !! p) -> is_Some (store s' !! p)) -> ring s q -> ring s' q.
  Proof.
    intros Ht Hn Hs. destruct q as [|c l]; simpl; [congruence|].
    intros [Htl [Hnd Hc Hp Hv]]. split; [congruence|]. split; [done| | |done].
    - eapply chain_ext; [|done]. intros p Hin. by apply Hn.
    - intros p Hin. apply Hs; [done|]. by apply Hp.
  Qed.

Lemma ring_not_in s q1 t q2 : ring s (q1 ++ t :: q2) -> (t ∉ (q1 ++ q2)) /\ t <> 0.
  Proof.
    intros Hr. apply ring_cyc in Hr as [Hn _ _ [Hz _]]. apply list.NoDup_cons in Hn as [Hn _].
    split; [|set_solver]. intros Hin. apply Hn. set_solver.
  Qed.

Lemma reap_unlink_ring s q1 t q2 : ring s (q1 ++ t :: q2) ->
    exists s', (if task_list s =? 0 then Some s else reap_unlink (fuel_of s) t (task_list s) s) = Some s' /\
      ring s' (q1 ++ q2) /\ tasks s' = tasks s /\ current s' = current s /\
      (forall p, state (get s' p) = state (get s p)).
  Proof.
    intros Hr. destruct q1 as [|c l1]; simpl in Hr; destruct Hr as [Htl Hc];
      pose proof (cyc_valid _ _ _ Hc) as [Hz _];
      (destruct (Z.eqb_spec (task_list s) 0); [set_solver|]); rewrite Htl.
    - destruct (unlink_head s t q2 Hc Htl) as (s' & -> & Hr' & Ht & _ & Hcu & Hst). by exists s'.
    - destruct (unlink_inner s c l1 t q2 Hc Htl) as (s' & -> & Hr' & Ht & _ & Hcu & Hst). by exists s'.
  Qed.

Lemma sched_reap_ring s q1 t q2 : ring s (q1 ++ t :: q2) ->
    exists s', sched_reap t s = Some s' /\ ring s' (q1 ++ q2) /\ store s' !! t = None /\
      (t ∉ tasks s') /\ current s' = current s /\
      (forall p, p <> t -> state (get s' p) = state (get s p)).
  Proof.
    intros Hr. pose proof (ring_not_in _ _ _ _ Hr) as [Hnin Ht0].
    destruct (reap_unlink_ring s q1 t q2 Hr) as (s1 & Hs1 & Hr1 & Htk & Hcu & Hst).
    unfold sched_reap. rewrite Hs1. cbn [mbind option_bind]. eexists. split; [done|].
    split_and!.
    - eapply ring_ext; [| | |exact Hr1]; [done| |].
      + intros p Hp. unfold get. simpl. rewrite lookup_total_delete_ne; [done|]. intros ->. done.
      + intros p Hp Hps. simpl. rewrite lookup_delete_ne; [done|]. intros ->. done.
    - simpl. apply lookup_delete_eq.
    - simpl. rewrite list_elem_of_In, in_map_iff. intros (x & Hx & _). bcase_in Hx; [done|congruence].
    - simpl. done.
    - intros p Hp. unfold get. simpl. rewrite lookup_total_delete_ne by done. apply Hst.
  Qed.

  (** *** Yielding *)

Lemma sched_yield_cyc s c l : cyc s c l -> current s = c -> started s = true ->
    let nx := first_runnable s (l ++ [c]) in
    sched_yield s = Some (if nx =? c then s else switch_to nx (preempt_current s)).
  Proof.
    intros Hc Hcur Hst. unfold sched_yield. rewrite Hst. simpl negb. cbv iota.
    rewrite (pick_next_cyc s c l Hc Hcur). simpl. by rewrite Hcur.
  Qed.

Fixpoint yields (k : nat) s : option (sched E) :=
    match k with
    | O => Some s
    | S k' => s' ← sched_yield s; yields k' s'
    end.

  (** Each yield brings a runnable task at distance [length l1] nearer. *)
Lemma yield_nearer s c l1 x l2 : cyc s c (l1 ++ x :: l2) -> current s = c -> started s = true ->
    runnable (get s x) = true ->
    exists s', sched_yield s = Some s' /\ started s' = true /\
      (current s' = x \/
       exists m1 m2 n, l1 = m1 ++ n :: m2 /\ current s' = n /\ runnable (get s' x) = true /\
         cyc s' n (m2 ++ x :: (l2 ++ c :: m1))).
  Proof.
    intros Hc Hcur Hst Hr.
    pose proof Hc as [Hnd _ _ [_ Hidle]]. apply list.NoDup_cons in Hnd as [Hcn Hnd].
    rewrite (sched_yield_cyc s c _ Hc Hcur Hst).
    set (nx := first_runnable s _).
    assert (exists a1 a2 : list Z, l1 ++ [x] = a1 ++ nx :: a2) as (a1 & a2 & Hp).
    { destruct (first_runnable_spec s (l1 ++ [x]) x) as (a1 & a2 & Hp & Hpr & Hf); [set_solver|done|set_solver|].
      assert (first_runnable s (l1 ++ [x]) = nx) as Heq.
      { subst nx. unfold first_runnable.
        replace ((l1 ++ x :: l2) ++ [c]) with ((l1 ++ [x]) ++ l2 ++ [c]) by (by rewrite <- !app_assoc).
        rewrite (list_find_app _ (l1 ++ [x])). destruct (List.find _ (l1 ++ [x])) eqn:Ef; [done|].
        apply (find_none _ _) with (x := x) in Ef; [congruence|]. apply list_elem_of_In. set_solver. }
      rewrite Heq in Hp. by exists a1, a2. }
    clearbody nx. assert (nx ∈ l1 ++ [x]) as Hin by (rewrite Hp; set_solver).
    assert (nx <> c) as Hnc by (intros He; rewrite He in Hin; apply Hcn; set_solver).
    destruct (Z.eqb_spec nx c); [done|].
    eexists. split; [done|]. split; [change (started (preempt_current s) = true); by rewrite preempt_started|].
    rewrite switch_current. destruct (decide (nx = x)) as [->|Hnx]; [by left|right].
    assert (nx ∈ l1) as Hin1 by set_solver.
    apply list_elem_of_split in Hin1 as (m1 & m2 & Hl1). subst l1.
    exists m1, m2, nx. split_and!; [done|done|by apply switch_runnable, preempt_runnable|].
    apply switch_cyc.
    replace (m2 ++ x :: l2 ++ c :: m1) with ((m2 ++ x :: l2) ++ c :: m1) by (by rewrite <- app_assoc).
    apply cyc_rotate. by rewrite <- app_assoc in Hc.
  Qed.

Lemma yields_reach n : forall s c l1 x l2, (length l1 <= n)%nat ->
    cyc s c (l1 ++ x :: l2) -> current s = c -> started s = true -> runnable (get s x) = true ->
    exists k s', (k <= S (length l1))%nat /\ yields k s = Some s' /\ current s' = x.
  Proof.
    induction n as [n IH] using lt_wf_ind. intros s c l1 x l2 Hl Hc Hcur Hst Hr.
    destruct (yield_nearer s c l1 x l2 Hc Hcur Hst Hr) as (s1 & Hy & Hst1 & [Hx|Hn]).
    - exists 1%nat, s1. simpl. rewrite Hy. split_and!; [lia|done|done].
    - destruct Hn as (m1 & m2 & nx & -> & Hcur1 & Hr1 & Hc1).
      rewrite length_app in Hl. simpl in Hl.
      destruct (IH (length m2) ltac:(lia) s1 nx m2 x _ ltac:(lia) Hc1 Hcur1 Hst1 Hr1) as (k & s2 & Hk & Hys & Hx).
      exists (S k), s2. simpl. rewrite Hy. simpl. split_and!; [|done|done].
      rewrite length_app. simpl. lia.
  Qed.
End Ops.

(** ** Exiting *)

Section Exit.
  Context {E : Type} `{KEnv E}.
  Implicit Types (s : sched E) (l q : list Z) (p t c x : Z).

  (** [k'] is [k], or [k] given away because its parent was [me]. *)
Definition orphaned (me : Z) (k k' : task) : Prop :=
    k' = k \/ (parent k = me /\ k' = set_parent 0 1 k).

Record orphan_post me s s' : Prop := {
    op_get : forall p, orphaned me (get s p) (get s' p);
    op_children : forall i, 0 <= i < MAX_TASKS -> lget 0 (tasks s) i <> 0 ->
       parent (get s (lget 0 (tasks s) i)) = me ->
       get s' (lget 0 (tasks s) i) = set_parent 0 1 (get s (lget 0 (tasks s) i));
    op_tasks : tasks s' = tasks s;
    op_current : current s' = current s;
    op_present : forall p, is_Some (store s !! p) -> is_Some (store s' !! p);
  }.

Record close_post me s s' : Prop := {
    cp_others : forall p, p <> me -> get s' p = get s p;
    cp_me : exists fl, get s' me = set_files fl (get s me) /\
       forall i, 0 <= i < MAX_FILES -> lget 0 fl i = 0;
    cp_tasks : tasks s' = tasks s;
    cp_current : current s' = current s;
    cp_present : forall p, is_Some (store s !! p) -> is_Some (store s' !! p);
  }.

Lemma orphan_children_spec me s : me <> 0 -> orphan_post me s (orphan_children me s).
  Proof.
    intros Hme. set (s' := orphan_children me s).
    enough ((forall p, orphaned me (get s p) (get s' p)) /\
      (forall i, 0 <= i < MAX_TASKS -> lget 0 (tasks s) i <> 0 ->
       parent (get s (lget 0 (tasks s) i)) = me ->
       get s' (lget 0 (tasks s) i) = set_parent 0 1 (get s (lget 0 (tasks s) i))) /\
      tasks s' = tasks s /\ current s' = current s /\ env s' = env s /\
      (forall p, is_Some (store s !! p) -> is_Some (store s' !! p)))
      as (? & ? & ? & ? & _ & ?) by (by constructor).
    subst s'. unfold orphan_children. set (f := fun _ _ => _).
    set (P := fun n s' => (forall p, orphaned me (get s p) (get s' p)) /\
      (forall i, 0 <= i < n -> lget 0 (tasks s) i <> 0 ->
       parent (get s (lget 0 (tasks s) i)) = me ->
       get s' (lget 0 (tasks s) i) = set_parent 0 1 (get s (lget 0 (tasks s) i))) /\
      tasks s' = tasks s /\ current s' = current s /\ env s' = env s /\
      (forall p, is_Some (store s !! p) -> is_Some (store s' !! p))).
    apply (for_loop_ind P f 0 (Z.to_nat MAX_TASKS) s).
    - unfold P. split_and!; try done; [by left|lia].
    - intros i s1 Hi (Ho & Hd & Ht & Hc & He & Hs). unfold P, f. rewrite Ht.
      set (ch := lget 0 (tasks s) i) in *.
      destruct (Z.eqb_spec ch 0) as [H0|H0]; simpl.
      { split_and!; try done. intros j Hj Hj0. destruct (decide (j = i)) as [->|]; [done|]. apply Hd; [lia|done]. }
      destruct (Z.eqb_spec (parent (get s1 ch)) me) as [Hp|Hp].
      + assert (get s1 ch = get s ch /\ parent (get s ch) = me) as [Hsame Hpar].
        { destruct (Ho ch) as [Heq|[_ Heq]]; rewrite Heq in Hp; [done|simpl in Hp; congruence]. }
        assert (forall p, get (upd (set_parent 0 1) ch s1) p =
                  if ch =? p then set_parent 0 1 (get s ch) else get s1 p) as Hg.
        { intros p. rewrite get_upd, Hsame. done. }
        split_and!; try done.
        * intros p. rewrite Hg. bcase; [subst p; by right|apply Ho].
        * intros j Hj Hj0 Hjp. rewrite Hg. bcase; [congruence|].
          apply Hd; [|done|done]. destruct (decide (j = i)) as [->|]; [done|lia].
        * intros p Hps. apply (present_upd _ _ s1 [p]); [|set_solver].
          intros y Hy. apply list_elem_of_singleton in Hy as ->. by apply Hs.
      + split_and!; try done. intros j Hj Hj0 Hjp.
        destruct (decide (j = i)) as [->|]; [|apply Hd; [lia|done|done]].
        destruct (Ho ch) as [Heq|[_ Heq]]; [|done]. destruct Hp. rewrite Heq. exact Hjp.
  Qed.

Lemma close_files_spec me s : close_post me s (close_files me s).
  Proof.
    set (s' := close_files me s).
    enough ((forall p, p <> me -> get s' p = get s p) /\
      (exists fl, get s' me = set_files fl (get s me) /\ lenZ fl = lenZ (files (get s me)) /\
         forall i, 0 <= i < MAX_FILES -> lget 0 fl i = 0) /\
      tasks s' = tasks s /\ current s' = current s /\
      (forall p, is_Some (store s !! p) -> is_Some (store s' !! p)))
      as (? & (fl & ? & _ & ?) & ? & ? & ?) by (constructor; eauto).
    subst s'. unfold close_files. set (f := fun _ _ => _).
    set (P := fun n s' => (forall p, p <> me -> get s' p = get s p) /\
      (exists fl, get s' me = set_files fl (get s me) /\ lenZ fl = lenZ (files (get s me)) /\
         forall i, 0 <= i < n -> lget 0 fl i = 0) /\
      tasks s' = tasks s /\ current s' = current s /\
      (forall p, is_Some (store s !! p) -> is_Some (store s' !! p))).
    apply (for_loop_ind P f 0 (Z.to_nat MAX_FILES) s).
    - unfold P. split_and!; try done. exists (files (get s me)). split_and!; [by destruct (get s me)|done|lia].
    - intros i s1 Hi (Ho & (fl & Hfl & Hlen & Hz) & Ht & Hc & Hs). unfold P, f.
      rewrite Hfl. cbn [files set_files].
      destruct (Z.eqb_spec (lget 0 fl i) 0) as [H0|H0]; simpl negb; cbv iota.
      { split_and!; try done. exists fl. split_and!; [done|done|]. intros j Hj.
        destruct (decide (j = i)) as [->|]; [done|apply Hz; lia]. }
      split_and!; try done.
      + intros p Hp. rewrite get_upd. bcase; [congruence|]. by apply Ho.
      + exists (lset fl i 0). rewrite get_upd, Z.eqb_refl. change (get (with_env _ s1) me) with (get s1 me).
        rewrite Hfl. split_and!; [done|by rewrite lenZ_lset|]. intros j Hj.
        destruct (decide (j = i)) as [->|].
        * apply lget_lset_eq. split; [lia|]. destruct (Z.lt_ge_cases i (lenZ fl)); [done|].
          destruct H0. by apply lget_oob.
        * rewrite lget_lset_ne by done. apply Hz. lia.
      + intros p Hps. apply (present_upd _ _ (with_env _ s1) [p]); [|set_solver].
        intros y Hy. apply list_elem_of_singleton in Hy as ->. by apply Hs.
  Qed.

Lemma wakeup_get t s p : get (sched_wakeup_parent t s) p =
    if (parent (get s t) =? p) && negb (p =? 0) && (state (get s p) =? TASK_BLOCKED) && waiting (get s p)
    then set_state TASK_READY (set_waiting false (get s p)) else get s p.
  Proof.
    unfold sched_wakeup_parent. set (q := parent (get s t)).
    destruct (Z.eqb_spec q p) as [->|Hne]; simpl andb.
    - destruct (negb (p =? 0) && (state (get s p) =? TASK_BLOCKED) && waiting (get s p)); [|done].
      by rewrite get_upd, Z.eqb_refl.
    - destruct (negb (q =? 0) && _ && _); [|done]. rewrite get_upd. by bcase.
  Qed.

Lemma wakeup_same t s : tasks (sched_wakeup_parent t s) = tasks s /\
    current (sched_wakeup_parent t s) = current s /\
    (forall p, is_Some (store s !! p) -> is_Some (store (sched_wakeup_parent t s) !! p)).
  Proof.
    unfold sched_wakeup_parent. destruct (negb _ && _ && _); [|done]. split_and!; [done|done|].
    intros p Hps. apply (present_upd _ _ s [p]); [|set_solver].
    intros y Hy. by apply list_elem_of_singleton in Hy as ->.
  Qed.

  (** What the loops and the wakeup leave of a task: its links and the fields below
      change only as stated. *)
Lemma exit_fields code me s s2 s3 : current s = me -> me <> 0 ->
    let s1 := upd (zombify code) me s in
    let s4 := sched_wakeup_parent me s3 in
    orphan_post me s1 s2 -> close_post me s2 s3 ->
    current s4 = me /\ (forall p, is_Some (store s !! p) -> is_Some (store s4 !! p)) /\
    forall p, next (get s4 p) = next (get s p) /\ exit_code (get s4 p) = exit_code (get s1 p) /\
      files (get s4 p) = files (get s3 p) /\ parent (get s4 p) = parent (get s3 p) /\
      ppid (get s4 p) = ppid (get s3 p) /\
      state (get s4 p) = if (parent (get s3 me) =? p) && negb (p =? 0) && (state (get s1 p) =? TASK_BLOCKED) &&
                            waiting (get s1 p) then TASK_READY else state (get s1 p).
  Proof.
    intros Hcur Hme. cbv zeta. set (s1 := upd _ me s).
    intros [Ho _ Ht2 Hc2 Hs2] [Hg3 (fl & Hfl & _) Ht3 Hc3 Hs3].
    destruct (wakeup_same me s3) as (_ & Hc4 & Hs4).
    split_and!; [by rewrite Hc4, Hc3, Hc2| |].
    { intros p Hp. apply Hs4, Hs3, Hs2. apply (present_upd _ _ s [p]); [|set_solver].
      intros y Hy. by apply list_elem_of_singleton in Hy as ->. }
    intros p. rewrite wakeup_get.
    assert (next (get s1 p) = next (get s p)) as Hn1.
    { unfold s1. rewrite get_upd. bcase; [by subst|done]. }
    assert (next (get s3 p) = next (get s1 p) /\ state (get s3 p) = state (get s1 p) /\
            exit_code (get s3 p) = exit_code (get s1 p) /\ waiting (get s3 p) = waiting (get s1 p)) as (H1 & H2 & H3 & H4).
    { destruct (decide (p = me)) as [->|Hp].
      - rewrite Hfl. simpl. by destruct (Ho me) as [->|[_ ->]].
      - rewrite Hg3 by done. by destruct (Ho p) as [->|[_ ->]]. }
    rewrite H2, H4. destruct (_ && _ && _ && _); simpl; rewrite ?H1, ?H3; done.
  Qed.

Lemma exit_effects code me s s2 s3 : current s = me -> me <> 0 ->
    let s' := sched_wakeup_parent me s3 in
    orphan_post me (upd (zombify code) me s) s2 -> close_post me s2 s3 ->
    state (get s' me) = TASK_ZOMBIE /\ exit_code (get s' me) = code /\
    (forall i, 0 <= i < MAX_FILES -> lget 0 (files (get s' me)) i = 0) /\
    (forall i, 0 <= i < MAX_TASKS -> lget 0 (tasks s) i <> 0 -> lget 0 (tasks s) i <> me ->
       parent (get s (lget 0 (tasks s) i)) = me ->
       parent (get s' (lget 0 (tasks s) i)) = 0 /\ ppid (get s' (lget 0 (tasks s) i)) = 1) /\
    (let p := parent (get s me) in p <> 0 -> p <> me -> state (get s p) = TASK_BLOCKED ->
       waiting (get s p) = true -> state (get s' p) = TASK_READY).
  Proof.
    intros Hcur Hme. cbv zeta. intros Hop Hcp.
    destruct (exit_fields code me s s2 s3 Hcur Hme Hop Hcp) as (_ & _ & Hf).
    set (s1 := upd _ me s) in *.
    assert (forall p, p <> me -> get s1 p = get s p) as Hg1.
    { intros p Hp. unfold s1. rewrite get_upd. bcase; [congruence|done]. }
    assert (get s1 me = zombify code (get s me)) as Hgm.
    { unfold s1. by rewrite get_upd, Z.eqb_refl. }
    destruct Hop as [Ho Hd _ _ _]. destruct Hcp as [Hg3 (fl & Hfl & Hz) _ _ _].
    destruct (Hf me) as (_ & Hex & Hfi & _ & _ & Hst). rewrite Hgm in Hst, Hex. simpl in Hst, Hex.
    split_and!; [|done|rewrite Hfi, Hfl; exact Hz| |].
    - rewrite Hst. by rewrite andb_false_r.
    - intros i Hi H0 Hne Hp. destruct (Hf (lget 0 (tasks s) i)) as (_ & _ & _ & -> & -> & _).
      rewrite Hg3 by done. change (tasks s) with (tasks s1) in *.
      rewrite (Hd i Hi H0); [done|]. by rewrite Hg1.
    - intros H0 Hne Hb Hw. destruct (Hf (parent (get s me))) as (_ & _ & _ & _ & _ & ->).
      rewrite Hg1, Hb, Hw by done.
      assert (parent (get s3 me) = parent (get s me)) as ->.
      { rewrite Hfl. simpl. destruct (Ho me) as [->|[Hpm ->]]; rewrite Hgm in *; [done|]. simpl in *. congruence. }
      rewrite Z.eqb_refl. destruct (Z.eqb_spec (parent (get s me)) 0); [done|]. done.
  Qed.

Lemma exit_prepare_stages code s : current s <> 0 ->
    exists s2 s3, orphan_post (current s) (upd (zombify code) (current s) s) s2 /\
      close_post (current s) s2 s3 /\ exit_prepare code s = sched_wakeup_parent (current s) s3.
  Proof.
    intros Hc. exists (orphan_children (current s) (upd (zombify code) (current s) s)). eexists.
    split; [by apply orphan_children_spec|]. split; [apply close_files_spec|]. unfold exit_prepare. reflexivity.
  Qed.
End Exit.

(** ** Ticks *)

Section Ticks.
  Context {E : Type} `{KEnv E}.
  Implicit Types (s : sched E) (l q : list Z) (p t c x : Z).

Fixpoint ticks (k : nat) s : option (sched E) :=
    match k with
    | O => Some s
    | S k' => s' ← sched_tick s; ticks k' s'
    end.

  (** The decrement at the start of [sched_tick]. *)
Definition count_tick s : sched E :=
    upd (fun k => set_slice (u32 (time_slice k - 1)) k) (current s) s.

Lemma count_tick_get s p : get (count_tick s) p =
    if current s =? p then set_slice (u32 (time_slice (get s p) - 1)) (get s p) else get s p.
  Proof. unfold count_tick. rewrite get_upd. bcase; by subst. Qed.

Lemma count_tick_cyc s c l : cyc s c l -> cyc (count_tick s) c l.
  Proof.
    apply cyc_ext; intros p.
    - rewrite count_tick_get. by bcase.
    - intros Hp. apply (present_upd _ _ s [p]); [|set_solver].
      intros y Hy. by apply list_elem_of_singleton in Hy as ->.
  Qed.

Lemma first_runnable_ext s s' l : (forall p, runnable (get s' p) = runnable (get s p)) ->
    first_runnable s' l = first_runnable s l.
  Proof.
    intros He. unfold first_runnable. induction l as [|x l IH]; simpl; [done|].
    rewrite He. by destruct (runnable (get s x)).
  Qed.

Lemma count_tick_runnable s p : runnable (get (count_tick s) p) = runnable (get s p).
  Proof. rewrite count_tick_get. by bcase. Qed.

Lemma sched_tick_eq s : started s = true -> current s <> 0 -> 0 < time_slice (get s (current s)) < 4294967296 ->
    sched_tick s =
      if time_slice (get s (current s)) =? 1 then
        nx ← pick_next (count_tick s);
        Some (if nx =? current s then upd (set_slice QUANTUM) (current s) (count_tick s)
              else switch_to nx (preempt_current (count_tick s)))
      else Some (count_tick s).
  Proof.
    intros Hst Hc Hts. unfold sched_tick. rewrite Hst.
    destruct (Z.eqb_spec (current s) 0); [done|]. cbn [negb orb]. cbv iota.
    destruct (Z.ltb_spec 0 (time_slice (get s (current s)))); [|lia].
    fold (count_tick s). change (current (count_tick s)) with (current s).
    rewrite count_tick_get, Z.eqb_refl. cbn [time_slice set_slice].
    rewrite u32_small by (unfold is_u32; lia).
    destruct (Z.eqb_spec (time_slice (get s (current s)) - 1) 0),
             (Z.eqb_spec (time_slice (get s (current s))) 1); done || lia.
  Qed.

Lemma ticks_run n : forall s c l x, cyc s c l -> current s = c -> started s = true ->
    time_slice (get s c) = Z.of_nat (S n) -> Z.of_nat (S n) < 4294967296 ->
    x ∈ l -> runnable (get s x) = true ->
    (forall k, (k <= n)%nat -> exists s', ticks k s = Some s' /\ current s' = c) /\
    (exists s', ticks (S n) s = Some s' /\ current s' = first_runnable s l /\ first_runnable s l ∈ l).
  Proof.
    induction n as [|n IH]; intros s c l x Hc Hcur Hst Hts Hb Hx Hr;
      pose proof Hc as [Hnd _ _ [Hz Hi]]; apply list.NoDup_cons in Hnd as [Hcn _];
      (assert (current s <> 0) as Hc0 by (rewrite Hcur; set_solver));
      pose proof (sched_tick_eq s Hst Hc0 ltac:(rewrite Hcur, Hts; lia)) as Heq; rewrite Hcur, Hts in Heq.
    - split.
      { intros k Hk. replace k with 0%nat by lia. exists s. done. }
      destruct (first_runnable_spec s l x Hx Hr) as (l1 & l2 & Hl & _); [set_solver|].
      assert (first_runnable s l ∈ l) as Hin by (rewrite Hl at 2; set_solver).
      rewrite (pick_next_cyc (count_tick s) c l) in Heq; [|by apply count_tick_cyc|done].
      assert (first_runnable (count_tick s) (l ++ [c]) = first_runnable s l) as Hfr.
      { rewrite (first_runnable_ext s) by apply count_tick_runnable. unfold first_runnable.
        rewrite list_find_app. destruct (List.find _ l) eqn:Ef; [done|].
        apply (find_none _ _) with (x := x) in Ef; [congruence|by apply list_elem_of_In]. }
      rewrite Hfr in Heq. simpl in Heq.
      destruct (Z.eqb_spec (first_runnable s l) c); [congruence|].
      eexists. simpl. rewrite Heq. simpl. split; [done|]. done.
    - destruct (Z.eqb_spec (Z.of_nat (S (S n))) 1); [lia|].
      destruct (IH (count_tick s) c l x) as [Hk Hn]; [by apply count_tick_cyc|done|done| |lia|done| |].
      { rewrite count_tick_get, Hcur, Z.eqb_refl, Hts. cbn [time_slice set_slice].
        rewrite u32_small; [lia|]. unfold is_u32. lia. }
      { by rewrite count_tick_runnable. }
      split.
      + intros [|k] Hkn; [by exists s|]. simpl. rewrite Heq. simpl. apply Hk. lia.
      + destruct Hn as (s' & Ht & Hcs & Hin). exists s'. cbn [ticks]. rewrite Heq. cbn [mbind option_bind].
        rewrite (first_runnable_ext s) in Hcs, Hin by apply count_tick_runnable. done.
  Qed.
End Ticks.

(** ** A concrete kernel for the examples: the heap is a bump pointer and the other
    services do nothing. *)

Definition bump_env : KEnv Z := {|
  kmalloc n e := (e, e + n);
  kfree _ e := e;
  hal_paging_kernel_dir _ := 0;
  hal_addrspace_current _ := 0;
  hal_paging_switch _ e := e;
  hal_addrspace_destroy _ e := e;
  hal_tss_set_kernel_stack _ e := e;
  hal_context_init top _ e := (top - 28, e);
  filp_close _ e := e;
|}.
#[local] Existing Instance bump_env.

(** Three tasks created after boot, and the machine started. *)
Definition boot3 : option (sched Z) :=
  '(_, s) ← sched_create [97] 1 (sched_init 1000000);
  '(_, s) ← sched_create [98] 1 s;
  '(_, s) ← sched_create [99] 1 s;
  Some (sched_start s).

Definition demo : sched Z := default (sched_init 0) boot3.
Definition ta : Z := 1000000.
Definition tb : Z := 1033256.
Definition tc : Z := 1066512.

Lemma demo_present : present demo [ta; tb; tc].
Proof.
  intros p Hp. rewrite !elem_of_cons, elem_of_nil in Hp.
  destruct Hp as [->|[->|[->|[]]]]; vm_compute; eauto.
Qed.

Lemma demo_cyc : cyc demo ta [tb; tc].
Proof.
  split.
  - apply (bool_decide_unpack (NoDup [ta; tb; tc])). vm_compute. exact I.
  - vm_compute. repeat split.
  - apply demo_present.
  - split; apply (bool_decide_unpack (_ ∉ [ta; tb; tc])); vm_compute; exact I.
Qed.

Lemma demo_ring : ring demo [ta; tb; tc].
Proof. split; [vm_compute; reflexivity|apply demo_cyc]. Qed.

(** ** Properties *)

Section Properties.
  Context {E : Type} `{KEnv E}.

(** adding a task that is not on the run list terminates and puts it at the
    end of the circular list, and leaves the states of the others alone. *)
Theorem sched_add_appends (s : sched E) q t :
  ring s q -> t ∉ q -> t <> 0 -> t <> idle_task -> is_Some (store s !! t) ->
  exists s', sched_add t s = Some s' /\ ring s' (q ++ [t]) /\
    (forall p, p ∈ q -> state (get s' p) = state (get s p)) /\ current s' = current s.
Proof. apply sched_add_ring. Qed.

(** reaping a task that is anywhere on the run list terminates, removes it from
    the list (keeping the order of the others and moving [task_list] when it was the
    head), clears its slot and drops its record. *)
Theorem sched_reap_removes (s : sched E) q1 t q2 :
  ring s (q1 ++ t :: q2) ->
  exists s', sched_reap t s = Some s' /\ ring s' (q1 ++ q2) /\ store s' !! t = None /\
    (t ∉ tasks s') /\ current s' = current s /\
    (forall p, p <> t -> state (get s' p) = state (get s p)).
Proof. apply sched_reap_ring. Qed.

(** the choice of the next task is round robin: it is the first runnable task
    after the current one on the circular list, the current one considered last,
    and the idle task exactly when nothing on the list is runnable. *)
Theorem pick_next_round_robin (s : sched E) q1 c q2 :
  ring s (q1 ++ c :: q2) -> current s = c ->
  exists nx, pick_next s = Some nx /\
    ((nx = idle_task /\ Forall (fun p => runnable (get s p) = false) (q1 ++ c :: q2)) \/
     exists l1 l2, q2 ++ q1 ++ [c] = l1 ++ nx :: l2 /\ runnable (get s nx) = true /\
       Forall (fun p => runnable (get s p) = false) l1).
Proof.
  intros Hr Hc. pose proof (ring_cyc s q1 c q2 Hr) as Hcy.
  rewrite (pick_next_cyc s c (q2 ++ q1) Hcy Hc). eexists. split; [done|].
  pose proof (cyc_valid _ _ _ Hcy) as [_ Hi].
  rewrite <- app_assoc. set (l := q2 ++ q1 ++ [c]).
  assert (idle_task ∉ l) as Hil by set_solver.
  destruct (List.find (fun p => runnable (get s p)) l) as [x|] eqn:Ef.
  - right. apply find_some in Ef as [Hx Hrx]. apply list_elem_of_In in Hx.
    destruct (first_runnable_spec s l x Hx Hrx Hil) as (l1 & l2 & Hl & Hn & Hf). by exists l1, l2.
  - left. assert (first_runnable s l = idle_task) as Hfi by (unfold first_runnable; by rewrite Ef).
    split; [done|]. pose proof (first_runnable_none s l Hfi Hil) as Hall.
    unfold l in Hall. rewrite !Forall_app in Hall. rewrite Forall_app, list.Forall_cons.
    destruct Hall as (? & ? & Hone). inversion Hone. done.
Qed.

(** C18: no runnable task starves while the processor is with a task of the run list: when
    the scheduler is started, the run list is a ring and the current task is one of its members
    (not the idle task, which is on no list and keeps the processor, [idle_keeps_processor]),
    then as long as tasks only yield, a runnable task of the run list gets the processor after
    at most as many yields as there are other tasks on the list. *)
Theorem sched_yield_fair (s : sched E) q1 c q2 x :
  ring s (q1 ++ c :: q2) -> current s = c -> started s = true ->
  x ∈ q2 ++ q1 -> runnable (get s x) = true ->
  exists k s', (k <= length (q1 ++ q2))%nat /\ yields k s = Some s' /\ current s' = x.
Proof.
  intros Hr Hc Hst Hx Hrx. pose proof (ring_cyc s q1 c q2 Hr) as Hcy.
  apply list_elem_of_split in Hx as (l1 & l2 & Hl). rewrite Hl in Hcy.
  destruct (yields_reach (length l1) s c l1 x l2 (le_n _) Hcy Hc Hst Hrx) as (k & s' & Hk & Hy & Hcx).
  exists k, s'. split_and!; [|done|done].
  apply (f_equal length) in Hl. rewrite !length_app in *. simpl in Hl. lia.
Qed.

(** a task with [n] ticks left in its slice keeps the processor for [n - 1]
    timer ticks and loses it at the [n]-th, to the first runnable task after it, when
    there is another runnable task. *)
Theorem sched_tick_quantum (s : sched E) q1 c q2 x n :
  ring s (q1 ++ c :: q2) -> current s = c -> started s = true ->
  time_slice (get s c) = Z.of_nat (S n) -> Z.of_nat (S n) < 4294967296 ->
  x ∈ q2 ++ q1 -> runnable (get s x) = true ->
  (forall k, (k <= n)%nat -> exists s', ticks k s = Some s' /\ current s' = c) /\
  (exists s', ticks (S n) s = Some s' /\ current s' = first_runnable s (q2 ++ q1) /\
     first_runnable s (q2 ++ q1) ∈ q2 ++ q1).
Proof.
  intros Hr Hc Hst Hts Hb Hx Hrx. pose proof (ring_cyc s q1 c q2 Hr) as Hcy.
  by apply (ticks_run n s c (q2 ++ q1) x).
Qed.

(** exiting always gives the processor away: the task becomes a zombie with its
    code, all its descriptors are closed, its children lose their parent pointer and
    get parent id 1, a parent blocked in wait becomes ready, and the processor goes
    to another task or to the idle task, never back to the zombie. *)
Theorem sched_exit_effects (s : sched E) q1 c q2 code :
  ring s (q1 ++ c :: q2) -> current s = c ->
  exists s', sched_exit code s = Some s' /\ current s' <> c /\
    (current s' = idle_task \/ current s' ∈ q2 ++ q1) /\
    state (get s' c) = TASK_ZOMBIE /\ exit_code (get s' c) = code /\
    (forall i, 0 <= i < MAX_FILES -> lget 0 (files (get s' c)) i = 0) /\
    (forall i, 0 <= i < MAX_TASKS -> lget 0 (tasks s) i <> 0 -> lget 0 (tasks s) i <> c ->
       parent (get s (lget 0 (tasks s) i)) = c ->
       parent (get s' (lget 0 (tasks s) i)) = 0 /\ ppid (get s' (lget 0 (tasks s) i)) = 1) /\
    (let p := parent (get s c) in p <> 0 -> p <> c -> state (get s p) = TASK_BLOCKED ->
       waiting (get s p) = true -> runnable (get s' p) = true).
Proof.
  intros Hr Hc. pose proof (ring_cyc s q1 c q2 Hr) as Hcy.
  pose proof (cyc_valid _ _ _ Hcy) as [Hz Hi].
  assert (c <> 0 /\ idle_task <> c) as [Hc0 Hic]
    by (split; intros He; [apply Hz|apply Hi]; rewrite <- He; by left).
  destruct (exit_prepare_stages code s) as (s2 & s3 & Hop & Hcp & Heq); [by rewrite Hc|].
  unfold sched_exit. cbv zeta. rewrite Heq, Hc. rewrite Hc in Hop, Hcp. clear Heq.
  destruct (exit_fields code c s s2 s3 Hc Hc0 Hop Hcp) as (Hcur & Hpr & Hf).
  destruct (exit_effects code c s s2 s3 Hc Hc0 Hop Hcp) as (Hst & Hex & Hfi & Hch & Hpa).
  set (s4 := sched_wakeup_parent c s3) in *. clearbody s4.
  assert (cyc s4 c (q2 ++ q1)) as Hcy4 by (eapply cyc_ext; [intros p; apply Hf|exact Hpr|done]).
  rewrite (pick_next_cyc s4 c (q2 ++ q1) Hcy4 Hcur). cbn [mbind option_bind].
  set (nx := first_runnable s4 _).
  assert (runnable (get s4 c) = false) as Hnr by (unfold runnable; by rewrite Hst).
  assert ((nx = idle_task \/ nx ∈ q2 ++ q1) /\ nx <> c) as [Hnx Hnc].
  { subst nx. unfold first_runnable. destruct (List.find _ _) as [y|] eqn:Ef; [|split; [by left|done]].
    apply find_some in Ef as [Hy Hry]. apply list_elem_of_In in Hy.
    assert (y <> c) by congruence. split; [right|done].
    apply elem_of_app in Hy as [Hy|Hy]; [done|]. by apply list_elem_of_singleton in Hy. }
  clearbody nx. eexists. split; [done|]. rewrite switch_current.
  assert (forall p, p <> nx -> get (switch_to nx s4) p = get s4 p) as Hg.
  { intros p Hp. rewrite switch_get. bcase; congruence. }
  rewrite (Hg c) by done. split_and!; [done|done|done|done|done| |].
  - intros i Hi' H0 Hne Hp. rewrite switch_get. destruct (Hch i Hi' H0 Hne Hp).
    bcase; [subst nx; done|done].
  - cbv zeta. intros H0 Hne Hb Hw. rewrite switch_get. bcase; [done|].
    unfold runnable. by rewrite (Hpa H0 Hne Hb Hw).
Qed.

(** C39: once the idle task has the processor it keeps it: its [next] pointer is
    [NULL] (nothing ever links it), so the search never looks at the run list and
    neither a yield nor a timer tick gives the processor to a task, however many are
    runnable. *)
Theorem idle_keeps_processor (s : sched E) :
  current s = idle_task -> next (get s idle_task) = 0 ->
  pick_next s = Some idle_task /\ sched_yield s = Some s /\
  exists s', sched_tick s = Some s' /\ current s' = idle_task /\ next (get s' idle_task) = 0.
Proof.
  intros Hc Hn.
  assert (forall s' : sched E, current s' = idle_task -> next (get s' idle_task) = 0 -> pick_next s' = Some idle_task) as Hp.
  { intros s' Hc' Hn'. unfold pick_next. rewrite Hc', Hn'. done. }
  split_and!; [by apply Hp| |].
  - unfold sched_yield. destruct (started s); [|done]. rewrite Hp by done. simpl. by rewrite Hc.
  - unfold sched_tick. destruct (started s); simpl; [|by exists s]. rewrite Hc. simpl.
    set (s1 := if 0 <? _ then _ else s).
    assert (current s1 = idle_task /\ next (get s1 idle_task) = 0) as [Hc1 Hn1].
    { subst s1. destruct (0 <? _); [|done]. split; [done|]. rewrite get_upd, Z.eqb_refl. done. }
    clearbody s1. rewrite Hc1. destruct (time_slice _ =? 0); [|by exists s1].
    rewrite Hp by done. simpl. eexists. split; [done|]. split; [done|].
    rewrite get_upd, Z.eqb_refl. done.
Qed.

End Properties.

Lemma demo_ready p : p ∈ [tb; tc] -> runnable (get demo p) = true.
Proof.
  intros Hp. rewrite !elem_of_cons, elem_of_nil in Hp.
  destruct Hp as [->|[->|[]]]; vm_compute; reflexivity.
Qed.

(** A fourth task, allocated and not yet on the list. *)
Definition demo4 : sched Z := snd (sched_alloc [100] demo).
Definition td : Z := 1099768.

Lemma demo4_ring : ring demo4 [ta; tb; tc].
Proof.
  eapply ring_ext; [| | |apply demo_ring]; [vm_compute; reflexivity| |];
    intros p Hp; rewrite !elem_of_cons, elem_of_nil in Hp;
    destruct Hp as [->|[->|[->|[]]]]; vm_compute; eauto.
Qed.

Lemma sched_add_appends_witness :
  exists s', sched_add td demo4 = Some s' /\ ring s' [ta; tb; tc; td].
Proof.
  destruct (sched_add_appends demo4 [ta; tb; tc] td) as (s' & H1 & H2 & _).
  - apply demo4_ring.
  - apply (bool_decide_unpack (td ∉ [ta; tb; tc])). vm_compute. exact I.
  - discriminate.
  - discriminate.
  - vm_compute. eauto.
  - exists s'. split; [exact H1|exact H2].
Defined.

Lemma sched_reap_removes_witness :
  exists s', sched_reap ta demo = Some s' /\ ring s' [tb; tc].
Proof.
  destruct (sched_reap_removes demo [] ta [tb; tc] demo_ring) as (s' & H1 & H2 & _).
  exists s'. split; [exact H1|exact H2].
Defined.

Lemma pick_next_round_robin_witness :
  pick_next demo = Some tb /\
  exists nx, pick_next demo = Some nx /\
    ((nx = idle_task /\ Forall (fun p => runnable (get demo p) = false) [ta; tb; tc]) \/
     exists l1 l2, [tb; tc; ta] = l1 ++ nx :: l2 /\ runnable (get demo nx) = true /\
       Forall (fun p => runnable (get demo p) = false) l1).
Proof.
  split; [vm_compute; reflexivity|].
  apply (pick_next_round_robin demo [] ta [tb; tc] demo_ring). vm_compute. reflexivity.
Defined.

Lemma sched_yield_fair_witness :
  exists k s', (k <= 2)%nat /\ yields k demo = Some s' /\ current s' = tc.
Proof.
  apply (sched_yield_fair demo [] ta [tb; tc] tc demo_ring).
  - vm_compute. reflexivity.
  - vm_compute. reflexivity.
  - apply (bool_decide_unpack (tc ∈ [tb; tc] ++ [])). vm_compute. exact I.
  - vm_compute. reflexivity.
Defined.

Lemma sched_tick_quantum_witness :
  exists s', ticks 5 demo = Some s' /\ current s' = tb.
Proof.
  destruct (sched_tick_quantum demo [] ta [tb; tc] tb 4 demo_ring) as [_ (s' & H1 & H2 & _)].
  - vm_compute. reflexivity.
  - vm_compute. reflexivity.
  - vm_compute. reflexivity.
  - reflexivity.
  - apply (bool_decide_unpack (tb ∈ [tb; tc] ++ [])). vm_compute. exact I.
  - vm_compute. reflexivity.
  - exists s'. split; [exact H1|]. rewrite H2. vm_compute. reflexivity.
Defined.

Lemma sched_exit_effects_witness :
  exists s', sched_exit 7 demo = Some s' /\ current s' <> ta /\ exit_code (get s' ta) = 7.
Proof.
  destruct (sched_exit_effects demo [] ta [tb; tc] 7 demo_ring) as (s' & H1 & H2 & _ & _ & H3 & _).
  - vm_compute. reflexivity.
  - exists s'. split; [exact H1|]. split; [exact H2|exact H3].
Defined.

(** The demo machine with the idle task on the processor: task [tb] is runnable and
    is never picked. *)
Definition demo_idle : sched Z := with_current idle_task demo.

Lemma idle_keeps_processor_witness :
  runnable (get demo_idle tb) = true /\ pick_next demo_idle = Some idle_task.
Proof.
  split; [vm_compute; reflexivity|].
  apply (idle_keeps_processor demo_idle); vm_compute; reflexivity.
Defined.

End Sched.
