(* ===== verification/Disk.v ===== *)
(** * The disk as its clients see it

    The contract of the ATA driver (kernel/drivers/ata.c): a disk is a finite map
    from 28-bit sector numbers to 512-byte sectors, and [ata_read]/[ata_write]
    transfer whole sectors until one is missing.  The file Ata proves that the
    port-level driver implements this contract; the file system below it is
    verified against this file alone.  [block_read] and [block_write] are the
    1024-byte block layer of kernel/fs/minixfs.c. *)

From stdpp Require Import base list gmap numbers.
From S2P Require Import Prelude.

#[local] Open Scope Z_scope.

Module Disk.

Definition ATA_SECTOR_SIZE : Z := 512.
Definition MINIX_BLOCK_SIZE : Z := 1024.

Notation disk := (gmap Z (list Z)).

(** The drive is addressed with 28 bits. *)
Definition lba28 (lba : Z) : Z := lba mod 268435456.

(** [disk_read d lba s n buf]: sectors [s .. s+n) of a transfer that starts at
    [lba], into [buf]; [false] when a sector does not exist, with the sectors before it
    transferred. *)
Fixpoint disk_read (d : disk) (lba s : Z) (n : nat) (buf : list Z) : bool * list Z :=
  match n with
  | O => (true, buf)
  | S n' =>
      match d !! lba28 (u32 (lba + s)) with
      | None => (false, buf)
      | Some sec => disk_read d lba (s + 1) n' (lsplice buf (512 * s) sec)
      end
  end.

Fixpoint disk_write (d : disk) (lba s : Z) (n : nat) (buf : list Z) : bool * disk :=
  match n with
  | O => (true, d)
  | S n' =>
      match d !! lba28 (u32 (lba + s)) with
      | None => (false, d)
      | Some _ =>
          disk_write (<[lba28 (u32 (lba + s)) := lsub buf (512 * s) 512]> d) lba (s + 1) n' buf
      end
  end.

(** Results as the C functions give them: the sector count, or -1. *)
Definition ata_read (d : disk) (lba count : Z) (buf : list Z) : Z * list Z :=
  let '(ok, buf') := disk_read d lba 0 (Z.to_nat count) buf in
  (if ok then count else -1, buf').

Definition ata_write (d : disk) (lba count : Z) (buf : list Z) : Z * disk :=
  let '(ok, d') := disk_write d lba 0 (Z.to_nat count) buf in
  (if ok then count else -1, d').

(** ** The block layer *)

Definition block_read (d : disk) (block : Z) (buf : list Z) : Z * list Z :=
  ata_read d (u32 (block * (MINIX_BLOCK_SIZE / ATA_SECTOR_SIZE)))
    (MINIX_BLOCK_SIZE / ATA_SECTOR_SIZE) buf.

Definition block_write (d : disk) (block : Z) (buf : list Z) : Z * disk :=
  ata_write d (u32 (block * (MINIX_BLOCK_SIZE / ATA_SECTOR_SIZE)))
    (MINIX_BLOCK_SIZE / ATA_SECTOR_SIZE) buf.

(** ** The abstract view: a disk of blocks *)

Definition wf (d : disk) : Prop :=
  map_Forall (fun s sec => 0 <= s < 268435456 /\ length sec = 512%nat /\ bytes sec) d.

(** Block [b] is on the disk, below the 28-bit limit. *)
Definition on_disk (d : disk) (b : Z) : Prop :=
  0 <= b < 134217728 /\ is_Some (d !! (2 * b)) /\ is_Some (d !! (2 * b + 1)).

Definition sector (d : disk) (s : Z) : list Z := default [] (d !! s).

Definition bget (d : disk) (b : Z) : list Z := sector d (2 * b) ++ sector d (2 * b + 1).

Definition bput (d : disk) (b : Z) (v : list Z) : disk :=
  <[2 * b + 1 := lsub v 512 512]> (<[2 * b := lsub v 0 512]> d).

Definition block (v : list Z) : Prop := lenZ v = 1024 /\ bytes v.

#[global] Instance on_disk_dec d b : Decision (on_disk d b).
Proof. unfold on_disk. apply _. Defined.

Lemma sector_ok d s : wf d -> is_Some (d !! s) -> length (sector d s) = 512%nat /\ bytes (sector d s).
Proof.
  intros Hwf [sec Hs]. unfold sector. rewrite Hs. simpl. by apply (Hwf s) in Hs as (_ & ? & ?).
Qed.

Lemma bget_block d b : wf d -> on_disk d b -> block (bget d b).
Proof.
  intros Hwf (_ & H1 & H2). unfold bget, block, lenZ. rewrite length_app, bytes_app.
  destruct (sector_ok d _ Hwf H1), (sector_ok d _ Hwf H2). split; [lia|done].
Qed.

Lemma on_disk_bput d b v b' : on_disk d b -> on_disk (bput d b v) b' <-> on_disk d b'.
Proof.
  intros (_ & H1 & H2). unfold on_disk, bput. rewrite !lookup_insert_is_Some.
  split; intros (Hr & Ha & Hb); split_and!; try lia.
  - destruct Ha as [Ha|[_ [Ha|[_ Ha]]]]; try lia; [|done].
    by replace b' with b by lia.
  - destruct Hb as [Hb|[_ [Hb|[_ Hb]]]]; try lia; [|done]. by replace b' with b by lia.
  - destruct (decide (2 * b + 1 = 2 * b')); [by left|right; split; [done|]].
    destruct (decide (2 * b = 2 * b')); [by left|by right].
  - destruct (decide (2 * b + 1 = 2 * b' + 1)); [by left|right; split; [done|]].
    destruct (decide (2 * b = 2 * b' + 1)); [by left|by right].
Qed.

Lemma wf_bput d b v : wf d -> on_disk d b -> block v -> wf (bput d b v).
Proof.
  intros Hwf (Hr & _ & _) [Hlen Hb]. unfold lenZ in Hlen.
  assert (forall o, (o = 0 \/ o = 512) -> length (lsub v o 512) = 512%nat) as Hl.
  { intros o Ho. unfold lsub. rewrite length_take, length_drop. lia. }
  unfold wf, bput. repeat apply map_Forall_insert_2; [| |done];
    (split; [lia|]); (split; [apply Hl; lia|by apply bytes_lsub]).
Qed.

Lemma bget_bput_eq d b v : lenZ v = 1024 -> bget (bput d b v) b = v.
Proof.
  intros Hl. unfold bget, bput, sector.
  rewrite lookup_insert_ne, !lookup_insert_eq by lia. simpl.
  unfold lsub, lenZ in *. simpl. rewrite drop_0.
  replace (Z.to_nat 512) with 512%nat by lia.
  rewrite (take_ge (drop _ _)) by (rewrite length_drop; lia). apply take_drop.
Qed.

Lemma bget_bput_ne d b b' v : b <> b' -> bget (bput d b v) b' = bget d b'.
Proof.
  intros Hne. unfold bget, bput, sector. rewrite !lookup_insert_ne by lia. done.
Qed.

Lemma lsplice_two (buf s1 s2 : list Z) : lenZ buf = 1024 -> length s1 = 512%nat -> length s2 = 512%nat ->
  lsplice (lsplice buf 0 s1) 512 s2 = s1 ++ s2.
Proof.
  unfold lenZ, lsplice. intros Hb H1 H2. change (Z.to_nat 0) with O.
  rewrite (take_0 buf), app_nil_l, take_app_length' by lia.
  rewrite H2, (drop_ge _ (Z.to_nat 512 + 512)); [by rewrite app_nil_r|].
  rewrite length_app, length_drop. lia.
Qed.

(** Reading and writing an existing block. *)
Lemma block_read_ok d b buf : wf d -> on_disk d b -> lenZ buf = 1024 ->
  block_read d b buf = (2, bget d b).
Proof.
  intros Hwf (Hr & [s1 H1] & [s2 H2]) Hb.
  destruct (Hwf _ _ H1) as (_ & Hl1 & _), (Hwf _ _ H2) as (_ & Hl2 & _).
  unfold block_read, ata_read, MINIX_BLOCK_SIZE, ATA_SECTOR_SIZE.
  change (1024 / 512) with 2. change (Z.to_nat 2) with 2%nat. cbn [disk_read].
  replace (lba28 (u32 (u32 (b * 2) + 0))) with (2 * b) by (unfold lba28; dlia).
  replace (lba28 (u32 (u32 (b * 2) + (0 + 1)))) with (2 * b + 1) by (unfold lba28; dlia).
  rewrite H1, H2. change (512 * (0 + 1)) with 512. change (512 * 0) with 0.
  rewrite lsplice_two by done. unfold bget, sector. by rewrite H1, H2.
Qed.

Lemma block_write_ok d b buf : on_disk d b -> block_write d b buf = (2, bput d b buf).
Proof.
  intros (Hr & [s1 H1] & [s2 H2]).
  unfold block_write, ata_write, MINIX_BLOCK_SIZE, ATA_SECTOR_SIZE.
  change (1024 / 512) with 2. change (Z.to_nat 2) with 2%nat. cbn [disk_write].
  replace (lba28 (u32 (u32 (b * 2) + 0))) with (2 * b) by (unfold lba28; dlia).
  replace (lba28 (u32 (u32 (b * 2) + (0 + 1)))) with (2 * b + 1) by (unfold lba28; dlia).
  rewrite H1, lookup_insert_ne, H2 by lia. done.
Qed.

End Disk.
