(* ===== verification/Ata.v ===== *)
(** * The ATA driver (kernel/drivers/ata.c)

    The driver talks to the drive through port reads and writes.  The drive is not
    part of the sources: it is the class [AtaDevice] of port operations over an
    arbitrary state, and the class [AtaLaws] says what the ATA programmed-I/O protocol
    documents: the task-file registers select a sector, a command occupies the drive for
    some time in which the status has no meaning except that it does not request data, and
    then either data is requested and 256 words are transferred, or the error bit is set;
    any command may fail.  On such a drive what [ata_read] delivers is right.  The driver
    relies on more: it tests ERR while the drive is busy, and it sends the command to flush
    right after the last word of a sector, when the drive may be busy storing it.  The class
    [AtaPrompt] describes drives (as emulators provide them) on which that works, and on
    those the driver implements the contract of the file Disk. *)

From stdpp Require Import base list gmap numbers.
From S2P Require Import Prelude Disk.

#[local] Open Scope Z_scope.

Class AtaDevice (D : Type) := {
  hal_inb : D -> Z -> Z * D;
  hal_outb : D -> Z -> Z -> D;
  hal_inw : D -> Z -> Z * D;
  hal_outw : D -> Z -> Z -> D;
  hal_io_wait : D -> D }.

Module Ata.

Definition ATA_DATA : Z := 496.
Definition ATA_SECCOUNT : Z := 498.
Definition ATA_LBA_LOW : Z := 499.
Definition ATA_LBA_MID : Z := 500.
Definition ATA_LBA_HIGH : Z := 501.
Definition ATA_DRIVE : Z := 502.
Definition ATA_STATUS : Z := 503.
Definition ATA_COMMAND : Z := 503.
Definition ATA_CTRL : Z := 1014.

Definition STAT_BSY : Z := 128.
Definition STAT_DRQ : Z := 8.
Definition STAT_ERR : Z := 1.

Definition CMD_READ : Z := 32.
Definition CMD_WRITE : Z := 48.
Definition CMD_FLUSH : Z := 231.
Definition CMD_IDENT : Z := 236.

Definition has (s bit : Z) : bool := negb (Z.land s bit =? 0).

Section driver.
Context {D : Type} `{DEV : !AtaDevice D}.
Implicit Types (d : D).

(** [while ((hal_inb(ATA_STATUS) & STAT_BSY) && timeout--) hal_io_wait();]
    [return timeout > 0 ? 0 : -1;] *)
Fixpoint wait_bsy_from (timeout : nat) d : Z * D :=
  let '(s, d1) := hal_inb d ATA_STATUS in
  if has s STAT_BSY then
    match timeout with
    | O => (-1, d1)
    | S t => wait_bsy_from t (hal_io_wait d1)
    end
  else (if 0 <? Z.of_nat timeout then 0 else -1, d1).

Definition TIMEOUT : nat := Z.to_nat 100000.

Definition ata_wait_bsy d : Z * D := wait_bsy_from TIMEOUT d.

Fixpoint wait_drq_from (timeout : nat) d : Z * D :=
  match timeout with
  | O => (-1, d)
  | S t =>
      let '(s, d1) := hal_inb d ATA_STATUS in
      if has s STAT_ERR then (-1, d1)
      else if negb (has s STAT_BSY) && has s STAT_DRQ then (0, d1)
      else wait_drq_from t d1
  end.

Definition ata_wait_drq d : Z * D := wait_drq_from TIMEOUT d.

Definition ata_select d (lba : Z) : D :=
  hal_io_wait (hal_outb d ATA_DRIVE (Z.lor 224 (Z.land (Z.shiftr lba 24) 15))).

(** The words of a transfer, as the bytes they are stored as. *)
Fixpoint in_words (n : nat) d : list Z * D :=
  match n with
  | O => ([], d)
  | S n' =>
      let '(w, d1) := hal_inw d ATA_DATA in
      let '(rest, d2) := in_words n' d1 in
      (u8 w :: u8 (w / 256) :: rest, d2)
  end.

Fixpoint out_words (n : nat) d (bs : list Z) : D :=
  match n, bs with
  | S n', lo :: hi :: rest => out_words n' (hal_io_wait (hal_outw d ATA_DATA (lo + 256 * hi))) rest
  | _, _ => d
  end.

(** The state is the device and the static [total_sectors]. *)
Definition ata_init d (total_sectors : Z) : Z * (Z * D) :=
  let d1 := hal_io_wait (hal_outb (hal_outb d ATA_CTRL 0) ATA_DRIVE 160) in
  let d2 := hal_outb (hal_outb (hal_outb (hal_outb d1 ATA_SECCOUNT 0) ATA_LBA_LOW 0) ATA_LBA_MID 0)
              ATA_LBA_HIGH 0 in
  let d3 := hal_outb d2 ATA_COMMAND CMD_IDENT in
  let '(status, d4) := hal_inb d3 ATA_STATUS in
  if status =? 0 then (-1, (0, d4)) else
  let '(r, d5) := ata_wait_bsy d4 in
  if r <? 0 then (-1, (0, d5)) else
  let '(mid, d6) := hal_inb d5 ATA_LBA_MID in
  if negb (mid =? 0) then (-1, (0, d6)) else
  let '(high, d7) := hal_inb d6 ATA_LBA_HIGH in
  if negb (high =? 0) then (-1, (0, d7)) else
  let '(r, d8) := ata_wait_drq d7 in
  if r <? 0 then (-1, (0, d8)) else
  let '(ident, d9) := in_words 256 d8 in
  let word k := lget 0 ident (2 * k) + 256 * lget 0 ident (2 * k + 1) in
  (0, (Z.lor (Z.shiftl (word 61) 16) (word 60), d9)).

(** The register writes that both transfers start with. *)
Definition ata_command d (lba cmd : Z) : D :=
  let d1 := hal_outb (ata_select d lba) ATA_SECCOUNT 1 in
  let d2 := hal_outb d1 ATA_LBA_LOW (Z.land lba 255) in
  let d3 := hal_outb d2 ATA_LBA_MID (Z.land (Z.shiftr lba 8) 255) in
  let d4 := hal_outb d3 ATA_LBA_HIGH (Z.land (Z.shiftr lba 16) 255) in
  hal_outb d4 ATA_COMMAND cmd.

Fixpoint read_from d (lba s : Z) (n : nat) (buf : list Z) : bool * list Z * D :=
  match n with
  | O => (true, buf, d)
  | S n' =>
      let '(r, d1) := ata_wait_bsy d in
      if r <? 0 then (false, buf, d1) else
      let d2 := ata_command d1 (u32 (lba + s)) CMD_READ in
      let '(r, d3) := ata_wait_drq d2 in
      if r <? 0 then (false, buf, d3) else
      let '(bs, d4) := in_words 256 d3 in
      read_from d4 lba (s + 1) n' (lsplice buf (512 * s) bs)
  end.

Definition ata_read d (lba count : Z) (buf : list Z) : Z * list Z * D :=
  let '(ok, buf', d') := read_from d lba 0 (Z.to_nat count) buf in
  (if ok then i32 count else -1, buf', d').

Fixpoint write_from d (lba s : Z) (n : nat) (buf : list Z) : bool * D :=
  match n with
  | O => (true, d)
  | S n' =>
      let '(r, d1) := ata_wait_bsy d in
      if r <? 0 then (false, d1) else
      let d2 := ata_command d1 (u32 (lba + s)) CMD_WRITE in
      let '(r, d3) := ata_wait_drq d2 in
      if r <? 0 then (false, d3) else
      let d4 := out_words 256 d3 (lsub buf (512 * s) 512) in
      let d5 := hal_outb d4 ATA_COMMAND CMD_FLUSH in
      let '(r, d6) := ata_wait_bsy d5 in
      if r <? 0 then (false, d6) else write_from d6 lba (s + 1) n' buf
  end.

Definition ata_write d (lba count : Z) (buf : list Z) : Z * D :=
  let '(ok, d') := write_from d lba 0 (Z.to_nat count) buf in
  (if ok then i32 count else -1, d').

End driver.

(** ** What the driver relies on *)

Inductive phase :=
| Idle
| Reading (rest : list Z)
| Writing (lba : Z) (got : list Z)
| Failed.

(** The drive as the protocol sees it: its sectors, the task-file registers, what it
    is doing, and the number of status reads that will still show it busy. *)
Record drive := Drive {
  v_disk : gmap Z (list Z);
  v_drive : Z; v_low : Z; v_mid : Z; v_high : Z;
  v_phase : phase;
  v_busy : nat }.

Definition set_reg (port v : Z) (w : drive) : drive :=
  if port =? ATA_DRIVE then Drive (v_disk w) v (v_low w) (v_mid w) (v_high w) (v_phase w) (v_busy w)
  else if port =? ATA_LBA_LOW then Drive (v_disk w) (v_drive w) v (v_mid w) (v_high w) (v_phase w) (v_busy w)
  else if port =? ATA_LBA_MID then Drive (v_disk w) (v_drive w) (v_low w) v (v_high w) (v_phase w) (v_busy w)
  else if port =? ATA_LBA_HIGH then Drive (v_disk w) (v_drive w) (v_low w) (v_mid w) v (v_phase w) (v_busy w)
  else w.

Definition set_phase (p : phase) (busy : nat) (w : drive) : drive :=
  Drive (v_disk w) (v_drive w) (v_low w) (v_mid w) (v_high w) p busy.

Definition set_disk (dk : gmap Z (list Z)) (w : drive) : drive :=
  Drive dk (v_drive w) (v_low w) (v_mid w) (v_high w) (v_phase w) (v_busy w).

(** The 28-bit sector number in the registers. *)
Definition selected (w : drive) : Z :=
  v_low w + 256 * v_mid w + 65536 * v_high w + 16777216 * (v_drive w mod 16).

Definition after_command (cmd : Z) (w : drive) : phase :=
  if cmd =? CMD_READ then
    match v_disk w !! selected w with Some sec => Reading sec | None => Failed end
  else if cmd =? CMD_WRITE then
    match v_disk w !! selected w with Some _ => Writing (selected w) [] | None => Failed end
  else v_phase w.

Definition ready (w : drive) : Prop := v_phase w = Idle \/ v_phase w = Failed.

Definition MAX_BUSY : nat := Z.to_nat 90000.

Lemma busy_timeout n : (n < MAX_BUSY)%nat -> (n < TIMEOUT)%nat.
Proof. unfold MAX_BUSY, TIMEOUT. lia. Qed.

Lemma busy_small : (2 < MAX_BUSY)%nat.
Proof. unfold MAX_BUSY. lia. Qed.

Lemma timeout_pos : (0 < TIMEOUT)%nat.
Proof. unfold TIMEOUT. lia. Qed.

#[local] Opaque TIMEOUT MAX_BUSY.

Class AtaLaws (D : Type) `{DEV : !AtaDevice D} := {
  view : D -> drive;
  (** While the driver waits, time passes for the drive. *)
  law_wait : forall d, exists n, (n <= v_busy (view d))%nat /\
    view (hal_io_wait d) = set_phase (v_phase (view d)) n (view d);
  (** A register can be written when no command is under way. *)
  law_reg : forall d port v, ready (view d) -> v_busy (view d) = O ->
    In port [ATA_SECCOUNT; ATA_LBA_LOW; ATA_LBA_MID; ATA_LBA_HIGH; ATA_DRIVE] ->
    view (hal_outb d port v) = set_reg port v (view d);
  (** A command starts a transfer or fails, after a bounded time. *)
  law_command : forall d cmd, ready (view d) -> v_busy (view d) = O ->
    In cmd [CMD_READ; CMD_WRITE; CMD_FLUSH] ->
    exists p n, (p = after_command cmd (view d) \/ p = Failed) /\ (n < MAX_BUSY)%nat /\
      view (hal_outb d ATA_COMMAND cmd) = set_phase p n (view d);
  (** Until then the status does not show that data is requested; its other bits, the error
      bit in particular, have no meaning. *)
  law_busy : forall d n, v_busy (view d) = S n ->
    negb (has (fst (hal_inb d ATA_STATUS)) STAT_BSY) && has (fst (hal_inb d ATA_STATUS)) STAT_DRQ = false /\
    view (snd (hal_inb d ATA_STATUS)) = set_phase (v_phase (view d)) n (view d);
  (** Afterwards it shows whether the command failed and whether data is requested. *)
  law_status : forall d, v_busy (view d) = O ->
    has (fst (hal_inb d ATA_STATUS)) STAT_BSY = false /\
    has (fst (hal_inb d ATA_STATUS)) STAT_ERR = match v_phase (view d) with Failed => true | _ => false end /\
    has (fst (hal_inb d ATA_STATUS)) STAT_DRQ =
      match v_phase (view d) with Reading _ | Writing _ _ => true | _ => false end /\
    view (snd (hal_inb d ATA_STATUS)) = view d;
  (** Data words are little-endian pairs of bytes of the sector. *)
  law_in : forall d lo hi rest, v_busy (view d) = O -> v_phase (view d) = Reading (lo :: hi :: rest) ->
    fst (hal_inw d ATA_DATA) = lo + 256 * hi /\
    view (snd (hal_inw d ATA_DATA)) =
      set_phase (match rest with [] => Idle | _ => Reading rest end) O (view d);
  (** Words sent are collected. *)
  law_out : forall d lba got lo hi, v_busy (view d) = O -> v_phase (view d) = Writing lba got ->
    is_u8 lo -> is_u8 hi -> (length got + 2 < 512)%nat ->
    view (hal_outw d ATA_DATA (lo + 256 * hi)) = set_phase (Writing lba (got ++ [lo; hi])) O (view d);
  (** With the last one the drive stores the sector, which takes some time and may fail. *)
  law_last : forall d lba got lo hi, v_busy (view d) = O -> v_phase (view d) = Writing lba got ->
    is_u8 lo -> is_u8 hi -> (length got + 2 = 512)%nat ->
    exists n, (n < MAX_BUSY)%nat /\
      (view (hal_outw d ATA_DATA (lo + 256 * hi)) =
         set_disk (<[lba := got ++ [lo; hi]]> (v_disk (view d))) (set_phase Idle n (view d)) \/
       exists sec, view (hal_outw d ATA_DATA (lo + 256 * hi)) =
         set_disk (<[lba := sec]> (v_disk (view d))) (set_phase Failed n (view d))) }.

(** A drive that sets BSY at once and keeps ERR clear until a command has failed, whose
    commands do not fail on the sectors it has, and which has stored a sector when the delay
    after its last word is over. *)
Class AtaPrompt (D : Type) `{LAW : AtaLaws D} := {
  prompt_busy : forall d n, v_busy (view d) = S n ->
    has (fst (hal_inb d ATA_STATUS)) STAT_BSY = true /\ has (fst (hal_inb d ATA_STATUS)) STAT_ERR = false;
  prompt_command : forall d cmd, ready (view d) -> v_busy (view d) = O -> In cmd [CMD_READ; CMD_WRITE; CMD_FLUSH] ->
    v_phase (view (hal_outb d ATA_COMMAND cmd)) = after_command cmd (view d);
  prompt_stored : forall d lba got lo hi, v_busy (view d) = O -> v_phase (view d) = Writing lba got ->
    is_u8 lo -> is_u8 hi -> (length got + 2 = 512)%nat ->
    v_phase (view (hal_io_wait (hal_outw d ATA_DATA (lo + 256 * hi)))) = Idle /\
    v_busy (view (hal_io_wait (hal_outw d ATA_DATA (lo + 256 * hi)))) = O }.

(** Sectors of the disk have 512 bytes. *)
Definition sectors_ok (dk : gmap Z (list Z)) : Prop :=
  map_Forall (fun _ sec => length sec = 512%nat /\ bytes sec) dk.

Section laws.
Context {D : Type} `{DEV : !AtaDevice D, LAW : !AtaLaws D}.
Implicit Types (d : D).

Lemma set_phase_same w p n : v_phase w = p -> v_busy w = n -> set_phase p n w = w.
Proof. intros <- <-. by destruct w. Qed.

Lemma wait_idle d : v_busy (view d) = O -> view (hal_io_wait d) = view d.
Proof.
  intros Hb. destruct (law_wait d) as (n & Hn & ->). apply set_phase_same; [done|]. lia.
Qed.

(** Waiting ends only when data is requested, and then it is. *)
Lemma wait_drq_safe t : forall d,
  let '(r, d') := wait_drq_from t d in
  r = -1 \/ r = 0 /\ view d' = set_phase (v_phase (view d)) O (view d) /\
    match v_phase (view d) with Reading _ | Writing _ _ => True | _ => False end.
Proof.
  induction t as [|t IH]; intros d; cbn [wait_drq_from]; [by left|].
  destruct (v_busy (view d)) as [|n] eqn:Hn.
  - destruct (law_status d Hn) as (H1 & H2 & H3 & Hv). specialize (IH (snd (hal_inb d ATA_STATUS))). rewrite Hv in IH.
    destruct (hal_inb d ATA_STATUS) as [s d1]. cbn [fst snd] in *. rewrite H1, H2, H3.
    destruct (v_phase (view d)) eqn:Hp; cbn [negb andb]; try done; [right|right|by left];
      (split; [done|]; split; [|done]; by rewrite Hv, set_phase_same).
  - destruct (law_busy d n Hn) as (H1 & Hv). specialize (IH (snd (hal_inb d ATA_STATUS))). rewrite Hv in IH.
    destruct (hal_inb d ATA_STATUS) as [s d1]. cbn [fst snd] in *. rewrite H1.
    destruct (has s STAT_ERR); [by left|exact IH].
Qed.

Lemma in_words_ok n : forall d l, v_busy (view d) = O -> v_phase (view d) = Reading l ->
  length l = (2 * n)%nat -> (0 < n)%nat -> bytes l ->
  exists d', in_words n d = (l, d') /\ view d' = set_phase Idle O (view d).
Proof.
  induction n as [|n IH]; intros d l Hb Hp Hl Hn Hby; [lia|].
  destruct l as [|lo [|hi l]]; cbn [length] in Hl; [lia|lia|]. cbn [in_words].
  apply Forall_cons_1 in Hby as [Hlo Hby]. apply Forall_cons_1 in Hby as [Hhi Hby].
  destruct (law_in d lo hi l Hb Hp) as [Hw Hv]. destruct (hal_inw d ATA_DATA) as [w d1].
  cbn [fst snd] in *. subst w.
  replace (u8 (lo + 256 * hi)) with lo by dlia. replace (u8 ((lo + 256 * hi) / 256)) with hi by dlia.
  destruct n as [|n].
  - destruct l; [|simpl in Hl; lia]. exists d1. done.
  - assert (match l with [] => Idle | _ => Reading l end = Reading l) as E by (destruct l; [simpl in Hl; lia|done]).
    rewrite E in Hv. destruct (IH d1 l) as (d' & -> & Hd'); try (rewrite Hv; done); try done; try lia.
    exists d'. split; [done|]. by rewrite Hd', Hv.
Qed.

Lemma lba_registers lba : is_u32 lba ->
  Z.land lba 255 + 256 * Z.land (Z.shiftr lba 8) 255 + 65536 * Z.land (Z.shiftr lba 16) 255 +
  16777216 * (Z.lor 224 (Z.land (Z.shiftr lba 24) 15) mod 16) = Disk.lba28 lba.
Proof.
  intros H. assert (forall x, Z.land x 255 = x mod 256) as Hand by (intros x; apply (Z.land_ones x 8); lia).
  assert (forall x, Z.land x 15 = x mod 16) as Hand4 by (intros x; apply (Z.land_ones x 4); lia).
  assert (forall y, Z.lor 224 y mod 16 = y mod 16) as Hor.
  { intros y. rewrite <- !Hand4, Z.land_lor_distr_l. change (Z.land 224 15) with 0. by rewrite Z.lor_0_l. }
  rewrite Hor, !Hand, Hand4, !Z.shiftr_div_pow2 by lia.
  change (2 ^ 8) with 256. change (2 ^ 16) with 65536. change (2 ^ 24) with 16777216.
  unfold Disk.lba28. dlia.
Qed.

(** The register writes select the requested sector. *)
Definition ata_registers d (lba : Z) : D :=
  hal_outb (hal_outb (hal_outb (hal_outb (ata_select d lba) ATA_SECCOUNT 1) ATA_LBA_LOW (Z.land lba 255))
    ATA_LBA_MID (Z.land (Z.shiftr lba 8) 255)) ATA_LBA_HIGH (Z.land (Z.shiftr lba 16) 255).

Lemma ata_registers_ok d lba : ready (view d) -> v_busy (view d) = O -> is_u32 lba ->
  ready (view (ata_registers d lba)) /\ v_busy (view (ata_registers d lba)) = O /\
  v_disk (view (ata_registers d lba)) = v_disk (view d) /\ selected (view (ata_registers d lba)) = Disk.lba28 lba.
Proof.
  intros Hr Hb Hl. unfold ata_registers, ata_select.
  assert (forall x port v, ready (view x) -> v_busy (view x) = O ->
    In port [ATA_SECCOUNT; ATA_LBA_LOW; ATA_LBA_MID; ATA_LBA_HIGH; ATA_DRIVE] ->
    view (hal_outb x port v) = set_reg port v (view x) /\ ready (view (hal_outb x port v)) /\
    v_busy (view (hal_outb x port v)) = O) as Hreg.
  { intros x port v Hrx Hbx Hin. rewrite law_reg by done. split; [done|].
    unfold set_reg, ready in *. by repeat (destruct (_ =? _)). }
  set (d1 := hal_outb d ATA_DRIVE _).
  destruct (Hreg d ATA_DRIVE (Z.lor 224 (Z.land (Z.shiftr lba 24) 15)) Hr Hb) as (E1 & R1 & B1); [cbn; tauto|].
  fold d1 in E1, R1, B1. rewrite <- (wait_idle d1 B1) in E1, R1. pose proof B1 as B1'. rewrite <- (wait_idle d1 B1) in B1'.
  destruct (Hreg _ ATA_SECCOUNT 1 R1 B1') as (E2 & R2 & B2); [cbn; tauto|].
  destruct (Hreg _ ATA_LBA_LOW (Z.land lba 255) R2 B2) as (E3 & R3 & B3); [cbn; tauto|].
  destruct (Hreg _ ATA_LBA_MID (Z.land (Z.shiftr lba 8) 255) R3 B3) as (E4 & R4 & B4); [cbn; tauto|].
  destruct (Hreg _ ATA_LBA_HIGH (Z.land (Z.shiftr lba 16) 255) R4 B4) as (E5 & R5 & B5); [cbn; tauto|].
  split; [exact R5|]. split; [exact B5|]. rewrite E5, E4, E3, E2, E1. split; [done|].
  rewrite <- lba_registers by done. reflexivity.
Qed.

(** The drive holds the disk [dk], has finished what it was told, and can take a command. *)
Record at_rest (dk : gmap Z (list Z)) (d : D) : Prop := {
  ar_ready : ready (view d);
  ar_disk : v_disk (view d) = dk;
  ar_busy : v_busy (view d) = O }.

Lemma wait_bsy_rest t d dk : at_rest dk d -> (0 < t)%nat -> exists d', wait_bsy_from t d = (0, d') /\ at_rest dk d'.
Proof.
  intros [Hr Hd Hb] Ht. destruct t as [|t]; [lia|]. cbn [wait_bsy_from].
  destruct (law_status d Hb) as (H1 & _ & _ & Hv). destruct (hal_inb d ATA_STATUS) as [s d1].
  cbn [fst snd] in *. rewrite H1. destruct (Z.ltb_spec 0 (Z.of_nat (S t))); [|lia].
  exists d1. split; [done|]. split; by rewrite Hv.
Qed.

(** What was read is right: the sectors transferred are those of the disk. *)
Lemma read_from_safe dk lba n : sectors_ok dk -> forall d s buf, at_rest dk d ->
  let '(ok, buf', d') := read_from d lba s n buf in
  exists m, (m <= n)%nat /\ Disk.disk_read dk lba s m buf = (true, buf') /\ (ok = true -> m = n /\ at_rest dk d').
Proof.
  intros Hok. induction n as [|n IH]; intros d s buf Hd; cbn [read_from]; [by exists O|].
  destruct (wait_bsy_rest TIMEOUT d dk Hd timeout_pos) as (d1 & E1 & Hd1). unfold ata_wait_bsy. rewrite E1. cbn [Z.ltb Z.compare].
  destruct Hd1 as [Hr1 Hk1 Hb1]. destruct (ata_registers_ok d1 (u32 (lba + s)) Hr1 Hb1 (u32_range _)) as (Rr & Rb & Rd & Rs).
  destruct (law_command _ CMD_READ Rr Rb) as (p & k & Hp & _ & Hv); [cbn; tauto|].
  change (hal_outb (ata_registers d1 (u32 (lba + s))) ATA_COMMAND CMD_READ) with (ata_command d1 (u32 (lba + s)) CMD_READ) in Hv.
  pose proof (wait_drq_safe TIMEOUT (ata_command d1 (u32 (lba + s)) CMD_READ)) as Hw.
  unfold ata_wait_drq. destruct (wait_drq_from TIMEOUT _) as [r d3]. destruct Hw as [->|(-> & Hv3 & Hp3)].
  { cbn [Z.ltb Z.compare]. exists O. split_and!; [lia|done|done]. }
  cbn [Z.ltb Z.compare]. rewrite Hv in Hp3, Hv3. cbn [set_phase v_phase] in Hp3, Hv3.
  unfold after_command in Hp. cbn [Z.eqb Pos.eqb CMD_READ] in Hp. rewrite Rd, Hk1, Rs in Hp.
  destruct (dk !! Disk.lba28 (u32 (lba + s))) as [sec|] eqn:Hsec; [|by destruct Hp as [-> | ->]].
  destruct Hp as [->| ->]; [|done]. destruct (Hok _ _ Hsec) as [Hlen Hby].
  destruct (in_words_ok 256 d3 sec) as (d4 & -> & Hv4); try (rewrite Hv3; done); try done; [lia|].
  assert (at_rest dk d4) as Hd4 by (split; rewrite Hv4, Hv3; cbn; [by left|congruence|done]).
  pose proof (IH d4 (s + 1) (lsplice buf (512 * s) sec) Hd4) as H.
  destruct (read_from d4 lba (s + 1) n _) as [[ok buf'] d']. destruct H as (m & Hm & Hr & Ho).
  exists (S m). cbn [Disk.disk_read]. rewrite Hsec. split_and!; [lia|done|]. intros E. destruct (Ho E). by split; [lia|].
Qed.
End laws.

Section refine.
Context {D : Type} `{DEV : !AtaDevice D, LAW : !AtaLaws D, PR : !AtaPrompt D}.
Implicit Types (d : D).

Lemma wait_bsy_ok t : forall d, (v_busy (view d) < t)%nat ->
  exists d', wait_bsy_from t d = (0, d') /\ view d' = set_phase (v_phase (view d)) O (view d).
Proof.
  induction t as [|t IH]; intros d Hb; [lia|]. cbn [wait_bsy_from].
  destruct (v_busy (view d)) as [|n] eqn:Hn.
  - destruct (law_status d Hn) as (H1 & _ & _ & Hv). destruct (hal_inb d ATA_STATUS) as [s d1].
    cbn [fst snd] in *. rewrite H1. destruct (Z.ltb_spec 0 (Z.of_nat (S t))); [|lia].
    exists d1. split; [done|]. by rewrite Hv, set_phase_same.
  - destruct (law_busy d n Hn) as (_ & Hv). destruct (prompt_busy d n Hn) as [H1 _].
    destruct (hal_inb d ATA_STATUS) as [s d1]. cbn [fst snd] in *. rewrite H1.
    destruct (law_wait d1) as (n' & Hn' & Hw). rewrite Hv in Hn', Hw. cbn in Hn', Hw.
    destruct (IH (hal_io_wait d1)) as (d' & -> & Hd'); [rewrite Hw; cbn; lia|].
    exists d'. split; [done|]. by rewrite Hd', Hw.
Qed.

Lemma wait_drq_ok t : forall d, (v_busy (view d) < t)%nat ->
  match v_phase (view d) with
  | Reading _ | Writing _ _ =>
      exists d', wait_drq_from t d = (0, d') /\ view d' = set_phase (v_phase (view d)) O (view d)
  | Failed => exists d', wait_drq_from t d = (-1, d') /\ view d' = set_phase Failed O (view d)
  | Idle => True
  end.
Proof.
  induction t as [|t IH]; intros d Hb; [lia|]. cbn [wait_drq_from].
  destruct (v_busy (view d)) as [|n] eqn:Hn.
  - destruct (law_status d Hn) as (H1 & H2 & H3 & Hv). destruct (hal_inb d ATA_STATUS) as [s d1].
    cbn [fst snd] in *. rewrite H1, H2, H3.
    destruct (v_phase (view d)) eqn:Hp; cbn; try done; exists d1; (split; [done|]); by rewrite Hv, set_phase_same.
  - destruct (law_busy d n Hn) as (H1 & Hv). destruct (prompt_busy d n Hn) as [_ H2].
    destruct (hal_inb d ATA_STATUS) as [s d1]. cbn [fst snd] in *. rewrite H1, H2.
    specialize (IH d1). rewrite Hv in IH. cbn in IH. apply IH. lia.
Qed.

Lemma out_words_ok n : forall d lba got bs, v_busy (view d) = O -> v_phase (view d) = Writing lba got ->
  length bs = (2 * n)%nat -> (0 < n)%nat -> (length got + 2 * n = 512)%nat -> bytes bs ->
  view (out_words n d bs) =
    set_disk (<[lba := got ++ bs]> (v_disk (view d))) (set_phase Idle O (view d)).
Proof.
  induction n as [|n IH]; intros d lba got bs Hb Hp Hl Hn Hg Hby; [lia|].
  destruct bs as [|lo [|hi bs]]; cbn [length] in Hl; [lia|lia|]. cbn [out_words].
  apply Forall_cons_1 in Hby as [Hlo Hby]. apply Forall_cons_1 in Hby as [Hhi Hby].
  destruct n as [|n].
  - destruct bs; [|simpl in Hl; lia]. cbn [out_words].
    destruct (prompt_stored d lba got lo hi Hb Hp Hlo Hhi ltac:(lia)) as [Q1 Q2].
    destruct (law_wait (hal_outw d ATA_DATA (lo + 256 * hi))) as (n' & _ & Hw). rewrite Hw in Q1, Q2 |- *. cbn in Q1, Q2.
    destruct (law_last d lba got lo hi Hb Hp Hlo Hhi ltac:(lia)) as (n & _ & [E|[sec E]]); rewrite E in Q1 |- *; [|done].
    by rewrite Q2.
  - pose proof (law_out d lba got lo hi Hb Hp Hlo Hhi ltac:(lia)) as Hv.
    pose proof (wait_idle (hal_outw d ATA_DATA (lo + 256 * hi)) ltac:(by rewrite Hv)) as Hw. rewrite Hv in Hw.
    rewrite (IH _ lba (got ++ [lo; hi])); rewrite ?Hw, ?length_app; try done; try lia.
    + cbn. by rewrite <- app_assoc.
    + cbn [length]. lia.
Qed.

(** After the register writes and the command: the requested sector is selected. *)
Lemma ata_command_ok d lba cmd : ready (view d) -> v_busy (view d) = O -> is_u32 lba ->
  cmd = CMD_READ \/ cmd = CMD_WRITE ->
  exists n w, (n < MAX_BUSY)%nat /\ view (ata_command d lba cmd) = set_phase (after_command cmd w) n w /\
    v_disk w = v_disk (view d) /\ selected w = Disk.lba28 lba.
Proof.
  intros Hr Hb Hl Hc. destruct (ata_registers_ok d lba Hr Hb Hl) as (R5 & B5 & D5 & S5).
  assert (In cmd [CMD_READ; CMD_WRITE; CMD_FLUSH]) as Hin by (destruct Hc as [-> | ->]; cbn; tauto).
  destruct (law_command _ cmd R5 B5 Hin) as (p & n & _ & Hn & Hv). pose proof (prompt_command _ cmd R5 B5 Hin) as Hp.
  rewrite Hv in Hp. cbn [set_phase v_phase] in Hp. subst p.
  exists n, (view (ata_registers d lba)). split_and!; [done|exact Hv|done|done].
Qed.

(** The drive holds the disk [dk] and accepts a command. *)
Record drive_ok (dk : gmap Z (list Z)) (d : D) : Prop := {
  do_ready : ready (view d);
  do_disk : v_disk (view d) = dk;
  do_busy : (v_busy (view d) < MAX_BUSY)%nat }.

Lemma drive_wait dk d : drive_ok dk d ->
  exists d', ata_wait_bsy d = (0, d') /\ ready (view d') /\ v_disk (view d') = dk /\ v_busy (view d') = O.
Proof.
  intros [Hr Hd Hb]. destruct (wait_bsy_ok TIMEOUT d (busy_timeout _ Hb)) as (d' & Hw & Hv).
  exists d'. rewrite Hv. done.
Qed.

Lemma read_from_refines dk lba n : sectors_ok dk -> forall d s buf, drive_ok dk d ->
  exists d', read_from d lba s n buf =
      (fst (Disk.disk_read dk lba s n buf), snd (Disk.disk_read dk lba s n buf), d') /\ drive_ok dk d'.
Proof.
  intros Hok. induction n as [|n IH]; intros d s buf Hd; cbn [read_from Disk.disk_read]; [by exists d|].
  destruct (drive_wait dk d Hd) as (d1 & -> & Hr1 & Hd1 & Hb1). cbn [Z.ltb Z.compare].
  destruct (ata_command_ok d1 (u32 (lba + s)) CMD_READ Hr1 Hb1 (u32_range _)) as (k & w & Hk & Hv & Hw & Hs);
    [by left|].
  pose proof (wait_drq_ok TIMEOUT (ata_command d1 (u32 (lba + s)) CMD_READ)) as Hdrq.
  rewrite Hv in Hdrq. specialize (Hdrq (busy_timeout _ Hk)).
  unfold after_command, set_phase in Hdrq. cbn in Hdrq. rewrite Hs, Hw, Hd1 in Hdrq.
  destruct (dk !! Disk.lba28 (u32 (lba + s))) as [sec|] eqn:Hsec.
  - destruct Hdrq as (d3 & Hwd & Hv3). unfold ata_wait_drq. rewrite Hwd. cbn [Z.ltb Z.compare].
    destruct (Hok _ _ Hsec) as [Hlen Hby].
    destruct (in_words_ok 256 d3 sec) as (d4 & -> & Hv4); try (rewrite Hv3; done); try done; [lia|].
    apply IH. constructor; rewrite Hv4, ?Hv3; cbn; [by left|done|pose proof busy_small; lia].
  - destruct Hdrq as (d3 & Hwd & Hv3). unfold ata_wait_drq. rewrite Hwd. cbn [Z.ltb Z.compare].
    exists d3. split; [done|]. constructor; rewrite Hv3; cbn; [by right|done|pose proof busy_small; lia].
Qed.

Lemma write_from_refines lba buf n : bytes buf -> forall dk d s, sectors_ok dk -> drive_ok dk d -> 0 <= s ->
  512 * (s + Z.of_nat n) <= lenZ buf ->
  exists d', write_from d lba s n buf = (fst (Disk.disk_write dk lba s n buf), d') /\
    drive_ok (snd (Disk.disk_write dk lba s n buf)) d'.
Proof.
  intros Hby. induction n as [|n IH]; intros dk d s Hok Hd Hs0 Hlen;
    cbn [write_from Disk.disk_write]; [by exists d|].
  destruct (drive_wait dk d Hd) as (d1 & -> & Hr1 & Hd1 & Hb1). cbn [Z.ltb Z.compare].
  destruct (ata_command_ok d1 (u32 (lba + s)) CMD_WRITE Hr1 Hb1 (u32_range _)) as (k & w & Hk & Hv & Hw & Hs);
    [by right|].
  pose proof (wait_drq_ok TIMEOUT (ata_command d1 (u32 (lba + s)) CMD_WRITE)) as Hdrq.
  rewrite Hv in Hdrq. specialize (Hdrq (busy_timeout _ Hk)).
  unfold after_command, set_phase in Hdrq. cbn in Hdrq. rewrite Hs, Hw, Hd1 in Hdrq.
  destruct (dk !! Disk.lba28 (u32 (lba + s))) as [sec|] eqn:Hsec.
  - destruct Hdrq as (d3 & Hwd & Hv3). unfold ata_wait_drq. rewrite Hwd. cbn [Z.ltb Z.compare].
    assert (length (lsub buf (512 * s) 512) = 512%nat) as Hl5.
    { pose proof (lenZ_lsub buf (512 * s) 512) as Hl5. unfold lenZ in *. lia. }
    pose proof (out_words_ok 256 d3 (Disk.lba28 (u32 (lba + s))) [] (lsub buf (512 * s) 512)) as Hout.
    rewrite Hv3 in Hout. specialize (Hout eq_refl eq_refl ltac:(lia) ltac:(lia) eq_refl (bytes_lsub _ _ _ Hby)).
    set (d4 := out_words 256 d3 _) in *. clearbody d4. unfold set_disk, set_phase in Hout.
    cbn [v_disk v_drive v_low v_mid v_high v_phase v_busy app] in Hout.
    assert (ready (view d4) /\ v_busy (view d4) = O) as [Hr4 Hb4] by (rewrite Hout; split; [by left|done]).
    destruct (law_command d4 CMD_FLUSH Hr4 Hb4) as (p & k' & _ & Hk' & Hv5); [cbn; tauto|].
    pose proof (prompt_command d4 CMD_FLUSH Hr4 Hb4) as Hp5. rewrite Hv5, Hout in Hp5. cbn in Hp5. specialize (Hp5 ltac:(tauto)). subst p.
    rewrite Hout in Hv5. unfold set_phase in Hv5.
    cbn [v_disk v_drive v_low v_mid v_high v_phase v_busy] in Hv5.
    set (dk' := <[Disk.lba28 (u32 (lba + s)) := lsub buf (512 * s) 512]> dk) in *.
    destruct (drive_wait dk' (hal_outb d4 ATA_COMMAND CMD_FLUSH)) as (d6 & -> & Hr6 & Hd6 & Hb6).
    { constructor; rewrite Hv5; [by left|done|done]. }
    cbn [Z.ltb Z.compare]. apply IH; [| |lia|lia].
    + apply map_Forall_insert_2; [split; [done|by apply bytes_lsub]|done].
    + constructor; [done|done|rewrite Hb6; pose proof busy_small; lia].
  - destruct Hdrq as (d3 & Hwd & Hv3). unfold ata_wait_drq. rewrite Hwd. cbn [Z.ltb Z.compare].
    exists d3. split; [done|]. constructor; rewrite Hv3; cbn; [by right|done|pose proof busy_small; lia].
Qed.
End refine.

(** C16: The port-level driver and the disk contract.  On every drive that follows the
    protocol, at rest and holding the disk [dk], whatever its status shows while it is busy
    and whichever commands fail: [ata_read] returns -1 or the number of sectors asked for, the
    sectors it has put into the buffer are exactly those of the disk, from the first on, and
    all of them if it does not return -1.  On a drive that moreover sets BSY at once, keeps ERR
    clear while it is busy (for less than the time the driver waits), does not fail on sectors it has, and has stored a sector by the end of the delay
    after its last word, [ata_read] returns the result and the buffer that the contract gives,
    [ata_write] returns its result and leaves the drive holding the disk it gives, and the
    drive is ready for the next command.  (The driver issues FLUSH without waiting for the
    drive after the last word; without the last condition nothing is known of writes.) *)
Theorem ata_refines_disk dk lba count buf :
  sectors_ok dk -> 0 <= count < 2147483648 -> bytes buf -> 512 * count <= lenZ buf ->
  (forall D (DEV : AtaDevice D) (LAW : AtaLaws D) (d : D), at_rest dk d ->
    let '(r, buf', d') := ata_read d lba count buf in
    exists m, 0 <= m <= count /\ Disk.ata_read dk lba m buf = (m, buf') /\ (r = -1 \/ r = count /\ m = count /\ at_rest dk d')) /\
  (forall D (DEV : AtaDevice D) (LAW : AtaLaws D) (PR : AtaPrompt D) (d : D), drive_ok dk d ->
    (exists d', ata_read d lba count buf =
        (fst (Disk.ata_read dk lba count buf), snd (Disk.ata_read dk lba count buf), d') /\ drive_ok dk d') /\
    (exists d', ata_write d lba count buf = (fst (Disk.ata_write dk lba count buf), d') /\
        drive_ok (snd (Disk.ata_write dk lba count buf)) d')).
Proof.
  intros Hok Hc Hby Hlen. split; intros; unfold ata_read, ata_write, Disk.ata_read, Disk.ata_write; rewrite i32_small by lia.
  - pose proof (read_from_safe dk lba (Z.to_nat count) Hok d 0 buf ltac:(done)) as H0.
    destruct (read_from d lba 0 (Z.to_nat count) buf) as [[ok buf'] d']. destruct H0 as (m & Hm & Hr & Ho).
    exists (Z.of_nat m). rewrite Nat2Z.id, Hr. split_and!; [lia|lia|done|].
    destruct ok; [right|by left]. destruct (Ho eq_refl). split_and!; [done|lia|done].
  - split.
    + destruct (read_from_refines dk lba (Z.to_nat count) Hok d 0 buf ltac:(done)) as (d' & -> & Hd').
      destruct (Disk.disk_read dk lba 0 (Z.to_nat count) buf) as [ok buf']. by exists d'.
    + destruct (write_from_refines lba buf (Z.to_nat count) Hby dk d 0 Hok ltac:(done)) as (d' & -> & Hd'); [lia|lia|].
      destruct (Disk.disk_write dk lba 0 (Z.to_nat count) buf) as [ok dk']. by exists d'.
Qed.

(** ** A drive that follows the protocol *)

Definition status_of (w : drive) : Z :=
  match v_busy w, v_phase w with
  | S _, _ => 128
  | O, Failed => 65
  | O, Idle => 64
  | O, _ => 72
  end.

Definition sim_inb (w : drive) (port : Z) : Z * drive :=
  if port =? ATA_STATUS then (status_of w, set_phase (v_phase w) (pred (v_busy w)) w) else (0, w).

Definition sim_outb (w : drive) (port v : Z) : drive :=
  if port =? ATA_COMMAND then set_phase (after_command v w) 2 w else set_reg port v w.

Definition sim_inw (w : drive) (port : Z) : Z * drive :=
  match v_phase w with
  | Reading (lo :: hi :: rest) =>
      (lo + 256 * hi, set_phase (match rest with [] => Idle | _ => Reading rest end) O w)
  | _ => (0, w)
  end.

Definition sim_outw (w : drive) (port v : Z) : drive :=
  match v_phase w with
  | Writing lba got =>
      let got' := got ++ [v mod 256; v / 256] in
      if decide (length got + 2 = 512)%nat
      then set_disk (<[lba := got']> (v_disk w)) (set_phase Idle 1 w)
      else set_phase (Writing lba got') O w
  | _ => w
  end.

#[global] Instance sim_device : AtaDevice drive :=
  {| hal_inb := sim_inb; hal_outb := sim_outb; hal_inw := sim_inw; hal_outw := sim_outw;
     hal_io_wait := fun w => set_phase (v_phase w) (pred (v_busy w)) w |}.

Lemma sim_reg (w : drive) port v : ready w -> v_busy w = O ->
  In port [ATA_SECCOUNT; ATA_LBA_LOW; ATA_LBA_MID; ATA_LBA_HIGH; ATA_DRIVE] ->
  sim_outb w port v = set_reg port v w.
Proof. intros _ _ Hin. cbn in Hin. by destruct Hin as [<-|[<-|[<-|[<-|[<-|[]]]]]]. Qed.

Lemma sim_wait (w : drive) : exists n, (n <= v_busy w)%nat /\ hal_io_wait w = set_phase (v_phase w) n w.
Proof. exists (pred (v_busy w)). split; [lia|done]. Qed.

Lemma sim_command (w : drive) cmd : ready w -> v_busy w = O -> In cmd [CMD_READ; CMD_WRITE; CMD_FLUSH] ->
  exists p n, (p = after_command cmd w \/ p = Failed) /\ (n < MAX_BUSY)%nat /\ sim_outb w ATA_COMMAND cmd = set_phase p n w.
Proof. intros _ _ _. exists (after_command cmd w), 2%nat. split; [by left|]. split; [apply busy_small|done]. Qed.

Lemma sim_busy (w : drive) n : v_busy w = S n ->
  negb (has (fst (sim_inb w ATA_STATUS)) STAT_BSY) && has (fst (sim_inb w ATA_STATUS)) STAT_DRQ = false /\
  snd (sim_inb w ATA_STATUS) = set_phase (v_phase w) n w.
Proof. intros H. unfold sim_inb, status_of. rewrite H. done. Qed.

Lemma sim_status (w : drive) : v_busy w = O ->
  has (fst (sim_inb w ATA_STATUS)) STAT_BSY = false /\
  has (fst (sim_inb w ATA_STATUS)) STAT_ERR = match v_phase w with Failed => true | _ => false end /\
  has (fst (sim_inb w ATA_STATUS)) STAT_DRQ =
    match v_phase w with Reading _ | Writing _ _ => true | _ => false end /\
  snd (sim_inb w ATA_STATUS) = w.
Proof. destruct w as [? ? ? ? ? p ?]. cbn. intros ->. by destruct p. Qed.

Lemma sim_in (w : drive) lo hi rest : v_busy w = O -> v_phase w = Reading (lo :: hi :: rest) ->
  fst (sim_inw w ATA_DATA) = lo + 256 * hi /\
  snd (sim_inw w ATA_DATA) = set_phase (match rest with [] => Idle | _ => Reading rest end) O w.
Proof. intros _ H. unfold sim_inw. by rewrite H. Qed.

Lemma sim_word lo hi : is_u8 lo -> is_u8 hi -> (lo + 256 * hi) mod 256 = lo /\ (lo + 256 * hi) / 256 = hi.
Proof. intros H1 H2. split; dlia. Qed.

Lemma sim_out (w : drive) lba got lo hi : v_busy w = O -> v_phase w = Writing lba got ->
  is_u8 lo -> is_u8 hi -> (length got + 2 < 512)%nat ->
  sim_outw w ATA_DATA (lo + 256 * hi) = set_phase (Writing lba (got ++ [lo; hi])) O w.
Proof.
  intros _ H Hlo Hhi Hl. unfold sim_outw. destruct (sim_word lo hi Hlo Hhi) as [-> ->]. rewrite H. destruct (decide _); [lia|done].
Qed.

Lemma sim_last (w : drive) lba got lo hi : v_busy w = O -> v_phase w = Writing lba got ->
  is_u8 lo -> is_u8 hi -> (length got + 2 = 512)%nat ->
  exists n, (n < MAX_BUSY)%nat /\
    (sim_outw w ATA_DATA (lo + 256 * hi) = set_disk (<[lba := got ++ [lo; hi]]> (v_disk w)) (set_phase Idle n w) \/
     exists sec, sim_outw w ATA_DATA (lo + 256 * hi) = set_disk (<[lba := sec]> (v_disk w)) (set_phase Failed n w)).
Proof.
  intros _ H Hlo Hhi Hl. exists 1%nat. split; [pose proof busy_small; lia|]. left.
  unfold sim_outw. destruct (sim_word lo hi Hlo Hhi) as [-> ->]. rewrite H. by destruct (decide _).
Qed.

#[global] Instance sim_laws : AtaLaws drive :=
  {| view := fun w => w; law_wait := sim_wait; law_reg := sim_reg; law_command := sim_command;
     law_busy := sim_busy; law_status := sim_status; law_in := sim_in; law_out := sim_out; law_last := sim_last |}.

#[global] Program Instance sim_prompt : AtaPrompt drive.
Next Obligation. intros w n H. cbn in *. unfold sim_inb, status_of. rewrite H. done. Qed.
Next Obligation. done. Qed.
Next Obligation.
  intros w lba got lo hi _ H Hlo Hhi Hl. cbn in *. unfold sim_outw. rewrite H. by destruct (decide _).
Qed.

Definition one_sector : gmap Z (list Z) := {[ 7 := replicate 512 5 ]}.
Definition sim_drive : drive := Drive one_sector 0 0 0 0 Idle O.
Definition buffer1024 : list Z := replicate 1024 9.

Lemma one_sector_ok : sectors_ok one_sector.
Proof. apply map_Forall_singleton. split; [done|]. apply Forall_replicate. unfold is_u8. lia. Qed.

Lemma sim_drive_ok : drive_ok one_sector sim_drive.
Proof. constructor; [by left|done|]. cbn. pose proof busy_small. lia. Qed.

Lemma buffer1024_ok : bytes buffer1024.
Proof. apply Forall_replicate. unfold is_u8. lia. Qed.

Lemma sim_drive_rest : at_rest one_sector sim_drive.
Proof. constructor; [by left|done|done]. Qed.

Lemma ata_refines_disk_witness :
  (let '(r, buf', d') := ata_read sim_drive 7 2 buffer1024 in
   exists m, 0 <= m <= 2 /\ Disk.ata_read one_sector 7 m buffer1024 = (m, buf') /\
     (r = -1 \/ r = 2 /\ m = 2 /\ at_rest one_sector d')) /\
  (exists d', ata_read sim_drive 7 2 buffer1024 =
      (fst (Disk.ata_read one_sector 7 2 buffer1024), snd (Disk.ata_read one_sector 7 2 buffer1024), d') /\
      drive_ok one_sector d') /\
  (exists d', ata_write sim_drive 7 2 buffer1024 = (fst (Disk.ata_write one_sector 7 2 buffer1024), d') /\
      drive_ok (snd (Disk.ata_write one_sector 7 2 buffer1024)) d').
Proof.
  destruct (ata_refines_disk one_sector 7 2 buffer1024) as [H1 H2];
    [apply one_sector_ok|lia|apply buffer1024_ok|vm_compute; discriminate|].
  split; [exact (H1 drive _ _ sim_drive sim_drive_rest)|exact (H2 drive _ _ _ sim_drive sim_drive_ok)].
Defined.
End Ata.
