(* ===== verification/Layout.v ===== *)
(** * On-disk layout of the MINIX file system (include/minixfs.h)

    Packed little-endian structures: a structure is the list of the widths of its
    fields, and [dec_fields]/[enc_fields] translate between its bytes and its field
    values.  [superblock], [inode] and the directory entries are instances. *)

From stdpp Require Import base list numbers.
From S2P Require Import Prelude CString.

#[local] Open Scope Z_scope.

(** Words inside a byte buffer. *)
Definition rd32 (buf : list Z) (off : Z) : Z := le_val (lsub buf off 4).
Definition wr32 (buf : list Z) (off v : Z) : list Z := lsplice buf off (le_bytes 4 v).

Lemma lenZ_le_bytes n v : lenZ (le_bytes n v) = Z.of_nat n.
Proof. unfold lenZ. by rewrite length_le_bytes. Qed.

Lemma lenZ_wr32 buf off v : 0 <= off -> off + 4 <= lenZ buf -> lenZ (wr32 buf off v) = lenZ buf.
Proof. intros. unfold wr32. apply lenZ_lsplice; rewrite ?lenZ_le_bytes; lia. Qed.

Lemma bytes_wr32 buf off v : bytes buf -> bytes (wr32 buf off v).
Proof. intros. unfold wr32. auto with fento. Qed.

Lemma rd32_u32 buf off : bytes buf -> 0 <= off -> off + 4 <= lenZ buf -> is_u32 (rd32 buf off).
Proof.
  intros Hb Ho Hl. unfold rd32.
  pose proof (le_val_range (lsub buf off 4) (bytes_lsub _ _ _ Hb)) as Hr.
  rewrite lenZ_lsub in Hr by lia. change (256 ^ 4) with 4294967296 in Hr. exact Hr.
Qed.

Lemma rd32_wr32_eq buf off v : 0 <= off -> off + 4 <= lenZ buf -> is_u32 v ->
  rd32 (wr32 buf off v) off = v.
Proof.
  intros Ho Hl Hv. unfold rd32, wr32.
  pose proof (lsub_lsplice_eq buf off (le_bytes 4 v)) as Heq. rewrite lenZ_le_bytes in Heq.
  change (Z.of_nat 4) with 4 in Heq. rewrite Heq by lia.
  apply le_val_bytes. unfold is_u32 in Hv. lia.
Qed.

Lemma rd32_wr32_ne buf off off' v : 0 <= off -> off + 4 <= lenZ buf -> 0 <= off' ->
  off' + 4 <= lenZ buf -> off' + 4 <= off \/ off + 4 <= off' ->
  rd32 (wr32 buf off v) off' = rd32 buf off'.
Proof.
  intros. unfold rd32, wr32. f_equal. apply lsub_lsplice_disj; rewrite ?lenZ_le_bytes; lia.
Qed.

(** ** Packed structures *)

Fixpoint dec_fields (ws : list nat) (bs : list Z) : list Z :=
  match ws with
  | [] => []
  | w :: ws' => le_val (take w bs) :: dec_fields ws' (drop w bs)
  end.

Fixpoint enc_fields (ws : list nat) (vs : list Z) : list Z :=
  match ws, vs with
  | w :: ws', v :: vs' => le_bytes w v ++ enc_fields ws' vs'
  | _, _ => []
  end.

Definition fits (w : nat) (v : Z) : Prop := 0 <= v < 256 ^ Z.of_nat w.

Lemma length_dec_fields ws : forall bs, length (dec_fields ws bs) = length ws.
Proof. induction ws; intros; simpl; auto. Qed.

Lemma length_enc_fields ws vs : Forall2 fits ws vs -> length (enc_fields ws vs) = sum_list ws.
Proof.
  induction 1 as [|w v ws vs Hf Hfs IH]; [done|]. simpl. by rewrite length_app, length_le_bytes, IH.
Qed.

Lemma dec_fields_fits ws : forall bs, bytes bs -> length bs = sum_list ws ->
  Forall2 fits ws (dec_fields ws bs).
Proof.
  induction ws as [|w ws IH]; intros bs Hb Hl; simpl in *; [constructor|constructor].
  - pose proof (le_val_range (take w bs) (Forall_take _ _ _ Hb)) as Hr. unfold lenZ in Hr.
    rewrite length_take in Hr. unfold fits. by replace (w `min` length bs)%nat with w in Hr by lia.
  - apply IH; [by apply Forall_drop|rewrite length_drop; lia].
Qed.

Lemma bytes_enc_fields ws : forall vs, bytes (enc_fields ws vs).
Proof.
  induction ws as [|w ws IH]; intros [|v vs]; try constructor.
  cbn [enc_fields]. rewrite bytes_app. auto using bytes_le_bytes.
Qed.

Lemma dec_enc_fields ws vs : Forall2 fits ws vs -> dec_fields ws (enc_fields ws vs) = vs.
Proof.
  induction 1 as [|w v ws vs Hf Hfs IH]; [done|]. cbn [enc_fields dec_fields].
  rewrite take_app_length', drop_app_length' by (by rewrite length_le_bytes).
  by rewrite le_val_bytes, IH.
Qed.

Lemma enc_dec_fields ws : forall bs, bytes bs -> length bs = sum_list ws ->
  enc_fields ws (dec_fields ws bs) = bs.
Proof.
  induction ws as [|w ws IH]; intros bs Hb Hl; cbn [enc_fields dec_fields]; simpl in Hl.
  - by destruct bs.
  - rewrite IH by (try (by apply Forall_drop); rewrite length_drop; lia).
    replace w with (length (take w bs)) at 1 by (rewrite length_take; lia).
    rewrite le_bytes_val by (by apply Forall_take). apply take_drop.
Qed.

(** ** The superblock *)

Record superblock := Superblock {
  s_ninodes : Z; s_pad0 : Z; s_imap_blocks : Z; s_zmap_blocks : Z; s_firstdatazone : Z;
  s_log_zone_size : Z; s_pad1 : Z; s_max_size : Z; s_zones : Z; s_magic : Z; s_pad2 : Z;
  s_blocksize : Z; s_disk_version : Z }.

Definition sb_widths : list nat := [4; 2; 2; 2; 2; 2; 2; 4; 4; 2; 2; 2; 1]%nat.

Definition sb_fields (s : superblock) : list Z :=
  [s_ninodes s; s_pad0 s; s_imap_blocks s; s_zmap_blocks s; s_firstdatazone s;
   s_log_zone_size s; s_pad1 s; s_max_size s; s_zones s; s_magic s; s_pad2 s;
   s_blocksize s; s_disk_version s].

Definition decode_sb (bs : list Z) : superblock :=
  let f := dec_fields sb_widths bs in
  let g := fun k => lget 0 f k in
  Superblock (g 0) (g 1) (g 2) (g 3) (g 4) (g 5) (g 6) (g 7) (g 8) (g 9) (g 10) (g 11) (g 12).

Definition encode_sb (s : superblock) : list Z := enc_fields sb_widths (sb_fields s).

Definition sb_wf (s : superblock) : Prop := Forall2 fits sb_widths (sb_fields s).

Lemma decode_encode_sb s : sb_wf s -> decode_sb (encode_sb s) = s.
Proof.
  intros H. unfold decode_sb, encode_sb. rewrite dec_enc_fields by done. by destruct s.
Qed.

(** ** Inodes *)

Record inode := Inode {
  i_mode : Z; i_nlinks : Z; i_uid : Z; i_gid : Z; i_size : Z; i_atime : Z; i_mtime : Z;
  i_ctime : Z; i_zone : list Z }.

Definition inode_widths : list nat := [2; 2; 2; 2; 4; 4; 4; 4; 4; 4; 4; 4; 4; 4; 4; 4; 4; 4]%nat.

Definition inode_fields (i : inode) : list Z :=
  [i_mode i; i_nlinks i; i_uid i; i_gid i; i_size i; i_atime i; i_mtime i; i_ctime i] ++ i_zone i.

Definition decode_inode (bs : list Z) : inode :=
  let f := dec_fields inode_widths bs in
  let g := fun k => lget 0 f k in
  Inode (g 0) (g 1) (g 2) (g 3) (g 4) (g 5) (g 6) (g 7) (drop 8 f).

Definition encode_inode (i : inode) : list Z := enc_fields inode_widths (inode_fields i).

Definition inode_wf (i : inode) : Prop := Forall2 fits inode_widths (inode_fields i).

Lemma decode_encode_inode i : inode_wf i -> decode_inode (encode_inode i) = i.
Proof.
  intros H. unfold decode_inode, encode_inode. rewrite dec_enc_fields by done. by destruct i.
Qed.

Lemma inode_fields_decode bs : inode_fields (decode_inode bs) = dec_fields inode_widths bs.
Proof. reflexivity. Qed.

Lemma encode_decode_inode bs : bytes bs -> length bs = 64%nat -> encode_inode (decode_inode bs) = bs.
Proof.
  intros. unfold encode_inode. rewrite inode_fields_decode. by apply enc_dec_fields.
Qed.

Lemma decode_inode_wf bs : bytes bs -> length bs = 64%nat -> inode_wf (decode_inode bs).
Proof.
  intros. unfold inode_wf. rewrite inode_fields_decode. by apply dec_fields_fits.
Qed.

Lemma lenZ_encode_inode i : inode_wf i -> lenZ (encode_inode i) = 64.
Proof.
  intros H. unfold lenZ, encode_inode. by rewrite (length_enc_fields _ _ H).
Qed.

Lemma bytes_encode_inode i : bytes (encode_inode i).
Proof. apply bytes_enc_fields. Qed.

(** What [inode_wf] says field by field. *)
Record inode_ranges (i : inode) : Prop := {
  ir_mode : is_u16 (i_mode i);
  ir_nlinks : is_u16 (i_nlinks i);
  ir_uid : is_u16 (i_uid i);
  ir_gid : is_u16 (i_gid i);
  ir_size : is_u32 (i_size i);
  ir_atime : is_u32 (i_atime i);
  ir_mtime : is_u32 (i_mtime i);
  ir_ctime : is_u32 (i_ctime i);
  ir_nzone : length (i_zone i) = 10%nat;
  ir_zone : Forall is_u32 (i_zone i) }.

Lemma fits2 v : fits 2 v <-> is_u16 v.
Proof. done. Qed.
Lemma fits4 v : fits 4 v <-> is_u32 v.
Proof. done. Qed.

Lemma Forall2_fits4 n vs : Forall2 fits (replicate n 4%nat) vs <-> length vs = n /\ Forall is_u32 vs.
Proof.
  revert vs. induction n as [|n IH]; intros vs; simpl.
  - split; [intros H; by inversion H|]. intros [H _]. by destruct vs.
  - split.
    + intros H. inversion H as [|? v ? vs' Hv Hvs]; subst. apply IH in Hvs as [<- Hvs].
      simpl. split; [done|]. by constructor.
    + intros [Hl Hf]. destruct vs as [|v vs]; [done|]. inversion Hf; subst. simpl in Hl.
      constructor; [done|]. apply IH. auto with lia.
Qed.

Lemma inode_wf_ranges i : inode_wf i <-> inode_ranges i.
Proof.
  unfold inode_wf, inode_widths, inode_fields. cbn [app].
  change [4; 4; 4; 4; 4; 4; 4; 4; 4; 4]%nat with (replicate 10 4%nat).
  change (fits 2) with is_u16. rewrite !Forall2_cons_iff, Forall2_fits4.
  split.
  - intros (?&?&?&?&?&?&?&?&?&?). by constructor.
  - intros []. do 8 (split; [assumption|]). split; assumption.
Qed.

(** ** Directory entries *)

Definition MINIX_NAME_MAX : Z := 60.
Definition DIRENT_SIZE : Z := 64.
Definition DIRENTS_PER_BLOCK : Z := 16.

Definition de_inode (buf : list Z) (i : Z) : Z := rd32 buf (DIRENT_SIZE * i).
Definition de_name (buf : list Z) (i : Z) : list Z := lsub buf (DIRENT_SIZE * i + 4) MINIX_NAME_MAX.
Definition set_de_inode (buf : list Z) (i v : Z) : list Z := wr32 buf (DIRENT_SIZE * i) v.
Definition set_de_name (buf : list Z) (i : Z) (name : list Z) : list Z :=
  lsplice buf (DIRENT_SIZE * i + 4) name.
