(* ===== verification/Minix.v ===== *)
(** * The MINIX file system: operations (kernel/fs/minixfs.c)

    One definition per function of minixfs.c, in its order, over the disk of Disk.
    Functions that only read the disk return values; functions that write it
    return the new disk as well.  The statics set by [minixfs_mount] are the
    record [statics].  Uninitialised automatic variables hold what the class
    [Stack] says: any block or inode, chosen per declaration (indexed by its line
    in minixfs.c), so that a read that fails without being checked leaves that
    content in place, as in the code. *)

From stdpp Require Import base list gmap numbers.
From S2P Require Import Prelude CString Disk Layout.

#[local] Open Scope Z_scope.

Class Stack := {
  stack_block : Z -> list Z;
  stack_inode : Z -> inode;
  stack_block_ok : forall n, Disk.block (stack_block n);
  stack_inode_ok : forall n, inode_wf (stack_inode n) }.

Module Minix.
Import Disk.

Definition MINIX3_MAGIC : Z := 19802.
Definition MINIX_ROOT_INO : Z := 1.
Definition S_IFMT : Z := 61440.
Definition S_IFREG : Z := 32768.
Definition S_IFDIR : Z := 16384.
Definition O_CREAT : Z := 256.
Definition O_TRUNC : Z := 512.
Definition SB_OFFSET_BLOCK : Z := 1.
Definition INODES_PER_BLOCK : Z := 16.
Definition ZONES_PER_BLOCK : Z := 256.

Definition S_ISDIR (mode : Z) : bool := Z.land mode S_IFMT =? S_IFDIR.
Definition S_ISREG (mode : Z) : bool := Z.land mode S_IFMT =? S_IFREG.

Record statics := Statics {
  sb : superblock;
  imap_start : Z;
  zmap_start : Z;
  inode_start : Z;
  data_start : Z;
  mounted : bool }.

Definition set_mode (v : Z) (i : inode) : inode :=
  Inode v (i_nlinks i) (i_uid i) (i_gid i) (i_size i) (i_atime i) (i_mtime i) (i_ctime i) (i_zone i).
Definition set_nlinks (v : Z) (i : inode) : inode :=
  Inode (i_mode i) v (i_uid i) (i_gid i) (i_size i) (i_atime i) (i_mtime i) (i_ctime i) (i_zone i).
Definition set_size (v : Z) (i : inode) : inode :=
  Inode (i_mode i) (i_nlinks i) (i_uid i) (i_gid i) v (i_atime i) (i_mtime i) (i_ctime i) (i_zone i).
Definition set_zones (v : list Z) (i : inode) : inode :=
  Inode (i_mode i) (i_nlinks i) (i_uid i) (i_gid i) (i_size i) (i_atime i) (i_mtime i) (i_ctime i) v.
Definition zone (i : inode) (k : Z) : Z := lget 0 (i_zone i) k.
Definition set_zone (k v : Z) (i : inode) : inode := set_zones (lset (i_zone i) k v) i.
(** An inode cleared with [memset]. *)
Definition zero_inode : inode := Inode 0 0 0 0 0 0 0 0 (replicate 10 0).

Section ops.
Context `{STK : !Stack}.
Implicit Types (m : statics) (d : disk) (ino : Z).

(** ** The inode table *)

Definition read_inode m d ino (out : inode) : Z * inode :=
  if ino <? 1 then (-1, out) else
  let idx := u32 (ino - 1) in
  let block := u32 (inode_start m + idx / INODES_PER_BLOCK) in
  let off := idx mod INODES_PER_BLOCK in
  let '(r, buf) := block_read d block (stack_block 35) in
  if r <? 0 then (-1, out) else (0, decode_inode (lsub buf (64 * off) 64)).

Definition write_inode m d ino (i : inode) : Z * disk :=
  if ino <? 1 then (-1, d) else
  let idx := u32 (ino - 1) in
  let block := u32 (inode_start m + idx / INODES_PER_BLOCK) in
  let off := idx mod INODES_PER_BLOCK in
  let '(r, buf) := block_read d block (stack_block 47) in
  if r <? 0 then (-1, d) else block_write d block (lsplice buf (64 * off) (encode_inode i)).

(** ** The bitmaps *)

Definition bit_clear (buf : list Z) (i : Z) : bool :=
  Z.land (lget 0 buf (i / 8)) (Z.shiftl 1 (i mod 8)) =? 0.

Definition set_bit (buf : list Z) (i : Z) : list Z :=
  lset buf (i / 8) (u8 (Z.lor (lget 0 buf (i / 8)) (Z.shiftl 1 (i mod 8)))).

Definition clear_bit (buf : list Z) (i : Z) : list Z :=
  lset buf (i / 8) (u8 (Z.land (lget 0 buf (i / 8)) (not32 (Z.shiftl 1 (i mod 8))))).

(** The outer loop from block [b] of the map on, [n] blocks left. *)
Fixpoint bitmap_scan d (map_start b : Z) (n : nat) (buf : list Z) : option Z * disk :=
  match n with
  | O => (None, d)
  | S n' =>
      let '(r, buf1) := block_read d (u32 (map_start + b)) buf in
      if r <? 0 then (None, d)
      else
        match find_first (bit_clear buf1) 0 (Z.to_nat (MINIX_BLOCK_SIZE * 8)) with
        | Some i =>
            let '(w, d') := block_write d (u32 (map_start + b)) (set_bit buf1 i) in
            if w <? 0 then (None, d') else (Some (u32 (b * MINIX_BLOCK_SIZE * 8 + i)), d')
        | None => bitmap_scan d map_start (b + 1) n' buf1
        end
  end.

Definition bitmap_find_free d (map_start map_blocks : Z) : option Z * disk :=
  bitmap_scan d map_start 0 (Z.to_nat map_blocks) (stack_block 55).

Definition bitmap_clear d (map_start num : Z) : Z * disk :=
  let block := num / (MINIX_BLOCK_SIZE * 8) in
  let rem := num mod (MINIX_BLOCK_SIZE * 8) in
  let '(r, buf) := block_read d (u32 (map_start + block)) (stack_block 73) in
  if r <? 0 then (-1, d) else block_write d (u32 (map_start + block)) (clear_bit buf rem).

Definition alloc_inode m d : Z * disk :=
  match bitmap_find_free d (imap_start m) (s_imap_blocks (sb m)) with
  | (None, d') => (0, d')
  | (Some num, d') => (num, d')
  end.

Definition zero_block : list Z := replicate 1024 0.

Definition alloc_zone m d : Z * disk :=
  match bitmap_find_free d (zmap_start m) (s_zmap_blocks (sb m)) with
  | (None, d') => (0, d')
  | (Some num, d') =>
      let z := u32 (num + s_firstdatazone (sb m) - 1) in
      (z, snd (block_write d' z zero_block))
  end.

Definition free_inode m d ino : disk := snd (bitmap_clear d (imap_start m) ino).

Definition free_zone m d (z : Z) : disk :=
  if z <? s_firstdatazone (sb m) then d
  else snd (bitmap_clear d (zmap_start m) (u32 (z - s_firstdatazone (sb m) + 1))).

(** ** File block to zone *)

(** Entry [k] of an indirect block held in a buffer of 256 words. *)
Definition ind_get (buf : list Z) (k : Z) : Z := rd32 buf (4 * k).
Definition ind_set (buf : list Z) (k v : Z) : list Z := wr32 buf (4 * k) v.

(** [if (in->i_zone[k] == 0) { in->i_zone[k] = alloc_zone(); write_inode(ino, in); }] *)
Definition ensure_zone m d ino (i : inode) (k : Z) : inode * disk :=
  if zone i k =? 0 then
    let '(z, d1) := alloc_zone m d in
    let i1 := set_zone k z i in
    (i1, snd (write_inode m d1 ino i1))
  else (i, d).

(** [block_read(blk, ind); if (ind[k] == 0 && alloc) { ind[k] = alloc_zone();
    block_write(blk, ind); } return ind[k];] *)
Definition indirect_entry m d (blk k : Z) (alloc : bool) (ind : list Z) : Z * disk :=
  let buf := snd (block_read d blk ind) in
  if (ind_get buf k =? 0) && alloc then
    let '(z, d1) := alloc_zone m d in
    let buf1 := ind_set buf k z in
    (ind_get buf1 k, snd (block_write d1 blk buf1))
  else (ind_get buf k, d).

Definition map_block m d (i : inode) (fileblock : Z) (alloc : bool) ino : Z * inode * disk :=
  if fileblock <? 7 then
    let '(i1, d1) := if alloc then ensure_zone m d ino i fileblock else (i, d) in
    (zone i1 fileblock, i1, d1)
  else
  let fb := fileblock - 7 in
  if fb <? ZONES_PER_BLOCK then
    if (zone i 7 =? 0) && negb alloc then (0, i, d)
    else
      let '(i1, d1) := ensure_zone m d ino i 7 in
      let '(z, d2) := indirect_entry m d1 (zone i1 7) fb alloc (stack_block 121) in
      (z, i1, d2)
  else
  let fb := fb - ZONES_PER_BLOCK in
  let dbl_idx := fb / ZONES_PER_BLOCK in
  let sng_idx := fb mod ZONES_PER_BLOCK in
  if ZONES_PER_BLOCK <=? dbl_idx then (0, i, d)
  else if (zone i 8 =? 0) && negb alloc then (0, i, d)
  else
    let '(i1, d1) := ensure_zone m d ino i 8 in
    let '(s, d2) := indirect_entry m d1 (zone i1 8) dbl_idx alloc (stack_block 138) in
    if (s =? 0) && negb alloc then (0, i1, d2)
    else
      let '(z, d3) := indirect_entry m d2 s sng_idx alloc (stack_block 145) in
      (z, i1, d3).

(** ** Mounting *)

(** The first component is the result; [console_printf] output is not modelled. *)
Definition minixfs_mount m d : Z * statics :=
  let '(r, buf) := block_read d SB_OFFSET_BLOCK (stack_block 155) in
  if r <? 0 then (-1, m) else
  let s := decode_sb (take 31 buf) in
  if negb (s_magic s =? MINIX3_MAGIC)
  then (-1, Statics s (imap_start m) (zmap_start m) (inode_start m) (data_start m) (mounted m))
  else
    let imap := 2 in
    let zmap := u32 (imap + s_imap_blocks s) in
    let inodes := u32 (zmap + s_zmap_blocks s) in
    (0, Statics s imap zmap inodes (s_firstdatazone s) true).

(** ** Directories *)

Definition nblocks (i : inode) : Z := u32 (i_size i + MINIX_BLOCK_SIZE - 1) / MINIX_BLOCK_SIZE.

(** A live entry of the block whose name is [name]. *)
Definition de_match (buf name : list Z) (k : Z) : bool :=
  negb (de_inode buf k =? 0) && (CStr.cstrncmp 60 (de_name buf k) name =? 0).

Definition dirents : nat := Z.to_nat DIRENTS_PER_BLOCK.

Fixpoint dir_lookup_from m d (dir : Z) (i : inode) (name : list Z) (b : Z) (n : nat) (buf : list Z)
    : option Z :=
  match n with
  | O => None
  | S n' =>
      let z := fst (fst (map_block m d i b false dir)) in
      if z =? 0 then dir_lookup_from m d dir i name (b + 1) n' buf
      else
        let buf1 := snd (block_read d z buf) in
        match find_first (de_match buf1 name) 0 dirents with
        | Some k => Some (de_inode buf1 k)
        | None => dir_lookup_from m d dir i name (b + 1) n' buf1
        end
  end.

Definition dir_lookup m d (dir : Z) (name : list Z) : option Z :=
  let '(r, i) := read_inode m d dir (stack_inode 173) in
  if r <? 0 then None
  else if negb (S_ISDIR (i_mode i)) then None
  else dir_lookup_from m d dir i name 0 (Z.to_nat (nblocks i)) (stack_block 177).

Definition put_entry (buf : list Z) (k : Z) (name : list Z) (ino : Z) : list Z :=
  set_de_name (set_de_inode buf k ino) k (CStr.cstrncpy name 60).

(** The loop of [dir_add] over the existing blocks: the disk after a successful
    insertion, or the state in which the loop ends. *)
Fixpoint dir_add_from m d (dir : Z) (i : inode) (name : list Z) (ino b : Z) (n : nat) (buf : list Z)
    : disk + (inode * disk) :=
  match n with
  | O => inr (i, d)
  | S n' =>
      let '(z, i1, d1) := map_block m d i b true dir in
      let buf1 := snd (block_read d1 z buf) in
      match find_first (fun k => de_inode buf1 k =? 0) 0 dirents with
      | Some k => inl (snd (block_write d1 z (put_entry buf1 k name ino)))
      | None => dir_add_from m d1 dir i1 name ino (b + 1) n' buf1
      end
  end.

Definition dir_add m d (dir : Z) (name : list Z) (ino : Z) : Z * disk :=
  let '(r, i) := read_inode m d dir (stack_inode 195) in
  if r <? 0 then (-1, d) else
  match dir_add_from m d dir i name ino 0 (Z.to_nat (nblocks i)) (stack_block 198) with
  | inl d1 => (0, d1)
  | inr (i1, d1) =>
      let '(z, i2, d2) := map_block m d1 i1 (nblocks i) true dir in
      if z =? 0 then (-1, d2)
      else
        let d3 := snd (block_write d2 z (put_entry zero_block 0 name ino)) in
        let i3 := set_size (u32 ((nblocks i + 1) * MINIX_BLOCK_SIZE)) i2 in
        (0, snd (write_inode m d3 dir i3))
  end.

Definition wipe_entry (buf : list Z) (k : Z) : list Z :=
  set_de_name (set_de_inode buf k 0) k (replicate 60 0).

Fixpoint dir_remove_from m d (dir : Z) (i : inode) (name : list Z) (b : Z) (n : nat) (buf : list Z)
    : Z * disk :=
  match n with
  | O => (-1, d)
  | S n' =>
      let z := fst (fst (map_block m d i b false dir)) in
      if z =? 0 then dir_remove_from m d dir i name (b + 1) n' buf
      else
        let buf1 := snd (block_read d z buf) in
        match find_first (de_match buf1 name) 0 dirents with
        | Some k => (0, snd (block_write d z (wipe_entry buf1 k)))
        | None => dir_remove_from m d dir i name (b + 1) n' buf1
        end
  end.

Definition dir_remove m d (dir : Z) (name : list Z) : Z * disk :=
  let '(r, i) := read_inode m d dir (stack_inode 225) in
  if r <? 0 then (-1, d)
  else dir_remove_from m d dir i name 0 (Z.to_nat (nblocks i)) (stack_block 228).

(** ** Paths: NUL-terminated strings are lists without their terminator *)

Definition slash : Z := 47.

(** One component, cut to 60 characters, and the rest of the path. *)
Fixpoint scan_comp (p : list Z) (comp : list Z) : list Z * list Z :=
  match p with
  | c :: p' =>
      if c =? slash then (comp, p)
      else scan_comp p' (if lenZ comp <? MINIX_NAME_MAX then comp ++ [c] else comp)
  | [] => (comp, [])
  end.

Fixpoint skip_slashes (p : list Z) : list Z :=
  match p with
  | c :: p' => if c =? slash then skip_slashes p' else p
  | [] => []
  end.

(** The loop of [split_path]; every round but the last consumes a character. *)
Fixpoint split_from m d (fuel : nat) (cur : Z) (p : list Z) : option (Z * list Z) :=
  match fuel with
  | O => None
  | S f =>
      let '(comp, p1) := scan_comp p [] in
      let p2 := skip_slashes p1 in
      match p2 with
      | [] => match comp with
              | [] => Some (MINIX_ROOT_INO, [])
              | _ => Some (cur, comp)
              end
      | _ => match dir_lookup m d cur comp with
             | None => None
             | Some next => split_from m d f next p2
             end
      end
  end.

Definition split_path m d (path : list Z) : option (Z * list Z) :=
  match path with
  | c :: p => if negb (c =? slash) then None else split_from m d (S (length p)) MINIX_ROOT_INO p
  | [] => None
  end.

Fixpoint resolve_from m d (fuel : nat) (cur : Z) (p : list Z) : Z :=
  match fuel with
  | O => cur
  | S f =>
      match p with
      | [] => cur
      | _ =>
          let '(comp, p1) := scan_comp p [] in
          let p2 := skip_slashes p1 in
          match comp with
          | [] => cur
          | _ => match dir_lookup m d cur comp with
                 | None => 0
                 | Some next => resolve_from m d f next p2
                 end
          end
      end
  end.

(** Callers pass a non-empty path. *)
Definition minixfs_resolve m d (path : list Z) : Z :=
  if negb (mounted m) then 0
  else if CStr.cstrcmp path [slash] =? 0 then MINIX_ROOT_INO
  else resolve_from m d (S (length path)) MINIX_ROOT_INO (List.tl path).

Definition minixfs_check_perm m d (ino want uid gid : Z) : Z :=
  let '(r, i) := read_inode m d ino (stack_inode 299) in
  if r <? 0 then -1
  else if uid =? 0 then 0
  else
    let perm :=
      if i_uid i =? uid then Z.land (Z.shiftr (i_mode i) 6) 7
      else if i_gid i =? gid then Z.land (Z.shiftr (i_mode i) 3) 7
      else Z.land (i_mode i) 7 in
    if Z.land perm want =? want then 0 else -1.

(** ** Files *)

Definition minixfs_creat m d (path : list Z) (mode : Z) : Z * disk :=
  match split_path m d path with
  | None => (-1, d)
  | Some (parent, leaf) =>
      match leaf with
      | [] => (-1, d)
      | _ =>
          match dir_lookup m d parent leaf with
          | Some existing => (i32 existing, d)
          | None =>
              let '(ino, d1) := alloc_inode m d in
              if ino =? 0 then (-1, d1)
              else
                let i := set_nlinks 1 (set_mode (Z.lor S_IFREG (Z.land mode 4095)) zero_inode) in
                let d2 := snd (write_inode m d1 ino i) in
                let '(r, d3) := dir_add m d2 parent leaf ino in
                if r <? 0 then (-1, free_inode m d3 ino) else (i32 ino, d3)
          end
      end
  end.

(** [if (in.i_zone[i]) { free_zone(in.i_zone[i]); in.i_zone[i] = 0; }] *)
Definition trunc_zone m (k : Z) (s : inode * disk) : inode * disk :=
  let '(i, d) := s in
  if negb (zone i k =? 0) then (set_zone k 0 i, free_zone m d (zone i k)) else (i, d).

Definition minixfs_open m d (path : list Z) (flags mode : Z) : Z * disk :=
  let ino := minixfs_resolve m d path in
  if ino =? 0 then
    if negb (Z.land flags O_CREAT =? 0) then minixfs_creat m d path mode else (-1, d)
  else if negb (Z.land flags O_TRUNC =? 0) then
    let '(_, i) := read_inode m d ino (stack_inode 345) in
    if S_ISREG (i_mode i) then
      let '(i1, d1) := for_loop (trunc_zone m) 0 7 (i, d) in
      (i32 ino, snd (write_inode m d1 ino (set_size 0 i1)))
    else (i32 ino, d)
  else (i32 ino, d).

Fixpoint read_loop (fuel : nat) m d ino (i : inode) (count offset done : Z) (out blk : list Z)
    : Z * list Z :=
  match fuel with
  | O => (done, out)
  | S f =>
      if done <? count then
        let fileblock := u32 (offset + done) / MINIX_BLOCK_SIZE in
        let blkoff := u32 (offset + done) mod MINIX_BLOCK_SIZE in
        let z := fst (fst (map_block m d i fileblock false ino)) in
        let chunk := Z.min (MINIX_BLOCK_SIZE - blkoff) (count - done) in
        if z =? 0 then
          read_loop f m d ino i count offset (done + chunk)
            (lsplice out done (replicate (Z.to_nat chunk) 0)) blk
        else
          let blk1 := snd (block_read d z blk) in
          read_loop f m d ino i count offset (done + chunk)
            (lsplice out done (lsub blk1 blkoff chunk)) blk1
      else (done, out)
  end.

Definition minixfs_read m d ino (buf : list Z) (count offset : Z) : Z * list Z :=
  let '(r, i) := read_inode m d ino (stack_inode 359) in
  if r <? 0 then (-1, buf)
  else if i_size i <=? u32 offset then (0, buf)
  else
    let count1 := if i_size i <? u32 (offset + count) then u32 (i_size i - offset) else count in
    let '(done, out) := read_loop (Z.to_nat count1) m d ino i count1 offset 0 buf (stack_block 366) in
    (i32 done, out).

(** The loop ends with the inode, disk and bytes written, and [false] when a zone
    could not be allocated. *)
Fixpoint write_loop (fuel : nat) m d ino (i : inode) (src : list Z) (count offset done : Z)
    (blk : list Z) : bool * Z * inode * disk :=
  match fuel with
  | O => (true, done, i, d)
  | S f =>
      if done <? count then
        let fileblock := u32 (offset + done) / MINIX_BLOCK_SIZE in
        let blkoff := u32 (offset + done) mod MINIX_BLOCK_SIZE in
        let '(z, i1, d1) := map_block m d i fileblock true ino in
        if z =? 0 then (false, done, i1, d1)
        else
          let chunk := Z.min (MINIX_BLOCK_SIZE - blkoff) (count - done) in
          let blk1 :=
            if negb (blkoff =? 0) || negb (chunk =? MINIX_BLOCK_SIZE)
            then snd (block_read d1 z blk) else zero_block in
          let blk2 := lsplice blk1 blkoff (lsub src done chunk) in
          let d2 := snd (block_write d1 z blk2) in
          write_loop f m d2 ino i1 src count offset (done + chunk) blk2
      else (true, done, i, d)
  end.

Definition minixfs_write m d ino (buf : list Z) (count offset : Z) : Z * disk :=
  let '(r, i) := read_inode m d ino (stack_inode 386) in
  if r <? 0 then (-1, d)
  else
    let '(ok, done, i1, d1) :=
      write_loop (Z.to_nat count) m d ino i buf count offset 0 (stack_block 391) in
    if negb ok then (i32 done, d1)
    else
      let '(_, i2) := read_inode m d1 ino i1 in
      if i_size i2 <? u32 (offset + count)
      then (i32 done, snd (write_inode m d1 ino (set_size (u32 (offset + count)) i2)))
      else (i32 done, d1).

Record stat := Stat {
  st_dev : Z; st_ino : Z; st_mode : Z; st_nlink : Z; st_uid : Z; st_gid : Z; st_size : Z;
  st_atime : Z; st_mtime : Z; st_ctime : Z }.

Definition minixfs_stat m d (path : list Z) : option stat :=
  let ino := minixfs_resolve m d path in
  if ino =? 0 then None
  else
    let '(r, i) := read_inode m d ino (stack_inode 420) in
    if r <? 0 then None
    else Some (Stat 0 ino (i_mode i) (i_nlinks i) (i_uid i) (i_gid i) (i32 (i_size i))
                 (i_atime i) (i_mtime i) (i_ctime i)).

Definition dot : list Z := [46].
Definition dotdot : list Z := [46; 46].

Definition minixfs_mkdir m d (path : list Z) (mode : Z) : Z * disk :=
  match split_path m d path with
  | None => (-1, d)
  | Some (parent, leaf) =>
      match leaf with
      | [] => (-1, d)
      | _ =>
          match dir_lookup m d parent leaf with
          | Some _ => (-1, d)
          | None =>
              let '(ino, d1) := alloc_inode m d in
              if ino =? 0 then (-1, d1)
              else
                let i := set_nlinks 2 (set_mode (Z.lor S_IFDIR (Z.land mode 4095)) zero_inode) in
                let d2 := snd (write_inode m d1 ino i) in
                let '(r1, d3) := dir_add m d2 ino dot ino in
                if r1 <? 0 then (-1, free_inode m d3 ino) else
                let '(r2, d4) := dir_add m d3 ino dotdot parent in
                if r2 <? 0 then (-1, free_inode m d4 ino) else
                let '(r3, d5) := dir_add m d4 parent leaf ino in
                if r3 <? 0 then (-1, free_inode m d5 ino) else
                let '(_, pin) := read_inode m d5 parent (stack_inode 458) in
                (0, snd (write_inode m d5 parent (set_nlinks (u16 (i_nlinks pin + 1)) pin)))
          end
      end
  end.

(** An entry that makes a directory non-empty. *)
Definition de_blocks (buf : list Z) (k : Z) : bool :=
  negb (de_inode buf k =? 0) && negb (CStr.cstrcmp (de_name buf k) dot =? 0)
  && negb (CStr.cstrcmp (de_name buf k) dotdot =? 0).

Fixpoint empty_from m d (dir : Z) (i : inode) (b : Z) (n : nat) (buf : list Z) : Z :=
  match n with
  | O => 1
  | S n' =>
      let z := fst (fst (map_block m d i b false dir)) in
      if z =? 0 then empty_from m d dir i (b + 1) n' buf
      else
        let buf1 := snd (block_read d z buf) in
        match find_first (de_blocks buf1) 0 dirents with
        | Some _ => 0
        | None => empty_from m d dir i (b + 1) n' buf1
        end
  end.

Definition dir_is_empty m d (dir : Z) : Z :=
  let '(r, i) := read_inode m d dir (stack_inode 466) in
  if r <? 0 then -1
  else empty_from m d dir i 0 (Z.to_nat (nblocks i)) (stack_block 469).

(** [if (in.i_zone[i]) free_zone(in.i_zone[i]);] *)
Definition release_zone m (z : Z) d : disk := if negb (z =? 0) then free_zone m d z else d.

Definition minixfs_rmdir m d (path : list Z) : Z * disk :=
  match split_path m d path with
  | None => (-1, d)
  | Some (parent, leaf) =>
      match dir_lookup m d parent leaf with
      | None => (-1, d)
      | Some ino =>
          let '(_, i) := read_inode m d ino (stack_inode 492) in
          if negb (S_ISDIR (i_mode i)) then (-1, d)
          else if dir_is_empty m d ino =? 0 then (-1, d)
          else
            let d1 := for_loop (fun k => release_zone m (zone i k)) 0 10 d in
            let d2 := snd (dir_remove m d1 parent leaf) in
            let d3 := free_inode m d2 ino in
            let '(_, pin) := read_inode m d3 parent (stack_inode 503) in
            let pin1 := if 0 <? i_nlinks pin then set_nlinks (i_nlinks pin - 1) pin else pin in
            (0, snd (write_inode m d3 parent pin1))
      end
  end.

Definition minixfs_unlink m d (path : list Z) : Z * disk :=
  match split_path m d path with
  | None => (-1, d)
  | Some (parent, leaf) =>
      match dir_lookup m d parent leaf with
      | None => (-1, d)
      | Some ino =>
          let '(_, i) := read_inode m d ino (stack_inode 517) in
          if S_ISDIR (i_mode i) then (-1, d)
          else
            let i1 := if 0 <? i_nlinks i then set_nlinks (i_nlinks i - 1) i else i in
            let d3 :=
              if i_nlinks i1 =? 0 then
                let d1 := for_loop (fun k => release_zone m (zone i1 k)) 0 7 d in
                let d2 :=
                  if negb (zone i1 7 =? 0) then
                    let ind := snd (block_read d1 (zone i1 7) (stack_block 526)) in
                    free_zone m
                      (for_loop (fun k => release_zone m (ind_get ind k)) 0 (Z.to_nat ZONES_PER_BLOCK) d1)
                      (zone i1 7)
                  else d1 in
                free_inode m d2 ino
              else snd (write_inode m d ino i1) in
            (0, snd (dir_remove m d3 parent leaf))
      end
  end.

(** Scan one block: the entry whose rank is [index], or the entries counted. *)
Fixpoint readdir_block (buf : list Z) (k : Z) (n : nat) (index seen : Z) : (Z * list Z) + Z :=
  match n with
  | O => inr seen
  | S n' =>
      if de_inode buf k =? 0 then readdir_block buf (k + 1) n' index seen
      else if seen =? index then inl (de_inode buf k, CStr.cstrncpy (de_name buf k) 60 ++ [0])
      else readdir_block buf (k + 1) n' index (u32 (seen + 1))
  end.

Fixpoint readdir_from m d (dir : Z) (i : inode) (index seen b : Z) (n : nat) (buf : list Z)
    : option (Z * list Z) :=
  match n with
  | O => None
  | S n' =>
      let z := fst (fst (map_block m d i b false dir)) in
      if z =? 0 then readdir_from m d dir i index seen (b + 1) n' buf
      else
        let buf1 := snd (block_read d z buf) in
        match readdir_block buf1 0 dirents index seen with
        | inl e => Some e
        | inr seen1 => readdir_from m d dir i index seen1 (b + 1) n' buf1
        end
  end.

(** [Some] is the result 1 with the entry, [None] the result -1. *)
Definition minixfs_readdir m d (dir index : Z) : option (Z * list Z) :=
  let '(r, i) := read_inode m d dir (stack_inode 541) in
  if r <? 0 then None
  else if negb (S_ISDIR (i_mode i)) then None
  else readdir_from m d dir i index 0 0 (Z.to_nat (nblocks i)) (stack_block 545).

Definition minixfs_chmod m d (path : list Z) (mode : Z) : Z * disk :=
  let ino := minixfs_resolve m d path in
  if ino =? 0 then (-1, d)
  else
    let '(r, i) := read_inode m d ino (stack_inode 569) in
    if r <? 0 then (-1, d)
    else
      let '(w, d1) := write_inode m d ino
        (set_mode (Z.lor (Z.land (i_mode i) S_IFMT) (Z.land mode 4095)) i) in
      if w <? 0 then (-1, d1) else (0, d1).

Definition minixfs_size m d ino : Z :=
  let '(r, i) := read_inode m d ino (stack_inode 577) in
  if r <? 0 then 0 else i_size i.

Definition minixfs_is_dir m d ino : Z :=
  let '(r, i) := read_inode m d ino (stack_inode 583) in
  if r <? 0 then 0 else if S_ISDIR (i_mode i) then 1 else 0.

End ops.
End Minix.
