(* ===== verification/MinixTable.v ===== *)
(** * The inode table and the bitmaps of the MINIX file system

    The abstract view of the metadata of a disk: [iget] is the inode with a given
    number, [bit] a bit of a bitmap.  Under [layout] (the three metadata regions are
    where the superblock says, on the disk and below the data zones) every routine
    of minixfs.c that touches metadata is characterised by its effect on the view. *)

From stdpp Require Import base list gmap numbers.
From S2P Require Import Prelude CString Disk Layout Minix.

#[local] Open Scope Z_scope.

Module MinixTable.
Import Disk Minix.

(** ** Bits of a block *)

Definition bbit (buf : list Z) (i : Z) : bool := Z.testbit (lget 0 buf (i / 8)) (i mod 8).

Lemma bit_clear_bbit buf i : bit_clear buf i = negb (bbit buf i).
Proof. unfold bit_clear, bbit. apply land_bit_zero. dlia. Qed.

Lemma u8_testbit x k : 0 <= k < 8 -> Z.testbit (u8 x) k = Z.testbit x k.
Proof. intros. unfold u8. change 256 with (2 ^ 8). apply Z.mod_pow2_bits_low. lia. Qed.

Lemma same_byte i j : i / 8 = j / 8 -> (j mod 8 =? i mod 8) = (i =? j).
Proof. intros H. do 2 bcase; dlia. Qed.

Lemma bbit_set buf i j : 0 <= i < 8 * lenZ buf -> bbit (set_bit buf i) j = bbit buf j || (i =? j).
Proof.
  intros Hi. unfold bbit, set_bit. rewrite lget_lset by dlia.
  destruct (Z.eqb_spec (i / 8) (j / 8)) as [He|He].
  - rewrite u8_testbit, lor_bit_spec, same_byte by dlia. by rewrite He.
  - destruct (Z.eqb_spec i j); [congruence|]. by rewrite orb_false_r.
Qed.

Lemma bbit_clear buf i j : 0 <= i < 8 * lenZ buf ->
  bbit (clear_bit buf i) j = bbit buf j && negb (i =? j).
Proof.
  intros Hi. unfold bbit, clear_bit. rewrite lget_lset by dlia.
  destruct (Z.eqb_spec (i / 8) (j / 8)) as [He|He].
  - rewrite u8_testbit by dlia. rewrite Z.land_spec, not32_spec by dlia.
    rewrite Z.shiftl_1_l, Z.pow2_bits_eqb, Z.eqb_sym, same_byte by dlia. by rewrite He.
  - destruct (Z.eqb_spec i j); [congruence|]. by rewrite andb_true_r.
Qed.

Lemma block_set_bit buf i : block buf -> block (set_bit buf i).
Proof.
  intros [Hl Hb]. split; [unfold set_bit; by rewrite lenZ_lset|].
  unfold set_bit. apply bytes_lset; auto with fento.
Qed.

Lemma block_clear_bit buf i : block buf -> block (clear_bit buf i).
Proof.
  intros [Hl Hb]. split; [unfold clear_bit; by rewrite lenZ_lset|].
  unfold clear_bit. apply bytes_lset; auto with fento.
Qed.

(** ** A bitmap that starts at a block *)

Definition bit (d : disk) (start n : Z) : bool := bbit (bget d (start + n / 8192)) (n mod 8192).

(** The blocks [start .. start + n) are on the disk. *)
Definition region (d : disk) (start n : Z) : Prop :=
  0 <= start /\ 0 <= n /\ start + n <= 134217728 /\ forall b, start <= b < start + n -> on_disk d b.

Definition bit_put (d : disk) (start n : Z) : disk :=
  bput d (start + n / 8192) (set_bit (bget d (start + n / 8192)) (n mod 8192)).
Definition bit_drop (d : disk) (start n : Z) : disk :=
  bput d (start + n / 8192) (clear_bit (bget d (start + n / 8192)) (n mod 8192)).

Section bitmap.
Context `{STK : !Stack} (d : disk) (start nblk : Z).
Hypothesis Hwf : wf d.
Hypothesis Hreg : region d start nblk.
Hypothesis Hsmall : nblk < 65536.

Lemma region_block b : start <= b < start + nblk -> block (bget d b).
Proof. intros Hb. apply bget_block; [done|]. by apply Hreg. Qed.

Lemma bit_bput_other n b v : b <> start + n / 8192 -> bit (bput d b v) start n = bit d start n.
Proof. intros Hne. unfold bit. by rewrite bget_bput_ne. Qed.

Lemma num_split n : 0 <= n < 8192 * nblk ->
  start <= start + n / 8192 < start + nblk /\ 0 <= n mod 8192 < 8192.
Proof. dlia. Qed.

Lemma bit_put_spec n n' : 0 <= n < 8192 * nblk ->
  bit (bit_put d start n) start n' = bit d start n' || (n =? n').
Proof.
  intros Hn. destruct (num_split n Hn) as [Hb Hr]. unfold bit at 1, bit_put.
  pose proof (region_block _ Hb) as [Hl _].
  destruct (decide (start + n / 8192 = start + n' / 8192)) as [He|He].
  - rewrite <- He, bget_bput_eq by (apply block_set_bit; by apply region_block).
    rewrite bbit_set by lia. unfold bit. rewrite He. f_equal.
    do 2 bcase; dlia.
  - rewrite bget_bput_ne by done. fold (bit d start n').
    destruct (Z.eqb_spec n n'); [congruence|]. by rewrite orb_false_r.
Qed.

Lemma bit_drop_spec n n' : 0 <= n < 8192 * nblk ->
  bit (bit_drop d start n) start n' = bit d start n' && negb (n =? n').
Proof.
  intros Hn. destruct (num_split n Hn) as [Hb Hr]. unfold bit at 1, bit_drop.
  pose proof (region_block _ Hb) as [Hl _].
  destruct (decide (start + n / 8192 = start + n' / 8192)) as [He|He].
  - rewrite <- He, bget_bput_eq by (apply block_clear_bit; by apply region_block).
    rewrite bbit_clear by lia. unfold bit. rewrite He. do 2 f_equal.
    do 2 bcase; dlia.
  - rewrite bget_bput_ne by done. fold (bit d start n').
    destruct (Z.eqb_spec n n'); [congruence|]. by rewrite andb_true_r.
Qed.

(** The scan from block [b] on, every earlier bit being set. *)
Lemma bitmap_scan_spec k : forall b buf, 0 <= b -> b + Z.of_nat k = nblk -> lenZ buf = 1024 ->
  match bitmap_scan d start b k buf with
  | (Some n, d') =>
      8192 * b <= n < 8192 * nblk /\ bit d start n = false /\
      (forall j, 8192 * b <= j < n -> bit d start j = true) /\ d' = bit_put d start n
  | (None, d') => (forall j, 8192 * b <= j < 8192 * nblk -> bit d start j = true) /\ d' = d
  end.
Proof.
  destruct Hreg as (Hs & Hn & Hmax & Hon).
  induction k as [|k IH]; intros b buf Hb Hk Hbuf; cbn [bitmap_scan].
  - split; [intros; lia|done].
  - rewrite u32_small by dlia.
    rewrite block_read_ok by (try done; apply Hon; lia). cbn [Z.ltb Z.compare].
    pose proof (region_block (start + b) ltac:(lia)) as [Hl Hby].
    assert (forall j, 8192 * b <= j < 8192 * b + 8192 ->
              bit d start j = negb (bit_clear (bget d (start + b)) (j - 8192 * b))) as Hbit.
    { intros j Hj. rewrite bit_clear_bbit, negb_involutive. unfold bit.
      replace (j / 8192) with b by dlia. by replace (j mod 8192) with (j - 8192 * b) by dlia. }
    change (MINIX_BLOCK_SIZE * 8) with 8192.
    destruct (find_first _ 0 _) as [i|] eqn:Hf.
    + apply find_first_Some in Hf as (Hi & Hpi & Hmin).
      rewrite block_write_ok by (apply Hon; lia). cbn [Z.ltb Z.compare].
      rewrite u32_small by (unfold MINIX_BLOCK_SIZE; dlia).
      replace (b * MINIX_BLOCK_SIZE * 8 + i) with (8192 * b + i) by (unfold MINIX_BLOCK_SIZE; lia).
      split_and!; [lia|lia| | |].
      * rewrite Hbit by lia. replace (8192 * b + i - 8192 * b) with i by lia. by rewrite Hpi.
      * intros j Hj. rewrite Hbit by lia. by rewrite Hmin by lia.
      * unfold bit_put. replace ((8192 * b + i) / 8192) with b by dlia.
        by replace ((8192 * b + i) mod 8192) with i by dlia.
    + pose proof (find_first_None _ _ _ Hf) as Hall.
      specialize (IH (b + 1) (bget d (start + b)) ltac:(lia) ltac:(lia) Hl).
      destruct (bitmap_scan d start (b + 1) k _) as [[n|] d'].
      * destruct IH as (Hr & H1 & Hlow & Hd'). split_and!; [lia|lia|done| |done].
        intros j Hj. destruct (Z.lt_ge_cases j (8192 * b + 8192)).
        -- rewrite Hbit, Hall by lia. done.
        -- apply Hlow. lia.
      * destruct IH as (Hlow & Hd'). split; [|done].
        intros j Hj. destruct (Z.lt_ge_cases j (8192 * b + 8192)).
        -- rewrite Hbit, Hall by lia. done.
        -- apply Hlow. lia.
Qed.

Lemma bitmap_find_free_spec :
  match bitmap_find_free d start nblk with
  | (Some n, d') =>
      0 <= n < 8192 * nblk /\ bit d start n = false /\
      (forall j, 0 <= j < n -> bit d start j = true) /\ d' = bit_put d start n
  | (None, d') => (forall j, 0 <= j < 8192 * nblk -> bit d start j = true) /\ d' = d
  end.
Proof.
  pose proof Hreg as (_ & Hn & _). destruct (stack_block_ok 55) as [Hl _].
  apply (bitmap_scan_spec (Z.to_nat nblk) 0 (stack_block 55)); [lia|lia|done].
Qed.

Lemma bitmap_clear_spec n : 0 <= n < 8192 * nblk ->
  bitmap_clear d start n = (2, bit_drop d start n).
Proof.
  intros Hn. destruct (num_split n Hn) as [Hb Hr]. destruct Hreg as (Hs & _ & Hmax & Hon).
  unfold bitmap_clear. change (MINIX_BLOCK_SIZE * 8) with 8192.
  rewrite u32_small by dlia.
  rewrite block_read_ok by (try apply stack_block_ok; auto).
  cbn [Z.ltb Z.compare]. rewrite block_write_ok by auto. done.
Qed.
End bitmap.

(** ** The metadata regions *)

Definition fdz (m : statics) : Z := s_firstdatazone (sb m).

Record layout (m : statics) (d : disk) : Prop := {
  ly_wf : wf d;
  ly_imap : imap_start m = 2;
  ly_zmap : zmap_start m = 2 + s_imap_blocks (sb m);
  ly_inode : inode_start m = zmap_start m + s_zmap_blocks (sb m);
  ly_nimap : 0 < s_imap_blocks (sb m);
  ly_nzmap : 0 < s_zmap_blocks (sb m);
  ly_table : inode_start m <= fdz m < 65536;
  ly_disk : forall b, 0 <= b < fdz m -> on_disk d b }.

(** The inode number lies in the table. *)
Definition ino_ok (m : statics) (ino : Z) : Prop :=
  1 <= ino /\ inode_start m + (ino - 1) / 16 < fdz m.

#[global] Instance ino_ok_dec m ino : Decision (ino_ok m ino).
Proof. unfold ino_ok. apply _. Defined.

Definition iblk (m : statics) (ino : Z) : Z := inode_start m + (ino - 1) / 16.
Definition ioff (ino : Z) : Z := 64 * ((ino - 1) mod 16).
Definition iget (m : statics) (d : disk) (ino : Z) : inode :=
  decode_inode (lsub (bget d (iblk m ino)) (ioff ino) 64).
Definition iput (m : statics) (d : disk) (ino : Z) (i : inode) : disk :=
  bput d (iblk m ino) (lsplice (bget d (iblk m ino)) (ioff ino) (encode_inode i)).

Definition ibit (m : statics) (d : disk) (n : Z) : bool := bit d (imap_start m) n.
Definition zbit (m : statics) (d : disk) (n : Z) : bool := bit d (zmap_start m) n.

(** What two disks may differ in: [eq_except] lists the inode, the bit of each map
    and the data zone that an operation is allowed to change. *)
Record view_eq (m : statics) (d d' : disk) (inos inums znums zones : Z -> Prop) : Prop := {
  ve_layout : layout m d';
  ve_on_disk : forall b, on_disk d' b <-> on_disk d b;
  ve_inode : forall ino, ino_ok m ino -> ~ inos ino -> iget m d' ino = iget m d ino;
  ve_ibit : forall n, 0 <= n < 8192 * s_imap_blocks (sb m) -> ~ inums n -> ibit m d' n = ibit m d n;
  ve_zbit : forall n, 0 <= n < 8192 * s_zmap_blocks (sb m) -> ~ znums n -> zbit m d' n = zbit m d n;
  ve_data : forall z, fdz m <= z -> ~ zones z -> bget d' z = bget d z }.

Arguments ve_layout {m d d' inos inums znums zones} _.
Arguments ve_on_disk {m d d' inos inums znums zones} _.
Arguments ve_inode {m d d' inos inums znums zones} _.
Arguments ve_ibit {m d d' inos inums znums zones} _.
Arguments ve_zbit {m d d' inos inums znums zones} _.
Arguments ve_data {m d d' inos inums znums zones} _.

Definition none : Z -> Prop := fun _ => False.
Definition only (k : Z) : Z -> Prop := fun x => x = k.

Section table.
Context `{STK : !Stack} (m : statics).

Lemma layout_bput d b v : layout m d -> on_disk d b -> block v -> layout m (bput d b v).
Proof.
  intros H Hb Hv. destruct H. constructor; try done.
  - by apply wf_bput.
  - intros b' Hb'. rewrite on_disk_bput by done. auto.
Qed.

Lemma layout_imap d : layout m d -> region d (imap_start m) (s_imap_blocks (sb m)).
Proof. intros []. split_and!; [lia|lia|lia|]. intros; apply ly_disk0; lia. Qed.

Lemma layout_zmap d : layout m d -> region d (zmap_start m) (s_zmap_blocks (sb m)).
Proof. intros []. split_and!; [lia|lia|lia|]. intros; apply ly_disk0; lia. Qed.

Lemma layout_small d : layout m d -> s_imap_blocks (sb m) < 65536 /\ s_zmap_blocks (sb m) < 65536.
Proof. intros []. lia. Qed.

Lemma iblk_on_disk d ino : layout m d -> ino_ok m ino -> on_disk d (iblk m ino).
Proof. intros [] []. apply ly_disk0. unfold iblk. dlia. Qed.

Lemma iblk_block d ino : layout m d -> ino_ok m ino -> block (bget d (iblk m ino)).
Proof. intros HL Hi. apply bget_block; [apply HL|by apply iblk_on_disk]. Qed.

Lemma ioff_range ino : 0 <= ioff ino /\ ioff ino + 64 <= 1024.
Proof. unfold ioff. dlia. Qed.

Lemma iget_wf d ino : layout m d -> ino_ok m ino -> inode_wf (iget m d ino).
Proof.
  intros HL Hi. destruct (iblk_block d ino HL Hi) as [Hl Hb]. pose proof (ioff_range ino).
  apply decode_inode_wf; [by apply bytes_lsub|].
  pose proof (lenZ_lsub (bget d (iblk m ino)) (ioff ino) 64 ltac:(lia) ltac:(lia) ltac:(lia)).
  unfold lenZ in *. lia.
Qed.

Lemma read_inode_ok d ino out : layout m d -> ino_ok m ino ->
  read_inode m d ino out = (0, iget m d ino).
Proof.
  intros HL Hi. pose proof (iblk_on_disk d ino HL Hi) as Hon. destruct HL, Hi as [H1 H2].
  unfold read_inode. destruct (Z.ltb_spec ino 1); [lia|].
  rewrite (u32_small (ino - 1)) by dlia. unfold INODES_PER_BLOCK. rewrite u32_small by dlia.
  rewrite block_read_ok by (done || apply stack_block_ok). done.
Qed.

Lemma write_inode_ok d ino i : layout m d -> ino_ok m ino ->
  write_inode m d ino i = (2, iput m d ino i).
Proof.
  intros HL Hi. pose proof (iblk_on_disk d ino HL Hi) as Hon. destruct HL, Hi as [H1 H2].
  unfold write_inode. destruct (Z.ltb_spec ino 1); [lia|].
  rewrite (u32_small (ino - 1)) by dlia. unfold INODES_PER_BLOCK. rewrite u32_small by dlia.
  rewrite block_read_ok by (done || apply stack_block_ok). cbn [Z.ltb Z.compare].
  by rewrite block_write_ok.
Qed.

Lemma iput_block d ino i : layout m d -> ino_ok m ino -> inode_wf i ->
  block (lsplice (bget d (iblk m ino)) (ioff ino) (encode_inode i)).
Proof.
  intros HL Hi Hwf. destruct (iblk_block d ino HL Hi) as [Hl Hb]. pose proof (ioff_range ino).
  pose proof (lenZ_encode_inode i Hwf). split.
  - rewrite lenZ_lsplice; lia.
  - apply bytes_lsplice; [done|apply bytes_encode_inode].
Qed.

(** ** Inodes: writing one is read back, and nothing else changes *)

Lemma iget_iput_eq d ino i : layout m d -> ino_ok m ino -> inode_wf i ->
  iget m (iput m d ino i) ino = i.
Proof.
  intros HL Hi Hwf. unfold iget, iput. destruct (iblk_block d ino HL Hi) as [Hl _].
  rewrite bget_bput_eq by (by apply iput_block). pose proof (ioff_range ino).
  pose proof (lenZ_encode_inode i Hwf) as Hle. rewrite <- Hle, lsub_lsplice_eq by lia.
  by apply decode_encode_inode.
Qed.

Lemma iget_iput_ne d ino i ino' : layout m d -> ino_ok m ino -> inode_wf i -> ino_ok m ino' ->
  ino' <> ino -> iget m (iput m d ino i) ino' = iget m d ino'.
Proof.
  intros HL Hi Hwf Hi' Hne. unfold iget, iput. destruct (iblk_block d ino HL Hi) as [Hl _].
  destruct (decide (iblk m ino = iblk m ino')) as [He|He].
  - rewrite <- He, bget_bput_eq by (by apply iput_block).
    pose proof (lenZ_encode_inode i Hwf) as Hle.
    pose proof (ioff_range ino). pose proof (ioff_range ino').
    f_equal. apply lsub_lsplice_disj; try lia.
    rewrite Hle. unfold iblk, ioff in *. destruct Hi, Hi'. dlia.
  - by rewrite bget_bput_ne.
Qed.

(** Writes to a block of one region leave the views of the others alone. *)
Lemma bit_bput_far d start n b v : (b < start \/ start + n / 8192 < b) -> 0 <= n ->
  bit (bput d b v) start n = bit d start n.
Proof. intros Hb Hn. unfold bit. rewrite bget_bput_ne by dlia. done. Qed.

Lemma iget_bput_far d ino b v : ino_ok m ino -> (b < inode_start m \/ fdz m <= b) ->
  iget m (bput d b v) ino = iget m d ino.
Proof.
  intros [H1 H2] Hb. unfold iget, iblk. rewrite bget_bput_ne by dlia. done.
Qed.

Lemma iput_views d ino i : layout m d -> ino_ok m ino -> inode_wf i ->
  view_eq m d (iput m d ino i) (only ino) none none none.
Proof.
  intros HL Hi Hwf. pose proof (iblk_on_disk d ino HL Hi) as Hon.
  pose proof Hi as [H1 H2]. pose proof HL as [].
  constructor.
  - apply layout_bput; [done|done|by apply iput_block].
  - intros b. by apply on_disk_bput.
  - intros ino' Hi' Hne. by apply iget_iput_ne.
  - intros n Hn _. apply bit_bput_far; [|lia]. unfold iblk. dlia.
  - intros n Hn _. apply bit_bput_far; [|lia]. unfold iblk. dlia.
  - intros z Hz _. apply bget_bput_ne. unfold iblk. lia.
Qed.

(** Writing a data zone. *)
Lemma dput_views d z v : layout m d -> fdz m <= z -> on_disk d z -> block v ->
  view_eq m d (bput d z v) none none none (only z).
Proof.
  intros HL Hz Hon Hv. pose proof HL as [].
  constructor.
  - by apply layout_bput.
  - intros b. by apply on_disk_bput.
  - intros ino Hi _. apply iget_bput_far; [done|lia].
  - intros n Hn _. apply bit_bput_far; [dlia|lia].
  - intros n Hn _. apply bit_bput_far; [dlia|lia].
  - intros z' Hz' Hne. apply bget_bput_ne. unfold only in Hne. congruence.
Qed.

(** Changing a bit of a map: any block written inside the map's region. *)
Lemma zmap_views d n v : layout m d -> 0 <= n < 8192 * s_zmap_blocks (sb m) -> block v ->
  (forall n', n' <> n -> bit (bput d (zmap_start m + n / 8192) v) (zmap_start m) n' = zbit m d n') ->
  view_eq m d (bput d (zmap_start m + n / 8192) v) none none (only n) none.
Proof.
  intros HL Hn Hv Hbits. pose proof HL as [].
  assert (on_disk d (zmap_start m + n / 8192)) as Hon by (apply ly_disk0; dlia).
  constructor.
  - by apply layout_bput.
  - intros b. by apply on_disk_bput.
  - intros ino Hi _. apply iget_bput_far; [done|dlia].
  - intros n' Hn' _. apply bit_bput_far; [dlia|lia].
  - intros n' Hn' Hne. by apply Hbits.
  - intros z Hz _. apply bget_bput_ne. dlia.
Qed.

Lemma imap_views d n v : layout m d -> 0 <= n < 8192 * s_imap_blocks (sb m) -> block v ->
  (forall n', n' <> n -> bit (bput d (imap_start m + n / 8192) v) (imap_start m) n' = ibit m d n') ->
  view_eq m d (bput d (imap_start m + n / 8192) v) none (only n) none none.
Proof.
  intros HL Hn Hv Hbits. pose proof HL as [].
  assert (on_disk d (imap_start m + n / 8192)) as Hon by (apply ly_disk0; dlia).
  constructor.
  - by apply layout_bput.
  - intros b. by apply on_disk_bput.
  - intros ino Hi _. apply iget_bput_far; [done|dlia].
  - intros n' Hn' Hne. by apply Hbits.
  - intros n' Hn' _. apply bit_bput_far; [dlia|lia].
  - intros z Hz _. apply bget_bput_ne. dlia.
Qed.

End table.
End MinixTable.
