(* ===== verification/MinixZones.v ===== *)
(** * Zones of the MINIX file system: allocation

    What [alloc_zone] and [free_zone] do to the zone map and the disk, and how many
    zones are free. *)

From stdpp Require Import base list gmap numbers.
From S2P Require Import Prelude CString Disk Layout Minix MinixTable.

#[local] Open Scope Z_scope.

Module MinixZones.
Import Disk Minix MinixTable.

(** ** Views compose *)

Definition either (P Q : Z -> Prop) : Z -> Prop := fun x => P x \/ Q x.

Lemma view_eq_trans m d1 d2 d3 a b c e a' b' c' e' :
  view_eq m d1 d2 a b c e -> view_eq m d2 d3 a' b' c' e' ->
  view_eq m d1 d3 (either a a') (either b b') (either c c') (either e e').
Proof.
  intros H1 H2. constructor.
  - apply H2.
  - intros blk. etrans; [apply H2|apply H1].
  - intros ino Hi Hn. etrans; [eapply ve_inode; [apply H2|done|]|eapply ve_inode; [apply H1|done|]];
      unfold either in Hn; tauto.
  - intros ino Hi Hn. etrans; [eapply ve_ibit; [apply H2|done|]|eapply ve_ibit; [apply H1|done|]];
      unfold either in Hn; tauto.
  - intros ino Hi Hn. etrans; [eapply ve_zbit; [apply H2|done|]|eapply ve_zbit; [apply H1|done|]];
      unfold either in Hn; tauto.
  - intros ino Hi Hn. etrans; [eapply ve_data; [apply H2|done|]|eapply ve_data; [apply H1|done|]];
      unfold either in Hn; tauto.
Qed.

Lemma view_eq_mono m d1 d2 (a b c e a' b' c' e' : Z -> Prop) :
  view_eq m d1 d2 a b c e ->
  (forall x, a x -> a' x) -> (forall x, b x -> b' x) -> (forall x, c x -> c' x) ->
  (forall x, e x -> e' x) -> view_eq m d1 d2 a' b' c' e'.
Proof.
  intros [] Ha Hb Hc He. constructor; auto.
Qed.

Lemma view_eq_refl m d a b c e : layout m d -> view_eq m d d a b c e.
Proof. by constructor. Qed.

(** ** Free zones *)

(** Bit [n] of the zone map is clear and stands for a zone on the disk. *)
Definition free_num (m : statics) (d : disk) (n : Z) : Prop :=
  1 <= n < 8192 * s_zmap_blocks (sb m) /\ zbit m d n = false /\ on_disk d (fdz m + n - 1).

Definition has_free (m : statics) (d : disk) (k : nat) : Prop :=
  exists l, NoDup l /\ length l = k /\ Forall (free_num m d) l.

(** Every block below an existing one exists. *)
Definition contiguous (d : disk) : Prop := forall b b', 0 <= b' <= b -> on_disk d b -> on_disk d b'.

Lemma has_free_mono m d k k' : has_free m d k -> (k' <= k)%nat -> has_free m d k'.
Proof.
  intros (l & Hnd & <- & Hf) Hle. exists (take k' l). split_and!.
  - eapply sublist_NoDup; [done|apply sublist_take].
  - rewrite length_take. lia.
  - by apply Forall_take.
Qed.

Lemma has_free_view m d d' a b e k : view_eq m d d' a b none e -> has_free m d k -> has_free m d' k.
Proof.
  intros Hv (l & Hnd & Hl & Hf). exists l. split_and!; [done|done|].
  eapply List.Forall_impl; [|exact Hf]. intros n (Hn & Hz & Hon). split_and!; [lia|lia| |by apply (ve_on_disk Hv)].
  rewrite (ve_zbit Hv) by (auto with lia). done.
Qed.

(** Using up one number costs at most one free zone. *)
Lemma has_free_use m d d' a b e n k : view_eq m d d' a b (only n) e ->
  has_free m d (S k) -> has_free m d' k.
Proof.
  intros Hv (l & Hnd & Hl & Hf).
  assert (exists l', NoDup l' /\ length l' = k /\ (n ∉ l') /\ Forall (free_num m d) l')
    as (l' & Hnd' & Hl' & Hn & Hf').
  { destruct (decide (n ∈ l)) as [Hin|Hin].
    - apply list_elem_of_split in Hin as (l1 & l2 & ->). exists (l1 ++ l2).
      rewrite length_app in *. simpl in Hl.
      apply (NoDup_Permutation_proper _ (n :: l1 ++ l2)) in Hnd; [|by rewrite Permutation_middle].
      apply list.NoDup_cons in Hnd as [Hni Hnd].
      split_and!; [done|lia|done|]. rewrite Forall_app in *. destruct Hf as [? Hf].
      by apply Forall_cons_1 in Hf as [_ ?].
    - destruct l as [|x l]; [done|]. exists l. apply list.NoDup_cons in Hnd as [_ Hnd].
      apply Forall_cons_1 in Hf as [_ Hf]. simpl in Hl. split_and!; [done|lia| |done].
      intros Hx. apply Hin. by right. }
  exists l'. split_and!; [done|done|].
  apply Forall_forall. intros x Hx. eapply Forall_forall in Hf'; [|exact Hx].
  destruct Hf' as (Hr & Hz & Hon). split_and!; [lia|lia| |by apply (ve_on_disk Hv)].
  rewrite (ve_zbit Hv); [done|lia|]. unfold only. intros ->. by apply Hn, list_elem_of_In.
Qed.

(** ** Allocation and release *)

Section alloc.
Context `{STK : !Stack} (m : statics).

Lemma zero_block_ok : block zero_block.
Proof.
  split; [done|]. unfold zero_block, bytes. apply Forall_replicate. unfold is_u8. lia.
Qed.

Lemma set_zbit_views d n : layout m d -> 0 <= n < 8192 * s_zmap_blocks (sb m) ->
  view_eq m d (bit_put d (zmap_start m) n) none none (only n) none /\
  zbit m (bit_put d (zmap_start m) n) n = true.
Proof.
  intros HL Hn. pose proof (layout_zmap m d HL) as Hr. pose proof (layout_small m d HL) as [_ Hs].
  assert (block (bget d (zmap_start m + n / 8192))) as Hb.
  { eapply region_block; [apply HL|done|]. by eapply num_split. }
  split.
  - apply zmap_views; [done|done|by apply block_set_bit|].
    intros n' Hne. change (bput d _ _) with (bit_put d (zmap_start m) n).
    erewrite bit_put_spec; [|apply HL|done|done]. bcase; [congruence|]. apply orb_false_r.
  - unfold zbit. erewrite bit_put_spec; [|apply HL|done|done]. by rewrite Z.eqb_refl, orb_true_r.
Qed.

Lemma clear_zbit_views d n : layout m d -> 0 <= n < 8192 * s_zmap_blocks (sb m) ->
  view_eq m d (bit_drop d (zmap_start m) n) none none (only n) none /\
  zbit m (bit_drop d (zmap_start m) n) n = false.
Proof.
  intros HL Hn. pose proof (layout_zmap m d HL) as Hr. pose proof (layout_small m d HL) as [_ Hs].
  assert (block (bget d (zmap_start m + n / 8192))) as Hb.
  { eapply region_block; [apply HL|done|]. by eapply num_split. }
  split.
  - apply zmap_views; [done|done|by apply block_clear_bit|].
    intros n' Hne. change (bput d _ _) with (bit_drop d (zmap_start m) n).
    erewrite bit_drop_spec; [|apply HL|done|done]. bcase; [congruence|]. apply andb_true_r.
  - unfold zbit. erewrite bit_drop_spec; [|apply HL|done|done]. by rewrite Z.eqb_refl, andb_false_r.
Qed.

Lemma set_ibit_views d n : layout m d -> 0 <= n < 8192 * s_imap_blocks (sb m) ->
  view_eq m d (bit_put d (imap_start m) n) none (only n) none none /\
  ibit m (bit_put d (imap_start m) n) n = true.
Proof.
  intros HL Hn. pose proof (layout_imap m d HL) as Hr. pose proof (layout_small m d HL) as [Hs _].
  assert (block (bget d (imap_start m + n / 8192))) as Hb.
  { eapply region_block; [apply HL|done|]. by eapply num_split. }
  split.
  - apply imap_views; [done|done|by apply block_set_bit|].
    intros n' Hne. change (bput d _ _) with (bit_put d (imap_start m) n).
    erewrite bit_put_spec; [|apply HL|done|done]. bcase; [congruence|]. apply orb_false_r.
  - unfold ibit. erewrite bit_put_spec; [|apply HL|done|done]. by rewrite Z.eqb_refl, orb_true_r.
Qed.

Lemma clear_ibit_views d n : layout m d -> 0 <= n < 8192 * s_imap_blocks (sb m) ->
  view_eq m d (bit_drop d (imap_start m) n) none (only n) none none /\
  ibit m (bit_drop d (imap_start m) n) n = false.
Proof.
  intros HL Hn. pose proof (layout_imap m d HL) as Hr. pose proof (layout_small m d HL) as [Hs _].
  assert (block (bget d (imap_start m + n / 8192))) as Hb.
  { eapply region_block; [apply HL|done|]. by eapply num_split. }
  split.
  - apply imap_views; [done|done|by apply block_clear_bit|].
    intros n' Hne. change (bput d _ _) with (bit_drop d (imap_start m) n).
    erewrite bit_drop_spec; [|apply HL|done|done]. bcase; [congruence|]. apply andb_true_r.
  - unfold ibit. erewrite bit_drop_spec; [|apply HL|done|done]. by rewrite Z.eqb_refl, andb_false_r.
Qed.

(** The zone handed out: the lowest free one, on the disk, zeroed and marked. *)
Record allocated (d : disk) (z : Z) (d' : disk) : Prop := {
  al_low : fdz m <= z;
  al_num : 1 <= z - fdz m + 1 < 8192 * s_zmap_blocks (sb m);
  al_on_disk : on_disk d z;
  al_was_free : zbit m d (z - fdz m + 1) = false;
  al_first : forall n, 0 <= n < z - fdz m + 1 -> zbit m d n = true;
  al_marked : zbit m d' (z - fdz m + 1) = true;
  al_zero : bget d' z = zero_block;
  al_views : view_eq m d d' none none (only (z - fdz m + 1)) (only z) }.

Lemma alloc_zone_spec d k : layout m d -> contiguous d -> zbit m d 0 = true -> has_free m d (S k) ->
  exists z d', alloc_zone m d = (z, d') /\ allocated d z d' /\ has_free m d' k.
Proof.
  intros HL Hc H0 Hfree. pose proof Hfree as (l & _ & Hl & Hf). destruct l as [|f l]; [done|].
  apply Forall_cons_1 in Hf as [(Hfr & Hfz & Hfon) _].
  pose proof (bitmap_find_free_spec d (zmap_start m) (s_zmap_blocks (sb m))
    (ly_wf _ _ HL) (layout_zmap m d HL) (proj2 (layout_small m d HL))) as Hsp.
  unfold alloc_zone. destruct (bitmap_find_free _ _ _) as [[n|] d1].
  2:{ destruct Hsp as [Hall _]. unfold zbit in Hfz. rewrite Hall in Hfz by lia. done. }
  destruct Hsp as (Hn & Hclr & Hlow & ->).
  assert (n <> 0) by (intros ->; unfold zbit in H0; congruence).
  assert (n <= f).
  { destruct (Z.le_gt_cases n f); [done|]. unfold zbit in Hfz. rewrite Hlow in Hfz by lia. done. }
  pose proof (set_zbit_views d n HL Hn) as [Hv1 Hset].
  pose proof HL as [_ _ _ _ _ _ [Ht1 Ht2] _].
  assert (on_disk d (n + fdz m - 1)) as Hon by (apply (Hc (fdz m + f - 1)); [|done];
    destruct HL; lia).
  change (s_firstdatazone (sb m)) with (fdz m).
  rewrite u32_small by (destruct Hon as [? _]; dlia).
  assert (on_disk (bit_put d (zmap_start m) n) (n + fdz m - 1)) as Hon1 by (by apply (ve_on_disk Hv1)).
  rewrite block_write_ok by done. cbn [snd].
  assert (view_eq m d (bput (bit_put d (zmap_start m) n) (n + fdz m - 1) zero_block)
            none none (only n) (only (n + fdz m - 1))) as Hv.
  { eapply view_eq_mono; [eapply view_eq_trans; [exact Hv1|]|..];
      [apply dput_views; [apply Hv1|lia|done|apply zero_block_ok]|..];
      unfold either, none; tauto. }
  eexists _, _. split; [done|].
  assert (n + fdz m - 1 - fdz m + 1 = n) as Hnum by lia. split.
  - constructor; rewrite ?Hnum; try done; [lia|lia| |].
    + rewrite (ve_zbit (dput_views m _ (n + fdz m - 1) _ (ve_layout Hv1) ltac:(lia) Hon1 zero_block_ok)) by
        (done || auto). done.
    + apply bget_bput_eq. apply zero_block_ok.
  - eapply has_free_use; [exact Hv|done].
Qed.

(** [free_zone] gives a zone back: its bit is cleared and nothing else changes. *)
Lemma free_zone_spec d z : layout m d -> fdz m <= z ->
  z - fdz m + 1 < 8192 * s_zmap_blocks (sb m) ->
  view_eq m d (free_zone m d z) none none (only (z - fdz m + 1)) none /\
  zbit m (free_zone m d z) (z - fdz m + 1) = false.
Proof.
  intros HL Hz Hn. pose proof (layout_small m d HL) as [_ Hs].
  unfold free_zone. change (s_firstdatazone (sb m)) with (fdz m).
  destruct (Z.ltb_spec z (fdz m)); [lia|].
  rewrite u32_small by dlia.
  erewrite bitmap_clear_spec; [|apply HL|by apply layout_zmap|lia]. cbn [snd].
  apply clear_zbit_views; [done|lia].
Qed.

Lemma free_inode_spec d ino : layout m d -> 0 <= ino < 8192 * s_imap_blocks (sb m) ->
  view_eq m d (free_inode m d ino) none (only ino) none none /\
  ibit m (free_inode m d ino) ino = false.
Proof.
  intros HL Hn. pose proof (layout_small m d HL) as [Hs _]. unfold free_inode.
  erewrite bitmap_clear_spec; [|apply HL|by apply layout_imap|done]. cbn [snd].
  by apply clear_ibit_views.
Qed.

Lemma alloc_inode_spec d n : layout m d -> 0 <= n < 8192 * s_imap_blocks (sb m) ->
  ibit m d n = false -> (forall j, 0 <= j < n -> ibit m d j = true) ->
  exists d', alloc_inode m d = (n, d') /\ view_eq m d d' none (only n) none none /\
    ibit m d' n = true.
Proof.
  intros HL Hn Hfree Hlow.
  pose proof (bitmap_find_free_spec d (imap_start m) (s_imap_blocks (sb m))
    (ly_wf _ _ HL) (layout_imap m d HL) (proj1 (layout_small m d HL))) as Hsp.
  unfold alloc_inode. destruct (bitmap_find_free _ _ _) as [[k|] d1].
  2:{ destruct Hsp as [Hall _]. unfold ibit in Hfree. rewrite Hall in Hfree by lia. done. }
  destruct Hsp as (Hk & Hclr & Hl & ->).
  assert (k = n) as ->.
  { destruct (Z.lt_trichotomy k n) as [Hlt|[Heq|Hgt]]; [|done|].
    - unfold ibit in Hlow. rewrite Hlow in Hclr by lia. done.
    - unfold ibit in Hfree. rewrite Hl in Hfree by lia. done. }
  eexists. split; [done|]. by apply set_ibit_views.
Qed.
End alloc.
End MinixZones.
