(* ===== verification/MinixTree.v ===== *)
(** * The block tree of a file: [map_block] of kernel/fs/minixfs.c

    A file reaches its blocks through nine zone numbers in its inode, a single and a
    double indirect block.  A [slot] names a place where a zone number is stored;
    [szone] reads it.  The file-system invariant [fs_inv] says that the zones of all
    live files exist, are marked in the zone map and are shared by no two slots.
    Storing a fresh zone in an empty slot ([attach]) keeps the invariant and changes
    that slot alone; every allocation step of [map_block] is such a store. *)

From stdpp Require Import base list gmap numbers.
From S2P Require Import Prelude CString Disk Layout Minix MinixTable MinixZones.

#[local] Open Scope Z_scope.

Module MinixTree.
Import Disk Minix MinixTable MinixZones.

Inductive slot := Root (k : Z) | Sub (p : slot) (k : Z).

#[global] Instance slot_eq_dec : EqDecision slot.
Proof. solve_decision. Defined.

(** Levels of indirection below a slot: 0 for a data block. *)
Fixpoint level (s : slot) : Z :=
  match s with
  | Root k => if k <? 7 then 0 else if k =? 7 then 1 else 2
  | Sub p _ => level p - 1
  end.

Fixpoint valid (s : slot) : Prop :=
  match s with
  | Root k => 0 <= k <= 8
  | Sub p k => valid p /\ 0 < level p /\ 0 <= k < 256
  end.

Definition ptr (d : disk) (z k : Z) : Z := ind_get (bget d z) k.

Fixpoint szone (d : disk) (i : inode) (s : slot) : Z :=
  match s with
  | Root k => zone i k
  | Sub p k => if szone d i p =? 0 then 0 else ptr d (szone d i p) k
  end.

Definition MAX_FILE_BLOCKS : Z := 65799.

(** The slot of block [fb] of a file. *)
Definition dslot (fb : Z) : slot :=
  if fb <? 7 then Root fb
  else if fb - 7 <? 256 then Sub (Root 7) (fb - 7)
  else Sub (Sub (Root 8) ((fb - 263) / 256)) ((fb - 263) mod 256).

Lemma dslot_valid fb : 0 <= fb < MAX_FILE_BLOCKS -> valid (dslot fb) /\ level (dslot fb) = 0.
Proof.
  unfold MAX_FILE_BLOCKS, dslot. intros H. repeat bcase; cbn [valid level].
  - split; [lia|]. repeat bcase; lia.
  - change (7 <? 7) with false. change (7 =? 7) with true. cbn iota. lia.
  - change (8 <? 7) with false. change (8 =? 7) with false. cbn iota. dlia.
Qed.

Lemma dslot_inj fb fb' : dslot fb = dslot fb' -> fb = fb'.
Proof.
  unfold dslot. intros H. repeat bcase_in H; try discriminate; injection H; intros; dlia.
Qed.

(** ** The invariant *)

Definition live (m : statics) (d : disk) (ino : Z) : Prop :=
  ino_ok m ino /\ ino < 8192 * s_imap_blocks (sb m) /\ ibit m d ino = true.

Record good_zone (m : statics) (d : disk) (z : Z) : Prop := {
  gz_on : on_disk d z;
  gz_low : fdz m <= z;
  gz_num : z - fdz m + 1 < 8192 * s_zmap_blocks (sb m);
  gz_bit : zbit m d (z - fdz m + 1) = true }.

Record fs_inv (m : statics) (d : disk) : Prop := {
  fi_layout : layout m d;
  fi_contig : contiguous d;
  fi_res : zbit m d 0 = true;
  fi_good : forall ino s, live m d ino -> valid s -> szone d (iget m d ino) s <> 0 ->
    good_zone m d (szone d (iget m d ino) s);
  fi_inj : forall ino s ino' s', live m d ino -> live m d ino' -> valid s -> valid s' ->
    szone d (iget m d ino) s <> 0 -> szone d (iget m d ino) s = szone d (iget m d ino') s' ->
    ino = ino' /\ s = s' }.

Section tree.
Context `{STK : !Stack} (m : statics).

Lemma live_view d d' a c e : view_eq m d d' a none c e -> forall ino, live m d' ino <-> live m d ino.
Proof.
  intros Hv ino. unfold live.
  split; intros (H1 & H2 & H3); split_and!; try done; rewrite <- H3;
    [symmetry|]; apply (ve_ibit Hv); (destruct H1; lia) || auto.
Qed.

Lemma contiguous_view d d' a b c e : view_eq m d d' a b c e -> contiguous d -> contiguous d'.
Proof.
  intros Hv Hc b1 b2 Hb Hon. apply (ve_on_disk Hv). apply (Hc b1); [done|]. by apply (ve_on_disk Hv).
Qed.

(** A zone with a clear bit is in no slot of a live file. *)
Lemma fresh_zone d z ino s : fs_inv m d -> zbit m d (z - fdz m + 1) = false ->
  live m d ino -> valid s -> szone d (iget m d ino) s <> 0 -> szone d (iget m d ino) s <> z.
Proof.
  intros Hinv Hz Hl Hs Hne Heq. pose proof (fi_good _ _ Hinv ino s Hl Hs Hne) as [_ _ _ Hb].
  rewrite Heq in Hb. congruence.
Qed.

(** Slots are read from the inode and from data zones alone. *)
Lemma szone_same_data d d' ino : fs_inv m d -> live m d ino ->
  (forall z, fdz m <= z -> bget d' z = bget d z) ->
  forall s, valid s -> szone d' (iget m d ino) s = szone d (iget m d ino) s.
Proof.
  intros Hinv Hl Hdata. induction s as [k|p IH k]; intros Hs; cbn [szone]; [done|].
  destruct Hs as (Hp & _ & Hk). rewrite IH by done.
  destruct (Z.eqb_spec (szone d (iget m d ino) p) 0) as [|Hnz]; [done|].
  unfold ptr. rewrite Hdata; [done|by apply (fi_good _ _ Hinv)].
Qed.

(** The block that an attachment rewrites, besides the fresh zone. *)
Definition parent_block (d : disk) (i : inode) (s : slot) : Z -> Prop :=
  match s with Root _ => none | Sub p _ => only (szone d i p) end.

(** Slot [s0] of file [ino] was empty; the fresh, zeroed zone [z] has been stored in it. *)
Record attach (d : disk) (ino : Z) (s0 : slot) (z : Z) (d' : disk) : Prop := {
  at_inv : fs_inv m d;
  at_live : live m d ino;
  at_valid : valid s0;
  at_empty : szone d (iget m d ino) s0 = 0;
  at_low : fdz m <= z;
  at_num : 1 <= z - fdz m + 1 < 8192 * s_zmap_blocks (sb m);
  at_on : on_disk d z;
  at_free : zbit m d (z - fdz m + 1) = false;
  at_marked : zbit m d' (z - fdz m + 1) = true;
  at_zero : bget d' z = zero_block;
  at_views : view_eq m d d' (only ino) none (only (z - fdz m + 1))
    (either (only z) (parent_block d (iget m d ino) s0));
  at_store : match s0 with
    | Root k => iget m d' ino = set_zone k z (iget m d ino)
    | Sub p k => iget m d' ino = iget m d ino /\ szone d (iget m d ino) p <> 0 /\
        bget d' (szone d (iget m d ino) p) = ind_set (bget d (szone d (iget m d ino) p)) k z
    end }.

Lemma ptr_zero_block d z k : bget d z = zero_block -> 0 <= k < 256 -> ptr d z k = 0.
Proof.
  intros Hz Hk. unfold ptr, ind_get, rd32. rewrite Hz. unfold zero_block, lsub.
  rewrite drop_replicate, take_replicate.
  replace (Z.to_nat 4 `min` (1024 - Z.to_nat (4 * k)))%nat with 4%nat by lia. done.
Qed.

Lemma ind_get_set_eq buf k v : block buf -> 0 <= k < 256 -> is_u32 v -> ind_get (ind_set buf k v) k = v.
Proof. intros [Hl _] Hk Hv. apply rd32_wr32_eq; [lia|lia|done]. Qed.

Lemma ind_get_set_ne buf k k' v : block buf -> 0 <= k < 256 -> 0 <= k' < 256 -> k <> k' ->
  ind_get (ind_set buf k v) k' = ind_get buf k'.
Proof. intros [Hl _] Hk Hk' Hne. apply rd32_wr32_ne; lia. Qed.

Lemma block_ind_set buf k v : block buf -> 0 <= k < 256 -> block (ind_set buf k v).
Proof. intros [Hl Hb] Hk. split; [unfold ind_set; rewrite lenZ_wr32; lia|by apply bytes_wr32]. Qed.

Lemma on_disk_u32 d z : on_disk d z -> is_u32 z.
Proof. intros [H _]. dlia. Qed.

Lemma zone_set_zone i k v k' : length (i_zone i) = 10%nat -> 0 <= k < 10 ->
  zone (set_zone k v i) k' = if k =? k' then v else zone i k'.
Proof. intros Hl Hk. unfold zone, set_zone. cbn [i_zone set_zones]. apply lget_lset. unfold lenZ. lia. Qed.

Lemma iget_nzones d ino : layout m d -> ino_ok m ino -> length (i_zone (iget m d ino)) = 10%nat.
Proof. intros HL Hi. pose proof (iget_wf m d ino HL Hi) as Hw. by apply inode_wf_ranges in Hw as []. Qed.

(** The attachment changes the slot [s0] of file [ino] alone. *)
Lemma attach_szone d ino s0 z d' : attach d ino s0 z d' ->
  forall ino' s, live m d ino' -> valid s ->
  szone d' (iget m d' ino') s =
    if decide (ino' = ino /\ s = s0) then z else szone d (iget m d ino') s.
Proof.
  intros A ino' s Hl'. destruct A as [Hinv Hl Hv0 He Hlow Hnum Hon Hfree Hmark Hzero Hview Hst].
  pose proof (fi_layout _ _ Hinv) as HL.
  induction s as [k|p IH k]; intros Hs; cbn [szone].
  - destruct (decide (ino' = ino)) as [->|Hne].
    + destruct s0 as [k0|p0 k0].
      * rewrite Hst, zone_set_zone by (try (apply iget_nzones; [done|apply Hl]); simpl in Hv0; lia).
        destruct (Z.eqb_spec k0 k) as [->|Hk]; destruct (decide _) as [[_ Hd]|Hd]; try done.
        -- destruct Hd; by split.
        -- injection Hd. congruence.
      * destruct Hst as [-> _]. by destruct (decide _) as [[_ ?]|_].
    + rewrite (ve_inode Hview) by (apply Hl' || done).
      destruct (decide _) as [[? _]|_]; [done|done].
  - simpl in Hs. destruct Hs as (Hp & Hlev & Hk). rewrite IH by done.
    destruct (decide (ino' = ino /\ p = s0)) as [[-> ->]|Hps].
    + destruct (Z.eqb_spec z 0) as [Hz0|Hz0]; [destruct HL; lia|].
      rewrite (ptr_zero_block d' z k) by done. rewrite He. simpl.
      destruct (decide _) as [[_ Hd]|_]; [|done].
      exfalso. clear -Hd. revert k Hd. induction s0; intros k' Hd; [discriminate|].
      injection Hd as Hd ->. by eapply IHs0.
    + destruct (Z.eqb_spec (szone d (iget m d ino') p) 0) as [Hz0|Hz0].
      * destruct (decide _) as [[-> <-]|_]; [|done]. destruct Hst as (_ & Hz & _). done.
      * assert (szone d (iget m d ino') p <> z) as Hfr by (by apply (fresh_zone d z)).
        assert (fdz m <= szone d (iget m d ino') p) as Hlp by (by apply (fi_good _ _ Hinv)).
        destruct s0 as [k0|p0 k0].
        -- destruct (decide _) as [[_ ?]|_]; [done|]. unfold ptr.
           rewrite (ve_data Hview); [done|done|]. cbn. unfold either, only, none. tauto.
        -- destruct Hst as (_ & Hzp0 & Hset). destruct Hv0 as (Hp0 & _ & Hk0).
           destruct (decide (szone d (iget m d ino') p = szone d (iget m d ino) p0)) as [Heq|Hneq].
           ++ destruct (fi_inj _ _ Hinv ino' p ino p0 Hl' Hl Hp Hp0 Hz0 Heq) as [-> ->].
              unfold ptr. rewrite Hset.
              assert (block (bget d (szone d (iget m d ino) p0))).
              { apply bget_block; [apply HL|]. by apply (fi_good _ _ Hinv). }
              destruct (decide _) as [[_ Hd]|Hd].
              ** injection Hd as ->. apply ind_get_set_eq; [done|done|]. by eapply on_disk_u32.
              ** apply ind_get_set_ne; [done|done|done|]. intros ->. by apply Hd.
           ++ destruct (decide _) as [[-> Hd]|_]; [injection Hd as -> ->; done|].
              unfold ptr. rewrite (ve_data Hview); [done|done|].
              cbn. unfold either, only. tauto.
Qed.

Lemma attach_inv d ino s0 z d' : attach d ino s0 z d' -> fs_inv m d'.
Proof.
  intros A. pose proof (attach_szone _ _ _ _ _ A) as Hsz.
  destruct A as [Hinv Hl Hv0 He Hlow Hnum Hon Hfree Hmark Hzero Hview Hst].
  pose proof (live_view _ _ _ _ _ Hview) as Hlive. pose proof (fi_layout _ _ Hinv) as HL.
  constructor.
  - apply Hview.
  - eapply contiguous_view; [exact Hview|apply Hinv].
  - rewrite (ve_zbit Hview); [apply Hinv| |unfold only; lia]. destruct HL. lia.
  - intros ino' s Hl' Hs. apply Hlive in Hl'. rewrite Hsz by done.
    destruct (decide _) as [_|_]; intros Hne.
    + constructor; [by apply (ve_on_disk Hview)|done|lia|done].
    + pose proof (fi_good _ _ Hinv ino' s Hl' Hs Hne) as [G1 G2 G3 G4].
      constructor; [by apply (ve_on_disk Hview)|done|done|].
      rewrite (ve_zbit Hview); [done|lia|]. unfold only. intros Heq. rewrite Heq in G4. congruence.
  - intros ino1 s1 ino2 s2 Hl1 Hl2 Hs1 Hs2. apply Hlive in Hl1, Hl2. rewrite !Hsz by done.
    destruct (decide _) as [[-> ->]|Hd1], (decide _) as [[-> ->]|Hd2]; intros Hne Heq.
    + done.
    + exfalso. by eapply (fresh_zone d z ino2 s2); [..|congruence|congruence].
    + exfalso. by apply (fresh_zone d z ino1 s1).
    + by apply (fi_inj _ _ Hinv).
Qed.

(** ** Contents *)

(** Block [fb] of a file: a hole reads as zeros. *)
Definition fblock (d : disk) (i : inode) (fb : Z) : list Z :=
  if szone d i (dslot fb) =? 0 then zero_block else bget d (szone d i (dslot fb)).

Lemma fblock_same_data d d' ino : fs_inv m d -> live m d ino ->
  (forall z, fdz m <= z -> bget d' z = bget d z) ->
  forall fb, 0 <= fb < MAX_FILE_BLOCKS -> fblock d' (iget m d ino) fb = fblock d (iget m d ino) fb.
Proof.
  intros Hinv Hl Hdata fb Hfb. unfold fblock. destruct (dslot_valid fb Hfb) as [Hs _].
  rewrite (szone_same_data d d') by done.
  destruct (Z.eqb_spec (szone d (iget m d ino) (dslot fb)) 0) as [|Hnz]; [done|].
  apply Hdata. by apply (fi_good _ _ Hinv).
Qed.

(** Everything of an inode but its zones. *)
Definition attrs (i : inode) : inode := set_zones [] i.

(** [d'] gives file [ino] more zones: no mapping that existed changes, and every
    file keeps its contents and attributes. *)
Record grow (d : disk) (ino : Z) (d' : disk) : Prop := {
  gr_inv : fs_inv m d';
  gr_live : forall ino', live m d' ino' <-> live m d ino';
  gr_ibit : forall n, 0 <= n < 8192 * s_imap_blocks (sb m) -> ibit m d' n = ibit m d n;
  gr_on_disk : forall b, on_disk d' b <-> on_disk d b;
  gr_inode : forall ino', ino_ok m ino' -> ino' <> ino -> iget m d' ino' = iget m d ino';
  gr_attrs : attrs (iget m d' ino) = attrs (iget m d ino);
  gr_szone : forall ino' s, live m d ino' -> valid s -> szone d (iget m d ino') s <> 0 ->
    szone d' (iget m d' ino') s = szone d (iget m d ino') s;
  gr_fblock : forall ino' fb, live m d ino' -> 0 <= fb < MAX_FILE_BLOCKS ->
    fblock d' (iget m d' ino') fb = fblock d (iget m d ino') fb }.

Lemma grow_refl d ino : fs_inv m d -> grow d ino d.
Proof. by constructor. Qed.

Lemma grow_trans d1 d2 d3 ino : grow d1 ino d2 -> grow d2 ino d3 -> grow d1 ino d3.
Proof.
  intros H1 H2. constructor.
  - apply H2.
  - intros ino'. etrans; [apply H2|apply H1].
  - intros n Hn. etrans; [by apply (gr_ibit _ _ _ H2)|by apply (gr_ibit _ _ _ H1)].
  - intros b. etrans; [apply H2|apply H1].
  - intros ino' Hi Hne. etrans; [by apply (gr_inode _ _ _ H2)|by apply (gr_inode _ _ _ H1)].
  - etrans; [apply H2|apply H1].
  - intros ino' s Hl Hs Hne. pose proof (gr_szone _ _ _ H1 ino' s Hl Hs Hne) as E1.
    rewrite (gr_szone _ _ _ H2); [done|by apply (gr_live _ _ _ H1)|done|by rewrite E1].
  - intros ino' fb Hl Hfb. rewrite (gr_fblock _ _ _ H2); [|by apply (gr_live _ _ _ H1)|done].
    by apply (gr_fblock _ _ _ H1).
Qed.

Lemma attach_fblock d ino s0 z d' : attach d ino s0 z d' ->
  forall ino' fb, live m d ino' -> 0 <= fb < MAX_FILE_BLOCKS ->
  fblock d' (iget m d' ino') fb = fblock d (iget m d ino') fb.
Proof.
  intros A ino' fb Hl' Hfb. unfold fblock. destruct (dslot_valid fb Hfb) as [Hs Hlev].
  rewrite (attach_szone _ _ _ _ _ A) by done.
  destruct A as [Hinv Hl Hv0 He Hlow Hnum Hon Hfree Hmark Hzero Hview Hst].
  destruct (decide _) as [[-> ->]|Hd].
  - rewrite He. destruct (Z.eqb_spec z 0); [done|by rewrite Hzero].
  - destruct (Z.eqb_spec (szone d (iget m d ino') (dslot fb)) 0) as [|Hne]; [done|].
    rewrite (ve_data Hview); [done|by apply (fi_good _ _ Hinv)|].
    intros [Heq|Heq].
    + by apply (fresh_zone d z ino' (dslot fb)).
    + destruct s0 as [k0|p0 k0]; [done|]. destruct Hv0 as (Hp0 & Hlp & Hk0). cbn in Heq.
      destruct (fi_inj _ _ Hinv ino' (dslot fb) ino p0 Hl' Hl Hs Hp0 Hne Heq) as [_ <-]. lia.
Qed.

Lemma attach_grow d ino s0 z d' : attach d ino s0 z d' -> grow d ino d'.
Proof.
  intros A. pose proof (attach_szone _ _ _ _ _ A) as Hsz.
  pose proof (attach_inv _ _ _ _ _ A) as Hinv'. pose proof (attach_fblock _ _ _ _ _ A) as Hfb.
  destruct A as [Hinv Hl Hv0 He Hlow Hnum Hon Hfree Hmark Hzero Hview Hst].
  constructor; [done|apply (live_view _ _ _ _ _ Hview)|..|done].
  - intros n Hn. apply (ve_ibit Hview); [done|auto].
  - apply Hview.
  - intros ino' Hi Hne. by apply (ve_inode Hview).
  - destruct s0 as [k0|p0 k0]; [by rewrite Hst|]. by destruct Hst as [-> _].
  - intros ino' s Hl' Hs Hne. rewrite Hsz by done.
    destruct (decide _) as [[-> ->]|_]; [congruence|done].
Qed.

(** ** The allocation steps of [map_block] *)

Lemma inode_wf_set_zone i k z : inode_wf i -> 0 <= k < 10 -> is_u32 z -> inode_wf (set_zone k z i).
Proof.
  rewrite !inode_wf_ranges. intros [] Hk Hz. constructor; try done; cbn [set_zone set_zones i_zone].
  - unfold lset. bcase; [lia|]. by rewrite length_insert.
  - unfold lset. bcase; [lia|]. by apply Forall_insert.
Qed.

(** A zone from [alloc_zone], followed by a write of the inode that stores it. *)
Lemma attach_root d ino k z d1 : fs_inv m d -> live m d ino -> 0 <= k <= 8 ->
  zone (iget m d ino) k = 0 -> allocated m d z d1 ->
  attach d ino (Root k) z (iput m d1 ino (set_zone k z (iget m d ino))).
Proof.
  intros Hinv Hl Hk He [A1 A2 A3 A4 A5 A6 A7 A8]. pose proof Hl as [Hi _].
  assert (inode_wf (set_zone k z (iget m d ino))) as Hwf.
  { apply inode_wf_set_zone; [apply iget_wf; [apply Hinv|done]|lia|by eapply on_disk_u32]. }
  pose proof (iput_views m d1 ino _ (ve_layout A8) Hi Hwf) as Hv.
  constructor; try done.
  - rewrite (ve_zbit Hv); [done|lia|auto].
  - rewrite (ve_data Hv); [done|done|auto].
  - eapply view_eq_mono; [eapply view_eq_trans; [exact A8|exact Hv]|..];
      unfold either, none; cbn; tauto.
  - apply iget_iput_eq; [apply A8|done|done].
Qed.

(** A zone from [alloc_zone], followed by a write of the indirect block that stores it. *)
Lemma attach_sub d ino p k z d1 : fs_inv m d -> live m d ino -> valid (Sub p k) ->
  szone d (iget m d ino) p <> 0 -> szone d (iget m d ino) (Sub p k) = 0 -> allocated m d z d1 ->
  attach d ino (Sub p k) z
    (bput d1 (szone d (iget m d ino) p) (ind_set (bget d (szone d (iget m d ino) p)) k z)).
Proof.
  intros Hinv Hl Hs Hp He [A1 A2 A3 A4 A5 A6 A7 A8]. pose proof Hl as [Hi _].
  pose proof Hs as (Hvp & _ & Hk). pose proof (fi_layout _ _ Hinv) as HL.
  pose proof (fi_good _ _ Hinv ino p Hl Hvp Hp) as [G1 G2 G3 G4].
  pose proof (fresh_zone d z ino p Hinv A4 Hl Hvp Hp) as Hfr.
  set (blk := szone d (iget m d ino) p) in *.
  assert (block (ind_set (bget d blk) k z)) as Hb.
  { apply block_ind_set; [|done]. apply bget_block; [apply HL|done]. }
  assert (on_disk d1 blk) as Hon1 by (by apply (ve_on_disk A8)).
  pose proof (dput_views m d1 blk _ (ve_layout A8) G2 Hon1 Hb) as Hv.
  constructor; try done.
  - rewrite (ve_zbit Hv); [done|lia|auto].
  - rewrite (ve_data Hv); [done|done|]. unfold only. congruence.
  - eapply view_eq_mono; [eapply view_eq_trans; [exact A8|exact Hv]|..];
      unfold either, none; cbn; fold blk; tauto.
  - split_and!; [|done|].
    + etrans; [apply (ve_inode Hv); [done|auto]|apply (ve_inode A8); [done|auto]].
    + apply bget_bput_eq, Hb.
Qed.

Lemma ensure_zone_spec d ino k n : fs_inv m d -> live m d ino -> 0 <= k <= 8 -> has_free m d (S n) ->
  exists d', ensure_zone m d ino (iget m d ino) k = (iget m d' ino, d') /\ grow d ino d' /\
    zone (iget m d' ino) k <> 0 /\ has_free m d' n.
Proof.
  intros Hinv Hl Hk Hf. unfold ensure_zone. destruct (Z.eqb_spec (zone (iget m d ino) k) 0) as [He|He].
  - pose proof (fi_layout _ _ Hinv) as HL.
    destruct (alloc_zone_spec m d n HL (fi_contig _ _ Hinv) (fi_res _ _ Hinv) Hf)
      as (z & d1 & -> & Hal & Hf1).
    pose proof (attach_root d ino k z d1 Hinv Hl Hk He Hal) as A.
    rewrite write_inode_ok by (apply Hal || apply Hl). cbn [snd].
    eexists. split; [|split; [by eapply attach_grow|split]].
    + by rewrite (at_store _ _ _ _ _ A).
    + rewrite (at_store _ _ _ _ _ A), zone_set_zone by (try apply iget_nzones; try lia; apply Hl || done).
      rewrite Z.eqb_refl. pose proof (at_low _ _ _ _ _ A). destruct HL. lia.
    + eapply has_free_view; [|exact Hf1]. apply iput_views; [apply Hal|apply Hl|].
      rewrite <- (at_store _ _ _ _ _ A). apply iget_wf; [apply (at_views _ _ _ _ _ A)|apply Hl].
  - exists d. split_and!; [done|by apply grow_refl|done|]. eapply has_free_mono; [done|lia].
Qed.

Lemma indirect_entry_spec d ino p k n ind : fs_inv m d -> live m d ino -> valid (Sub p k) ->
  szone d (iget m d ino) p <> 0 -> lenZ ind = 1024 -> has_free m d (S n) ->
  exists d', indirect_entry m d (szone d (iget m d ino) p) k true ind =
      (szone d' (iget m d' ino) (Sub p k), d') /\
    iget m d' ino = iget m d ino /\ grow d ino d' /\
    szone d' (iget m d' ino) (Sub p k) <> 0 /\ has_free m d' n.
Proof.
  intros Hinv Hl Hs Hp Hind Hf. pose proof Hs as (Hvp & _ & Hk).
  pose proof (fi_layout _ _ Hinv) as HL.
  pose proof (fi_good _ _ Hinv ino p Hl Hvp Hp) as [G1 G2 G3 G4].
  unfold indirect_entry. rewrite block_read_ok by (done || apply HL). cbn [snd].
  assert (szone d (iget m d ino) (Sub p k) = ind_get (bget d (szone d (iget m d ino) p)) k) as Hsub.
  { cbn [szone]. destruct (Z.eqb_spec (szone d (iget m d ino) p) 0); done. }
  rewrite <- Hsub, andb_true_r.
  destruct (Z.eqb_spec (szone d (iget m d ino) (Sub p k)) 0) as [He|He].
  - destruct (alloc_zone_spec m d n HL (fi_contig _ _ Hinv) (fi_res _ _ Hinv) Hf)
      as (z & d1 & -> & Hal & Hf1).
    pose proof (attach_sub d ino p k z d1 Hinv Hl Hs Hp He Hal) as A.
    assert (on_disk d1 (szone d (iget m d ino) p)) as Hon1 by (by apply (ve_on_disk (al_views _ _ _ _ Hal))).
    assert (block (bget d (szone d (iget m d ino) p))) as Hb by (apply bget_block; [apply HL|done]).
    rewrite block_write_ok by done. cbn [snd].
    rewrite ind_get_set_eq by (done || by eapply on_disk_u32, Hal).
    eexists. split; [|split_and!].
    + f_equal. rewrite (attach_szone _ _ _ _ _ A) by done. by destruct (decide _) as [_|[]].
    + apply (at_store _ _ _ _ _ A).
    + by eapply attach_grow.
    + rewrite (attach_szone _ _ _ _ _ A) by done. destruct (decide _) as [_|[]]; [|done].
      pose proof (at_low _ _ _ _ _ A). destruct HL. lia.
    + eapply has_free_view; [|exact Hf1]. apply dput_views; [apply Hal|done|done|by apply block_ind_set].
  - exists d. split_and!; [done|done|by apply grow_refl|done|]. eapply has_free_mono; [done|lia].
Qed.

Lemma indirect_entry_lookup d ino p k ind : fs_inv m d -> live m d ino -> valid (Sub p k) ->
  szone d (iget m d ino) p <> 0 -> lenZ ind = 1024 ->
  indirect_entry m d (szone d (iget m d ino) p) k false ind = (szone d (iget m d ino) (Sub p k), d).
Proof.
  intros Hinv Hl Hs Hp Hind. pose proof Hs as (Hvp & _ & Hk).
  pose proof (fi_good _ _ Hinv ino p Hl Hvp Hp) as [G1 _ _ _].
  unfold indirect_entry. rewrite block_read_ok by (done || apply Hinv). cbn [snd].
  rewrite andb_false_r. cbn [szone]. by destruct (Z.eqb_spec (szone d (iget m d ino) p) 0).
Qed.

(** ** [map_block] *)

Lemma level7 : level (Root 7) = 1.
Proof. reflexivity. Qed.
Lemma level8 : level (Root 8) = 2.
Proof. reflexivity. Qed.

Lemma valid_dbl j k : 0 <= j < 256 -> 0 <= k < 256 ->
  valid (Sub (Root 8) j) /\ valid (Sub (Sub (Root 8) j) k).
Proof.
  intros Hj Hk. change (valid (Sub (Sub (Root 8) j) k)) with
    (valid (Sub (Root 8) j) /\ 0 < level (Root 8) - 1 /\ 0 <= k < 256).
  cbn [valid]. rewrite level8. lia.
Qed.

Lemma map_block_lookup d ino fb : fs_inv m d -> live m d ino -> 0 <= fb < MAX_FILE_BLOCKS ->
  map_block m d (iget m d ino) fb false ino = (szone d (iget m d ino) (dslot fb), iget m d ino, d).
Proof.
  intros Hinv Hl Hfb. unfold MAX_FILE_BLOCKS in Hfb. unfold map_block, dslot, ZONES_PER_BLOCK.
  destruct (Z.ltb_spec fb 7); [done|].
  destruct (Z.ltb_spec (fb - 7) 256).
  - destruct (Z.eqb_spec (zone (iget m d ino) 7) 0) as [He|He].
    + cbn [szone negb andb]. by rewrite He.
    + cbn [andb]. unfold ensure_zone. destruct (Z.eqb_spec (zone (iget m d ino) 7) 0); [done|].
      pose proof (indirect_entry_lookup d ino (Root 7) (fb - 7) (stack_block 121) Hinv Hl) as Hie.
      cbn [szone] in Hie. rewrite Hie; [done| |done|apply stack_block_ok].
      cbn [valid]. rewrite level7. lia.
  - replace (fb - 7 - 256) with (fb - 263) by lia.
    destruct (Z.leb_spec 256 ((fb - 263) / 256)); [dlia|].
    destruct (Z.eqb_spec (zone (iget m d ino) 8) 0) as [He|He].
    + cbn [szone negb andb]. by rewrite He.
    + cbn [andb]. unfold ensure_zone. destruct (Z.eqb_spec (zone (iget m d ino) 8) 0); [done|].
      set (j := (fb - 263) / 256) in *.
      assert (valid (Sub (Root 8) j)) as Hv8 by (cbn [valid]; rewrite level8; subst j; dlia).
      pose proof (indirect_entry_lookup d ino (Root 8) j (stack_block 138) Hinv Hl Hv8) as Hie.
      change (zone (iget m d ino) 8) with (szone d (iget m d ino) (Root 8)) in *.
      rewrite Hie by (done || apply stack_block_ok).
      destruct (Z.eqb_spec (szone d (iget m d ino) (Sub (Root 8) j)) 0) as [Hs|Hs].
      * remember (Sub (Root 8) j) as s8. cbn [szone negb andb]. by rewrite Hs.
      * cbn [andb]. rewrite indirect_entry_lookup; [done..| |done|apply stack_block_ok].
        apply valid_dbl; subst j; dlia.
Qed.

Lemma map_block_alloc d ino fb n : fs_inv m d -> live m d ino -> 0 <= fb < MAX_FILE_BLOCKS ->
  has_free m d (S (S (S n))) ->
  exists d', map_block m d (iget m d ino) fb true ino =
      (szone d' (iget m d' ino) (dslot fb), iget m d' ino, d') /\
    grow d ino d' /\ szone d' (iget m d' ino) (dslot fb) <> 0 /\ has_free m d' n.
Proof.
  intros Hinv Hl Hfb Hf. unfold MAX_FILE_BLOCKS in Hfb. unfold map_block, dslot, ZONES_PER_BLOCK.
  destruct (Z.ltb_spec fb 7).
  - destruct (ensure_zone_spec d ino fb _ Hinv Hl ltac:(lia) Hf) as (d1 & -> & Hg & Hz & Hf1).
    exists d1. split_and!; [done|done|done|]. eapply has_free_mono; [done|lia].
  - destruct (Z.ltb_spec (fb - 7) 256).
    + rewrite andb_false_r.
      destruct (ensure_zone_spec d ino 7 _ Hinv Hl ltac:(lia) Hf) as (d1 & -> & Hg & Hz & Hf1).
      pose proof (gr_inv _ _ _ Hg) as Hinv1. apply (gr_live _ _ _ Hg) in Hl as Hl1.
      destruct (indirect_entry_spec d1 ino (Root 7) (fb - 7) (S n) (stack_block 121) Hinv1 Hl1)
        as (d2 & Hie & Hi & Hg2 & Hz2 & Hf2); [|done|apply stack_block_ok|exact Hf1|].
      { cbn [valid]. rewrite level7. lia. }
      change (szone d1 (iget m d1 ino) (Root 7)) with (zone (iget m d1 ino) 7) in Hie.
      rewrite Hie, <- Hi. exists d2. split_and!; [done|by eapply grow_trans|done|].
      eapply has_free_mono; [done|lia].
    + replace (fb - 7 - 256) with (fb - 263) by lia.
      destruct (Z.leb_spec 256 ((fb - 263) / 256)); [dlia|]. rewrite andb_false_r.
      destruct (ensure_zone_spec d ino 8 _ Hinv Hl ltac:(lia) Hf) as (d1 & -> & Hg & Hz & Hf1).
      pose proof (gr_inv _ _ _ Hg) as Hinv1. apply (gr_live _ _ _ Hg) in Hl as Hl1.
      set (j := (fb - 263) / 256) in *.
      assert (valid (Sub (Root 8) j)) as Hv8 by (cbn [valid]; rewrite level8; subst j; dlia).
      destruct (indirect_entry_spec d1 ino (Root 8) j (S n) (stack_block 138) Hinv1 Hl1 Hv8 Hz)
        as (d2 & Hie & Hi & Hg2 & Hz2 & Hf2); [apply stack_block_ok|exact Hf1|].
      change (szone d1 (iget m d1 ino) (Root 8)) with (zone (iget m d1 ino) 8) in Hie.
      rewrite Hie, andb_false_r.
      pose proof (gr_inv _ _ _ Hg2) as Hinv2. apply (gr_live _ _ _ Hg2) in Hl1 as Hl2.
      destruct (indirect_entry_spec d2 ino (Sub (Root 8) j) ((fb - 263) mod 256) n (stack_block 145)
        Hinv2 Hl2) as (d3 & Hie3 & Hi3 & Hg3 & Hz3 & Hf3); [|done|apply stack_block_ok|exact Hf2|].
      { apply valid_dbl; subst j; dlia. }
      rewrite Hie3, <- Hi, <- Hi3. exists d3.
      split_and!; [done|by eapply grow_trans; [eapply grow_trans|]|done|done].
Qed.

(** Beyond the double indirect block there is no zone. *)
Lemma map_block_too_big d i ino fb alloc : MAX_FILE_BLOCKS <= fb ->
  map_block m d i fb alloc ino = (0, i, d).
Proof.
  unfold MAX_FILE_BLOCKS. intros Hfb. unfold map_block, ZONES_PER_BLOCK.
  destruct (Z.ltb_spec fb 7); [lia|]. destruct (Z.ltb_spec (fb - 7) 256); [lia|].
  destruct (Z.leb_spec 256 ((fb - 7 - 256) / 256)); [done|dlia].
Qed.
End tree.
End MinixTree.
