(* ===== verification/MinixDemo.v ===== *)
(** * A small MINIX disk

    A 24-block image with a root directory that holds one empty file: the concrete
    state at which the file-system theorems are exercised.  The file also gives a
    decision procedure for the invariant of disks whose files use direct zones only. *)

From stdpp Require Import base list gmap numbers.
From S2P Require Import Prelude CString Disk Layout Minix MinixTable MinixZones MinixTree.

#[local] Open Scope Z_scope.

Module MinixDemo.
Import Disk Minix MinixTable MinixZones MinixTree.

(** ** Checking the invariant *)

(** The disk holds exactly the sectors below [2 * n]. *)
Definition dense (d : disk) (n : Z) : Prop :=
  n <= 134217728 /\ map_Forall (fun s _ => 0 <= s < 2 * n) d /\
  forallb (fun s => bool_decide (is_Some (d !! s))) (range 0 (Z.to_nat (2 * n))) = true.

Lemma dense_on_disk d n b : dense d n -> on_disk d b <-> 0 <= b < n.
Proof.
  intros (Hn & Hd & Hall). split.
  - intros (Hb & [x Hx] & _). apply Hd in Hx. lia.
  - intros Hb. assert (forall s, 0 <= s < 2 * n -> is_Some (d !! s)) as Hs.
    { intros s Hs. eapply bool_decide_eq_true_1. by apply (forallb_range _ _ _ Hall s); lia. }
    split_and!; [lia|lia|apply Hs; lia|apply Hs; lia].
Qed.

Lemma dense_contiguous d n : dense d n -> contiguous d.
Proof.
  intros H b b' Hb Hon. apply (dense_on_disk d n _ H) in Hon. apply (dense_on_disk d n _ H). lia.
Qed.

Definition ninos (m : statics) : nat := Z.to_nat (16 * (fdz m - inode_start m)).
Definition live_inos (m : statics) (d : disk) : list Z :=
  List.filter (fun ino => (ino <? 8192 * s_imap_blocks (sb m)) && ibit m d ino) (range 1 (ninos m)).

Definition zone_ok (m : statics) (d : disk) (z : Z) : bool :=
  (z =? 0) || (bool_decide (on_disk d z) && (fdz m <=? z) &&
    (z - fdz m + 1 <? 8192 * s_zmap_blocks (sb m)) && zbit m d (z - fdz m + 1)).

Definition no_clash (m : statics) (d : disk) (ino k ino' k' : Z) : bool :=
  (zone (iget m d ino) k =? 0) || negb (zone (iget m d ino) k =? zone (iget m d ino') k')
  || ((ino =? ino') && (k =? k')).

Definition direct_check (m : statics) (d : disk) : bool :=
  forallb (fun ino =>
    (zone (iget m d ino) 7 =? 0) && (zone (iget m d ino) 8 =? 0) &&
    forallb (fun k => zone_ok m d (zone (iget m d ino) k) &&
      forallb (fun ino' => forallb (no_clash m d ino k ino') (range 0 7)) (live_inos m d))
      (range 0 7)) (live_inos m d).

Lemma live_in m d ino : live m d ino -> In ino (live_inos m d).
Proof.
  intros ((H1 & H2) & H3 & H4). unfold live_inos. rewrite filter_In, In_range. split.
  - unfold ninos. dlia.
  - rewrite H4. destruct (Z.ltb_spec ino (8192 * s_imap_blocks (sb m))); [done|lia].
Qed.

Lemma direct_slots d i s : zone i 7 = 0 -> zone i 8 = 0 -> valid s -> szone d i s <> 0 ->
  exists k, s = Root k /\ 0 <= k < 7.
Proof.
  intros H7 H8. destruct s as [k|p k]; cbn [valid szone].
  - intros Hk Hne. exists k. split; [done|].
    destruct (decide (k = 7)) as [->|]; [done|]. destruct (decide (k = 8)) as [->|]; [done|]. lia.
  - intros (Hp & Hlev & Hk) Hne. exfalso. apply Hne.
    assert (szone d i p = 0) as ->; [|done]. clear Hne.
    induction p as [k'|p IH k']; cbn [valid level szone] in *.
    + revert Hlev. repeat bcase; intros; try lia; [subst; done|]. by replace k' with 8 by lia.
    + destruct Hp as (Hp & Hlp & _). by rewrite IH.
Qed.

Lemma direct_fs_inv m d n : layout m d -> dense d n -> zbit m d 0 = true -> direct_check m d = true ->
  fs_inv m d.
Proof.
  intros HL Hden H0 Hck. unfold direct_check in Hck. rewrite forallb_forall in Hck.
  assert (forall ino, live m d ino -> zone (iget m d ino) 7 = 0 /\ zone (iget m d ino) 8 = 0 /\
    forall k, 0 <= k < 7 -> zone_ok m d (zone (iget m d ino) k) = true /\
      forall ino' k', live m d ino' -> 0 <= k' < 7 -> no_clash m d ino k ino' k' = true) as Hc.
  { intros ino Hl. specialize (Hck ino (live_in _ _ _ Hl)). rewrite !andb_true_iff in Hck.
    destruct Hck as ((H7 & H8) & Hk). apply Z.eqb_eq in H7, H8. split_and!; [done|done|].
    intros k Hkr. pose proof (forallb_range _ _ _ Hk k ltac:(lia)) as Hkk.
    apply andb_true_iff in Hkk as [Hok Hcl]. split; [done|].
    intros ino' k' Hl' Hk'. rewrite forallb_forall in Hcl.
    specialize (Hcl ino' (live_in _ _ _ Hl')). by apply (forallb_range _ _ _ Hcl). }
  constructor; [done|by eapply dense_contiguous|done|..].
  - intros ino s Hl Hs Hne. destruct (Hc ino Hl) as (H7 & H8 & Hk).
    destruct (direct_slots d _ s H7 H8 Hs Hne) as (k & -> & Hkr). cbn [szone] in *.
    destruct (Hk k Hkr) as [Hok _]. unfold zone_ok in Hok.
    destruct (Z.eqb_spec (zone (iget m d ino) k) 0); [done|]. cbn [orb] in Hok.
    rewrite !andb_true_iff, bool_decide_eq_true, Z.leb_le, Z.ltb_lt in Hok.
    destruct Hok as (((? & ?) & ?) & ?). by constructor.
  - intros ino s ino' s' Hl Hl' Hs Hs' Hne Heq. destruct (Hc ino Hl) as (H7 & H8 & Hk).
    destruct (Hc ino' Hl') as (H7' & H8' & Hk').
    destruct (direct_slots d _ s H7 H8 Hs Hne) as (k & -> & Hkr).
    rewrite Heq in Hne. destruct (direct_slots d _ s' H7' H8' Hs' Hne) as (k' & -> & Hkr').
    cbn [szone] in *. destruct (Hk k Hkr) as [_ Hcl]. specialize (Hcl ino' k' Hl' Hkr').
    unfold no_clash in Hcl. rewrite Heq, Z.eqb_refl in Hcl.
    destruct (Z.eqb_spec (zone (iget m d ino') k') 0); [done|]. cbn in Hcl.
    apply andb_true_iff in Hcl as [H1 H2]. apply Z.eqb_eq in H1, H2. by subst.
Qed.

(** ** The image *)

Definition pad (n : nat) (l : list Z) : list Z := l ++ replicate (n - length l) 0.

Fixpoint sectors (s : Z) (blocks : list (list Z)) : list (Z * list Z) :=
  match blocks with
  | [] => []
  | b :: bs => (s, lsub b 0 512) :: (s + 1, lsub b 512 512) :: sectors (s + 2) bs
  end.

Definition mk_disk (blocks : list (list Z)) : disk := list_to_map (sectors 0 blocks).

Definition demo_sb : superblock := Superblock 16 0 1 1 5 0 0 67378176 24 MINIX3_MAGIC 0 1024 0.

Definition dirent (ino : Z) (name : list Z) : list Z := le_bytes 4 ino ++ CStr.cstrncpy name 60.

Definition demo_root : inode := Inode 16877 2 0 0 1024 0 0 0 [5; 0; 0; 0; 0; 0; 0; 0; 0; 0].
Definition demo_file : inode := Inode 33188 1 0 0 0 0 0 0 (replicate 10 0).

Definition name_a : list Z := [97].

Definition demo_disk : disk := mk_disk (
  [ zero_block; pad 1024 (encode_sb demo_sb); pad 1024 [7]; pad 1024 [3];
    pad 1024 (encode_inode demo_root ++ encode_inode demo_file);
    pad 1024 (dirent 1 dot ++ dirent 1 dotdot ++ dirent 2 name_a) ] ++ replicate 18 zero_block).

Definition demo_fs : statics := Statics demo_sb 2 3 4 5 true.

Lemma demo_block_ok n : block (replicate 1024 (n mod 256)).
Proof. split; [done|]. apply Forall_replicate. dlia. Qed.

Lemma demo_root_ok : inode_wf demo_root.
Proof.
  apply inode_wf_ranges. constructor; try done; try (unfold is_u16, is_u32; simpl; lia).
  apply (bool_decide_eq_true_1 (Forall is_u32 (i_zone demo_root))). by vm_compute.
Qed.

#[global] Instance demo_stack : Stack :=
  {| stack_block := fun n => replicate 1024 (n mod 256); stack_inode := fun _ => demo_root;
     stack_block_ok := demo_block_ok; stack_inode_ok := fun _ => demo_root_ok |}.

Lemma demo_dense : dense demo_disk 24.
Proof.
  split; [lia|]. split; [|by vm_compute].
  apply (bool_decide_eq_true_1 (map_Forall (fun s (_ : list Z) => 0 <= s < 2 * 24) demo_disk)).
  by vm_compute.
Qed.

#[global] Instance wf_dec d : Decision (wf d).
Proof. unfold wf. apply _. Defined.

Lemma demo_layout : layout demo_fs demo_disk.
Proof.
  constructor; try (cbn; lia).
  - apply (bool_decide_eq_true_1 (wf demo_disk)). by vm_compute.
  - intros b Hb. apply (dense_on_disk _ _ _ demo_dense). unfold fdz, demo_fs, demo_sb in Hb.
    simpl in Hb. lia.
Qed.

Lemma demo_inv : fs_inv demo_fs demo_disk.
Proof.
  apply (direct_fs_inv _ _ 24); [apply demo_layout|apply demo_dense|by vm_compute|by vm_compute].
Qed.

Lemma demo_live ino : ino = 1 \/ ino = 2 -> live demo_fs demo_disk ino.
Proof.
  intros [-> | ->]; (split; [apply (bool_decide_eq_true_1 (ino_ok demo_fs _)); by vm_compute|]);
    (split; [simpl; lia|by vm_compute]).
Qed.

#[global] Instance free_num_dec m d n : Decision (free_num m d n).
Proof. unfold free_num. apply _. Defined.

Lemma demo_free k : (k <= 18)%nat -> has_free demo_fs demo_disk k.
Proof.
  intros Hk. apply (has_free_mono _ _ 18); [|done]. exists (range 2 18). split_and!.
  - by apply (bool_decide_eq_true_1 (NoDup (range 2 18))).
  - done.
  - apply (bool_decide_eq_true_1 (Forall (free_num demo_fs demo_disk) (range 2 18))). by vm_compute.
Qed.
End MinixDemo.
