(* ===== verification/MinixFile.v ===== *)
(** * Reading and writing files (minixfs_read and minixfs_write of kernel/fs/minixfs.c)

    A file is abstracted to its size and the function [fbyte] from offsets to bytes,
    in which holes read as zero.  [minixfs_write] updates exactly the written range of
    that function and [minixfs_read] returns a range of it, for files of any depth of
    indirection. *)

From stdpp Require Import base list gmap numbers.
From S2P Require Import Prelude CString Disk Layout Minix MinixTable MinixZones MinixTree MinixDemo.

#[local] Open Scope Z_scope.

Module MinixFile.
Import Disk Minix MinixTable MinixZones MinixTree.

Definition MAX_FILE_SIZE : Z := MAX_FILE_BLOCKS * 1024.

Definition fbyte (d : disk) (i : inode) (o : Z) : Z := lget 0 (fblock d i (o / 1024)) (o mod 1024).

Section files.
Context `{STK : !Stack} (m : statics).

(** ** Overwriting a data block *)

Section data_put.
Context (d : disk) (ino fb : Z) (v : list Z).
Hypothesis Hinv : fs_inv m d.
Hypothesis Hl : live m d ino.
Hypothesis Hfb : 0 <= fb < MAX_FILE_BLOCKS.
Hypothesis Hz : szone d (iget m d ino) (dslot fb) <> 0.
Hypothesis Hv : block v.

Let z := szone d (iget m d ino) (dslot fb).
Let d' := bput d z v.

Lemma data_put_views : view_eq m d d' none none none (only z).
Proof.
  destruct (dslot_valid fb Hfb) as [Hs _].
  pose proof (fi_good _ _ Hinv ino (dslot fb) Hl Hs Hz) as [G1 G2 _ _].
  apply dput_views; [apply Hinv|done|done|done].
Qed.

Lemma data_put_iget ino' : ino_ok m ino' -> iget m d' ino' = iget m d ino'.
Proof. intros Hi. apply (ve_inode data_put_views); auto. Qed.

Lemma data_put_szone ino' s : live m d ino' -> valid s ->
  szone d' (iget m d' ino') s = szone d (iget m d ino') s.
Proof.
  intros Hl' . rewrite data_put_iget by apply Hl'.
  induction s as [k|p IH k]; intros Hs; cbn [szone]; [done|].
  destruct Hs as (Hp & Hlev & Hk). rewrite IH by done.
  destruct (Z.eqb_spec (szone d (iget m d ino') p) 0) as [|Hne]; [done|].
  unfold ptr. rewrite (ve_data data_put_views); [done|by apply (fi_good _ _ Hinv)|].
  intros Heq. destruct (dslot_valid fb Hfb) as [Hs Hl0].
  destruct (fi_inj _ _ Hinv ino' p ino (dslot fb) Hl' Hl Hp Hs Hne Heq) as [_ ->]. lia.
Qed.

Lemma data_put_live ino' : live m d' ino' <-> live m d ino'.
Proof. apply (live_view m _ _ _ _ _ data_put_views). Qed.

Lemma data_put_inv : fs_inv m d'.
Proof.
  pose proof data_put_views as V. constructor.
  - apply V.
  - eapply contiguous_view; [exact V|apply Hinv].
  - rewrite (ve_zbit V); [apply Hinv| |auto]. pose proof (fi_layout _ _ Hinv) as []. lia.
  - intros ino' s Hl' Hs. apply data_put_live in Hl'. rewrite data_put_szone by done. intros Hne.
    pose proof (fi_good _ _ Hinv ino' s Hl' Hs Hne) as [G1 G2 G3 G4].
    constructor; [by apply (ve_on_disk V)|done|done|]. pose proof (fi_layout _ _ Hinv) as [].
    rewrite (ve_zbit V); [done|lia|auto].
  - intros ino1 s1 ino2 s2 Hl1 Hl2 Hs1 Hs2. apply data_put_live in Hl1, Hl2.
    rewrite !data_put_szone by done. by apply (fi_inj _ _ Hinv).
Qed.

Lemma data_put_fblock ino' fb' : live m d ino' -> 0 <= fb' < MAX_FILE_BLOCKS ->
  fblock d' (iget m d' ino') fb' =
    if decide (ino' = ino /\ fb' = fb) then v else fblock d (iget m d ino') fb'.
Proof.
  intros Hl' Hfb'. unfold fblock. destruct (dslot_valid fb' Hfb') as [Hs' _].
  destruct (dslot_valid fb Hfb) as [Hs _]. rewrite data_put_szone by done.
  destruct (decide _) as [[-> ->]|Hd].
  - destruct (Z.eqb_spec (szone d (iget m d ino) (dslot fb)) 0); [done|]. apply bget_bput_eq, Hv.
  - destruct (Z.eqb_spec (szone d (iget m d ino') (dslot fb')) 0) as [|Hne]; [done|].
    rewrite (ve_data data_put_views); [done|by apply (fi_good _ _ Hinv)|].
    intros Heq.
    destruct (fi_inj _ _ Hinv ino' (dslot fb') ino (dslot fb) Hl' Hl Hs' Hs Hne Heq) as [-> Hd'].
    apply Hd. split; [done|by apply dslot_inj].
Qed.

Lemma data_put_free n : has_free m d n -> has_free m d' n.
Proof. apply (has_free_view m _ _ _ _ _ _ data_put_views). Qed.
End data_put.

(** ** Changing attributes of an inode *)

Section attr_put.
Context (d : disk) (ino : Z) (i : inode).
Hypothesis Hinv : fs_inv m d.
Hypothesis Hl : live m d ino.
Hypothesis Hwf : inode_wf i.
Hypothesis Hzs : i_zone i = i_zone (iget m d ino).

Let d' := iput m d ino i.

Lemma attr_put_views : view_eq m d d' (only ino) none none none.
Proof. apply iput_views; [apply Hinv|apply Hl|done]. Qed.

Lemma attr_put_iget : iget m d' ino = i.
Proof. apply iget_iput_eq; [apply Hinv|apply Hl|done]. Qed.

Lemma attr_put_szone ino' s : live m d ino' -> valid s ->
  szone d' (iget m d' ino') s = szone d (iget m d ino') s.
Proof.
  intros Hl'. induction s as [k|p IH k]; intros Hs; cbn [szone].
  - destruct (decide (ino' = ino)) as [->|Hne].
    + rewrite attr_put_iget. unfold zone. by rewrite Hzs.
    + rewrite (ve_inode attr_put_views); [done|apply Hl'|done].
  - destruct Hs as (Hp & _ & Hk). rewrite IH by done.
    destruct (Z.eqb_spec (szone d (iget m d ino') p) 0) as [|Hne]; [done|].
    unfold ptr. rewrite (ve_data attr_put_views); [done|by apply (fi_good _ _ Hinv)|auto].
Qed.

Lemma attr_put_live ino' : live m d' ino' <-> live m d ino'.
Proof. apply (live_view m _ _ _ _ _ attr_put_views). Qed.

Lemma attr_put_fblock ino' fb : live m d ino' -> 0 <= fb < MAX_FILE_BLOCKS ->
  fblock d' (iget m d' ino') fb = fblock d (iget m d ino') fb.
Proof.
  intros Hl' Hfb. unfold fblock. destruct (dslot_valid fb Hfb) as [Hs _].
  rewrite attr_put_szone by done.
  destruct (Z.eqb_spec (szone d (iget m d ino') (dslot fb)) 0) as [|Hne]; [done|].
  rewrite (ve_data attr_put_views); [done|by apply (fi_good _ _ Hinv)|auto].
Qed.

Lemma attr_put_inv : fs_inv m d'.
Proof.
  pose proof attr_put_views as V. pose proof (fi_layout _ _ Hinv) as HL. constructor.
  - apply V.
  - eapply contiguous_view; [exact V|apply Hinv].
  - rewrite (ve_zbit V); [apply Hinv| |auto]. destruct HL. lia.
  - intros ino' s Hl' Hs. apply attr_put_live in Hl'. rewrite attr_put_szone by done. intros Hne.
    pose proof (fi_good _ _ Hinv ino' s Hl' Hs Hne) as [G1 G2 G3 G4].
    constructor; [by apply (ve_on_disk V)|done|done|].
    rewrite (ve_zbit V); [done|lia|auto].
  - intros ino1 s1 ino2 s2 Hl1 Hl2 Hs1 Hs2. apply attr_put_live in Hl1, Hl2.
    rewrite !attr_put_szone by done. by apply (fi_inj _ _ Hinv).
Qed.
End attr_put.

(** ** One chunk of a write *)

(** Blocks that a write of [count] bytes at [offset] still has to touch. *)
Definition rounds (offset count done : Z) : nat :=
  Z.to_nat (if done <? count then (offset + count - 1) / 1024 - (offset + done) / 1024 + 1 else 0).

Definition chunk_at (offset count done : Z) : Z :=
  Z.min (1024 - (offset + done) mod 1024) (count - done).

Lemma chunk_range offset count done : 0 <= offset -> 0 <= done < count ->
  let c := chunk_at offset count done in
  0 < c /\ done + c <= count /\ (offset + done) mod 1024 + c <= 1024 /\
  (rounds offset count (done + c) + 1 = rounds offset count done)%nat.
Proof.
  intros Ho Hd c. subst c. unfold chunk_at, rounds.
  destruct (Z.ltb_spec done count); [|lia].
  assert (0 < 1024 - (offset + done) mod 1024 <= 1024) as Hm by dlia.
  split_and!; [lia|lia|lia|].
  destruct (Z.ltb_spec (done + Z.min (1024 - (offset + done) mod 1024) (count - done)) count) as [H1|H1].
  - rewrite Z.min_l in * by lia.
    assert ((offset + (done + (1024 - (offset + done) mod 1024))) / 1024 = (offset + done) / 1024 + 1)
      as -> by dlia.
    assert ((offset + done) / 1024 + 1 <= (offset + count - 1) / 1024) by dlia. lia.
  - assert ((offset + count - 1) / 1024 = (offset + done) / 1024) as -> by dlia. lia.
Qed.

(** The state between two chunks: what the loop has done so far. *)
Record wrote (d : disk) (ino : Z) (src : list Z) (from to : Z) (offset : Z) (d' : disk) : Prop := {
  wr_inv : fs_inv m d';
  wr_live : forall ino', live m d' ino' <-> live m d ino';
  wr_inode : forall ino', ino_ok m ino' -> ino' <> ino -> iget m d' ino' = iget m d ino';
  wr_attrs : attrs (iget m d' ino) = attrs (iget m d ino);
  wr_fbyte : forall ino' o, live m d ino' -> 0 <= o < MAX_FILE_SIZE ->
    fbyte d' (iget m d' ino') o =
      if decide (ino' = ino /\ offset + from <= o < offset + to)
      then lget 0 src (o - offset) else fbyte d (iget m d ino') o }.

Lemma wrote_refl d ino src from offset : fs_inv m d -> wrote d ino src from from offset d.
Proof.
  intros Hinv. constructor; try done. intros. destruct (decide _) as [[_ ?]|_]; [lia|done].
Qed.

Lemma wrote_trans d1 d2 d3 ino src a b c offset : a <= b <= c ->
  wrote d1 ino src a b offset d2 -> wrote d2 ino src b c offset d3 -> wrote d1 ino src a c offset d3.
Proof.
  intros Hle [A1 A2 A3 A4 A5] [B1 B2 B3 B4 B5]. constructor.
  - done.
  - intros. by rewrite B2.
  - intros. by rewrite B3, A3.
  - by rewrite B4.
  - intros ino' o Hl Ho. rewrite B5, A5 by (done || by apply A2).
    repeat destruct (decide _); try done; exfalso; intuition lia.
Qed.

(** The bytes of a block after the chunk has been copied in. *)
Lemma chunk_bytes b off part o : block b -> 0 <= off -> off + lenZ part <= 1024 -> 0 <= o < 1024 ->
  lget 0 (lsplice b off part) o =
    if (off <=? o) && (o <? off + lenZ part) then lget 0 part (o - off) else lget 0 b o.
Proof. intros [Hl _] H1 H2 H3. apply lget_lsplice; lia. Qed.

(** What block a partial or a whole-block write starts from. *)
Lemma chunk_base d ino fb off c blk : fs_inv m d -> live m d ino -> 0 <= fb < MAX_FILE_BLOCKS ->
  szone d (iget m d ino) (dslot fb) <> 0 -> lenZ blk = 1024 -> 0 <= off -> off + c <= 1024 ->
  let base := if negb (off =? 0) || negb (c =? MINIX_BLOCK_SIZE)
              then snd (block_read d (szone d (iget m d ino) (dslot fb)) blk) else zero_block in
  block base /\ forall o, 0 <= o < 1024 -> ~ (off <= o < off + c) ->
    lget 0 base o = lget 0 (fblock d (iget m d ino) fb) o.
Proof.
  intros Hinv Hl Hfb Hz Hblk Ho Hc base. destruct (dslot_valid fb Hfb) as [Hs _].
  pose proof (fi_good _ _ Hinv ino (dslot fb) Hl Hs Hz) as [G1 _ _ _].
  pose proof (ly_wf _ _ (fi_layout _ _ Hinv)) as Hwf.
  subst base. rewrite block_read_ok by done. cbn [snd]. unfold MINIX_BLOCK_SIZE.
  destruct (Z.eqb_spec off 0), (Z.eqb_spec c 1024); cbn [negb orb].
  1: split; [apply zero_block_ok|intros; lia].
  all: split; [by apply bget_block|]; intros; unfold fblock;
    destruct (Z.eqb_spec (szone d (iget m d ino) (dslot fb)) 0); done.
Qed.

Lemma same_block x o : (o / 1024 = x / 1024) -> o = x - x mod 1024 + o mod 1024.
Proof. dlia. Qed.

Lemma write_chunk d ino src count offset done blk n :
  fs_inv m d -> live m d ino -> 0 <= offset -> 0 <= done < count -> offset + count <= MAX_FILE_SIZE ->
  count <= lenZ src -> bytes src -> lenZ blk = 1024 -> has_free m d (S (S (S n))) ->
  let fb := (offset + done) / 1024 in
  let off := (offset + done) mod 1024 in
  let c := chunk_at offset count done in
  exists d1 d2 blk2,
    map_block m d (iget m d ino) fb true ino = (szone d1 (iget m d1 ino) (dslot fb), iget m d1 ino, d1) /\
    szone d1 (iget m d1 ino) (dslot fb) <> 0 /\
    blk2 = lsplice (if negb (off =? 0) || negb (c =? MINIX_BLOCK_SIZE)
                    then snd (block_read d1 (szone d1 (iget m d1 ino) (dslot fb)) blk)
                    else zero_block) off (lsub src done c) /\
    block_write d1 (szone d1 (iget m d1 ino) (dslot fb)) blk2 = (2, d2) /\ lenZ blk2 = 1024 /\
    iget m d2 ino = iget m d1 ino /\ wrote d ino src done (done + c) offset d2 /\ has_free m d2 n.
Proof.
  intros Hinv Hl Ho Hd Hmax Hsrc Hb Hblk Hf fb off c.
  destruct (chunk_range offset count done Ho Hd) as (Hc1 & Hc2 & Hc3 & _). fold c in Hc1, Hc2, Hc3.
  assert (0 <= fb < MAX_FILE_BLOCKS) as Hfb by (unfold MAX_FILE_SIZE in Hmax; subst fb; dlia).
  assert (0 <= off < 1024) as Hoff by (subst off; dlia).
  destruct (map_block_alloc m d ino fb n Hinv Hl Hfb Hf) as (d1 & Hmb & Hg & Hz & Hf1).
  pose proof (gr_inv _ _ _ _ Hg) as Hinv1. apply (gr_live _ _ _ _ Hg) in Hl as Hl1.
  destruct (chunk_base d1 ino fb off c blk Hinv1 Hl1 Hfb Hz Hblk ltac:(lia) Hc3) as [Hbase Hkeep].
  set (base := if _ || _ then _ else _) in *.
  set (part := lsub src done c). assert (lenZ part = c) as Hlp by (apply lenZ_lsub; lia).
  set (blk2 := lsplice base off part).
  assert (block blk2) as Hb2.
  { split; [unfold blk2; rewrite lenZ_lsplice; destruct Hbase; lia|].
    apply bytes_lsplice; [apply Hbase|by apply bytes_lsub]. }
  destruct (dslot_valid fb Hfb) as [Hs _].
  pose proof (fi_good _ _ Hinv1 ino (dslot fb) Hl1 Hs Hz) as [G1 _ _ _].
  pose proof (data_put_fblock d1 ino fb blk2 Hinv1 Hl1 Hfb Hz Hb2) as Hfbk.
  exists d1, (bput d1 (szone d1 (iget m d1 ino) (dslot fb)) blk2), blk2.
  split_and!; [done|done|done|by apply block_write_ok|apply Hb2| | |by apply data_put_free].
  - by apply data_put_iget; [..|apply Hl].
  - constructor.
    + by apply data_put_inv.
    + intros ino'. rewrite data_put_live by done. apply Hg.
    + intros ino' Hi Hne. rewrite data_put_iget by done. by apply (gr_inode _ _ _ _ Hg).
    + rewrite data_put_iget by (done || apply Hl). apply (gr_attrs _ _ _ _ Hg).
    + intros ino' o Hl' Hor. unfold fbyte.
      assert (0 <= o / 1024 < MAX_FILE_BLOCKS) as Hofb by (unfold MAX_FILE_SIZE in Hor; dlia).
      rewrite Hfbk by (done || by apply (gr_live _ _ _ _ Hg)).
      rewrite <- (gr_fblock _ _ _ _ Hg ino' (o / 1024)) by done.
      destruct (decide (ino' = ino /\ o / 1024 = fb)) as [[-> Heq]|Hne].
      * unfold blk2. rewrite chunk_bytes by (done || dlia). rewrite Hlp.
        pose proof (same_block (offset + done) o Heq) as Hso. fold off in Hso.
        destruct (Z.leb_spec off (o mod 1024)), (Z.ltb_spec (o mod 1024) (off + c)); cbn [andb];
          destruct (decide _) as [[_ Hin]|Hnin]; try lia.
        -- unfold part. rewrite lget_lsub by lia. f_equal. lia.
        -- rewrite Hkeep by (dlia || lia). by rewrite Heq.
        -- rewrite Hkeep by (dlia || lia). by rewrite Heq.
      * destruct (decide _) as [[-> Hin]|_]; [|done]. destruct Hne. split; [done|].
        subst fb off. dlia.
Qed.

Lemma max_file_u32 x : 0 <= x <= MAX_FILE_SIZE -> u32 x = x.
Proof. intros H. apply u32_small. unfold MAX_FILE_SIZE, MAX_FILE_BLOCKS in H. dlia. Qed.

Lemma rounds_done offset count : rounds offset count count = 0%nat.
Proof. unfold rounds. destruct (Z.ltb_spec count count); lia. Qed.

Lemma write_loop_spec src count offset ino n fuel : forall d done blk,
  fs_inv m d -> live m d ino -> 0 <= offset -> 0 <= done <= count ->
  offset + count <= MAX_FILE_SIZE -> count <= lenZ src -> bytes src -> lenZ blk = 1024 ->
  has_free m d (3 * rounds offset count done + n) -> count - done <= Z.of_nat fuel ->
  exists d', write_loop fuel m d ino (iget m d ino) src count offset done blk =
      (true, count, iget m d' ino, d') /\
    wrote d ino src done count offset d' /\ has_free m d' n.
Proof.
  induction fuel as [|fuel IH]; intros d done blk Hinv Hl Ho Hd Hmax Hsrc Hb Hblk Hf Hfuel;
    cbn [write_loop].
  - assert (done = count) as -> by lia. exists d.
    rewrite rounds_done in Hf. split_and!; [done|by apply wrote_refl|done].
  - destruct (Z.ltb_spec done count) as [Hlt|Hge].
    2:{ assert (done = count) as -> by lia. exists d.
        rewrite rounds_done in Hf. split_and!; [done|by apply wrote_refl|done]. }
    destruct (chunk_range offset count done Ho ltac:(lia)) as (Hc1 & Hc2 & Hc3 & Hr).
    replace (3 * rounds offset count done + n)%nat
      with (S (S (S (3 * rounds offset count (done + chunk_at offset count done) + n)))) in Hf by lia.
    destruct (write_chunk d ino src count offset done blk _ Hinv Hl Ho ltac:(lia) Hmax Hsrc Hb Hblk Hf)
      as (d1 & d2 & blk2 & Hmb & Hz & Hblk2 & Hw & Hl2 & Hi & Hwr & Hf2).
    rewrite max_file_u32 by lia. change MINIX_BLOCK_SIZE with 1024 in *. rewrite Hmb.
    destruct (Z.eqb_spec (szone d1 (iget m d1 ino) (dslot ((offset + done) / 1024))) 0); [done|].
    fold (chunk_at offset count done). rewrite <- Hblk2, Hw. cbn [snd]. rewrite <- Hi.
    destruct (IH d2 (done + chunk_at offset count done) blk2) as (d' & Hloop & Hwr' & Hf');
      [apply Hwr|by apply (wr_live _ _ _ _ _ _ _ Hwr)|done|lia|done|done|done|done|done|lia|].
    exists d'. split_and!; [done| |done]. eapply wrote_trans; [|done|done]. lia.
Qed.

Lemma attrs_fields i i' : attrs i = attrs i' ->
  i_mode i = i_mode i' /\ i_nlinks i = i_nlinks i' /\ i_uid i = i_uid i' /\ i_gid i = i_gid i' /\
  i_size i = i_size i' /\ i_atime i = i_atime i' /\ i_mtime i = i_mtime i' /\ i_ctime i = i_ctime i'.
Proof. unfold attrs, set_zones. intros H. by injection H. Qed.

Lemma inode_wf_set_size i v : inode_wf i -> is_u32 v -> inode_wf (set_size v i).
Proof. rewrite !inode_wf_ranges. intros [] Hv. by constructor. Qed.

(** What [minixfs_write] promises: the range is written, the file grows if needed,
    and every other byte of every file, and every other inode, is as before. *)
Record write_post (d : disk) (ino : Z) (src : list Z) (count offset : Z) (d' : disk) : Prop := {
  wp_inv : fs_inv m d';
  wp_live : forall ino', live m d' ino' <-> live m d ino';
  wp_inode : forall ino', ino_ok m ino' -> ino' <> ino -> iget m d' ino' = iget m d ino';
  wp_size : i_size (iget m d' ino) = Z.max (i_size (iget m d ino)) (offset + count);
  wp_mode : i_mode (iget m d' ino) = i_mode (iget m d ino);
  wp_fbyte : forall ino' o, live m d ino' -> 0 <= o < MAX_FILE_SIZE ->
    fbyte d' (iget m d' ino') o =
      if decide (ino' = ino /\ offset <= o < offset + count)
      then lget 0 src (o - offset) else fbyte d (iget m d ino') o }.

Lemma minixfs_write_ok d ino src count offset n :
  fs_inv m d -> live m d ino -> 0 <= offset -> 0 <= count -> offset + count <= MAX_FILE_SIZE ->
  count <= lenZ src -> bytes src -> has_free m d (3 * rounds offset count 0 + n) ->
  exists d', minixfs_write m d ino src count offset = (count, d') /\
    write_post d ino src count offset d' /\ has_free m d' n.
Proof.
  intros Hinv Hl Ho Hc Hmax Hsrc Hb Hf. pose proof Hl as [Hi _].
  assert (i32 count = count) as Hi32.
  { apply i32_small. unfold MAX_FILE_SIZE, MAX_FILE_BLOCKS in Hmax. lia. }
  unfold minixfs_write. rewrite read_inode_ok by (done || apply Hinv). cbn [Z.ltb Z.compare].
  destruct (write_loop_spec src count offset ino n (Z.to_nat count) d 0 (stack_block 391))
    as (d1 & -> & Hw & Hf1); try done; try lia; try apply stack_block_ok.
  cbn [negb]. pose proof Hw as [Hinv1 Hlive1 Hin1 Hat Hby0].
  assert (forall ino' o, live m d ino' -> 0 <= o < MAX_FILE_SIZE -> fbyte d1 (iget m d1 ino') o =
    if decide (ino' = ino /\ offset <= o < offset + count)
    then lget 0 src (o - offset) else fbyte d (iget m d ino') o) as Hby.
  { intros ino' o Hl' Hor. rewrite Hby0 by done.
    repeat destruct (decide _); try done; exfalso; intuition lia. }
  rewrite read_inode_ok by (done || apply Hinv1). rewrite max_file_u32, Hi32 by lia.
  apply attrs_fields in Hat as (Hmode & _ & _ & _ & Hsize & _).
  destruct (Z.ltb_spec (i_size (iget m d1 ino)) (offset + count)) as [Hlt|Hge].
  - assert (inode_wf (set_size (offset + count) (iget m d1 ino))) as Hwf.
    { apply inode_wf_set_size; [apply iget_wf; [apply Hinv1|done]|].
      unfold MAX_FILE_SIZE, MAX_FILE_BLOCKS in Hmax. dlia. }
    apply Hlive1 in Hl as Hl1.
    rewrite write_inode_ok by (done || apply Hinv1). cbn [snd]. eexists. split; [done|].
    pose proof (attr_put_views d1 ino _ Hinv1 Hl1 Hwf) as V. split; [|by eapply has_free_view].
    constructor.
    + by apply attr_put_inv.
    + intros ino'. rewrite attr_put_live by done. apply Hlive1.
    + intros ino' Hi' Hne. rewrite (ve_inode V) by done. by apply Hin1.
    + rewrite attr_put_iget by done. cbn [set_size i_size]. lia.
    + rewrite attr_put_iget by done. done.
    + intros ino' o Hl' Hor. unfold fbyte. rewrite attr_put_fblock; try done.
      * by apply Hby.
      * by apply Hlive1.
      * unfold MAX_FILE_SIZE in Hor. dlia.
  - exists d1. split_and!; [done| |done]. constructor; try done. lia.
Qed.

(** ** Reading *)

Lemma read_loop_spec count offset ino d fuel : forall done out blk,
  fs_inv m d -> live m d ino -> 0 <= offset -> 0 <= done <= count ->
  offset + count <= MAX_FILE_SIZE -> count <= lenZ out -> lenZ blk = 1024 ->
  count - done <= Z.of_nat fuel ->
  exists out', read_loop fuel m d ino (iget m d ino) count offset done out blk = (count, out') /\
    lenZ out' = lenZ out /\
    forall j, 0 <= j -> lget 0 out' j =
      if (done <=? j) && (j <? count) then fbyte d (iget m d ino) (offset + j) else lget 0 out j.
Proof.
  induction fuel as [|fuel IH]; intros done out blk Hinv Hl Ho Hd Hmax Hout Hblk Hfuel;
    cbn [read_loop].
  - assert (done = count) as -> by lia. exists out. split_and!; [done|done|].
    intros j Hj. destruct (Z.leb_spec count j), (Z.ltb_spec j count); cbn [andb]; done || lia.
  - destruct (Z.ltb_spec done count) as [Hlt|Hge].
    2:{ assert (done = count) as -> by lia. exists out. split_and!; [done|done|].
        intros j Hj. destruct (Z.leb_spec count j), (Z.ltb_spec j count); cbn [andb]; done || lia. }
    destruct (chunk_range offset count done Ho ltac:(lia)) as (Hc1 & Hc2 & Hc3 & _).
    rewrite max_file_u32 by lia. change MINIX_BLOCK_SIZE with 1024.
    fold (chunk_at offset count done). set (c := chunk_at offset count done) in *.
    set (fb := (offset + done) / 1024).
    assert (0 <= fb < MAX_FILE_BLOCKS) as Hfb by (unfold MAX_FILE_SIZE in Hmax; subst fb; dlia).
    rewrite map_block_lookup by done. cbn [fst].
    assert (exists part blk', lenZ part = c /\ lenZ blk' = 1024 /\
      (forall j, 0 <= j < c -> lget 0 part j = fbyte d (iget m d ino) (offset + done + j)) /\
      (if szone d (iget m d ino) (dslot fb) =? 0
       then read_loop fuel m d ino (iget m d ino) count offset (done + c)
              (lsplice out done (replicate (Z.to_nat c) 0)) blk
       else read_loop fuel m d ino (iget m d ino) count offset (done + c)
              (lsplice out done
                 (lsub (snd (block_read d (szone d (iget m d ino) (dslot fb)) blk))
                    ((offset + done) mod 1024) c))
              (snd (block_read d (szone d (iget m d ino) (dslot fb)) blk))) =
      read_loop fuel m d ino (iget m d ino) count offset (done + c) (lsplice out done part) blk')
      as (part & blk' & Hlp & Hlb & Hpart & ->).
    { assert (forall j, 0 <= j < c -> fbyte d (iget m d ino) (offset + done + j) =
                lget 0 (fblock d (iget m d ino) fb) ((offset + done) mod 1024 + j)) as Hfbyte.
      { intros j Hj. unfold fbyte. replace ((offset + done + j) / 1024) with fb by (subst fb; dlia).
        by replace ((offset + done + j) mod 1024) with ((offset + done) mod 1024 + j) by dlia. }
      unfold fblock in Hfbyte. destruct (Z.eqb_spec (szone d (iget m d ino) (dslot fb)) 0) as [Hz|Hz].
      - exists (replicate (Z.to_nat c) 0), blk. unfold lenZ at 1. rewrite length_replicate.
        split_and!; [lia|done| |done]. intros j Hj. rewrite Hfbyte by done.
        unfold zero_block. rewrite !lget_nth by dlia.
        rewrite !nth_lookup, !lookup_replicate_2 by dlia. done.
      - destruct (dslot_valid fb Hfb) as [Hs _].
        pose proof (fi_good _ _ Hinv ino (dslot fb) Hl Hs Hz) as [G1 _ _ _].
        pose proof (ly_wf _ _ (fi_layout _ _ Hinv)) as Hwf.
        rewrite block_read_ok by done. cbn [snd]. destruct (bget_block d _ Hwf G1) as [Hlz _].
        exists (lsub (bget d (szone d (iget m d ino) (dslot fb))) ((offset + done) mod 1024) c),
          (bget d (szone d (iget m d ino) (dslot fb))).
        split_and!; [apply lenZ_lsub; dlia|done| |done].
        intros j Hj. rewrite lget_lsub by dlia. by rewrite Hfbyte. }
    destruct (IH (done + c) (lsplice out done part) blk') as (out' & -> & Hlen & Hget); try done;
      try lia; try (rewrite lenZ_lsplice; lia).
    exists out'. split_and!; [done|by rewrite Hlen, lenZ_lsplice by lia|].
    intros j Hj. rewrite Hget, lget_lsplice by lia. rewrite Hlp.
    destruct (Z.leb_spec (done + c) j), (Z.ltb_spec j count), (Z.leb_spec done j),
      (Z.ltb_spec j (done + c)); cbn [andb]; try done; try lia.
    rewrite Hpart by lia. f_equal. lia.
Qed.

(** The number of bytes a read returns. *)
Definition read_len (size count offset : Z) : Z := Z.max 0 (Z.min count (size - offset)).

Lemma minixfs_read_ok d ino buf count offset :
  fs_inv m d -> live m d ino -> i_size (iget m d ino) <= MAX_FILE_SIZE ->
  0 <= offset < 2147483648 -> 0 <= count -> offset + count < 4294967296 -> count <= lenZ buf ->
  exists out, minixfs_read m d ino buf count offset =
      (read_len (i_size (iget m d ino)) count offset, out) /\
    lenZ out = lenZ buf /\
    forall j, 0 <= j -> lget 0 out j =
      if j <? read_len (i_size (iget m d ino)) count offset
      then fbyte d (iget m d ino) (offset + j) else lget 0 buf j.
Proof.
  intros Hinv Hl Hsz Ho Hc Hoc Hbuf. pose proof Hl as [Hi _].
  pose proof (iget_wf m d ino (fi_layout _ _ Hinv) Hi) as Hwf. apply inode_wf_ranges in Hwf.
  pose proof (ir_size _ Hwf) as Hs32.
  unfold minixfs_read. rewrite read_inode_ok by (done || apply Hinv). cbn [Z.ltb Z.compare].
  rewrite (u32_small offset) by dlia. unfold read_len.
  set (size := i_size (iget m d ino)) in *.
  destruct (Z.leb_spec size offset) as [Hle|Hgt].
  - exists buf. split_and!; [f_equal; lia|done|]. intros j Hj. bcase; [lia|done].
  - rewrite (u32_small (offset + count)) by dlia. rewrite (u32_small (size - offset)) by dlia.
    replace (if size <? offset + count then size - offset else count)
      with (Z.max 0 (Z.min count (size - offset))) by (bcase; lia).
    set (k := Z.max 0 (Z.min count (size - offset))).
    destruct (read_loop_spec k offset ino d (Z.to_nat k) 0 buf (stack_block 366))
      as (out & -> & Hlen & Hget); try done; try lia; try apply stack_block_ok.
    exists out. split_and!; [|done|intros j Hj; rewrite Hget by done; by destruct (Z.leb_spec 0 j); [|lia]].
    f_equal. apply i32_small. unfold MAX_FILE_SIZE, MAX_FILE_BLOCKS in Hsz. lia.
Qed.

(** ** The theorems *)

(** [map_block] with allocation always produces a zone for a block of the file
    when three zones are free; a later lookup finds the same zone, no mapping that
    existed changes, the block maps stay consistent (no zone is shared), and no byte
    of any file changes. *)
Theorem map_block_correct d ino fb n :
  fs_inv m d -> live m d ino -> 0 <= fb < MAX_FILE_BLOCKS -> has_free m d (S (S (S n))) ->
  exists z i' d', map_block m d (iget m d ino) fb true ino = (z, i', d') /\ z <> 0 /\
    map_block m d' i' fb false ino = (z, i', d') /\ i' = iget m d' ino /\
    grow m d ino d' /\ has_free m d' n.
Proof.
  intros Hinv Hl Hfb Hf. destruct (map_block_alloc m d ino fb n Hinv Hl Hfb Hf) as (d' & Hmb & Hg & Hz & Hf').
  eexists _, _, d'. split_and!; [done|done| |done|done|done].
  apply map_block_lookup; [apply Hg|by apply (gr_live _ _ _ _ Hg)|done].
Qed.

(** C14: [minixfs_write] of a range that ends within the largest file size, with three free
    zones on the disk for every block it touches, writes all [count] bytes: the written
    range of the file holds the data, its size is the maximum of the old size and the
    end of the range, and every other byte of every file, every other inode and the
    file-system invariant are preserved. *)
Theorem minixfs_write_correct d ino src count offset :
  fs_inv m d -> live m d ino -> 0 <= offset -> 0 <= count -> offset + count <= MAX_FILE_SIZE ->
  count <= lenZ src -> bytes src -> has_free m d (3 * rounds offset count 0) ->
  exists d', minixfs_write m d ino src count offset = (count, d') /\
    write_post d ino src count offset d'.
Proof.
  intros. destruct (minixfs_write_ok d ino src count offset 0) as (d' & ? & ? & _); try done.
  - by rewrite Nat.add_0_r.
  - by exists d'.
Qed.

(** [minixfs_read] returns the bytes of the file from [offset] on, cut at the end
    of the file (0 bytes at or after it), and leaves the rest of the buffer alone. *)
Theorem minixfs_read_correct d ino buf count offset :
  fs_inv m d -> live m d ino -> i_size (iget m d ino) <= MAX_FILE_SIZE ->
  0 <= offset < 2147483648 -> 0 <= count -> offset + count < 4294967296 -> count <= lenZ buf ->
  exists out, minixfs_read m d ino buf count offset =
      (read_len (i_size (iget m d ino)) count offset, out) /\
    lenZ out = lenZ buf /\
    forall j, 0 <= j -> lget 0 out j =
      if j <? read_len (i_size (iget m d ino)) count offset
      then fbyte d (iget m d ino) (offset + j) else lget 0 buf j.
Proof. apply minixfs_read_ok. Qed.

Lemma max_size_u32 : MAX_FILE_SIZE < 2147483648.
Proof. reflexivity. Qed.

(** C15: What is written to a file is what is read back from it, when the write ends within
    the largest file size ([MAX_FILE_SIZE]) and the zone map has three free zones that lie on
    the disk for every block the write touches (one for the block and at most two for indirect
    blocks).  On a full disk this is not so: a write that runs out of zones returns the bytes
    it stored without raising the size of the file, and zones past the end of the disk are
    handed out. *)
Theorem read_after_write d ino src count offset buf :
  fs_inv m d -> live m d ino -> i_size (iget m d ino) <= MAX_FILE_SIZE ->
  0 <= offset -> 0 <= count -> offset + count <= MAX_FILE_SIZE ->
  count <= lenZ src -> bytes src -> count <= lenZ buf -> has_free m d (3 * rounds offset count 0) ->
  let d' := snd (minixfs_write m d ino src count offset) in
  fst (minixfs_read m d' ino buf count offset) = count /\
  lsub (snd (minixfs_read m d' ino buf count offset)) 0 count = lsub src 0 count.
Proof.
  intros Hinv Hl Hsz Ho Hc Hmax Hsrc Hb Hbuf Hf.
  destruct (minixfs_write_ok d ino src count offset 0) as (d' & -> & [P1 P2 P3 P4 P5 P6] & _); try done.
  { by rewrite Nat.add_0_r. }
  pose proof max_size_u32. cbn [snd].
  destruct (minixfs_read_ok d' ino buf count offset) as (out & -> & Hlen & Hget);
    [done|by apply P2|lia|lia|lia|lia|lia|]. cbn [fst snd].
  replace (read_len (i_size (iget m d' ino)) count offset) with count in * by (unfold read_len; lia).
  split; [done|]. apply (lists_eq_lget 0); rewrite !lenZ_lsub by lia; [done|].
  intros j Hj. rewrite !lget_lsub, Z.add_0_l by lia. rewrite Hget by lia.
  destruct (Z.ltb_spec j count); [|lia]. rewrite P6 by (done || lia).
  destruct (decide _) as [_|[]]; [|split; [done|lia]]. f_equal. lia.
Qed.

(** C28: Writing one file does not change what a read of any other file returns, when the
    write ends within the largest file size and the zone map has three free zones on the disk
    for every block it touches. *)
Theorem write_isolated d ino ino' src count offset buf count' offset' :
  fs_inv m d -> live m d ino -> live m d ino' -> ino' <> ino ->
  i_size (iget m d ino') <= MAX_FILE_SIZE -> 0 <= offset -> 0 <= count ->
  offset + count <= MAX_FILE_SIZE -> count <= lenZ src -> bytes src ->
  0 <= offset' < 2147483648 -> 0 <= count' -> offset' + count' < 4294967296 -> count' <= lenZ buf ->
  has_free m d (3 * rounds offset count 0) ->
  minixfs_read m (snd (minixfs_write m d ino src count offset)) ino' buf count' offset' =
  minixfs_read m d ino' buf count' offset'.
Proof.
  intros Hinv Hl Hl' Hne Hsz Ho Hc Hmax Hsrc Hb Ho' Hc' Hoc' Hbuf Hf.
  destruct (minixfs_write_ok d ino src count offset 0) as (d' & -> & [P1 P2 P3 P4 P5 P6] & _); try done.
  { by rewrite Nat.add_0_r. }
  cbn [snd]. pose proof (P3 ino' (proj1 Hl') Hne) as Hi.
  destruct (minixfs_read_ok d ino' buf count' offset') as (o1 & -> & L1 & G1); try done.
  destruct (minixfs_read_ok d' ino' buf count' offset') as (o2 & -> & L2 & G2);
    [done|by apply P2|by rewrite Hi|done..|].
  rewrite Hi in *. f_equal. apply (lists_eq_lget 0); [by rewrite L1, L2|].
  intros j Hj. rewrite G1, G2 by lia. bcase; [|done].
  rewrite <- Hi at 1. rewrite P6; [|done|unfold read_len in *; lia].
  destruct (decide _) as [[? _]|_]; [done|done].
Qed.
End files.

Section witnesses.
Import MinixDemo.

Lemma map_block_correct_witness :
  exists z i' d', map_block demo_fs demo_disk (iget demo_fs demo_disk 2) 300 true 2 = (z, i', d') /\
    z <> 0 /\ map_block demo_fs d' i' 300 false 2 = (z, i', d') /\ i' = iget demo_fs d' 2 /\
    grow demo_fs demo_disk 2 d' /\ has_free demo_fs d' 0.
Proof.
  apply (map_block_correct demo_fs demo_disk 2 300 0);
    [apply demo_inv|apply demo_live; lia|done|apply demo_free; lia].
Defined.

Lemma minixfs_write_correct_witness :
  exists d', minixfs_write demo_fs demo_disk 2 [104; 105] 2 7000 = (2, d') /\
    write_post demo_fs demo_disk 2 [104; 105] 2 7000 d'.
Proof.
  apply (minixfs_write_correct demo_fs demo_disk 2 [104; 105] 2 7000);
    [apply demo_inv|apply demo_live; lia|lia|lia|done|done| |apply demo_free; vm_compute; lia].
  apply (bool_decide_eq_true_1 (bytes [104; 105])). reflexivity.
Defined.

Lemma minixfs_read_correct_witness :
  exists out, minixfs_read demo_fs demo_disk 1 [9; 9; 9] 3 4 =
      (read_len (i_size (iget demo_fs demo_disk 1)) 3 4, out) /\
    lenZ out = lenZ [9; 9; 9] /\
    forall j, 0 <= j -> lget 0 out j =
      if j <? read_len (i_size (iget demo_fs demo_disk 1)) 3 4
      then fbyte demo_disk (iget demo_fs demo_disk 1) (4 + j) else lget 0 [9; 9; 9] j.
Proof.
  apply (minixfs_read_correct demo_fs demo_disk 1 [9; 9; 9] 3 4);
    [apply demo_inv|apply demo_live; lia|vm_compute; congruence|lia|lia|lia|done].
Defined.

Lemma read_after_write_witness :
  let d' := snd (minixfs_write demo_fs demo_disk 2 [104; 105] 2 1023) in
  fst (minixfs_read demo_fs d' 2 [0; 0] 2 1023) = 2 /\
  lsub (snd (minixfs_read demo_fs d' 2 [0; 0] 2 1023)) 0 2 = lsub [104; 105] 0 2.
Proof.
  apply (read_after_write demo_fs demo_disk 2 [104; 105] 2 1023 [0; 0]);
    [apply demo_inv|apply demo_live; lia|vm_compute; congruence|lia|lia|done|done|
     |done|apply demo_free; vm_compute; lia].
  apply (bool_decide_eq_true_1 (bytes [104; 105])). reflexivity.
Defined.

Lemma write_isolated_witness :
  minixfs_read demo_fs (snd (minixfs_write demo_fs demo_disk 2 [104; 105] 2 0)) 1 [0; 0; 0; 0; 0] 5 0 =
  minixfs_read demo_fs demo_disk 1 [0; 0; 0; 0; 0] 5 0.
Proof.
  apply (write_isolated demo_fs demo_disk 2 1 [104; 105] 2 0 [0; 0; 0; 0; 0] 5 0);
    [apply demo_inv|apply demo_live; lia|apply demo_live; lia|lia|vm_compute; congruence|lia|lia|done|
     done| |lia|lia|lia|done|apply demo_free; vm_compute; lia].
  apply (bool_decide_eq_true_1 (bytes [104; 105])). reflexivity.
Defined.
End witnesses.
End MinixFile.
