(* ===== verification/MinixDir.v ===== *)
(** * Directories of the MINIX file system (dir_lookup, dir_add, dir_remove,
    dir_is_empty and minixfs_readdir of kernel/fs/minixfs.c)

    A directory is abstracted to the list of its blocks (holes are zero blocks) and
    the operations to functions on that list: [scan], [add_entry], [remove_entry],
    [entries].  The first part of the file is about these functions alone, the second
    shows that the operations of minixfs.c compute them on the disk. *)

From stdpp Require Import base list gmap numbers.
From S2P Require Import Prelude CString Disk Layout Minix MinixTable MinixZones MinixTree.
From S2P Require Import MinixDemo MinixFile.

#[local] Open Scope Z_scope.

Module MinixDir.
Import Disk Minix MinixTable MinixZones MinixTree MinixFile.

(** ** Entries of a block *)

(** Names are compared on their first 60 characters. *)
Definition same_name (s t : list Z) : Prop := take 60 (CStr.cstring s) = take 60 (CStr.cstring t).

#[global] Instance same_name_dec s t : Decision (same_name s t).
Proof. unfold same_name. apply _. Defined.

Lemma de_inode_put b k name ino k' : block b -> 0 <= k < 16 -> 0 <= k' < 16 -> is_u32 ino ->
  de_inode (put_entry b k name ino) k' = if k =? k' then ino else de_inode b k'.
Proof.
  intros [Hl Hb] Hk Hk' Hi. unfold put_entry, set_de_name, set_de_inode, de_inode, DIRENT_SIZE.
  assert (lenZ (wr32 b (64 * k) ino) = 1024) as Hw by (rewrite lenZ_wr32; lia).
  assert (lenZ (CStr.cstrncpy name 60) = 60) as Hn by (unfold lenZ; by rewrite CStr.length_strncpy).
  unfold rd32. rewrite lsub_lsplice_disj by (rewrite ?Hw, ?Hn; lia).
  fold (rd32 (wr32 b (64 * k) ino) (64 * k')). fold (rd32 b (64 * k')).
  destruct (Z.eqb_spec k k') as [->|Hne]; [apply rd32_wr32_eq; done || lia|apply rd32_wr32_ne; lia].
Qed.

Lemma de_name_put b k name ino k' : block b -> 0 <= k < 16 -> 0 <= k' < 16 ->
  de_name (put_entry b k name ino) k' = if k =? k' then CStr.cstrncpy name 60 else de_name b k'.
Proof.
  intros [Hl Hb] Hk Hk'. unfold put_entry, set_de_name, set_de_inode, de_name, DIRENT_SIZE, MINIX_NAME_MAX.
  assert (lenZ (wr32 b (64 * k) ino) = 1024) as Hw by (rewrite lenZ_wr32; lia).
  assert (lenZ (CStr.cstrncpy name 60) = 60) as Hn by (unfold lenZ; by rewrite CStr.length_strncpy).
  destruct (Z.eqb_spec k k') as [->|Hne].
  - rewrite <- Hn at 1. apply lsub_lsplice_eq; rewrite ?Hw, ?Hn; lia.
  - rewrite lsub_lsplice_disj by (rewrite ?Hw, ?Hn; lia). unfold wr32.
    apply lsub_lsplice_disj; rewrite ?lenZ_le_bytes; lia.
Qed.

Lemma block_put_entry b k name ino : block b -> bytes name -> 0 <= k < 16 -> block (put_entry b k name ino).
Proof.
  intros [Hl Hb] Hn Hk. unfold put_entry, set_de_name, set_de_inode, DIRENT_SIZE.
  assert (lenZ (wr32 b (64 * k) ino) = 1024) as Hw by (rewrite lenZ_wr32; lia).
  assert (lenZ (CStr.cstrncpy name 60) = 60) as Hln by (unfold lenZ; by rewrite CStr.length_strncpy).
  split; [rewrite lenZ_lsplice; lia|]. apply bytes_lsplice; [by apply bytes_wr32|].
  unfold CStr.cstrncpy. apply bytes_app. split; [|apply Forall_replicate; dlia].
  apply Forall_take. clear -Hn. induction Hn as [|c l Hc Hn IH]; simpl; [constructor|].
  destruct (c =? 0); [constructor|by constructor].
Qed.

Lemma put_wipe b k : wipe_entry b k = put_entry b k [] 0.
Proof. reflexivity. Qed.

Lemma de_inode_zero k : 0 <= k < 16 -> de_inode zero_block k = 0.
Proof.
  intros Hk. unfold de_inode, rd32, zero_block, lsub, DIRENT_SIZE.
  rewrite drop_replicate, take_replicate.
  replace (Z.to_nat 4 `min` (1024 - Z.to_nat (64 * k)))%nat with 4%nat by lia. done.
Qed.

Lemma de_match_iff b name k :
  de_match b name k = true <-> de_inode b k <> 0 /\ same_name (de_name b k) name.
Proof.
  unfold de_match, same_name. rewrite andb_true_iff, negb_true_iff, Z.eqb_neq, Z.eqb_eq.
  by rewrite CStr.strncmp_zero.
Qed.

Lemma de_match_put b k name ino name' k' : block b -> 0 <= k < 16 -> 0 <= k' < 16 -> is_u32 ino ->
  de_match (put_entry b k name ino) name' k' =
    if k =? k' then negb (ino =? 0) && bool_decide (same_name name name') else de_match b name' k'.
Proof.
  intros Hb Hk Hk' Hi. unfold de_match. rewrite de_inode_put, de_name_put by done.
  destruct (Z.eqb_spec k k') as [_|_]; [|done]. f_equal. apply eq_bool_prop_intro.
  rewrite bool_decide_spec, Is_true_true, Z.eqb_eq, CStr.strncmp_zero, CStr.cstring_strncpy.
  unfold same_name. by rewrite take_take, Nat.min_id.
Qed.

(** ** Directories as lists of blocks *)

Fixpoint scan (name : list Z) (bs : list (list Z)) : option Z :=
  match bs with
  | [] => None
  | b :: bs' =>
      match find_first (de_match b name) 0 dirents with
      | Some k => Some (de_inode b k)
      | None => scan name bs'
      end
  end.

Lemma scan_same_name s t bs : same_name s t -> scan s bs = scan t bs.
Proof.
  intros Hs. induction bs as [|b bs IH]; [done|]. cbn [scan].
  rewrite (find_first_ext _ (de_match b t)); [by rewrite IH|]. intros k _.
  apply eq_bool_prop_intro. rewrite !Is_true_true, !de_match_iff. unfold same_name in *.
  by rewrite Hs.
Qed.

Definition free_entry (b : list Z) : option Z := find_first (fun k => de_inode b k =? 0) 0 dirents.

Fixpoint add_entry (name : list Z) (ino : Z) (bs : list (list Z)) : list (list Z) :=
  match bs with
  | [] => [put_entry zero_block 0 name ino]
  | b :: bs' =>
      match free_entry b with
      | Some k => put_entry b k name ino :: bs'
      | None => b :: add_entry name ino bs'
      end
  end.

Fixpoint remove_entry (name : list Z) (bs : list (list Z)) : list (list Z) :=
  match bs with
  | [] => []
  | b :: bs' =>
      match find_first (de_match b name) 0 dirents with
      | Some k => wipe_entry b k :: bs'
      | None => b :: remove_entry name bs'
      end
  end.

Lemma dirents_in k : 0 <= k < 0 + Z.of_nat dirents -> 0 <= k < 16.
Proof. unfold dirents, DIRENTS_PER_BLOCK. lia. Qed.

Lemma dirents_out k : 0 <= k < 16 -> 0 <= k < 0 + Z.of_nat dirents.
Proof. unfold dirents, DIRENTS_PER_BLOCK. lia. Qed.

Lemma scan_zero_block name bs : scan name (zero_block :: bs) = scan name bs.
Proof.
  cbn [scan]. destruct (find_first _ 0 dirents) as [k|] eqn:Hf; [|done].
  apply find_first_Some in Hf as (Hk & Hm & _). apply dirents_in in Hk.
  apply de_match_iff in Hm as [Hne _]. by rewrite de_inode_zero in Hne.
Qed.

(** Replacing an entry that does not match by another that does not. *)
Lemma scan_put_other b k name ino name' bs : block b -> 0 <= k < 16 -> is_u32 ino ->
  de_match b name' k = false -> (ino = 0 \/ ~ same_name name name') ->
  scan name' (put_entry b k name ino :: bs) = scan name' (b :: bs).
Proof.
  intros Hb Hk Hi Hno Hnew. cbn [scan].
  assert (forall j, 0 <= j < 16 -> de_match (put_entry b k name ino) name' j = de_match b name' j) as He.
  { intros j Hj. rewrite de_match_put by done. destruct (Z.eqb_spec k j) as [<-|_]; [|done].
    rewrite Hno. destruct Hnew as [->|Hns]; [done|]. by rewrite bool_decide_eq_false_2, andb_false_r. }
  rewrite (find_first_ext _ (de_match b name')) by (intros j Hj; apply He; by apply dirents_in).
  destruct (find_first (de_match b name') 0 dirents) as [j|] eqn:Hf; [|done].
  apply find_first_Some in Hf as (Hj & Hm & _). apply dirents_in in Hj.
  rewrite de_inode_put by done. destruct (Z.eqb_spec k j) as [->|_]; [congruence|done].
Qed.

(** Filling a free entry of a block without a match. *)
Lemma scan_put_new b k name ino bs : block b -> 0 <= k < 16 -> is_u32 ino -> ino <> 0 ->
  find_first (de_match b name) 0 dirents = None ->
  find_first (de_match (put_entry b k name ino) name) 0 dirents = Some k /\
  scan name (put_entry b k name ino :: bs) = Some ino.
Proof.
  intros Hb Hk Hi Hne Hnone.
  assert (find_first (de_match (put_entry b k name ino) name) 0 dirents = Some k) as Hf.
  { apply find_first_spec.
    - by apply dirents_out.
    - rewrite de_match_put, Z.eqb_refl by done. destruct (Z.eqb_spec ino 0); [done|].
      by rewrite bool_decide_eq_true_2.
    - intros j Hj. rewrite de_match_put by lia || done. destruct (Z.eqb_spec k j); [lia|].
      eapply find_first_None; [done|]. apply dirents_out. lia. }
  split; [done|]. cbn [scan]. rewrite Hf, de_inode_put, Z.eqb_refl by done. done.
Qed.

Lemma free_entry_nomatch b k name : free_entry b = Some k ->
  0 <= k < 16 /\ de_inode b k = 0 /\ de_match b name k = false.
Proof.
  intros Hf. apply find_first_Some in Hf as (Hk & Hz & _). apply dirents_in in Hk.
  apply Z.eqb_eq in Hz. split_and!; [lia|lia|done|]. unfold de_match. by rewrite Hz.
Qed.

Section dirlist.
Context (name : list Z) (ino : Z).
Hypothesis Hi : is_u32 ino.
Hypothesis Hne : ino <> 0.

Lemma scan_add_same bs : Forall block bs -> scan name bs = None ->
  scan name (add_entry name ino bs) = Some ino.
Proof.
  intros Hbs. induction Hbs as [|b bs Hb Hbs IH]; intros Hs.
  - apply scan_put_new; [apply zero_block_ok|lia|done|done|].
    pose proof (scan_zero_block name []) as Hz. cbn [scan] in Hz. by destruct (find_first _ _ _).
  - cbn [scan add_entry] in *. destruct (find_first (de_match b name) 0 dirents) eqn:Hf; [done|].
    destruct (free_entry b) as [k|] eqn:Hk.
    + apply (free_entry_nomatch _ _ name) in Hk as (? & _ & _). by apply scan_put_new.
    + cbn [scan]. rewrite Hf. by apply IH.
Qed.

Lemma scan_add_other bs name' : Forall block bs -> ~ same_name name name' ->
  scan name' (add_entry name ino bs) = scan name' bs.
Proof.
  intros Hbs Hns. induction Hbs as [|b bs Hb Hbs IH]; cbn [add_entry].
  - rewrite scan_put_other; [by rewrite scan_zero_block|apply zero_block_ok|lia|done| |by right].
    unfold de_match. by rewrite de_inode_zero.
  - destruct (free_entry b) as [k|] eqn:Hk.
    + apply (free_entry_nomatch _ _ name') in Hk as (? & _ & ?). apply scan_put_other; auto.
    + cbn [scan]. by rewrite IH.
Qed.


(** Adding a name that is absent and removing it again. *)
Lemma scan_add_remove bs : bytes name -> Forall block bs -> scan name bs = None ->
  scan name (remove_entry name (add_entry name ino bs)) = None.
Proof.
  intros Hbn.
  assert (forall b k rest, block b -> 0 <= k < 16 -> find_first (de_match b name) 0 dirents = None ->
    scan name rest = None -> scan name (remove_entry name (put_entry b k name ino :: rest)) = None) as Hput.
  { intros b k rest Hb Hk Hnone Hrest. cbn [remove_entry].
    destruct (scan_put_new b k name ino rest Hb Hk Hi Hne Hnone) as [-> _]. cbn [scan].
    rewrite (find_first_ext _ (de_match b name)); [by rewrite Hnone|].
    intros j Hj. pose proof (find_first_None _ _ _ Hnone j Hj) as Hnj. apply dirents_in in Hj.
    rewrite put_wipe, !de_match_put by (done || by apply block_put_entry).
    destruct (Z.eqb_spec k j) as [->|_]; [by rewrite Hnj|done]. }
  intros Hbs. induction Hbs as [|b bs Hb Hbs IH]; intros Hs.
  - apply Hput; [apply zero_block_ok|lia| |done].
    pose proof (scan_zero_block name []) as Hz. cbn [scan] in Hz. by destruct (find_first _ _ _).
  - cbn [scan add_entry] in *. destruct (find_first (de_match b name) 0 dirents) eqn:Hf; [done|].
    destruct (free_entry b) as [k|] eqn:Hk.
    + apply (free_entry_nomatch _ _ name) in Hk as (? & _ & _). by apply Hput.
    + cbn [remove_entry scan]. rewrite Hf. cbn [scan]. rewrite Hf. by apply IH.
Qed.

Lemma scan_remove_other bs name' : Forall block bs -> ~ same_name name name' ->
  scan name' (remove_entry name bs) = scan name' bs.
Proof.
  intros Hbs Hns. induction Hbs as [|b bs Hb Hbs IH]; cbn [remove_entry]; [done|].
  destruct (find_first (de_match b name) 0 dirents) as [k|] eqn:Hk.
  - apply find_first_Some in Hk as (Hk & Hm & _). apply dirents_in in Hk.
    rewrite put_wipe. apply scan_put_other; [done|done|by unfold is_u32|  |by left].
    apply de_match_iff in Hm as [_ Hsn]. destruct (de_match b name' k) eqn:Hm'; [|done].
    apply de_match_iff in Hm' as [_ Hsn']. destruct Hns. unfold same_name in *. congruence.
  - cbn [scan]. by rewrite IH.
Qed.
End dirlist.

(** All inode numbers entered under a name, in the order of the directory: [scan] gives the
    first, and removing an entry removes the first. *)
Definition named_in (name b : list Z) : list Z := map (de_inode b) (List.filter (de_match b name) (range 0 dirents)).
Definition named_entries (name : list Z) (bs : list (list Z)) : list Z := concat (map (named_in name) bs).

Lemma find_first_filter p n : forall s, find_first p s n = hd_error (List.filter p (range s n)).
Proof. induction n as [|n IH]; intros s; [done|]. cbn [find_first range List.filter]. destruct (p s); [done|apply IH]. Qed.

Lemma scan_entries name bs : scan name bs = hd_error (named_entries name bs).
Proof.
  induction bs as [|b bs IH]; [done|]. unfold named_entries in *. cbn [scan map concat]. rewrite find_first_filter. unfold named_in at 1.
  destruct (List.filter _ _) as [|k l]; [exact IH|done].
Qed.

Lemma filter_drop_first p q k n : forall s, find_first p s n = Some k -> q k = false ->
  (forall j, s <= j < s + Z.of_nat n -> j <> k -> q j = p j) ->
  exists l, List.filter p (range s n) = k :: l /\ List.filter q (range s n) = l /\ k ∉ l.
Proof.
  induction n as [|n IH]; intros s Hf Hq He; [done|]. cbn [find_first range List.filter] in *. destruct (p s) eqn:Ep.
  - injection Hf as ->. rewrite Hq. exists (List.filter p (range (k + 1) n)). split; [done|].
    assert (forall l, Forall (fun j => k < j /\ q j = p j) l -> List.filter q l = List.filter p l /\ k ∉ List.filter p l) as Hl.
    { induction 1 as [|j l [Hj E] _ [IH1 IH2]]; cbn [List.filter]; [split; [done|by apply not_elem_of_nil]|].
      rewrite E. destruct (p j); [|done]. rewrite IH1. split; [done|]. apply not_elem_of_cons. split; [lia|done]. }
    apply Hl. apply list.Forall_forall. intros j Hj%list_elem_of_In%In_range. split; [lia|]. apply He; lia.
  - assert (s <> k) as Hsk by (intros ->; apply find_first_Some in Hf; lia).
    rewrite (He s) by lia. rewrite Ep. apply IH; [done|done|]. intros j Hj Hne. apply He; lia.
Qed.

Lemma entries_remove name bs : Forall block bs -> named_entries name (remove_entry name bs) = tail (named_entries name bs).
Proof.
  unfold named_entries. induction 1 as [|b bs Hb Hbs IH]; [done|]. cbn [remove_entry map concat].
  destruct (find_first (de_match b name) 0 dirents) as [k|] eqn:Hf; cbn [map concat].
  - pose proof Hf as (Hk & Hm & _)%find_first_Some. apply dirents_in in Hk.
    destruct (filter_drop_first (de_match b name) (de_match (wipe_entry b k) name) k dirents 0 Hf) as (l & El & El' & Hnl).
    { rewrite put_wipe, de_match_put by (done || unfold is_u32; lia). by rewrite Z.eqb_refl. }
    { intros j Hj%dirents_in Hne. rewrite put_wipe, de_match_put by (done || unfold is_u32; lia).
      by rewrite (proj2 (Z.eqb_neq k j)). }
    unfold named_in at 1 3. rewrite El, El'. cbn [map app tail]. f_equal. apply map_ext_in. intros j Hj.
    assert (0 <= j < 16) as Hj'.
    { assert (In j (List.filter (de_match b name) (range 0 dirents))) as Hin by (rewrite El; by right).
      apply filter_In in Hin as [Hin _]. apply In_range in Hin. by apply dirents_in. }
    rewrite put_wipe, de_inode_put by (done || unfold is_u32; lia). rewrite (proj2 (Z.eqb_neq k j)); [done|].
    intros ->. apply Hnl. by apply list_elem_of_In.
  - rewrite IH. assert (named_in name b = []) as ->; [|done].
    rewrite find_first_filter in Hf. unfold named_in. by destruct (List.filter _ _).
Qed.

Lemma blocks_add name ino bs : bytes name -> Forall block bs -> Forall block (add_entry name ino bs).
Proof.
  intros Hn Hbs. induction Hbs as [|b bs Hb Hbs IH]; cbn [add_entry].
  - constructor; [|constructor]. apply block_put_entry; [apply zero_block_ok|done|lia].
  - destruct (free_entry b) as [k|] eqn:Hk; constructor; try done.
    apply block_put_entry; [done|done|]. by eapply (free_entry_nomatch _ _ []).
Qed.

(** ** The operations on the disk *)

Definition blocks_from (d : disk) (i : inode) (b : Z) (n : nat) : list (list Z) :=
  map (fblock d i) (range b n).

Definition dblocks (d : disk) (i : inode) : list (list Z) :=
  blocks_from d i 0 (Z.to_nat (nblocks i)).

Section ops.
Context `{STK : !Stack} (m : statics).

Lemma fblock_block d ino fb : fs_inv m d -> live m d ino -> 0 <= fb < MAX_FILE_BLOCKS ->
  block (fblock d (iget m d ino) fb).
Proof.
  intros Hinv Hl Hfb. unfold fblock. destruct (dslot_valid fb Hfb) as [Hs _].
  destruct (Z.eqb_spec (szone d (iget m d ino) (dslot fb)) 0) as [|Hne]; [apply zero_block_ok|].
  apply bget_block; [apply Hinv|]. by apply (fi_good _ _ Hinv).
Qed.

(** The block that a scan step looks at: it is skipped when it is a hole. *)
Lemma scan_step d ino b buf : fs_inv m d -> live m d ino -> 0 <= b < MAX_FILE_BLOCKS -> lenZ buf = 1024 ->
  let z := fst (fst (map_block m d (iget m d ino) b false ino)) in
  (z = 0 /\ fblock d (iget m d ino) b = zero_block) \/
  (z <> 0 /\ on_disk d z /\ snd (block_read d z buf) = fblock d (iget m d ino) b /\
   z = szone d (iget m d ino) (dslot b)).
Proof.
  intros Hinv Hl Hb Hbuf z. subst z. rewrite map_block_lookup by done. cbn [fst]. unfold fblock.
  destruct (Z.eqb_spec (szone d (iget m d ino) (dslot b)) 0) as [|Hne]; [by left|right].
  destruct (dslot_valid b Hb) as [Hs _]. pose proof (fi_good _ _ Hinv ino (dslot b) Hl Hs Hne) as [G _ _ _].
  split_and!; [done|done| |done]. rewrite block_read_ok; [done|apply Hinv|done|done].
Qed.

Lemma dir_lookup_from_scan d dir name n : forall b buf,
  fs_inv m d -> live m d dir -> 0 <= b -> b + Z.of_nat n <= MAX_FILE_BLOCKS -> lenZ buf = 1024 ->
  dir_lookup_from m d dir (iget m d dir) name b n buf =
  scan name (blocks_from d (iget m d dir) b n).
Proof.
  induction n as [|n IH]; intros b buf Hinv Hl Hb Hn Hbuf; [done|].
  cbn [dir_lookup_from]. unfold blocks_from. cbn [range map].
  destruct (scan_step d dir b buf Hinv Hl ltac:(lia) Hbuf) as [[-> Hz]|(Hz & Hon & Hr & _)].
  - rewrite Z.eqb_refl, Hz, scan_zero_block. apply IH; try done; lia.
  - destruct (Z.eqb_spec (fst (fst (map_block m d (iget m d dir) b false dir))) 0); [done|].
    rewrite Hr. cbn [scan]. destruct (find_first _ 0 dirents); [done|].
    apply IH; try done; try lia. by apply (fblock_block d dir b); [..|lia].
Qed.

Lemma nblocks_spec i : 0 <= i_size i <= MAX_FILE_SIZE ->
  nblocks i = (i_size i + 1023) / 1024 /\ 0 <= nblocks i <= MAX_FILE_BLOCKS.
Proof.
  intros H. unfold nblocks, MAX_FILE_SIZE, MAX_FILE_BLOCKS, MINIX_BLOCK_SIZE in *.
  rewrite u32_small by dlia. replace (i_size i + 1024 - 1) with (i_size i + 1023) by lia. dlia.
Qed.

Lemma iget_size d ino : layout m d -> ino_ok m ino -> is_u32 (i_size (iget m d ino)).
Proof. intros HL Hi. pose proof (iget_wf m d ino HL Hi) as Hw. by apply inode_wf_ranges in Hw as []. Qed.

Lemma dir_lookup_scan d dir name : fs_inv m d -> live m d dir ->
  i_size (iget m d dir) <= MAX_FILE_SIZE -> S_ISDIR (i_mode (iget m d dir)) = true ->
  dir_lookup m d dir name = scan name (dblocks d (iget m d dir)).
Proof.
  intros Hinv Hl Hsz Hdir. pose proof (iget_size d dir (fi_layout _ _ Hinv) (proj1 Hl)) as H32.
  destruct (nblocks_spec (iget m d dir)) as [_ Hn]; [dlia|].
  unfold dir_lookup. rewrite read_inode_ok by (apply Hinv || apply Hl). cbn [Z.ltb Z.compare].
  rewrite Hdir. cbn [negb]. apply dir_lookup_from_scan; try done; try lia. apply stack_block_ok.
Qed.

Lemma dblocks_block d ino : fs_inv m d -> live m d ino -> i_size (iget m d ino) <= MAX_FILE_SIZE ->
  Forall block (dblocks d (iget m d ino)).
Proof.
  intros Hinv Hl Hsz. pose proof (iget_size d ino (fi_layout _ _ Hinv) (proj1 Hl)) as H32.
  destruct (nblocks_spec (iget m d ino)) as [_ Hn]; [dlia|].
  unfold dblocks, blocks_from. apply List.Forall_forall. intros b Hb.
  apply in_map_iff in Hb as (fb & <- & Hfb). apply In_range in Hfb. apply fblock_block; try done. lia.
Qed.

(** ** Overwriting one block of one file *)

Record block_put (d : disk) (ino j : Z) (v : list Z) (d' : disk) : Prop := {
  bp_inv : fs_inv m d';
  bp_live : forall ino', live m d' ino' <-> live m d ino';
  bp_inode : forall ino', ino_ok m ino' -> ino' <> ino -> iget m d' ino' = iget m d ino';
  bp_attrs : attrs (iget m d' ino) = attrs (iget m d ino);
  bp_fblock : forall ino' fb, live m d ino' -> 0 <= fb < MAX_FILE_BLOCKS ->
    fblock d' (iget m d' ino') fb =
      if decide (ino' = ino /\ fb = j) then v else fblock d (iget m d ino') fb }.

Lemma grow_put d d1 ino j v : grow m d ino d1 -> live m d ino -> 0 <= j < MAX_FILE_BLOCKS ->
  szone d1 (iget m d1 ino) (dslot j) <> 0 -> block v ->
  block_put d ino j v (bput d1 (szone d1 (iget m d1 ino) (dslot j)) v).
Proof.
  intros Hg Hl Hj Hz Hv. pose proof (gr_inv _ _ _ _ Hg) as Hinv1.
  apply (gr_live _ _ _ _ Hg) in Hl as Hl1. constructor.
  - by apply data_put_inv.
  - intros ino'. rewrite data_put_live by done. apply Hg.
  - intros ino' Hi Hne. rewrite data_put_iget by done. by apply (gr_inode _ _ _ _ Hg).
  - rewrite data_put_iget by (done || apply Hl). apply (gr_attrs _ _ _ _ Hg).
  - intros ino' fb Hl' Hfb. rewrite data_put_fblock by (done || by apply (gr_live _ _ _ _ Hg)).
    destruct (decide _); [done|]. by apply (gr_fblock _ _ _ _ Hg).
Qed.

Lemma map_range_ext {A} (f g : Z -> A) n : forall b, (forall x, b <= x < b + Z.of_nat n -> f x = g x) ->
  map f (range b n) = map g (range b n).
Proof.
  induction n as [|n IH]; intros b H; [done|]. cbn [range map]. rewrite H by lia.
  f_equal. apply IH. intros x Hx. apply H. lia.
Qed.

(** What a directory operation leaves behind. *)
Record dir_post (d : disk) (dir : Z) (bs : list (list Z)) (d' : disk) : Prop := {
  dp_inv : fs_inv m d';
  dp_live : forall ino', live m d' ino' <-> live m d ino';
  dp_inode : forall ino', ino_ok m ino' -> ino' <> dir -> iget m d' ino' = iget m d ino';
  dp_mode : i_mode (iget m d' dir) = i_mode (iget m d dir);
  dp_size : i_size (iget m d' dir) <= MAX_FILE_SIZE;
  dp_blocks : dblocks d' (iget m d' dir) = bs;
  dp_others : forall ino' fb, live m d ino' -> 0 <= fb < MAX_FILE_BLOCKS -> ino' <> dir ->
    fblock d' (iget m d' ino') fb = fblock d (iget m d ino') fb }.

Lemma blocks_from_put d dir d' j v n : forall b, block_put d dir j v d' -> live m d dir -> 0 <= b ->
  b + Z.of_nat n <= MAX_FILE_BLOCKS ->
  blocks_from d' (iget m d' dir) b n =
  map (fun fb => if decide (fb = j) then v else fblock d (iget m d dir) fb) (range b n).
Proof.
  intros b Hp Hl Hb Hn. apply map_range_ext. intros x Hx.
  rewrite (bp_fblock _ _ _ _ _ Hp) by (done || lia).
  do 2 destruct (decide _); try done; exfalso; tauto.
Qed.

Lemma grow_block_put d d1 d' dir j v : grow m d dir d1 -> live m d dir ->
  block_put d1 dir j v d' -> block_put d dir j v d'.
Proof.
  intros Hg Hl [B1 B2 B3 B4 B5]. constructor.
  - done.
  - intros ino'. rewrite B2. apply Hg.
  - intros ino' Hi Hne. rewrite B3 by done. by apply (gr_inode _ _ _ _ Hg).
  - rewrite B4. apply Hg.
  - intros ino' fb Hl' Hfb. rewrite B5 by (done || by apply (gr_live _ _ _ _ Hg)).
    destruct (decide _); [done|]. by apply (gr_fblock _ _ _ _ Hg).
Qed.

(** ** Adding an entry *)

Lemma add_entry_at name ino f j k n : forall b, b <= j < b + Z.of_nat n ->
  (forall x, b <= x < j -> free_entry (f x) = None) -> free_entry (f j) = Some k ->
  add_entry name ino (map f (range b n)) =
  map (fun fb => if decide (fb = j) then put_entry (f j) k name ino else f fb) (range b n).
Proof.
  induction n as [|n IH]; intros b Hj Hno Hk; [lia|]. cbn [range map add_entry].
  destruct (decide (b = j)) as [->|Hne].
  - rewrite Hk. f_equal. apply map_range_ext. intros x Hx. destruct (decide _); [lia|done].
  - rewrite (Hno b) by lia. f_equal. apply IH; [lia|intros; apply Hno; lia|done].
Qed.

Lemma add_entry_end name ino f n : forall b,
  (forall x, b <= x < b + Z.of_nat n -> free_entry (f x) = None) ->
  add_entry name ino (map f (range b n)) = map f (range b n) ++ [put_entry zero_block 0 name ino].
Proof.
  induction n as [|n IH]; intros b Hno; [done|]. cbn [range map add_entry app].
  rewrite (Hno b) by lia. f_equal. apply IH. intros x Hx. apply Hno. lia.
Qed.

Lemma dir_add_from_spec dir name ino q n : forall b d buf,
  fs_inv m d -> live m d dir -> bytes name -> 0 <= b -> b + Z.of_nat n <= MAX_FILE_BLOCKS ->
  lenZ buf = 1024 -> has_free m d (3 * n + q) ->
  let f := fblock d (iget m d dir) in
  (exists j k d', b <= j < b + Z.of_nat n /\ (forall x, b <= x < j -> free_entry (f x) = None) /\
     free_entry (f j) = Some k /\
     dir_add_from m d dir (iget m d dir) name ino b n buf = inl d' /\
     block_put d dir j (put_entry (f j) k name ino) d') \/
  (exists d', (forall x, b <= x < b + Z.of_nat n -> free_entry (f x) = None) /\
     dir_add_from m d dir (iget m d dir) name ino b n buf = inr (iget m d' dir, d') /\
     grow m d dir d' /\ has_free m d' q).
Proof.
  induction n as [|n IH]; intros b d buf Hinv Hl Hname Hb Hn Hbuf Hf f.
  - right. exists d. split_and!; [intros; lia|done|by apply grow_refl|done].
  - cbn [dir_add_from].
    replace (3 * S n + q)%nat with (S (S (S (3 * n + q)))) in Hf by lia.
    assert (0 <= b < MAX_FILE_BLOCKS) as Hbr by lia.
    destruct (map_block_alloc m d dir b _ Hinv Hl Hbr Hf) as (d1 & -> & Hg & Hz & Hf1).
    pose proof (gr_inv _ _ _ _ Hg) as Hinv1. apply (gr_live _ _ _ _ Hg) in Hl as Hl1.
    destruct (dslot_valid b Hbr) as [Hs _].
    pose proof (fi_good _ _ Hinv1 dir (dslot b) Hl1 Hs Hz) as [G _ _ _].
    assert (snd (block_read d1 (szone d1 (iget m d1 dir) (dslot b)) buf) = f b) as ->.
    { rewrite block_read_ok; [|apply Hinv1|done|done]. cbn [snd]. unfold f.
      rewrite <- (gr_fblock _ _ _ _ Hg) by done. unfold fblock.
      by destruct (Z.eqb_spec (szone d1 (iget m d1 dir) (dslot b)) 0). }
    fold (free_entry (f b)). destruct (free_entry (f b)) as [k|] eqn:Hk.
    + left. exists b, k. eexists. rewrite block_write_ok by done. cbn [snd].
      split_and!; [lia|lia|intros; lia|done|done|]. apply grow_put; try done.
      apply block_put_entry; [by apply fblock_block|done|]. by eapply (free_entry_nomatch _ _ []).
    + assert (forall x, 0 <= x < MAX_FILE_BLOCKS -> fblock d1 (iget m d1 dir) x = f x) as Hff.
      { intros x Hx. by apply (gr_fblock _ _ _ _ Hg). }
      destruct (IH (b + 1) d1 (f b)) as [(j & k & d' & Hj & Hno & Hfr & Hrun & Hput)|(d' & Hno & Hrun & Hg' & Hq)];
        try done; try lia; [by apply (fblock_block d dir b)|..].
      * left. exists j, k, d'. rewrite Hff in Hfr, Hput by lia. split_and!; try done; try lia.
        -- intros x Hx. destruct (decide (x = b)) as [->|]; [done|].
           rewrite <- Hff by lia. apply Hno. lia.
        -- by eapply grow_block_put.
      * right. exists d'. split_and!; try done.
        -- intros x Hx. destruct (decide (x = b)) as [->|]; [done|].
           rewrite <- Hff by lia. apply Hno. lia.
        -- by eapply grow_trans.
Qed.

Lemma nblocks_attrs i i' : attrs i = attrs i' -> nblocks i = nblocks i'.
Proof. intros H. apply attrs_fields in H as (_ & _ & _ & _ & Hs & _). unfold nblocks. by rewrite Hs. Qed.

Lemma range_snoc n : forall b, range b (S n) = range b n ++ [b + Z.of_nat n].
Proof.
  induction n as [|n IH]; intros b; [cbn; by rewrite Z.add_0_r|].
  change (range b (S (S n))) with (b :: range (b + 1) (S n)). rewrite IH. cbn [range app].
  do 3 f_equal. lia.
Qed.

(** One more block at the end of the directory, and the size that covers it. *)
Lemma dir_append d d2 dir v : grow m d dir d2 -> live m d dir -> block v ->
  let nb := nblocks (iget m d dir) in
  0 <= nb -> nb + 1 <= MAX_FILE_BLOCKS -> szone d2 (iget m d2 dir) (dslot nb) <> 0 ->
  let d3 := bput d2 (szone d2 (iget m d2 dir) (dslot nb)) v in
  let i3 := set_size ((nb + 1) * 1024) (iget m d2 dir) in
  layout m d3 /\ dir_post d dir (dblocks d (iget m d dir) ++ [v]) (iput m d3 dir i3).
Proof.
  intros Hg Hl Hv nb Hn Hn1 Hz d3 i3.
  pose proof (gr_inv _ _ _ _ Hg) as Hinv2. apply (gr_live _ _ _ _ Hg) in Hl as Hl2.
  pose proof (grow_put d d2 dir nb v Hg Hl ltac:(lia) Hz Hv) as Hput. fold d3 in Hput.
  assert (iget m d3 dir = iget m d2 dir) as Hi3 by (apply data_put_iget; (done || lia || apply Hl)).
  pose proof Hput as [B1 B2 B3 B4 B5]. apply B2 in Hl as Hl3. split; [apply B1|].
  assert (i_zone i3 = i_zone (iget m d3 dir)) as Hz3 by (by rewrite Hi3).
  assert (inode_wf i3) as Hwf3.
  { apply inode_wf_set_size; [apply iget_wf; [apply Hinv2|apply Hl]|].
    unfold MAX_FILE_BLOCKS in *. dlia. }
  pose proof (attr_put_views m d3 dir i3 B1 Hl3 Hwf3) as V.
  pose proof (attr_put_iget m d3 dir i3 B1 Hl3 Hwf3) as Hi4.
  assert (nblocks i3 = nb + 1) as Hnb3.
  { destruct (nblocks_spec i3) as [-> _]; unfold i3, MAX_FILE_SIZE; cbn [set_size i_size]; dlia. }
  rewrite Hi3 in B4. apply attrs_fields in B4 as (Hmode & _).
  constructor.
  - by apply attr_put_inv.
  - intros ino'. rewrite attr_put_live by done. apply B2.
  - intros ino' Hi Hne. rewrite (ve_inode V) by done. by apply B3.
  - by rewrite Hi4.
  - rewrite Hi4. unfold i3, MAX_FILE_SIZE. cbn [set_size i_size]. lia.
  - unfold dblocks, blocks_from. rewrite Hi4 at 2. rewrite Hnb3.
    replace (Z.to_nat (nb + 1)) with (S (Z.to_nat nb)) by lia.
    rewrite range_snoc, map_app. cbn [map]. replace (0 + Z.of_nat (Z.to_nat nb)) with nb by lia.
    f_equal; [|f_equal].
    + apply map_range_ext. intros x Hx. rewrite attr_put_fblock by (done || lia).
      rewrite B5 by (done || lia). destruct (decide _) as [[_ ?]|_]; [lia|done].
    + rewrite attr_put_fblock by (done || lia). rewrite B5 by (done || lia).
      by destruct (decide _) as [_|[]].
  - intros ino' fb Hl' Hfb Hne. rewrite attr_put_fblock by (done || by apply B2).
    rewrite B5 by done. by destruct (decide _) as [[? _]|_].
Qed.

(** Rewriting block [j] of the directory in place. *)
Lemma dir_rewrite d dir j v d' : block_put d dir j v d' -> live m d dir ->
  0 <= nblocks (iget m d dir) <= MAX_FILE_BLOCKS -> i_size (iget m d dir) <= MAX_FILE_SIZE ->
  dir_post d dir (map (fun fb => if decide (fb = j) then v else fblock d (iget m d dir) fb)
                    (range 0 (Z.to_nat (nblocks (iget m d dir))))) d'.
Proof.
  intros Hput Hl Hn Hsz. pose proof Hput as [B1 B2 B3 B4 B5].
  pose proof (nblocks_attrs _ _ B4) as Hnb'. apply attrs_fields in B4 as (Hmode & _ & _ & _ & Hs & _).
  constructor; try done; [lia|..].
  - unfold dblocks. rewrite Hnb'. apply (blocks_from_put d dir d'); [done|done|lia|lia].
  - intros ino' fb Hl' Hfb Hne. rewrite B5 by done. by destruct (decide _) as [[? _]|_].
Qed.

Lemma dir_add_ok d dir name ino :
  fs_inv m d -> live m d dir -> bytes name -> is_u32 ino ->
  i_size (iget m d dir) + 1024 <= MAX_FILE_SIZE ->
  has_free m d (3 * Z.to_nat (nblocks (iget m d dir)) + 3) ->
  exists d', dir_add m d dir name ino = (0, d') /\
    dir_post d dir (add_entry name ino (dblocks d (iget m d dir))) d'.
Proof.
  intros Hinv Hl Hname Hino Hsz Hf. pose proof (iget_size d dir (fi_layout _ _ Hinv) (proj1 Hl)) as H32.
  destruct (nblocks_spec (iget m d dir)) as [Hnb Hn]; [dlia|].
  assert (nblocks (iget m d dir) + 1 <= MAX_FILE_BLOCKS) as Hn1.
  { unfold MAX_FILE_SIZE in Hsz. rewrite Hnb. dlia. }
  unfold dir_add. rewrite read_inode_ok by (apply Hinv || apply Hl). cbn [Z.ltb Z.compare].
  destruct (dir_add_from_spec dir name ino 3 (Z.to_nat (nblocks (iget m d dir))) 0 d (stack_block 198))
    as [(j & k & d' & Hj & Hno & Hfr & -> & Hput)|(d1 & Hno & -> & Hg & Hq)];
    try done; try lia; [apply stack_block_ok|..].
  - exists d'. split; [done|]. unfold dblocks, blocks_from. rewrite (add_entry_at _ _ _ j k) by done.
    apply dir_rewrite; try done. lia.
  - pose proof (gr_inv _ _ _ _ Hg) as Hinv1. apply (gr_live _ _ _ _ Hg) in Hl as Hl1.
    destruct (map_block_alloc m d1 dir (nblocks (iget m d dir)) 0 Hinv1 Hl1)
      as (d2 & -> & Hg2 & Hz & _); [lia|done|].
    destruct (Z.eqb_spec (szone d2 (iget m d2 dir) (dslot (nblocks (iget m d dir)))) 0); [done|].
    pose proof (gr_inv _ _ _ _ Hg2) as Hinv2. apply (gr_live _ _ _ _ Hg2) in Hl1 as Hl2.
    destruct (dslot_valid (nblocks (iget m d dir)) ltac:(lia)) as [Hs _].
    pose proof (fi_good _ _ Hinv2 dir _ Hl2 Hs Hz) as [G _ _ _].
    rewrite block_write_ok by done. cbn [snd]. rewrite u32_small by
      (unfold MINIX_BLOCK_SIZE, MAX_FILE_BLOCKS in *; dlia).
    destruct (dir_append d d2 dir (put_entry zero_block 0 name ino)) as [HL3 Hpost]; try done; try lia.
    { by eapply grow_trans. }
    { apply block_put_entry; [apply zero_block_ok|done|lia]. }
    rewrite write_inode_ok by (done || apply Hl). cbn [snd]. eexists. split; [done|].
    unfold dblocks, blocks_from. by rewrite add_entry_end.
Qed.

(** ** Removing an entry *)

Lemma remove_entry_at name f j k n : forall b, b <= j < b + Z.of_nat n ->
  (forall x, b <= x < j -> find_first (de_match (f x) name) 0 dirents = None) ->
  find_first (de_match (f j) name) 0 dirents = Some k ->
  remove_entry name (map f (range b n)) =
  map (fun fb => if decide (fb = j) then wipe_entry (f j) k else f fb) (range b n).
Proof.
  induction n as [|n IH]; intros b Hj Hno Hk; [lia|]. cbn [range map remove_entry].
  destruct (decide (b = j)) as [->|Hne].
  - rewrite Hk. f_equal. apply map_range_ext. intros x Hx. destruct (decide _); [lia|done].
  - rewrite (Hno b) by lia. f_equal. apply IH; [lia|intros; apply Hno; lia|done].
Qed.

Definition same_zmap (d d' : disk) : Prop :=
  forall n, 0 <= n < 8192 * s_zmap_blocks (sb m) -> zbit m d' n = zbit m d n.

Lemma dir_remove_from_spec d dir name n : forall b buf,
  fs_inv m d -> live m d dir -> 0 <= b -> b + Z.of_nat n <= MAX_FILE_BLOCKS -> lenZ buf = 1024 ->
  let f := fblock d (iget m d dir) in
  (exists j k d', b <= j < b + Z.of_nat n /\
     (forall x, b <= x < j -> find_first (de_match (f x) name) 0 dirents = None) /\
     find_first (de_match (f j) name) 0 dirents = Some k /\
     dir_remove_from m d dir (iget m d dir) name b n buf = (0, d') /\
     block_put d dir j (wipe_entry (f j) k) d' /\ same_zmap d d') \/
  (scan name (blocks_from d (iget m d dir) b n) = None /\
     dir_remove_from m d dir (iget m d dir) name b n buf = (-1, d)).
Proof.
  induction n as [|n IH]; intros b buf Hinv Hl Hb Hn Hbuf f; [by right|].
  cbn [dir_remove_from]. unfold blocks_from. cbn [range map scan]. fold (f b).
  assert (block (f b)) as Hfb by (apply fblock_block; try done; lia).
  assert (forall buf', lenZ buf' = 1024 -> find_first (de_match (f b) name) 0 dirents = None ->
    (exists j k d', b <= j < b + Z.of_nat (S n) /\
       (forall x, b <= x < j -> find_first (de_match (f x) name) 0 dirents = None) /\
       find_first (de_match (f j) name) 0 dirents = Some k /\
       dir_remove_from m d dir (iget m d dir) name (b + 1) n buf' = (0, d') /\
       block_put d dir j (wipe_entry (f j) k) d' /\ same_zmap d d') \/
    (scan name (map f (range (b + 1) n)) = None /\
     dir_remove_from m d dir (iget m d dir) name (b + 1) n buf' = (-1, d))) as Hnext.
  { intros buf' Hb' Hnone.
    destruct (IH (b + 1) buf') as [(j & k & d' & Hj & Hno & Hk & Hrun & Hput & Hzm)|[Hs Hrun]]; try done; try lia.
    - left. exists j, k, d'. split_and!; try done; try lia. intros x Hx.
      destruct (decide (x = b)) as [->|]; [done|]. apply Hno. lia.
    - by right. }
  destruct (scan_step d dir b buf Hinv Hl ltac:(lia) Hbuf) as [[-> Hz]|(Hz & Hon & Hr & Hzd)].
  - assert (find_first (de_match (f b) name) 0 dirents = None) as Hnone.
    { unfold f. rewrite Hz. pose proof (scan_zero_block name []) as Hzb. cbn [scan] in Hzb.
      by destruct (find_first _ _ _). }
    rewrite Hnone, Z.eqb_refl. by apply Hnext.
  - destruct (Z.eqb_spec (fst (fst (map_block m d (iget m d dir) b false dir))) 0); [done|].
    rewrite Hr. fold (f b). destruct (find_first (de_match (f b) name) 0 dirents) as [k|] eqn:Hk.
    + left. exists b, k. eexists. rewrite block_write_ok by done. cbn [snd].
      assert (block (wipe_entry (f b) k)) as Hwb.
      { rewrite put_wipe. apply block_put_entry; [done|constructor|].
        apply find_first_Some in Hk as (Hk & _). by apply dirents_in in Hk. }
      rewrite Hzd in *. split_and!; [lia|lia|intros; lia|done|done|apply grow_put; try done; lia|].
      intros x Hx. apply (ve_zbit (data_put_views m d dir b _ Hinv Hl ltac:(lia) Hz Hwb)); auto.
    + apply Hnext; [apply Hfb|done].
Qed.

Lemma scan_found name f j k n : forall b, b <= j < b + Z.of_nat n ->
  find_first (de_match (f j) name) 0 dirents = Some k -> is_Some (scan name (map f (range b n))).
Proof.
  induction n as [|n IH]; intros b Hj Hk; [lia|]. cbn [range map scan].
  destruct (find_first (de_match (f b) name) 0 dirents) eqn:Hb; [by eexists|].
  destruct (decide (b = j)) as [->|]; [congruence|]. apply IH; [lia|done].
Qed.

Lemma dir_remove_ok d dir name : fs_inv m d -> live m d dir -> i_size (iget m d dir) <= MAX_FILE_SIZE ->
  exists r d', dir_remove m d dir name = (r, d') /\
    match scan name (dblocks d (iget m d dir)) with
    | Some _ => r = 0 /\ dir_post d dir (remove_entry name (dblocks d (iget m d dir))) d' /\
        same_zmap d d'
    | None => r = -1 /\ d' = d
    end.
Proof.
  intros Hinv Hl Hsz. pose proof (iget_size d dir (fi_layout _ _ Hinv) (proj1 Hl)) as H32.
  destruct (nblocks_spec (iget m d dir)) as [Hnb Hn]; [dlia|].
  unfold dir_remove. rewrite read_inode_ok by (apply Hinv || apply Hl). cbn [Z.ltb Z.compare].
  destruct (dir_remove_from_spec d dir name (Z.to_nat (nblocks (iget m d dir))) 0 (stack_block 228))
    as [(j & k & d' & Hj & Hno & Hk & -> & Hput & Hzm)|[Hs ->]]; try done; try lia; [apply stack_block_ok|..].
  - exists 0, d'. split; [done|]. unfold dblocks, blocks_from.
    rewrite (remove_entry_at _ _ j k) by done.
    assert (is_Some (scan name (map (fblock d (iget m d dir)) (range 0 (Z.to_nat (nblocks (iget m d dir)))))))
      as [x ->].
    { by eapply scan_found. }
    split_and!; [done|by apply dir_rewrite|done].
  - exists (-1), d. split; [done|]. unfold dblocks. by rewrite Hs.
Qed.
End ops.
End MinixDir.
