(* ===== verification/MinixBytes.v ===== *)
(** * The contents of a file as a list of bytes *)

From stdpp Require Import base list gmap numbers sets.
From S2P Require Import Prelude CString Layout Disk Minix MinixTable MinixZones MinixTree MinixFile MinixDir.

#[local] Open Scope Z_scope.

Module MinixBytes.
Import MinixTable.MinixTable MinixZones.MinixZones MinixTree.MinixTree MinixFile.MinixFile MinixDir.MinixDir.

Section bytes.
Context `{STK : !Stack} (m : Minix.statics) (d : Disk.disk).

Lemma fbyte_u8 ino o : fs_inv m d -> live m d ino -> 0 <= o < MAX_FILE_SIZE ->
  is_u8 (fbyte d (iget m d ino) o).
Proof.
  intros Hi Hl Ho. unfold fbyte. destruct (fblock_block m d ino (o / 1024) Hi Hl) as [_ Hb].
  { unfold MAX_FILE_SIZE in Ho. dlia. }
  by apply bytes_lget.
Qed.

(** The bytes of the file from [off] on, [n] of them. *)
Definition file_bytes (ino off n : Z) : list Z :=
  map (fun j => fbyte d (iget m d ino) (off + j)) (range 0 (Z.to_nat n)).

Lemma file_bytes_len ino off n : 0 <= n -> lenZ (file_bytes ino off n) = n.
Proof. intros Hn. unfold file_bytes, lenZ. rewrite length_map, length_range. lia. Qed.

Lemma file_bytes_get ino off n j : 0 <= j < n ->
  lget 0 (file_bytes ino off n) j = fbyte d (iget m d ino) (off + j).
Proof.
  intros Hj. unfold file_bytes. rewrite (lget_map_range (fun j => fbyte d (iget m d ino) (off + j))) by lia. done.
Qed.

Lemma file_bytes_u8 ino off n : fs_inv m d -> live m d ino -> 0 <= off -> off + n <= MAX_FILE_SIZE \/ n <= 0 ->
  bytes (file_bytes ino off n).
Proof.
  intros Hi Hl Ho Hn. unfold file_bytes, bytes. rewrite Forall_forall. intros b Hb.
  apply list_elem_of_In, in_map_iff in Hb as (j & <- & Hj%In_range). apply fbyte_u8; [done|done|lia].
Qed.

Lemma read_prefix out ino off n : 0 <= n <= lenZ out ->
  (forall j, 0 <= j < n -> lget 0 out j = fbyte d (iget m d ino) (off + j)) ->
  lsub out 0 n = file_bytes ino off n.
Proof.
  intros Hn H. apply (lists_eq_lget 0); [rewrite lenZ_lsub by lia; by rewrite file_bytes_len by lia|].
  rewrite lenZ_lsub by lia. intros j Hj. rewrite lget_lsub, Z.add_0_l, H, file_bytes_get by lia. done.
Qed.

(** The list in two pieces. *)
Lemma file_bytes_split ino off a n : 0 <= a <= n ->
  file_bytes ino off n = file_bytes ino off a ++ file_bytes ino (off + a) (n - a).
Proof.
  intros Ha. apply (lists_eq_lget 0).
  - rewrite lenZ_app, !file_bytes_len by lia. lia.
  - rewrite file_bytes_len by lia. intros j Hj. rewrite lget_app, file_bytes_len, file_bytes_get by lia.
    destruct (Z.ltb_spec j a); rewrite file_bytes_get by lia; [done|]. f_equal. lia.
Qed.

(** Reading inside the file. *)
Lemma read_inside ino off n : fs_inv m d -> live m d ino -> i_size (iget m d ino) <= MAX_FILE_SIZE ->
  0 <= off -> 0 <= n -> off + n <= i_size (iget m d ino) ->
  exists out, Minix.minixfs_read m d ino (replicate (Z.to_nat n) 0) n off = (n, out) /\ lenZ out = n /\
    lsub out 0 n = file_bytes ino off n.
Proof.
  intros Hi Hl Hsz Ho Hn Hend. assert (MAX_FILE_SIZE < 2147483648) as Hm by reflexivity.
  assert (lenZ (replicate (Z.to_nat n) 0) = n) as Hr by (unfold lenZ; rewrite length_replicate; lia).
  destruct (minixfs_read_ok m d ino (replicate (Z.to_nat n) 0) n off) as (out & Er & Hlen & Hget); try done; try lia.
  replace (read_len (i_size (iget m d ino)) n off) with n in * by (unfold read_len; lia).
  exists out. split_and!; [done|lia|]. apply read_prefix; [lia|]. intros j Hj. rewrite Hget by lia.
  destruct (Z.ltb_spec j n); [done|lia].
Qed.

End bytes.
End MinixBytes.
