(* ===== verification/MinixNames.v ===== *)
(** * Theorems about directories of the MINIX file system

    Adding, finding, listing and removing names. *)

From stdpp Require Import base list gmap numbers.
From S2P Require Import Prelude CString Disk Layout Minix MinixTable MinixZones MinixTree.
From S2P Require Import MinixDemo MinixFile MinixDir.

#[local] Open Scope Z_scope.

Module MinixNames.
Import Disk Minix MinixTable MinixZones MinixTree MinixFile MinixDir.

(** The entries of a directory in the order of its blocks. *)
Definition live_entries (b : list Z) (k : Z) (n : nat) : list (Z * list Z) :=
  map (fun j => (de_inode b j, CStr.cstrncpy (de_name b j) 60 ++ [0]))
    (List.filter (fun j => negb (de_inode b j =? 0)) (range k n)).

Definition entries (bs : list (list Z)) : list (Z * list Z) :=
  concat (map (fun b => live_entries b 0 dirents) bs).

(** A directory on the disk that the operations can work on. *)
Record is_dir (m : statics) (d : disk) (dir : Z) : Prop := {
  id_live : live m d dir;
  id_mode : S_ISDIR (i_mode (iget m d dir)) = true;
  id_size : i_size (iget m d dir) <= MAX_FILE_SIZE }.

Section names.
Context `{STK : !Stack} (m : statics).

Lemma readdir_block_spec b index n : forall k seen, 0 <= seen <= index ->
  seen + Z.of_nat n < 4294967296 ->
  match readdir_block b k n index seen with
  | inl e => live_entries b k n !! Z.to_nat (index - seen) = Some e
  | inr seen' => seen' = seen + lenZ (live_entries b k n) /\ seen' <= index
  end.
Proof.
  induction n as [|n IH]; intros k seen Hs Hw; cbn [readdir_block].
  - unfold live_entries, lenZ. cbn. lia.
  - unfold live_entries. cbn [range List.filter].
    destruct (Z.eqb_spec (de_inode b k) 0) as [Hz|Hz]; cbn [negb]; [apply IH; lia|].
    cbn [map]. destruct (Z.eqb_spec seen index) as [->|Hne].
    + by rewrite Z.sub_diag.
    + rewrite u32_small by dlia. specialize (IH (k + 1) (seen + 1) ltac:(lia) ltac:(lia)).
      fold (live_entries b (k + 1) n).
      destruct (readdir_block b (k + 1) n index (seen + 1)) as [e|seen'].
      * replace (Z.to_nat (index - seen)) with (S (Z.to_nat (index - (seen + 1)))) by lia. done.
      * unfold lenZ in *. rewrite length_cons. lia.
Qed.

Lemma live_entries_zero k n : 0 <= k -> k + Z.of_nat n <= 16 -> live_entries zero_block k n = [].
Proof.
  unfold live_entries. revert k. induction n as [|n IH]; intros k Hk Hn; [done|].
  cbn [range List.filter]. rewrite de_inode_zero by lia. cbn [Z.eqb negb]. apply IH; lia.
Qed.

Lemma length_live_entries b k n : (length (live_entries b k n) <= n)%nat.
Proof.
  unfold live_entries. rewrite length_map. revert k.
  induction n as [|n IH]; intros k; cbn [range List.filter]; [done|].
  specialize (IH (k + 1)). destruct (negb _); cbn [length]; lia.
Qed.

Lemma readdir_from_spec d dir index n : forall b seen buf,
  fs_inv m d -> live m d dir -> 0 <= b -> b + Z.of_nat n <= MAX_FILE_BLOCKS -> lenZ buf = 1024 ->
  0 <= seen <= index -> seen <= 16 * b ->
  readdir_from m d dir (iget m d dir) index seen b n buf =
  entries (blocks_from d (iget m d dir) b n) !! Z.to_nat (index - seen).
Proof.
  induction n as [|n IH]; intros b seen buf Hinv Hl Hb Hn Hbuf Hs Hcap; [done|].
  cbn [readdir_from]. unfold blocks_from, entries. cbn [range map concat].
  fold (blocks_from d (iget m d dir) (b + 1) n). fold (entries (blocks_from d (iget m d dir) (b + 1) n)).
  destruct (scan_step m d dir b buf Hinv Hl ltac:(lia) Hbuf) as [[-> Hz]|(Hz & Hon & Hr & _)].
  - rewrite Z.eqb_refl, Hz, live_entries_zero by (unfold dirents, DIRENTS_PER_BLOCK; lia).
    apply IH; try done; lia.
  - destruct (Z.eqb_spec (fst (fst (map_block m d (iget m d dir) b false dir))) 0); [done|].
    rewrite Hr. pose proof (readdir_block_spec (fblock d (iget m d dir) b) index dirents 0 seen Hs) as Hrb.
    assert (seen + Z.of_nat dirents < 4294967296) as Hw.
    { unfold dirents, DIRENTS_PER_BLOCK, MAX_FILE_BLOCKS in *. lia. }
    specialize (Hrb Hw). pose proof (length_live_entries (fblock d (iget m d dir) b) 0 dirents) as Hlen.
    change dirents with 16%nat in Hlen at 2.
    destruct (readdir_block _ 0 dirents index seen) as [e|seen'].
    + by rewrite lookup_app_l by (by eapply lookup_lt_Some).
    + destruct Hrb as [-> Hle]. unfold lenZ in *.
      rewrite lookup_app_r by lia.
      rewrite IH; try done; try lia.
      * f_equal. lia.
      * by apply (fblock_block m d dir b); [..|lia].
Qed.

Lemma is_dir_blocks d dir : fs_inv m d -> is_dir m d dir ->
  0 <= nblocks (iget m d dir) <= MAX_FILE_BLOCKS /\ Forall block (dblocks d (iget m d dir)).
Proof.
  intros Hinv [Hl Hm Hsz]. pose proof (iget_size m d dir (fi_layout _ _ Hinv) (proj1 Hl)) as H32.
  split; [apply nblocks_spec; dlia|by apply dblocks_block].
Qed.

(** [minixfs_readdir] with index [n] returns the [n]-th live entry of the directory,
    and -1 past the last one, so that calling it with 0, 1, 2, ... lists every entry
    exactly once. *)
Theorem readdir_lists_entries d dir index :
  fs_inv m d -> is_dir m d dir -> 0 <= index ->
  minixfs_readdir m d dir index = entries (dblocks d (iget m d dir)) !! Z.to_nat index.
Proof.
  intros Hinv Hd Hi. destruct (is_dir_blocks d dir Hinv Hd) as [Hn _]. destruct Hd as [Hl Hm Hsz].
  unfold minixfs_readdir. rewrite read_inode_ok by (apply Hinv || apply Hl). cbn [Z.ltb Z.compare].
  rewrite Hm. cbn [negb]. rewrite readdir_from_spec; try done; try lia.
  - by rewrite Z.sub_0_r.
  - apply stack_block_ok.
Qed.

(** After [dir_add] of a name that was not in the directory, [dir_lookup] of that
    name returns the inode number that was added, the result for every other name is
    the one before, and no other file or inode changes. *)
Theorem dir_add_lookup d dir name ino :
  fs_inv m d -> is_dir m d dir -> i_size (iget m d dir) + 1024 <= MAX_FILE_SIZE ->
  has_free m d (3 * Z.to_nat (nblocks (iget m d dir)) + 3) ->
  bytes name -> is_u32 ino -> ino <> 0 -> dir_lookup m d dir name = None ->
  exists d', dir_add m d dir name ino = (0, d') /\ fs_inv m d' /\ is_dir m d' dir /\
    dir_lookup m d' dir name = Some ino /\
    (forall name', ~ same_name name name' -> dir_lookup m d' dir name' = dir_lookup m d dir name') /\
    forall ino', live m d ino' -> ino' <> dir -> iget m d' ino' = iget m d ino' /\
      forall fb, 0 <= fb < MAX_FILE_BLOCKS -> fblock d' (iget m d' ino') fb = fblock d (iget m d ino') fb.
Proof.
  intros Hinv Hd Hsz Hf Hname Hino Hne Hno.
  destruct (is_dir_blocks d dir Hinv Hd) as [_ Hbs]. destruct Hd as [Hl Hm Hsz0].
  rewrite dir_lookup_scan in Hno by done.
  destruct (dir_add_ok m d dir name ino Hinv Hl Hname Hino Hsz Hf) as (d' & -> & [P1 P2 P3 P4 P5 P6 P7]).
  assert (is_dir m d' dir) as Hd' by (constructor; [by apply P2|by rewrite P4|done]).
  pose proof Hd' as [Hl' Hm' _].
  exists d'. split_and!; [done|done|done|..].
  - rewrite dir_lookup_scan, P6 by done. by apply scan_add_same.
  - intros name' Hns. rewrite !dir_lookup_scan, P6 by done. by apply scan_add_other.
  - intros ino' Hli Hnd. split; [apply P3; [apply Hli|done]|]. intros fb Hfb. by apply P7.
Qed.

(** Removing a name that has just been added to a directory brings every lookup
    back to what it was before. *)
Theorem dir_add_remove d dir name ino :
  fs_inv m d -> is_dir m d dir -> i_size (iget m d dir) + 1024 <= MAX_FILE_SIZE ->
  has_free m d (3 * Z.to_nat (nblocks (iget m d dir)) + 3) ->
  bytes name -> is_u32 ino -> ino <> 0 -> dir_lookup m d dir name = None ->
  exists d', dir_remove m (snd (dir_add m d dir name ino)) dir name = (0, d') /\ fs_inv m d' /\
    forall name', dir_lookup m d' dir name' = dir_lookup m d dir name'.
Proof.
  intros Hinv Hd Hsz Hf Hname Hino Hne Hno.
  destruct (is_dir_blocks d dir Hinv Hd) as [_ Hbs]. destruct Hd as [Hl Hm Hsz0].
  rewrite dir_lookup_scan in Hno by done.
  destruct (dir_add_ok m d dir name ino Hinv Hl Hname Hino Hsz Hf) as (d1 & -> & [P1 P2 P3 P4 P5 P6 P7]).
  cbn [snd]. apply P2 in Hl as Hl1.
  destruct (dir_remove_ok m d1 dir name P1 Hl1 P5) as (r & d' & -> & Hpost).
  rewrite P6, scan_add_same in Hpost by done. destruct Hpost as (-> & [Q1 Q2 Q3 Q4 Q5 Q6 Q7] & _).
  exists d'. split_and!; [done|done|]. intros name'. apply Q2 in Hl1 as Hl2.
  rewrite !dir_lookup_scan, Q6; try done; [|by rewrite Q4, P4].
  assert (Forall block (add_entry name ino (dblocks d (iget m d dir)))) as Hab by (by apply blocks_add).
  destruct (decide (same_name name name')) as [Hs|Hs].
  - rewrite <- (scan_same_name name name'), <- (scan_same_name name name') by done.
    rewrite Hno. by apply scan_add_remove.
  - rewrite scan_remove_other by done. by apply scan_add_other.
Qed.

(** An entry that is neither "." nor "..". *)
Definition proper_entry (b : list Z) (k : Z) : Prop :=
  de_inode b k <> 0 /\ CStr.cstring (de_name b k) <> dot /\ CStr.cstring (de_name b k) <> dotdot.

Lemma de_blocks_iff b k : de_blocks b k = true <-> proper_entry b k.
Proof.
  unfold de_blocks, proper_entry. rewrite !andb_true_iff, !negb_true_iff, !Z.eqb_neq.
  rewrite !CStr.strcmp_zero. tauto.
Qed.

Lemma empty_from_spec d dir n : forall b buf,
  fs_inv m d -> live m d dir -> 0 <= b -> b + Z.of_nat n <= MAX_FILE_BLOCKS -> lenZ buf = 1024 ->
  (empty_from m d dir (iget m d dir) b n buf = 1 /\
     forall x k, b <= x < b + Z.of_nat n -> 0 <= k < 16 -> ~ proper_entry (fblock d (iget m d dir) x) k) \/
  (empty_from m d dir (iget m d dir) b n buf = 0 /\
     exists x k, b <= x < b + Z.of_nat n /\ 0 <= k < 16 /\ proper_entry (fblock d (iget m d dir) x) k).
Proof.
  induction n as [|n IH]; intros b buf Hinv Hl Hb Hn Hbuf; [left; split; [done|lia]|].
  cbn [empty_from].
  assert (forall buf', lenZ buf' = 1024 ->
    (forall k, 0 <= k < 16 -> ~ proper_entry (fblock d (iget m d dir) b) k) ->
    (empty_from m d dir (iget m d dir) (b + 1) n buf' = 1 /\
       forall x k, b <= x < b + Z.of_nat (S n) -> 0 <= k < 16 -> ~ proper_entry (fblock d (iget m d dir) x) k) \/
    (empty_from m d dir (iget m d dir) (b + 1) n buf' = 0 /\
       exists x k, b <= x < b + Z.of_nat (S n) /\ 0 <= k < 16 /\ proper_entry (fblock d (iget m d dir) x) k)) as Hnext.
  { intros buf' Hb' Hnone.
    destruct (IH (b + 1) buf') as [[He Hall]|[He (x & k & Hx & Hk & Hp)]]; try done; try lia.
    - left. split; [done|]. intros x k Hx Hk. destruct (decide (x = b)) as [->|]; [by apply Hnone|].
      apply Hall; lia.
    - right. split; [done|]. exists x, k. split_and!; try lia. done. }
  destruct (scan_step m d dir b buf Hinv Hl ltac:(lia) Hbuf) as [[-> Hz]|(Hz & Hon & Hr & _)].
  - rewrite Z.eqb_refl. apply Hnext; [done|]. rewrite Hz. intros k Hk [Hne _].
    by rewrite de_inode_zero in Hne.
  - destruct (Z.eqb_spec (fst (fst (map_block m d (iget m d dir) b false dir))) 0); [done|].
    rewrite Hr. destruct (find_first (de_blocks (fblock d (iget m d dir) b)) 0 dirents) as [k|] eqn:Hf.
    + right. split; [done|]. apply find_first_Some in Hf as (Hk & Hp & _).
      exists b, k. split_and!; try lia; try (by apply dirents_in in Hk as []). by apply de_blocks_iff.
    + apply Hnext; [by apply (fblock_block m d dir b); [..|lia]|]. intros k Hk Hp.
      apply de_blocks_iff in Hp. erewrite find_first_None in Hp; [done|done|by apply dirents_out].
Qed.

(** [dir_is_empty] answers 1 exactly when every live entry of the directory is "."
    or "..", and 0 otherwise. *)
Theorem dir_is_empty_correct d dir : fs_inv m d -> is_dir m d dir ->
  (dir_is_empty m d dir = 1 /\ forall b k, 0 <= b < nblocks (iget m d dir) -> 0 <= k < 16 ->
     ~ proper_entry (fblock d (iget m d dir) b) k) \/
  (dir_is_empty m d dir = 0 /\ exists b k, 0 <= b < nblocks (iget m d dir) /\ 0 <= k < 16 /\
     proper_entry (fblock d (iget m d dir) b) k).
Proof.
  intros Hinv Hd. destruct (is_dir_blocks d dir Hinv Hd) as [Hn _]. destruct Hd as [Hl Hm Hsz].
  unfold dir_is_empty. rewrite read_inode_ok by (apply Hinv || apply Hl). cbn [Z.ltb Z.compare].
  pose proof (empty_from_spec d dir (Z.to_nat (nblocks (iget m d dir))) 0 (stack_block 469) Hinv Hl) as He.
  replace (0 + Z.of_nat (Z.to_nat (nblocks (iget m d dir)))) with (nblocks (iget m d dir)) in He by lia.
  apply He; [lia|lia|apply stack_block_ok].
Qed.
End names.

Section witnesses.
Import MinixDemo.

Lemma demo_is_dir : is_dir demo_fs demo_disk 1.
Proof. constructor; [apply demo_live; lia|by vm_compute|by vm_compute]. Qed.

Lemma readdir_lists_entries_witness :
  minixfs_readdir demo_fs demo_disk 1 2 =
  entries (dblocks demo_disk (iget demo_fs demo_disk 1)) !! Z.to_nat 2.
Proof.
  apply (readdir_lists_entries demo_fs demo_disk 1 2); [apply demo_inv|apply demo_is_dir|lia].
Defined.

Definition name_b : list Z := [98].

Lemma name_b_bytes : bytes name_b.
Proof. by apply (bool_decide_eq_true_1 (bytes name_b)). Qed.

Lemma dir_add_lookup_witness :
  exists d', dir_add demo_fs demo_disk 1 name_b 2 = (0, d') /\ fs_inv demo_fs d' /\
    is_dir demo_fs d' 1 /\ dir_lookup demo_fs d' 1 name_b = Some 2 /\
    (forall name', ~ same_name name_b name' ->
       dir_lookup demo_fs d' 1 name' = dir_lookup demo_fs demo_disk 1 name') /\
    forall ino', live demo_fs demo_disk ino' -> ino' <> 1 ->
      iget demo_fs d' ino' = iget demo_fs demo_disk ino' /\
      forall fb, 0 <= fb < MAX_FILE_BLOCKS ->
        fblock d' (iget demo_fs d' ino') fb = fblock demo_disk (iget demo_fs demo_disk ino') fb.
Proof.
  apply (dir_add_lookup demo_fs demo_disk 1 name_b 2);
    [apply demo_inv|apply demo_is_dir|vm_compute; congruence|apply demo_free; vm_compute; lia
    |apply name_b_bytes|unfold is_u32; lia|lia|vm_compute; reflexivity].
Defined.

Lemma dir_add_remove_witness :
  exists d', dir_remove demo_fs (snd (dir_add demo_fs demo_disk 1 name_b 2)) 1 name_b = (0, d') /\
    fs_inv demo_fs d' /\
    forall name', dir_lookup demo_fs d' 1 name' = dir_lookup demo_fs demo_disk 1 name'.
Proof.
  apply (dir_add_remove demo_fs demo_disk 1 name_b 2);
    [apply demo_inv|apply demo_is_dir|vm_compute; congruence|apply demo_free; vm_compute; lia
    |apply name_b_bytes|unfold is_u32; lia|lia|vm_compute; reflexivity].
Defined.

Lemma dir_is_empty_correct_witness :
  (dir_is_empty demo_fs demo_disk 1 = 1 /\
     forall b k, 0 <= b < nblocks (iget demo_fs demo_disk 1) -> 0 <= k < 16 ->
     ~ proper_entry (fblock demo_disk (iget demo_fs demo_disk 1) b) k) \/
  (dir_is_empty demo_fs demo_disk 1 = 0 /\
     exists b k, 0 <= b < nblocks (iget demo_fs demo_disk 1) /\ 0 <= k < 16 /\
     proper_entry (fblock demo_disk (iget demo_fs demo_disk 1) b) k).
Proof. apply (dir_is_empty_correct demo_fs demo_disk 1); [apply demo_inv|apply demo_is_dir]. Defined.
End witnesses.
End MinixNames.
