(* ===== verification/MinixPath.v ===== *)
(** * Paths and creation of files in the MINIX file system

    A path is the concatenation of its components, each preceded by a slash.  The two
    walkers of minixfs.c, [split_path] and [minixfs_resolve], are shown to follow the
    same chain of directory lookups, and [minixfs_creat] to add a fresh empty file. *)

From stdpp Require Import base list gmap numbers.
From S2P Require Import Prelude CString Disk Layout Minix MinixTable MinixZones MinixTree.
From S2P Require Import MinixDemo MinixFile MinixDir MinixNames.

#[local] Open Scope Z_scope.

Module MinixPath.
Import Disk Minix MinixTable MinixZones MinixTree MinixFile MinixDir MinixNames.

(** ** Paths *)

(** A component: not empty, without slashes and NULs. *)
Definition component (c : list Z) : Prop := c <> [] /\ (slash ∉ c) /\ (0 ∉ c).

Definition path_of (comps : list (list Z)) : list Z := concat (map (fun c => slash :: c) comps).

(** Components are cut to 60 characters before they are looked up. *)
Definition cut (c : list Z) : list Z := take 60 c.

Section paths.
Context `{STK : !Stack} (m : statics).

(** The chain of lookups from directory [cur]. *)
Fixpoint walk (d : disk) (cur : Z) (comps : list (list Z)) : option Z :=
  match comps with
  | [] => Some cur
  | c :: cs => match dir_lookup m d cur (cut c) with
               | None => None
               | Some next => walk d next cs
               end
  end.

Lemma scan_comp_spec c rest : forall acc, (slash ∉ c) -> (length acc <= 60)%nat ->
  (rest = [] \/ exists r, rest = slash :: r) ->
  scan_comp (c ++ rest) acc = (acc ++ take (60 - length acc) c, rest).
Proof.
  induction c as [|x c IH]; intros acc Hs Hl Hr; cbn [app].
  - rewrite take_nil, app_nil_r. destruct Hr as [->|(r & ->)]; [done|]. cbn [scan_comp].
    by rewrite Z.eqb_refl.
  - apply not_elem_of_cons in Hs as [Hx Hc]. cbn [scan_comp].
    destruct (Z.eqb_spec x slash); [congruence|]. unfold lenZ, MINIX_NAME_MAX.
    destruct (Z.ltb_spec (Z.of_nat (length acc)) 60).
    + rewrite IH by (try done; rewrite length_app; simpl; lia).
      rewrite length_app. cbn [length]. rewrite <- app_assoc.
      replace (60 - length acc)%nat with (S (60 - (length acc + 1))) by lia. done.
    + rewrite IH by done. by replace (60 - length acc)%nat with 0%nat by lia.
Qed.

Lemma skip_slashes_path c cs : component c ->
  skip_slashes (path_of (c :: cs)) = c ++ path_of cs.
Proof.
  intros (Hne & Hs & _). unfold path_of. cbn [map concat app skip_slashes]. rewrite Z.eqb_refl.
  destruct c as [|x c]; [done|]. apply not_elem_of_cons in Hs as [Hx _]. cbn [app skip_slashes].
  destruct (Z.eqb_spec x slash); [congruence|done].
Qed.

Lemma path_of_shape cs : path_of cs = [] \/ exists r, path_of cs = slash :: r.
Proof. destruct cs as [|c cs]; [by left|right]. by eexists. Qed.

Lemma cut_nonempty c : component c -> exists x l, cut c = x :: l.
Proof. intros (Hne & _). destruct c as [|x c]; [done|]. by exists x, (take 59 c). Qed.

(** One round of either walker. *)
Lemma round c cs : component c ->
  scan_comp (c ++ path_of cs) [] = (cut c, path_of cs) /\
  (cs = [] \/ exists c' cs', cs = c' :: cs').
Proof.
  intros (_ & Hs & _). split; [|destruct cs; eauto].
  rewrite scan_comp_spec; [done|done|simpl; lia|apply path_of_shape].
Qed.

Lemma resolve_from_walk d fuel : forall c cs cur, Forall component (c :: cs) ->
  (length (c :: cs) < fuel)%nat ->
  resolve_from m d fuel cur (c ++ path_of cs) =
  match walk d cur (c :: cs) with Some ino => ino | None => 0 end.
Proof.
  induction fuel as [|f IH]; intros c cs cur Hc Hf; [simpl in Hf; lia|].
  apply Forall_cons_1 in Hc as [Hc Hcs]. cbn [resolve_from walk].
  destruct (round c cs Hc) as [-> _]. destruct (cut_nonempty c Hc) as (x & l & Hx).
  destruct (c ++ path_of cs) eqn:Hp; [by destruct c, Hc|]. rewrite Hx. rewrite <- Hx.
  destruct (dir_lookup m d cur (cut c)) as [next|]; [|done].
  destruct cs as [|c' cs].
  - cbn. by destruct f.
  - pose proof Hcs as Hcs'. apply Forall_cons_1 in Hcs' as [Hc' _].
    rewrite skip_slashes_path by done. apply IH; [done|]. simpl in *. lia.
Qed.

Lemma split_from_walk d leaf fuel : forall c cs cur, Forall component (c :: cs) -> component leaf ->
  (length (c :: cs) + 1 < fuel)%nat ->
  split_from m d fuel cur (c ++ path_of (cs ++ [leaf])) =
  match walk d cur (c :: cs) with Some p => Some (p, cut leaf) | None => None end.
Proof.
  induction fuel as [|f IH]; intros c cs cur Hc Hleaf Hf; [simpl in Hf; lia|].
  apply Forall_cons_1 in Hc as [Hc Hcs]. cbn [split_from walk].
  destruct (round c (cs ++ [leaf]) Hc) as [-> _].
  assert (exists c' cs', cs ++ [leaf] = c' :: cs' /\ component c') as (c' & cs' & Heq & Hc').
  { destruct cs as [|c' cs]; [by eexists _, _|]. eexists _, _. split; [done|].
    by apply Forall_cons_1 in Hcs as [? _]. }
  rewrite Heq, skip_slashes_path by done.
  destruct (c' ++ path_of cs') eqn:Hp; [by destruct c', Hc'|]. rewrite <- Hp.
  destruct (dir_lookup m d cur (cut c)) as [next|]; [|done].
  destruct cs as [|c2 cs]; cbn [app] in Heq; injection Heq as -> <-.
  - destruct f as [|f]; [simpl in Hf; lia|]. cbn [split_from walk].
    destruct (round c' [] Hleaf) as [-> _]. cbn. destruct (cut_nonempty c' Hleaf) as (x & l' & ->). done.
  - apply IH; [done|done|]. simpl in *. lia.
Qed.

Lemma path_of_length cs : Forall component cs -> (2 * length cs <= length (path_of cs))%nat.
Proof.
  induction 1 as [|c cs (Hne & _) Hcs IH]; [done|]. unfold path_of in *. cbn [map concat length app].
  rewrite length_app. destruct c; [done|]. cbn [length] in *. lia.
Qed.

(** For every absolute path of non-empty components, [split_path] returns the
    directory reached by looking up all components but the last, together with the
    last one, and [minixfs_resolve] returns the inode number reached by looking up all
    of them: it is the lookup of the last component in the directory that
    [split_path] finds, and 0 when any lookup fails. *)
Theorem path_walkers_agree d comps leaf :
  mounted m = true -> Forall component comps -> component leaf ->
  split_path m d (path_of (comps ++ [leaf])) =
    match walk d MINIX_ROOT_INO comps with Some p => Some (p, cut leaf) | None => None end /\
  minixfs_resolve m d (path_of (comps ++ [leaf])) =
    match split_path m d (path_of (comps ++ [leaf])) with
    | Some (p, l) => default 0 (dir_lookup m d p l)
    | None => 0
    end.
Proof.
  intros Hm Hcs Hleaf.
  assert (Forall component (comps ++ [leaf])) as Hall.
  { apply Forall_app. split; [done|]. by constructor. }
  pose proof (path_of_length _ Hall) as Hlen. rewrite length_app in Hlen. cbn [length] in Hlen.
  assert (exists c cs, comps ++ [leaf] = c :: cs /\ component c) as (c & cs & Heq & Hc).
  { destruct comps as [|c comps]; [by eexists _, _|]. eexists _, _. split; [done|].
    by apply Forall_cons_1 in Hcs as [? _]. }
  assert (path_of (comps ++ [leaf]) = slash :: (c ++ path_of cs)) as Hp by (by rewrite Heq).
  assert (split_path m d (path_of (comps ++ [leaf])) =
    match walk d MINIX_ROOT_INO comps with Some p => Some (p, cut leaf) | None => None end) as Hsplit.
  { rewrite Hp. cbn [split_path]. rewrite Z.eqb_refl. cbn [negb]. rewrite Hp in Hlen. simpl in Hlen.
    destruct comps as [|c2 comps]; cbn [app] in Heq; injection Heq as -> <-.
    - cbn [split_from walk]. destruct (round c [] Hleaf) as [-> _]. cbn.
      destruct (cut_nonempty c Hleaf) as (x & l & ->). done.
    - apply split_from_walk; [done|done|]. simpl in *. lia. }
  split; [done|]. rewrite Hsplit. unfold minixfs_resolve. rewrite Hm. cbn [negb].
  destruct (Z.eqb_spec (CStr.cstrcmp (path_of (comps ++ [leaf])) [slash]) 0) as [H0|_].
  { apply CStr.strcmp_zero in H0. rewrite Hp in H0. destruct Hc as (Hne & _ & H0c).
    destruct c as [|x c]; [done|]. apply not_elem_of_cons in H0c as [Hx _]. cbn in H0.
    destruct (Z.eqb_spec x 0); [congruence|done]. }
  rewrite Hp in Hlen |- *. cbn [List.tl length]. rewrite Heq in Hall.
  rewrite resolve_from_walk; [|done|rewrite <- Heq, length_app; simpl in *; lia].
  rewrite <- Heq. generalize MINIX_ROOT_INO. clear.
  induction comps as [|c comps IH]; intros cur; cbn [walk app].
  - by destruct (dir_lookup m d cur (cut leaf)).
  - destruct (dir_lookup m d cur (cut c)); [apply IH|done].
Qed.

(** A path that starts with two slashes resolves to the root directory whatever
    follows, although [split_path] walks on: the loop of [minixfs_resolve] stops at the
    first empty component. *)
Theorem resolve_double_slash d p : mounted m = true ->
  minixfs_resolve m d (slash :: slash :: p) = MINIX_ROOT_INO.
Proof.
  intros Hm. unfold minixfs_resolve. rewrite Hm. cbn [negb]. bcase; [done|].
  cbn [List.tl length resolve_from scan_comp]. by rewrite Z.eqb_refl.
Qed.

(** ** A fresh inode *)

Lemma zone_zeros i k : i_zone i = replicate 10 0 -> zone i k = 0.
Proof.
  intros H. unfold zone. rewrite H. unfold lget. bcase; [done|].
  rewrite nth_lookup. destruct (replicate 10 0 !! Z.to_nat k) eqn:E; [|done].
  by apply lookup_replicate in E as [-> _].
Qed.

Lemma szone_zeros d i s : i_zone i = replicate 10 0 -> szone d i s = 0.
Proof.
  intros H. induction s as [k|p IH k]; cbn [szone]; [by apply zone_zeros|]. by rewrite IH.
Qed.

(** Inode [n] has been taken from the map and written with no zones. *)
Record fresh_inode (d : disk) (n : Z) (i : inode) (d' : disk) : Prop := {
  fn_inv : fs_inv m d';
  fn_live : forall ino, live m d' ino <-> live m d ino \/ ino = n;
  fn_new : iget m d' n = i;
  fn_views : view_eq m d d' (only n) (only n) none none }.

Lemma fresh_inode_ok d n i : fs_inv m d -> ino_ok m n -> n < 8192 * s_imap_blocks (sb m) ->
  ibit m d n = false -> (forall j, 0 <= j < n -> ibit m d j = true) ->
  inode_wf i -> i_zone i = replicate 10 0 ->
  exists d1 d2, alloc_inode m d = (n, d1) /\ write_inode m d1 n i = (2, d2) /\ fresh_inode d n i d2.
Proof.
  intros Hinv Hok Hn Hfree Hlow Hwf Hz. pose proof (fi_layout _ _ Hinv) as HL.
  destruct (alloc_inode_spec m d n HL) as (d1 & Ha & V1 & Hset); [destruct Hok; lia|done|done|].
  pose proof (iput_views m d1 n i (ve_layout V1) Hok Hwf) as V2.
  exists d1, (iput m d1 n i). split_and!; [done|by apply write_inode_ok; [apply V1|]|].
  assert (view_eq m d (iput m d1 n i) (only n) (only n) none none) as V.
  { eapply view_eq_mono; [eapply view_eq_trans; [exact V1|exact V2]|..]; unfold either, none; tauto. }
  pose proof (iget_iput_eq m d1 n i (ve_layout V1) Hok Hwf) as Hnew.
  assert (forall ino, live m (iput m d1 n i) ino <-> live m d ino \/ ino = n) as Hlive.
  { intros ino. unfold live. destruct (decide (ino = n)) as [->|Hne].
    - split; [by right|]. intros _. split_and!; [done|done|].
      rewrite (ve_ibit V2) by (auto; destruct Hok; lia). done.
    - split.
      + intros (H1 & H2 & H3). left. split_and!; [done|done|].
        rewrite <- H3. symmetry. apply (ve_ibit V); [destruct H1; lia|done].
      + intros [(H1 & H2 & H3)|]; [|done]. split_and!; [done|done|].
        rewrite <- H3. apply (ve_ibit V); [destruct H1; lia|done]. }
  assert (forall ino s, live m d ino -> valid s ->
    szone (iput m d1 n i) (iget m (iput m d1 n i) ino) s = szone d (iget m d ino) s) as Hsz.
  { intros ino s Hl. assert (ino <> n) as Hne by (intros ->; destruct Hl as (_ & _ & Hl); congruence).
    rewrite (ve_inode V) by (apply Hl || done). apply (szone_same_data m); try done.
    intros z Hge. apply (ve_data V); auto. }
  constructor; [|done|done|done].
  constructor.
  - apply V.
  - eapply contiguous_view; [exact V|apply Hinv].
  - rewrite (ve_zbit V); [apply Hinv|destruct HL; lia|auto].
  - intros ino s Hl Hs Hne. apply Hlive in Hl as [Hl|Heq].
    + rewrite Hsz in * by done. pose proof (fi_good _ _ Hinv ino s Hl Hs Hne) as [G1 G2 G3 G4].
      constructor; [by apply (ve_on_disk V)|done|done|]. rewrite (ve_zbit V); [done|lia|auto].
    + subst ino. rewrite Hnew, szone_zeros in Hne; done.
  - intros ino1 s1 ino2 s2 Hl1 Hl2 Hs1 Hs2 Hne Heq. apply Hlive in Hl1 as [Hl1|E1].
    2:{ subst ino1. rewrite Hnew, szone_zeros in Hne; done. }
    apply Hlive in Hl2 as [Hl2|E2].
    2:{ subst ino2. rewrite Heq, Hnew, szone_zeros in Hne; done. }
    rewrite !Hsz in * by done. by apply (fi_inj _ _ Hinv).
Qed.

Lemma fresh_inode_fblock d n i d' : fs_inv m d -> ibit m d n = false -> fresh_inode d n i d' ->
  forall ino fb, live m d ino -> 0 <= fb < MAX_FILE_BLOCKS ->
  iget m d' ino = iget m d ino /\ fblock d' (iget m d' ino) fb = fblock d (iget m d ino) fb.
Proof.
  intros Hinv Hfree [F1 F2 F3 V] ino fb Hl Hfb.
  assert (ino <> n) as Hne by (intros ->; destruct Hl as (_ & _ & Hl); congruence).
  rewrite (ve_inode V) by (apply Hl || done). split; [done|].
  apply (fblock_same_data m); try done. intros z Hge. apply (ve_data V); auto.
Qed.

(** ** [minixfs_creat] *)

Lemma lor_u16 a b : is_u16 a -> is_u16 b -> is_u16 (Z.lor a b).
Proof.
  intros Ha Hb. assert (0 <= Z.lor a b) by (apply Z.lor_nonneg; unfold is_u16 in *; lia).
  split; [done|]. apply (bounded_of_bits _ 16); [lia|done|]. intros k Hk. rewrite Z.lor_spec.
  assert (forall x, is_u16 x -> Z.testbit x k = false) as Hx.
  { intros x Hx. rewrite <- (Z.mod_small x (2 ^ 16)) by (unfold is_u16 in Hx; lia).
    apply Z.mod_pow2_bits_high. lia. }
  by rewrite !Hx.
Qed.

Lemma perm_bits mode : is_u16 (Z.land mode 4095).
Proof. rewrite low_page. dlia. Qed.

Lemma file_mode t mode : t = S_IFREG \/ t = S_IFDIR ->
  is_u16 (Z.lor t (Z.land mode 4095)) /\ Z.land (Z.lor t (Z.land mode 4095)) S_IFMT = t.
Proof.
  intros Ht. split.
  - apply lor_u16; [|apply perm_bits]. destruct Ht as [-> | ->]; unfold is_u16, S_IFREG, S_IFDIR; lia.
  - rewrite Z.land_lor_distr_l, <- Z.land_assoc.
    change (Z.land 4095 S_IFMT) with 0. rewrite Z.land_0_r, Z.lor_0_r.
    by destruct Ht as [-> | ->].
Qed.

Definition new_file (mode : Z) : inode :=
  set_nlinks 1 (set_mode (Z.lor S_IFREG (Z.land mode 4095)) zero_inode).

Lemma new_file_ok mode : inode_wf (new_file mode).
Proof.
  apply inode_wf_ranges. destruct (file_mode S_IFREG mode) as [Hm _]; [by left|].
  constructor; cbn; try done; try (unfold is_u16, is_u32; lia).
  repeat (apply Forall_cons_2; [unfold is_u32; lia|]). apply Forall_nil_2.
Qed.

Lemma dblocks_ext d d' ino : iget m d' ino = iget m d ino ->
  0 <= nblocks (iget m d ino) <= MAX_FILE_BLOCKS ->
  (forall fb, 0 <= fb < MAX_FILE_BLOCKS -> fblock d' (iget m d' ino) fb = fblock d (iget m d ino) fb) ->
  dblocks d' (iget m d' ino) = dblocks d (iget m d ino).
Proof.
  intros Hi Hn Hfb. unfold dblocks, blocks_from. rewrite Hi at 2. apply map_range_ext.
  intros x Hx. apply Hfb. lia.
Qed.

(** C29: Creating a path whose directory exists and does not contain the leaf, when the
    lowest free bit of the inode map stands for an inode of the table ([ino_ok]: the images the
    build makes leave the bits past the table clear, and then the number after the last inode
    would be handed out), the directory can grow by a block within the largest file size and
    the zone map has three free zones on the disk for every block of the directory and three
    more: allocates that lowest free inode number, makes it an empty regular file with the permission
    bits asked for, enters it in the directory under the leaf's name, and changes no
    other name, no other inode and no other file's contents. *)
Theorem minixfs_creat_correct d path mode parent leaf n :
  fs_inv m d -> is_dir m d parent -> i_size (iget m d parent) + 1024 <= MAX_FILE_SIZE ->
  has_free m d (3 * Z.to_nat (nblocks (iget m d parent)) + 3) ->
  split_path m d path = Some (parent, leaf) -> leaf <> [] -> bytes leaf ->
  dir_lookup m d parent leaf = None -> ino_ok m n -> n < 8192 * s_imap_blocks (sb m) ->
  ibit m d n = false -> (forall j, 0 <= j < n -> ibit m d j = true) ->
  exists d', minixfs_creat m d path mode = (n, d') /\ fs_inv m d' /\ live m d' n /\
    iget m d' n = new_file mode /\ S_ISREG (i_mode (new_file mode)) = true /\
    dir_lookup m d' parent leaf = Some n /\
    (forall name, ~ same_name leaf name -> dir_lookup m d' parent name = dir_lookup m d parent name) /\
    forall ino, live m d ino -> ino <> parent -> iget m d' ino = iget m d ino /\
      forall fb, 0 <= fb < MAX_FILE_BLOCKS -> fblock d' (iget m d' ino) fb = fblock d (iget m d ino) fb.
Proof.
  intros Hinv Hd Hsz Hf Hsplit Hleaf Hb Hno Hok Hn Hfree Hlow.
  destruct (fresh_inode_ok d n (new_file mode) Hinv Hok Hn Hfree Hlow (new_file_ok mode) eq_refl)
    as (d1 & d2 & Ha & Hw & Hfn).
  pose proof (fresh_inode_fblock d n _ d2 Hinv Hfree Hfn) as Hkeep. destruct Hfn as [F1 F2 F3 V].
  assert (parent <> n) as Hpn by (intros ->; destruct Hd as [(_ & _ & ?) _ _]; congruence).
  destruct (is_dir_blocks m d parent Hinv Hd) as [Hnb _]. pose proof Hd as [Hl Hm _].
  assert (iget m d2 parent = iget m d parent) as Hip by (apply (Hkeep parent 0 Hl); done).
  assert (is_dir m d2 parent) as Hd2 by (destruct Hd; constructor; rewrite ?Hip; [apply F2; by left|done..]).
  pose proof Hd2 as [Hl2 Hm2 Hs2].
  assert (dblocks d2 (iget m d2 parent) = dblocks d (iget m d parent)) as Hdb.
  { apply dblocks_ext; [done|done|]. intros fb Hfb. by apply (Hkeep parent fb). }
  assert (is_u32 n) as Hn32 by (pose proof (layout_small m d (fi_layout _ _ Hinv)); destruct Hok; dlia).
  destruct (dir_add_ok m d2 parent leaf n F1 Hl2 Hb Hn32) as (d3 & Hadd & [P1 P2 P3 P4 P5 P6 P7]);
    [by rewrite Hip|rewrite Hip; by eapply has_free_view|].
  assert (is_dir m d3 parent) as [Hl3 Hm3 Hs3] by (constructor; [by apply P2|by rewrite P4|done]).
  rewrite dir_lookup_scan in Hno by (done || apply Hd).
  unfold minixfs_creat. rewrite Hsplit. destruct leaf as [|c leaf]; [done|].
  rewrite dir_lookup_scan, Hno by (done || apply Hd). rewrite Ha.
  destruct (Z.eqb_spec n 0); [destruct Hok; lia|]. fold (new_file mode). rewrite Hw. cbn [snd].
  rewrite Hadd. cbn [Z.ltb Z.compare]. exists d3.
  assert (Forall block (dblocks d (iget m d parent))) as Hbs by (by apply (is_dir_blocks m d parent Hinv Hd)).
  split_and!.
  - f_equal. apply i32_small. pose proof (layout_small m d (fi_layout _ _ Hinv)). destruct Hok. lia.
  - done.
  - apply P2, F2. by right.
  - rewrite P3 by done. done.
  - unfold S_ISREG. cbn [new_file set_nlinks set_mode i_mode].
    destruct (file_mode S_IFREG mode) as [_ ->]; [by left|]. apply Z.eqb_refl.
  - rewrite dir_lookup_scan, P6, Hdb by done. by apply scan_add_same.
  - intros name Hns. rewrite !dir_lookup_scan, P6, Hdb by (done || apply Hd). by apply scan_add_other.
  - intros ino Hli Hne. assert (live m d2 ino) as Hli2 by (apply F2; by left).
    split; [rewrite P3 by (done || apply Hli); by apply (Hkeep ino 0)|].
    intros fb Hfb. rewrite P7 by done. by apply (Hkeep ino fb).
Qed.
End paths.

Section witnesses.
Import MinixDemo.

#[local] Instance component_dec c : Decision (component c).
Proof. unfold component. apply _. Defined.

Lemma path_walkers_agree_witness :
  split_path demo_fs demo_disk (path_of ([dot] ++ [name_a])) =
    match walk demo_fs demo_disk MINIX_ROOT_INO [dot] with Some p => Some (p, cut name_a) | None => None end /\
  minixfs_resolve demo_fs demo_disk (path_of ([dot] ++ [name_a])) =
    match split_path demo_fs demo_disk (path_of ([dot] ++ [name_a])) with
    | Some (p, l) => default 0 (dir_lookup demo_fs demo_disk p l)
    | None => 0
    end.
Proof.
  apply (path_walkers_agree demo_fs demo_disk [dot] name_a); [reflexivity|..].
  - apply (bool_decide_eq_true_1 (Forall component [dot])). reflexivity.
  - apply (bool_decide_eq_true_1 (component name_a)). reflexivity.
Defined.

Lemma resolve_double_slash_witness :
  minixfs_resolve demo_fs demo_disk (slash :: slash :: name_a) = MINIX_ROOT_INO.
Proof. apply (resolve_double_slash demo_fs demo_disk name_a). reflexivity. Defined.

Lemma demo_low_inodes j : 0 <= j < 3 -> ibit demo_fs demo_disk j = true.
Proof. intros Hj. apply (forallb_range (ibit demo_fs demo_disk) 0 3); [by vm_compute|lia]. Qed.

Lemma minixfs_creat_correct_witness :
  exists d', minixfs_creat demo_fs demo_disk (path_of [name_b]) 420 = (3, d') /\ fs_inv demo_fs d' /\
    live demo_fs d' 3 /\ iget demo_fs d' 3 = new_file 420 /\
    S_ISREG (i_mode (new_file 420)) = true /\ dir_lookup demo_fs d' 1 name_b = Some 3 /\
    (forall name, ~ same_name name_b name ->
       dir_lookup demo_fs d' 1 name = dir_lookup demo_fs demo_disk 1 name) /\
    forall ino, live demo_fs demo_disk ino -> ino <> 1 ->
      iget demo_fs d' ino = iget demo_fs demo_disk ino /\
      forall fb, 0 <= fb < MAX_FILE_BLOCKS ->
        fblock d' (iget demo_fs d' ino) fb = fblock demo_disk (iget demo_fs demo_disk ino) fb.
Proof.
  apply (minixfs_creat_correct demo_fs demo_disk (path_of [name_b]) 420 1 name_b 3);
    [apply demo_inv|apply demo_is_dir|vm_compute; congruence|apply demo_free; vm_compute; lia
    |vm_compute; reflexivity|discriminate|apply name_b_bytes|vm_compute; reflexivity
    |apply (bool_decide_eq_true_1 (ino_ok demo_fs 3)); reflexivity|reflexivity|vm_compute; reflexivity
    |apply demo_low_inodes].
Defined.
End witnesses.
End MinixPath.
