(* ===== verification/MinixMeta.v ===== *)
(** * Theorems about the metadata of the MINIX file system

    Mounting, the inode table and the bitmaps: what each routine promises, stated on
    the views of MinixTable. *)

From stdpp Require Import base list gmap numbers.
From S2P Require Import Prelude CString Disk Layout Minix MinixTable MinixZones MinixTree MinixDemo.

#[local] Open Scope Z_scope.

Module MinixMeta.
Import Disk Minix MinixTable MinixZones MinixTree MinixDemo.

Section meta.
Context `{STK : !Stack}.
Implicit Types (m : statics) (d : disk).

(** Mounting a disk whose block 1 holds the superblock [s] (with the MINIX magic
    number and metadata regions below the first data zone) succeeds and establishes
    the layout that every other operation relies on; with another magic number it
    fails and the mounted flag is left as it was. *)
Theorem minixfs_mount_layout m0 d s :
  wf d -> sb_wf s -> on_disk d 1 -> take 31 (bget d 1) = encode_sb s ->
  0 < s_imap_blocks s -> 0 < s_zmap_blocks s ->
  2 + s_imap_blocks s + s_zmap_blocks s <= s_firstdatazone s ->
  (forall b, 0 <= b < s_firstdatazone s -> on_disk d b) ->
  let '(r, m) := minixfs_mount m0 d in
  sb m = s /\
  if s_magic s =? MINIX3_MAGIC then r = 0 /\ mounted m = true /\ layout m d
  else r = -1 /\ mounted m = mounted m0.
Proof.
  intros Hwf Hs Hon Hsb Hi Hz Hf Hall. pose proof Hs as Hs'. unfold sb_wf, sb_widths, sb_fields in Hs'.
  rewrite !Forall2_cons_iff in Hs'. destruct Hs' as (_ & _ & Fi & Fz & Ff & _).
  rewrite fits2 in Fi, Fz, Ff.
  unfold minixfs_mount, SB_OFFSET_BLOCK. rewrite block_read_ok by (done || apply stack_block_ok).
  cbn [Z.ltb Z.compare]. rewrite Hsb, decode_encode_sb by done.
  destruct (Z.eqb_spec (s_magic s) MINIX3_MAGIC) as [He|He]; cbn [negb]; [|done].
  rewrite !u32_small by dlia. split; [done|]. split; [done|]. split; [done|].
  unfold is_u16 in *. constructor; unfold fdz; cbn [sb imap_start zmap_start inode_start]; done || lia.
Qed.

(** An inode that is written is read back unchanged, and writing it leaves every
    other inode, both bitmaps and every data zone as they were. *)
Theorem inode_write_read m d ino i out :
  layout m d -> ino_ok m ino -> inode_wf i ->
  exists d', write_inode m d ino i = (2, d') /\ read_inode m d' ino out = (0, i) /\
    view_eq m d d' (only ino) none none none.
Proof.
  intros HL Hi Hwf. pose proof (iput_views m d ino i HL Hi Hwf) as V.
  exists (iput m d ino i). split_and!; [by apply write_inode_ok| |done].
  rewrite read_inode_ok by (done || apply V). by rewrite iget_iput_eq.
Qed.

(** [alloc_zone] hands out the lowest free zone, zeroed and marked in the map,
    and changes nothing else; [free_zone] gives it back, after which the zone map is
    the one before the allocation. *)
Theorem alloc_free_zone m d k :
  layout m d -> contiguous d -> zbit m d 0 = true -> has_free m d (S k) ->
  exists z d', alloc_zone m d = (z, d') /\ allocated m d z d' /\
    forall n, 0 <= n < 8192 * s_zmap_blocks (sb m) -> zbit m (free_zone m d' z) n = zbit m d n.
Proof.
  intros HL Hc H0 Hf. destruct (alloc_zone_spec m d k HL Hc H0 Hf) as (z & d' & Ha & Hal & _).
  exists z, d'. split_and!; [done|done|]. intros n Hn. destruct Hal as [A1 A2 A3 A4 A5 A6 A7 A8].
  destruct (free_zone_spec m d' z (ve_layout A8) A1 ltac:(lia)) as [V Hclr].
  destruct (decide (n = z - fdz m + 1)) as [->|Hne]; [congruence|].
  rewrite (ve_zbit V), (ve_zbit A8); done.
Qed.

(** [alloc_inode] marks and returns the lowest inode number whose bit is clear, and
    [free_inode] clears that bit again. *)
Theorem alloc_free_inode m d n :
  layout m d -> 0 <= n < 8192 * s_imap_blocks (sb m) -> ibit m d n = false ->
  (forall j, 0 <= j < n -> ibit m d j = true) ->
  exists d', alloc_inode m d = (n, d') /\ view_eq m d d' none (only n) none none /\
    ibit m d' n = true /\
    forall j, 0 <= j < 8192 * s_imap_blocks (sb m) -> ibit m (free_inode m d' n) j = ibit m d j.
Proof.
  intros HL Hn Hfree Hlow. destruct (alloc_inode_spec m d n HL Hn Hfree Hlow) as (d' & Ha & V & Hset).
  exists d'. split_and!; [done|done|done|]. intros j Hj.
  destruct (free_inode_spec m d' n (ve_layout V) Hn) as [V' Hclr].
  destruct (decide (j = n)) as [->|Hne]; [congruence|].
  rewrite (ve_ibit V'), (ve_ibit V); done.
Qed.

(** Which of the three permission triples applies to a user. *)
Definition perm_shift (i : inode) (uid gid : Z) : Z :=
  if i_uid i =? uid then 6 else if i_gid i =? gid then 3 else 0.

Lemma land_subset x y : Z.land x y = y <-> forall b, 0 <= b -> Z.testbit y b = true -> Z.testbit x b = true.
Proof.
  split.
  - intros H b Hb Hy. rewrite <- H, Z.land_spec in Hy. by apply andb_true_iff in Hy as [? _].
  - intros H. apply Z.bits_inj'. intros b Hb. rewrite Z.land_spec.
    destruct (Z.testbit y b) eqn:Hy; [|apply andb_false_r]. by rewrite (H b Hb Hy).
Qed.

(** [minixfs_check_perm] grants a request exactly when the user is root or every
    permission bit asked for is set in the triple of the file's mode that applies:
    the owner's for its owner, the group's for its group, the others' otherwise. *)
Theorem check_perm_correct m d ino want uid gid :
  layout m d -> ino_ok m ino -> 0 <= want < 8 ->
  let r := minixfs_check_perm m d ino want uid gid in
  (r = 0 \/ r = -1) /\
  (r = 0 <-> uid = 0 \/ forall b, 0 <= b < 3 -> Z.testbit want b = true ->
     Z.testbit (i_mode (iget m d ino)) (b + perm_shift (iget m d ino) uid gid) = true).
Proof.
  intros HL Hi Hw. intros r. subst r. unfold minixfs_check_perm.
  rewrite read_inode_ok by done. cbn [Z.ltb Z.compare].
  set (i := iget m d ino). set (P := forall b, 0 <= b < 3 -> _).
  assert ((if i_uid i =? uid then Z.land (Z.shiftr (i_mode i) 6) 7
           else if i_gid i =? gid then Z.land (Z.shiftr (i_mode i) 3) 7 else Z.land (i_mode i) 7) =
          Z.land (Z.shiftr (i_mode i) (perm_shift i uid gid)) 7) as ->.
  { unfold perm_shift. by destruct (i_uid i =? uid), (i_gid i =? gid). }
  assert (0 <= perm_shift i uid gid) as Hsh.
  { unfold perm_shift. destruct (i_uid i =? uid), (i_gid i =? gid); lia. }
  assert (Z.land (Z.land (Z.shiftr (i_mode i) (perm_shift i uid gid)) 7) want = want <-> P) as HP.
  { rewrite land_subset. split.
    - intros H b Hb Hwb. specialize (H b ltac:(lia) Hwb). rewrite Z.land_spec, Z.shiftr_spec in H by lia.
      by apply andb_true_iff in H as [? _].
    - intros H b Hb Hwb. assert (b < 3).
      { destruct (Z.lt_ge_cases b 3); [done|]. rewrite <- (Z.mod_small want (2 ^ 3)) in Hwb by lia.
        rewrite Z.mod_pow2_bits_high in Hwb by lia. done. }
      rewrite Z.land_spec, Z.shiftr_spec by lia. rewrite (H b) by (done || lia).
      change 7 with (Z.ones 3). rewrite Z.testbit_ones_nonneg by lia.
      by destruct (Z.ltb_spec b 3); [|lia]. }
  destruct (Z.eqb_spec uid 0) as [->|Hu].
  - split; [by left|]. split; [by left|done].
  - destruct (Z.eqb_spec (Z.land (Z.land (Z.shiftr (i_mode i) (perm_shift i uid gid)) 7) want) want) as [He|He].
    + split; [by left|]. split; [|done]. intros _. right. by apply HP.
    + split; [by right|]. split; [done|]. intros [|HPp]; [done|]. by destruct He; apply HP.
Qed.

(** Inodes that fit in the table. *)
Definition table_capacity m : Z := 16 * (fdz m - inode_start m).

(** The inode bitmap usually has more bits than the table has inodes, and
    [alloc_inode] does not compare with [s_ninodes]: once every inode of the table is
    taken it returns a number past the end of the table, and writing that inode
    overwrites the first data zone. *)
Theorem alloc_inode_overrun m d i :
  layout m d -> on_disk d (fdz m) -> table_capacity m + 1 < 8192 * s_imap_blocks (sb m) ->
  (forall j, 0 <= j <= table_capacity m -> ibit m d j = true) ->
  ibit m d (table_capacity m + 1) = false -> inode_wf i ->
  exists d' ino, alloc_inode m d = (ino, d') /\ ino = table_capacity m + 1 /\ ~ ino_ok m ino /\
    write_inode m d' ino i =
      (2, bput d' (fdz m) (lsplice (bget d' (fdz m)) 0 (encode_inode i))).
Proof.
  intros HL Hon Hcap Hall Hfree Hwf. pose proof HL as [].
  assert (0 <= table_capacity m) by (unfold table_capacity; lia).
  destruct (alloc_inode_spec m d (table_capacity m + 1)) as (d' & Ha & V & Hset);
    [done|lia|done|intros; apply Hall; lia|].
  exists d', (table_capacity m + 1). split_and!; [done|done| |].
  - intros [_ H2]. unfold table_capacity in H2. dlia.
  - assert (on_disk d' (fdz m)) as Hon' by (by apply (ve_on_disk V)).
    unfold write_inode, table_capacity, INODES_PER_BLOCK in *.
    destruct (Z.ltb_spec (16 * (fdz m - inode_start m) + 1) 1); [lia|].
    rewrite (u32_small (16 * (fdz m - inode_start m) + 1 - 1)) by dlia.
    replace ((16 * (fdz m - inode_start m) + 1 - 1) / 16) with (fdz m - inode_start m) by dlia.
    replace ((16 * (fdz m - inode_start m) + 1 - 1) mod 16) with 0 by dlia.
    replace (inode_start m + (fdz m - inode_start m)) with (fdz m) by lia.
    rewrite (u32_small (fdz m)) by dlia.
    rewrite block_read_ok by (try done; try apply V; apply stack_block_ok). cbn [Z.ltb Z.compare].
    by rewrite block_write_ok.
Qed.
End meta.

Section witnesses.

Lemma demo_sb_ok : sb_wf demo_sb.
Proof.
  unfold sb_wf, sb_widths, sb_fields, demo_sb. rewrite !Forall2_cons_iff. unfold fits, MINIX3_MAGIC. cbn.
  split_and!; try lia. constructor.
Qed.

Lemma minixfs_mount_layout_witness :
  let '(r, m) := minixfs_mount (Statics demo_sb 0 0 0 0 false) demo_disk in
  sb m = demo_sb /\
  if s_magic demo_sb =? MINIX3_MAGIC then r = 0 /\ mounted m = true /\ layout m demo_disk
  else r = -1 /\ mounted m = mounted (Statics demo_sb 0 0 0 0 false).
Proof.
  apply (minixfs_mount_layout (Statics demo_sb 0 0 0 0 false) demo_disk demo_sb);
    [apply demo_layout|apply demo_sb_ok|apply (ly_disk _ _ demo_layout); cbn; lia
    |vm_compute; reflexivity|cbn; lia|cbn; lia|cbn; lia|apply (ly_disk _ _ demo_layout)].
Defined.

Lemma inode_write_read_witness :
  exists d', write_inode demo_fs demo_disk 3 demo_root = (2, d') /\
    read_inode demo_fs d' 3 demo_file = (0, demo_root) /\
    view_eq demo_fs demo_disk d' (only 3) none none none.
Proof.
  apply (inode_write_read demo_fs demo_disk 3 demo_root demo_file);
    [apply demo_layout|apply (bool_decide_eq_true_1 (ino_ok demo_fs 3)); reflexivity|apply demo_root_ok].
Defined.

Lemma alloc_free_zone_witness :
  exists z d', alloc_zone demo_fs demo_disk = (z, d') /\ allocated demo_fs demo_disk z d' /\
    forall n, 0 <= n < 8192 * s_zmap_blocks (sb demo_fs) ->
      zbit demo_fs (free_zone demo_fs d' z) n = zbit demo_fs demo_disk n.
Proof.
  apply (alloc_free_zone demo_fs demo_disk 0);
    [apply demo_layout|apply demo_inv|vm_compute; reflexivity|apply demo_free; lia].
Defined.

Lemma demo_low_bits j : 0 <= j < 3 -> ibit demo_fs demo_disk j = true.
Proof.
  intros Hj. apply (forallb_range (ibit demo_fs demo_disk) 0 3); [by vm_compute|lia].
Qed.

Lemma alloc_free_inode_witness :
  exists d', alloc_inode demo_fs demo_disk = (3, d') /\
    view_eq demo_fs demo_disk d' none (only 3) none none /\ ibit demo_fs d' 3 = true /\
    forall j, 0 <= j < 8192 * s_imap_blocks (sb demo_fs) ->
      ibit demo_fs (free_inode demo_fs d' 3) j = ibit demo_fs demo_disk j.
Proof.
  apply (alloc_free_inode demo_fs demo_disk 3);
    [apply demo_layout|cbn; lia|vm_compute; reflexivity|apply demo_low_bits].
Defined.

Lemma check_perm_correct_witness :
  let r := minixfs_check_perm demo_fs demo_disk 2 2 5 5 in
  (r = 0 \/ r = -1) /\
  (r = 0 <-> 5 = 0 \/ forall b, 0 <= b < 3 -> Z.testbit 2 b = true ->
     Z.testbit (i_mode (iget demo_fs demo_disk 2)) (b + perm_shift (iget demo_fs demo_disk 2) 5 5) = true).
Proof.
  apply (check_perm_correct demo_fs demo_disk 2 2 5 5);
    [apply demo_layout|apply (bool_decide_eq_true_1 (ino_ok demo_fs 2)); reflexivity|lia].
Defined.

(** The image with the 16 inodes of its table taken. *)
Definition full_disk : disk := bput demo_disk 2 (pad 1024 [255; 255; 1]).

Lemma full_layout : layout demo_fs full_disk.
Proof.
  apply layout_bput; [apply demo_layout|apply (ly_disk _ _ demo_layout); cbn; lia|].
  split; [done|]. apply (bool_decide_eq_true_1 (bytes (pad 1024 [255; 255; 1]))). by vm_compute.
Qed.

Lemma full_bits j : 0 <= j <= table_capacity demo_fs -> ibit demo_fs full_disk j = true.
Proof.
  intros Hj. change (table_capacity demo_fs) with 16 in Hj.
  apply (forallb_range (ibit demo_fs full_disk) 0 17); [by vm_compute|lia].
Qed.

Lemma alloc_inode_overrun_witness :
  exists d' ino, alloc_inode demo_fs full_disk = (ino, d') /\ ino = table_capacity demo_fs + 1 /\
    ~ ino_ok demo_fs ino /\
    write_inode demo_fs d' ino demo_root =
      (2, bput d' (fdz demo_fs) (lsplice (bget d' (fdz demo_fs)) 0 (encode_inode demo_root))).
Proof.
  apply (alloc_inode_overrun demo_fs full_disk demo_root);
    [apply full_layout|apply (bool_decide_eq_true_1 (on_disk full_disk (fdz demo_fs))); vm_compute; reflexivity
    |vm_compute; reflexivity|apply full_bits|vm_compute; reflexivity|apply demo_root_ok].
Defined.
End witnesses.
End MinixMeta.
