(* ===== verification/MinixFree.v ===== *)
(** * Giving zones back: truncation and unlinking in the MINIX file system

    Releasing the zones of a file clears exactly their bits; because no zone is shared
    ([fs_inv]), the other files keep theirs.  The theorems say which zones of a file
    [minixfs_open] with O_TRUNC and [minixfs_unlink] release. *)

From stdpp Require Import base list gmap numbers.
From S2P Require Import Prelude CString Disk Layout Minix MinixTable MinixZones MinixTree.
From S2P Require Import MinixDemo MinixFile MinixDir MinixNames.

#[local] Open Scope Z_scope.

Module MinixFree.
Import Disk Minix MinixTable MinixZones MinixTree MinixFile MinixDir MinixNames.

Section free.
Context `{STK : !Stack} (m : statics).

(** ** Releasing a list of zones *)

Definition release_all (zs : list Z) (d : disk) : disk := fold_left (fun d z => release_zone m z d) zs d.

(** The bits of the zone map that stand for the zones of a list. *)
Definition nums (zs : list Z) (n : Z) : Prop :=
  In n (map (fun z => z - fdz m + 1) (List.filter (fun z => negb (z =? 0)) zs)).

Lemma nums_iff zs n : nums zs n <-> exists z, In z zs /\ z <> 0 /\ n = z - fdz m + 1.
Proof.
  unfold nums. rewrite in_map_iff. split.
  - intros (z & <- & Hz). apply filter_In in Hz as [Hin Hne]. apply negb_true_iff, Z.eqb_neq in Hne. eauto.
  - intros (z & Hin & Hne & ->). exists z. split; [done|]. apply filter_In. split; [done|].
    by apply negb_true_iff, Z.eqb_neq.
Qed.

#[global] Instance nums_dec zs n : Decision (nums zs n).
Proof. unfold nums. apply In_dec. apply Z.eq_dec. Defined.

(** A zone number that can be released: 0, or a zone with a bit in the map. *)
Definition releasable (z : Z) : Prop :=
  z = 0 \/ (fdz m <= z /\ z - fdz m + 1 < 8192 * s_zmap_blocks (sb m)).

Lemma release_all_views zs : forall d, layout m d -> Forall releasable zs ->
  view_eq m d (release_all zs d) none none (nums zs) none /\
  forall n, nums zs n -> zbit m (release_all zs d) n = false.
Proof.
  induction zs as [|z zs IH]; intros d HL Hr; cbn [release_all fold_left].
  - split; [by apply view_eq_refl|]. intros n [].
  - apply Forall_cons_1 in Hr as [Hz Hzs]. fold (release_all zs (release_zone m z d)).
    unfold release_zone, nums. cbn [List.filter].
    destruct (Z.eqb_spec z 0) as [->|Hne]; cbn [negb map]; [by apply IH|].
    destruct Hz as [|[Hlow Hnum]]; [done|].
    destruct (free_zone_spec m d z HL Hlow Hnum) as [V1 H1].
    destruct (IH _ (ve_layout V1) Hzs) as [V Hclr]. split.
    + eapply view_eq_mono; [eapply view_eq_trans; [exact V1|exact V]|..]; unfold either, none; try tauto.
      intros n [Heq|Hn]; [by left|by right].
    + intros n [<-|Hn]; [|by apply Hclr].
      destruct (decide (nums zs (z - fdz m + 1))) as [Hy|Hno]; [by apply Hclr|].
      rewrite (ve_zbit V) by (done || lia). done.
Qed.

Lemma release_loop f n : forall start d,
  for_loop (fun k => release_zone m (f k)) start n d = release_all (map f (range start n)) d.
Proof. induction n as [|n IH]; intros start d; [done|]. cbn [for_loop range map release_all fold_left]. apply IH. Qed.

(** ** Dropping part of a file's block tree *)

(** The zones of the slots [drop] of file [ino] have been released, and the file has
    lost those slots or is gone; everything else is as it was. *)
Record shrunk (d : disk) (ino : Z) (drop : slot -> Prop) (d' : disk) : Prop := {
  sh_live : forall ino', live m d' ino' -> live m d ino';
  sh_slots : live m d' ino -> forall s, valid s -> szone d' (iget m d' ino) s = 0 \/
    (~ drop s /\ szone d' (iget m d' ino) s = szone d (iget m d ino) s);
  sh_freed : exists inums znums, view_eq m d d' (only ino) inums znums none /\
    forall n, znums n -> exists s, valid s /\ drop s /\ szone d (iget m d ino) s <> 0 /\
      n = szone d (iget m d ino) s - fdz m + 1 }.

Lemma shrunk_szone d ino drop d' ino' : fs_inv m d -> shrunk d ino drop d' -> live m d ino' -> ino' <> ino ->
  forall s, valid s -> szone d' (iget m d' ino') s = szone d (iget m d ino') s.
Proof.
  intros Hinv [_ _ (inums & znums & V & _)] Hl Hne s Hs.
  rewrite (ve_inode V) by (apply Hl || done). apply (szone_same_data m); try done.
  intros z Hz. apply (ve_data V); auto.
Qed.

Lemma shrunk_inv d ino drop d' : fs_inv m d -> live m d ino -> shrunk d ino drop d' -> fs_inv m d'.
Proof.
  intros Hinv Hl Hsh. pose proof (fun ino' => shrunk_szone d ino drop d' ino' Hinv Hsh) as Hother.
  destruct Hsh as [Hlive Hslots (inums & znums & V & Hfreed)].
  pose proof (fi_layout _ _ Hinv) as HL.
  assert (forall ino' s, live m d' ino' -> valid s -> szone d' (iget m d' ino') s <> 0 ->
    szone d' (iget m d' ino') s = szone d (iget m d ino') s /\ (ino' = ino -> ~ drop s)) as Hsame.
  { intros ino' s Hl' Hs Hne. destruct (decide (ino' = ino)) as [->|Hni].
    - destruct (Hslots Hl' s Hs) as [|[? ?]]; done.
    - split; [by apply Hother; [apply Hlive| |]|done]. }
  assert (forall ino' s, live m d ino' -> valid s -> szone d (iget m d ino') s <> 0 ->
    (ino' = ino -> ~ drop s) -> ~ znums (szone d (iget m d ino') s - fdz m + 1)) as Hkept.
  { intros ino' s Hl' Hs Hne Hnd Hn. destruct (Hfreed _ Hn) as (s' & Hs' & Hdr & Hne' & Heq).
    destruct (fi_inj _ _ Hinv ino' s ino s' Hl' Hl Hs Hs' Hne) as [-> ->]; [lia|]. by apply Hnd. }
  constructor.
  - apply V.
  - eapply contiguous_view; [exact V|apply Hinv].
  - rewrite (ve_zbit V); [apply Hinv|destruct HL; lia|].
    intros Hn. destruct (Hfreed _ Hn) as (s' & Hs' & _ & Hne' & Heq).
    pose proof (fi_good _ _ Hinv ino s' Hl Hs' Hne') as [_ G _ _]. lia.
  - intros ino' s Hl' Hs Hne. destruct (Hsame ino' s Hl' Hs Hne) as [Heq Hnd]. rewrite Heq in *.
    pose proof (fi_good _ _ Hinv ino' s (Hlive _ Hl') Hs Hne) as [G1 G2 G3 G4].
    constructor; [by apply (ve_on_disk V)|done|done|]. rewrite (ve_zbit V); [done|lia|].
    apply Hkept; [by apply Hlive|done|done|done].
  - intros ino1 s1 ino2 s2 Hl1 Hl2 Hs1 Hs2 Hne Heq.
    destruct (Hsame ino1 s1 Hl1 Hs1 Hne) as [E1 _].
    assert (szone d' (iget m d' ino2) s2 <> 0) as Hne2 by congruence.
    destruct (Hsame ino2 s2 Hl2 Hs2 Hne2) as [E2 _].
    apply (fi_inj _ _ Hinv); [by apply Hlive|by apply Hlive|done|done|congruence|congruence].
Qed.

Lemma slot_releasable d ino s : fs_inv m d -> live m d ino -> valid s ->
  releasable (szone d (iget m d ino) s).
Proof.
  intros Hinv Hl Hs. destruct (decide (szone d (iget m d ino) s = 0)) as [|Hne]; [by left|right].
  by pose proof (fi_good _ _ Hinv ino s Hl Hs Hne) as [].
Qed.

(** Zones of slots of a file, and their bits. *)
Lemma slots_releasable d ino ss : fs_inv m d -> live m d ino -> Forall valid ss ->
  Forall releasable (map (szone d (iget m d ino)) ss).
Proof.
  intros Hinv Hl Hss. apply List.Forall_forall. intros z Hz. apply in_map_iff in Hz as (s & <- & Hin).
  apply slot_releasable; try done. rewrite List.Forall_forall in Hss. auto.
Qed.

Lemma nums_slots d ino ss n : nums (map (szone d (iget m d ino)) ss) n ->
  exists s, In s ss /\ szone d (iget m d ino) s <> 0 /\ n = szone d (iget m d ino) s - fdz m + 1.
Proof.
  intros Hn. apply nums_iff in Hn as (z & Hin & Hne & ->). apply in_map_iff in Hin as (s & <- & Hin). eauto.
Qed.

(** ** Truncation *)

Lemma trunc_loop n : forall start i d, inode_wf i -> 0 <= start -> start + Z.of_nat n <= 10 ->
  exists i', for_loop (trunc_zone m) start n (i, d) = (i', release_all (map (zone i) (range start n)) d) /\
    inode_wf i' /\ attrs i' = attrs i /\
    forall k, zone i' k = if (start <=? k) && (k <? start + Z.of_nat n) then 0 else zone i k.
Proof.
  induction n as [|n IH]; intros start i d Hwf Hs Hn; cbn [for_loop].
  - exists i. split_and!; try done. intros k.
    destruct (Z.leb_spec start k), (Z.ltb_spec k (start + Z.of_nat 0)); cbn [andb]; done || lia.
  - pose proof Hwf as Hr. apply inode_wf_ranges in Hr.
    assert (exists i1, trunc_zone m start (i, d) = (i1, release_zone m (zone i start) d) /\ inode_wf i1 /\
      attrs i1 = attrs i /\ forall k, zone i1 k = if start =? k then 0 else zone i k)
      as (i1 & -> & Hwf1 & Hat1 & Hz1).
    { unfold trunc_zone, release_zone. destruct (Z.eqb_spec (zone i start) 0) as [Hz|Hz]; cbn [negb].
      - exists i. split_and!; try done. intros k. bcase; congruence.
      - exists (set_zone start 0 i). split_and!; [done| |done|].
        + apply inode_wf_set_zone; [done|lia|unfold is_u32; lia].
        + intros k. apply zone_set_zone; [apply Hr|lia]. }
    destruct (IH (start + 1) i1 (release_zone m (zone i start) d) Hwf1) as (i' & -> & Hwf' & Hat & Hz); [lia|lia|].
    exists i'. split_and!; [|done|congruence|].
    + cbn [range map release_all fold_left]. unfold release_all. do 2 f_equal.
      apply map_range_ext. intros x Hx. rewrite Hz1. bcase; [lia|done].
    + intros k. rewrite Hz, Hz1.
      destruct (Z.leb_spec (start + 1) k), (Z.ltb_spec k (start + 1 + Z.of_nat n)), (Z.leb_spec start k),
        (Z.ltb_spec k (start + Z.of_nat (S n))), (Z.eqb_spec start k); cbn [andb]; done || lia.
Qed.

Definition direct_slots_list : list slot := map Root (range 0 7).

Lemma direct_slots_valid : Forall valid direct_slots_list.
Proof.
  apply List.Forall_forall. intros s Hs. apply in_map_iff in Hs as (k & <- & Hk).
  apply In_range in Hk. simpl. lia.
Qed.

#[local] Instance In_slot_dec (s : slot) l : Decision (In s l).
Proof. apply In_dec. apply slot_eq_dec. Defined.

(** What remains of the slots when the direct zones of the inode are cleared. *)
Lemma szone_cut d i i' s : (forall k, zone i' k = if (0 <=? k) && (k <? 7) then 0 else zone i k) -> valid s ->
  szone d i' s = if decide (In s direct_slots_list) then 0 else szone d i s.
Proof.
  intros Hz. induction s as [k|p IH k]; intros Hs; cbn [szone].
  - rewrite Hz. destruct (decide (In (Root k) direct_slots_list)) as [Hin|Hnin].
    + apply in_map_iff in Hin as (k' & Heq & Hk'). injection Heq as ->. apply In_range in Hk'.
      destruct (Z.leb_spec 0 k), (Z.ltb_spec k 7); cbn [andb]; done || lia.
    + destruct (Z.leb_spec 0 k), (Z.ltb_spec k 7); cbn [andb]; try done. destruct Hnin.
      apply in_map. apply In_range. lia.
  - destruct Hs as (Hp & Hlev & Hk).
    destruct (decide (In (Sub p k) direct_slots_list)) as [Hin|_].
    { apply in_map_iff in Hin as (k' & Heq & _). done. }
    rewrite IH by done. destruct (decide (In p direct_slots_list)) as [Hin|_]; [|done].
    apply in_map_iff in Hin as (k' & <- & Hk'). apply In_range in Hk'. cbn [level] in Hlev.
    destruct (Z.ltb_spec k' 7); lia.
Qed.

Record truncated (d : disk) (ino : Z) (d' : disk) : Prop := {
  tr_inv : fs_inv m d';
  tr_live : forall ino', live m d' ino' <-> live m d ino';
  tr_size : i_size (iget m d' ino) = 0;
  tr_direct : forall k, 0 <= k < 7 -> zone (iget m d' ino) k = 0;
  tr_indirect : forall k, 7 <= k -> zone (iget m d' ino) k = zone (iget m d ino) k;
  tr_freed : forall n, 0 <= n < 8192 * s_zmap_blocks (sb m) ->
    zbit m d' n = if decide (nums (map (zone (iget m d ino)) (range 0 7)) n) then false else zbit m d n;
  tr_kept : forall fb, 7 <= fb < MAX_FILE_BLOCKS ->
    fblock d' (iget m d' ino) fb = fblock d (iget m d ino) fb;
  tr_others : forall ino' fb, live m d ino' -> ino' <> ino -> 0 <= fb < MAX_FILE_BLOCKS ->
    iget m d' ino' = iget m d ino' /\ fblock d' (iget m d' ino') fb = fblock d (iget m d ino') fb }.

Lemma truncate_ok d ino i1 : fs_inv m d -> live m d ino ->
  inode_wf i1 -> attrs i1 = attrs (iget m d ino) ->
  (forall k, zone i1 k = if (0 <=? k) && (k <? 7) then 0 else zone (iget m d ino) k) ->
  let d1 := release_all (map (zone (iget m d ino)) (range 0 7)) d in
  layout m d1 /\ truncated d ino (iput m d1 ino (set_size 0 i1)).
Proof.
  intros Hinv Hl Hwf Hat Hz d1.
  assert (map (zone (iget m d ino)) (range 0 7) = map (szone d (iget m d ino)) direct_slots_list) as Hmap
    by (unfold direct_slots_list; by rewrite map_map).
  destruct (release_all_views (map (zone (iget m d ino)) (range 0 7)) d (fi_layout _ _ Hinv)) as [V1 Hclr].
  { rewrite Hmap. apply slots_releasable; [done|done|apply direct_slots_valid]. }
  fold d1 in V1, Hclr. split; [apply V1|].
  assert (inode_wf (set_size 0 i1)) as Hwf' by (apply inode_wf_set_size; [done|unfold is_u32; lia]).
  pose proof (iput_views m d1 ino _ (ve_layout V1) (proj1 Hl) Hwf') as V2.
  assert (view_eq m d (iput m d1 ino (set_size 0 i1)) (only ino) none
            (nums (map (zone (iget m d ino)) (range 0 7))) none) as V.
  { eapply view_eq_mono; [eapply view_eq_trans; [exact V1|exact V2]|..]; unfold either, none; tauto. }
  pose proof (iget_iput_eq m d1 ino _ (ve_layout V1) (proj1 Hl) Hwf') as Hi.
  set (d' := iput m d1 ino (set_size 0 i1)) in *.
  assert (forall s, valid s -> szone d' (iget m d' ino) s =
    if decide (In s direct_slots_list) then 0 else szone d (iget m d ino) s) as Hsz.
  { intros s Hs. rewrite Hi, (szone_cut d' (iget m d ino)) by done. destruct (decide _); [done|].
    apply (szone_same_data m); try done. intros z Hge. apply (ve_data V); auto. }
  assert (shrunk d ino (fun s => In s direct_slots_list) d') as Hsh.
  { constructor.
    - intros ino'. by apply (live_view m _ _ _ _ _ V).
    - intros _ s Hs. rewrite Hsz by done. destruct (decide _); [by left|by right].
    - eexists _, _. split; [exact V|]. intros n Hn. rewrite Hmap in Hn.
      apply nums_slots in Hn as (s & Hin & Hne & ->). exists s. split_and!; try done.
      pose proof direct_slots_valid as Hv. rewrite List.Forall_forall in Hv. auto. }
  constructor.
  - by eapply shrunk_inv.
  - apply (live_view m _ _ _ _ _ V).
  - by rewrite Hi.
  - intros k Hk. rewrite Hi. change (zone (set_size 0 i1) k) with (zone i1 k). rewrite Hz.
    destruct (Z.leb_spec 0 k), (Z.ltb_spec k 7); cbn [andb]; done || lia.
  - intros k Hk. rewrite Hi. change (zone (set_size 0 i1) k) with (zone i1 k). rewrite Hz.
    destruct (Z.ltb_spec k 7); [lia|]. by rewrite andb_false_r.
  - intros n Hn. destruct (decide _) as [Hy|Hno].
    + rewrite (ve_zbit V2) by (done || auto). by apply Hclr.
    + by apply (ve_zbit V).
  - intros fb Hfb. unfold fblock. destruct (dslot_valid fb ltac:(lia)) as [Hs _].
    rewrite Hsz by done. destruct (decide _) as [Hin|_].
    { apply in_map_iff in Hin as (k & Heq & Hk). apply In_range in Hk. unfold dslot in Heq.
      destruct (Z.ltb_spec fb 7); [lia|]. by destruct (Z.ltb_spec (fb - 7) 256). }
    destruct (Z.eqb_spec (szone d (iget m d ino) (dslot fb)) 0) as [|Hne]; [done|].
    apply (ve_data V); [by apply (fi_good _ _ Hinv)|auto].
  - intros ino' fb Hl' Hne Hfb. rewrite (ve_inode V) by (done || apply Hl'). split; [done|].
    apply (fblock_same_data m); try done. intros z Hge. apply (ve_data V); auto.
Qed.

(** C31: Opening a regular file with O_TRUNC sets its size to 0 and gives its seven
    direct zones back to the zone map, without touching any other file.  The indirect
    zones stay attached: what the file held past its seventh block is still there, and
    comes back when the file is extended again. *)
Theorem open_truncates d path flags mode ino :
  fs_inv m d -> minixfs_resolve m d path = ino -> live m d ino ->
  S_ISREG (i_mode (iget m d ino)) = true -> Z.land flags O_TRUNC <> 0 ->
  exists d', minixfs_open m d path flags mode = (ino, d') /\ truncated d ino d'.
Proof.
  intros Hinv Hres Hl Hreg Hfl. unfold minixfs_open. rewrite Hres.
  pose proof Hl as ([H1 H2] & H3 & _). pose proof (layout_small m d (fi_layout _ _ Hinv)).
  destruct (Z.eqb_spec ino 0); [lia|]. destruct (Z.eqb_spec (Z.land flags O_TRUNC) 0); [done|].
  cbn [negb]. rewrite read_inode_ok by (apply Hinv || apply Hl). rewrite Hreg.
  destruct (trunc_loop 7 0 (iget m d ino) d) as (i1 & -> & Hwf & Hat & Hz);
    [apply iget_wf; [apply Hinv|apply Hl]|lia|lia|].
  destruct (truncate_ok d ino i1 Hinv Hl Hwf Hat Hz) as [HL1 Htr].
  rewrite write_inode_ok by (done || apply Hl). cbn [snd]. eexists. split; [|exact Htr].
  f_equal. apply i32_small. lia.
Qed.

(** ** Unlinking *)

(** The slots that [minixfs_unlink] releases: the direct zones, the entries of the
    single indirect block, and that block. *)
Definition unlink_slots : list slot :=
  direct_slots_list ++ map (Sub (Root 7)) (range 0 256) ++ [Root 7].

Lemma unlink_slots_valid : Forall valid unlink_slots.
Proof.
  unfold unlink_slots. apply Forall_app. split; [apply direct_slots_valid|]. apply Forall_app. split.
  - apply List.Forall_forall. intros s Hs. apply in_map_iff in Hs as (k & <- & Hk). apply In_range in Hk.
    cbn [valid]. rewrite level7. lia.
  - constructor; [simpl; lia|constructor].
Qed.

Lemma release_all_app zs zs' d : release_all (zs ++ zs') d = release_all zs' (release_all zs d).
Proof. apply fold_left_app. Qed.

Lemma release_one z d : z <> 0 -> release_all [z] d = free_zone m d z.
Proof. intros Hz. cbn. unfold release_zone. by destruct (Z.eqb_spec z 0). Qed.

Lemma release_all_zeros zs d : Forall (fun z => z = 0) zs -> release_all zs d = d.
Proof. intros H. revert d. induction H as [|z zs -> H IH]; intros d; [done|]. apply IH. Qed.

(** The zones released by [minixfs_unlink] when the last link goes. *)
Definition unlink_release (d : disk) (i : inode) : disk :=
  let d1 := for_loop (fun k => release_zone m (zone i k)) 0 7 d in
  if negb (zone i 7 =? 0) then
    let ind := snd (block_read d1 (zone i 7) (stack_block 526)) in
    free_zone m (for_loop (fun k => release_zone m (ind_get ind k)) 0 (Z.to_nat ZONES_PER_BLOCK) d1)
      (zone i 7)
  else d1.

Lemma unlink_release_ok d ino : fs_inv m d -> live m d ino ->
  unlink_release d (iget m d ino) = release_all (map (szone d (iget m d ino)) unlink_slots) d.
Proof.
  intros Hinv Hl. unfold unlink_release, unlink_slots. rewrite !map_app, !release_all_app, !release_loop.
  assert (map (szone d (iget m d ino)) direct_slots_list = map (zone (iget m d ino)) (range 0 7)) as ->
    by (unfold direct_slots_list; by rewrite map_map).
  set (zs := map (zone (iget m d ino)) (range 0 7)). set (d1 := release_all zs d).
  rewrite map_map. destruct (Z.eqb_spec (zone (iget m d ino) 7) 0) as [Hz|Hz]; cbn [negb].
  - rewrite (release_all_zeros _ d1).
    + cbn [map szone release_all fold_left]. unfold release_zone. rewrite Hz. done.
    + apply List.Forall_forall. intros z Hin. apply in_map_iff in Hin as (k & <- & _).
      cbn [szone]. by rewrite Hz.
  - assert (valid (Root 7)) as Hv7 by (simpl; lia).
    pose proof (fi_good _ _ Hinv ino (Root 7) Hl Hv7 Hz) as [G1 G2 _ _]. cbn [szone] in G1, G2.
    destruct (release_all_views zs d (fi_layout _ _ Hinv)) as [V _].
    { unfold zs. rewrite <- (map_map Root (szone d (iget m d ino))).
      apply slots_releasable; [done|done|apply direct_slots_valid]. }
    fold d1 in V. rewrite block_read_ok;
      [|apply V|by apply (ve_on_disk V)|apply stack_block_ok]. cbn [snd].
    rewrite (ve_data V) by auto. cbn [map]. rewrite release_one by done.
    do 2 f_equal. apply map_range_ext. intros k _. cbn [szone].
    by destruct (Z.eqb_spec (zone (iget m d ino) 7) 0).
Qed.

(** The storage of file [ino] has been released: the bits of [zs] and of the inode. *)
Record file_freed (d : disk) (ino : Z) (zs : list Z) (d' : disk) : Prop := {
  ff_inv : fs_inv m d';
  ff_live : forall ino', live m d' ino' <-> live m d ino' /\ ino' <> ino;
  ff_zbit : forall n, 0 <= n < 8192 * s_zmap_blocks (sb m) ->
    zbit m d' n = if decide (nums zs n) then false else zbit m d n;
  ff_keep : forall ino', live m d ino' -> iget m d' ino' = iget m d ino' /\
    forall fb, 0 <= fb < MAX_FILE_BLOCKS -> fblock d' (iget m d' ino') fb = fblock d (iget m d ino') fb }.

Lemma free_file_ok d ino : fs_inv m d -> live m d ino ->
  let zs := map (szone d (iget m d ino)) unlink_slots in
  file_freed d ino zs (free_inode m (release_all zs d) ino).
Proof.
  intros Hinv Hl zs. destruct (release_all_views zs d (fi_layout _ _ Hinv)) as [V1 Hclr].
  { apply slots_releasable; [done|done|apply unlink_slots_valid]. }
  assert (0 <= ino < 8192 * s_imap_blocks (sb m)) as Hir by (destruct Hl as ([] & ? & _); lia).
  destruct (free_inode_spec m _ ino (ve_layout V1) Hir) as [V2 Hib].
  set (d2 := release_all zs d) in *. set (d3 := free_inode m d2 ino) in *.
  assert (view_eq m d d3 none (only ino) (nums zs) none) as V.
  { eapply view_eq_mono; [eapply view_eq_trans; [exact V1|exact V2]|..]; unfold either, none; tauto. }
  assert (forall ino', live m d3 ino' <-> live m d ino' /\ ino' <> ino) as Hlive.
  { intros ino'. unfold live. destruct (decide (ino' = ino)) as [->|Hne].
    - split; [intros (_ & _ & ?); congruence|tauto].
    - split.
      + intros (H1 & H2 & H3). split; [|done]. split_and!; [done|done|]. rewrite <- H3. symmetry.
        apply (ve_ibit V); [destruct H1; lia|done].
      + intros [(H1 & H2 & H3) _]. split_and!; [done|done|]. rewrite <- H3.
        apply (ve_ibit V); [destruct H1; lia|done]. }
  constructor.
  - apply (shrunk_inv d ino (fun s => In s unlink_slots)); [done|done|]. constructor.
    + intros ino' Hl'. by apply Hlive in Hl' as [? _].
    + intros Hl'. by apply Hlive in Hl' as [_ ?].
    + exists (only ino), (nums zs). split; [eapply view_eq_mono; [exact V|unfold none; tauto|auto|auto|auto]|].
      intros n Hn. apply nums_slots in Hn as (s & Hin & Hne & ->). exists s. split_and!; try done.
      pose proof unlink_slots_valid as Hv. rewrite List.Forall_forall in Hv. auto.
  - done.
  - intros n Hn. destruct (decide _) as [Hy|Hno].
    + rewrite (ve_zbit V2) by (done || auto). by apply Hclr.
    + by apply (ve_zbit V).
  - intros ino' Hl'. rewrite (ve_inode V) by (auto; apply Hl'). split; [done|].
    apply (fblock_same_data m); try done. intros z Hge. apply (ve_data V); auto.
Qed.

(** The body of [minixfs_unlink] on the last link. *)
Lemma unlink_runs d path parent leaf ino : fs_inv m d -> live m d ino ->
  split_path m d path = Some (parent, leaf) -> dir_lookup m d parent leaf = Some ino ->
  S_ISDIR (i_mode (iget m d ino)) = false -> i_nlinks (iget m d ino) <= 1 ->
  minixfs_unlink m d path =
    (0, snd (dir_remove m (free_inode m (release_all (map (szone d (iget m d ino)) unlink_slots) d) ino)
               parent leaf)).
Proof.
  intros Hinv Hl Hsplit Hlook Hnd Hnl. unfold minixfs_unlink. rewrite Hsplit, Hlook.
  rewrite read_inode_ok by (apply Hinv || apply Hl). rewrite Hnd.
  set (i1 := if 0 <? i_nlinks (iget m d ino) then _ else _).
  assert (i_nlinks i1 = 0) as ->.
  { unfold i1. pose proof (iget_wf m d ino (fi_layout _ _ Hinv) (proj1 Hl)) as Hw.
    apply inode_wf_ranges in Hw. pose proof (ir_nlinks _ Hw) as Hn16. unfold is_u16 in Hn16.
    destruct (Z.ltb_spec 0 (i_nlinks (iget m d ino))); cbn [set_nlinks i_nlinks]; lia. }
  assert (forall k, zone i1 k = zone (iget m d ino) k) as Hz1.
  { intros k. unfold i1. by destruct (0 <? i_nlinks (iget m d ino)). }
  cbn [Z.eqb]. do 4 f_equal. rewrite <- unlink_release_ok by done. unfold unlink_release. rewrite !Hz1.
  rewrite (for_loop_ext (fun k => release_zone m (zone i1 k))
    (fun k => release_zone m (zone (iget m d ino) k))) by (intros; by rewrite Hz1). done.
Qed.

(** C30: Unlinking a file whose last link this is removes the first entry of the name from the
    directory, so that the name is no longer found when it was entered once; it frees the
    inode and releases the direct zones, the entries of the single indirect block and that block,
    and no bit besides (so the zones of a double indirect block stay marked); the
    invariant holds afterwards, and no other name and no other file changes. *)
Theorem unlink_last_link d path parent leaf ino :
  fs_inv m d -> is_dir m d parent -> split_path m d path = Some (parent, leaf) ->
  dir_lookup m d parent leaf = Some ino -> live m d ino ->
  S_ISDIR (i_mode (iget m d ino)) = false -> i_nlinks (iget m d ino) <= 1 ->
  exists d', minixfs_unlink m d path = (0, d') /\ fs_inv m d' /\ ~ live m d' ino /\
    (forall n, 0 <= n < 8192 * s_zmap_blocks (sb m) -> zbit m d' n =
       if decide (nums (map (szone d (iget m d ino)) unlink_slots) n) then false else zbit m d n) /\
    named_entries leaf (dblocks d' (iget m d' parent)) = tail (named_entries leaf (dblocks d (iget m d parent))) /\
    (named_entries leaf (dblocks d (iget m d parent)) = [ino] -> dir_lookup m d' parent leaf = None) /\
    (forall name, ~ same_name leaf name -> dir_lookup m d' parent name = dir_lookup m d parent name) /\
    forall ino', live m d ino' -> ino' <> ino -> ino' <> parent -> live m d' ino' /\
      iget m d' ino' = iget m d ino' /\
      forall fb, 0 <= fb < MAX_FILE_BLOCKS -> fblock d' (iget m d' ino') fb = fblock d (iget m d ino') fb.
Proof.
  intros Hinv Hd Hsplit Hlook Hl Hnd Hnl.
  destruct (is_dir_blocks m d parent Hinv Hd) as [Hnb Hbs]. pose proof Hd as [Hlp Hmp Hsp].
  assert (parent <> ino) as Hpi by (intros ->; congruence).
  rewrite (unlink_runs d path parent leaf ino) by done.
  pose proof (free_file_ok d ino Hinv Hl) as [F1 F2 F3 F4]. set (d3 := free_inode m _ ino) in *.
  destruct (F4 parent Hlp) as [Hip Hfp].
  assert (dblocks d3 (iget m d3 parent) = dblocks d (iget m d parent)) as Hdb.
  { unfold dblocks, blocks_from. rewrite Hip at 2. apply map_range_ext. intros x Hx. apply Hfp. lia. }
  assert (live m d3 parent) as Hlp3 by (by apply F2).
  rewrite dir_lookup_scan in Hlook by done.
  destruct (dir_remove_ok m d3 parent leaf F1 Hlp3) as (r & d' & -> & Hpost); [by rewrite Hip|].
  rewrite Hdb, Hlook in Hpost. destruct Hpost as (_ & [P1 P2 P3 P4 P5 P6 P7] & Hzm). cbn [snd].
  exists d'. split_and!; [done|done|rewrite P2, F2; tauto|..].
  - intros n Hn. rewrite Hzm by done. by apply F3.
  - rewrite P6. by apply entries_remove.
  - intros Hone. rewrite dir_lookup_scan, P6; try done; [|by apply P2|by rewrite P4, Hip].
    rewrite scan_entries, entries_remove by done. by rewrite Hone.
  - intros name Hns. rewrite !dir_lookup_scan, P6; try done; [|by apply P2|by rewrite P4, Hip].
    by apply scan_remove_other.
  - intros ino' Hl' Hne Hnp. destruct (F4 ino' Hl') as [Hi Hf].
    assert (live m d3 ino') as Hl3 by (by apply F2). split_and!.
    + by apply P2.
    + rewrite P3 by (done || apply Hl'). done.
    + intros fb Hfb. rewrite P7 by done. by apply Hf.
Qed.
End free.

Section witnesses.
Import MinixDemo.

Definition path_a : list Z := slash :: name_a.

Lemma open_truncates_witness :
  exists d', minixfs_open demo_fs demo_disk path_a O_TRUNC 0 = (2, d') /\ truncated demo_fs demo_disk 2 d'.
Proof.
  apply (open_truncates demo_fs demo_disk path_a O_TRUNC 0 2);
    [apply demo_inv|vm_compute; reflexivity|apply demo_live; lia|vm_compute; reflexivity|discriminate].
Defined.

Lemma unlink_last_link_witness :
  exists d', minixfs_unlink demo_fs demo_disk path_a = (0, d') /\ fs_inv demo_fs d' /\
    ~ live demo_fs d' 2 /\
    (forall n, 0 <= n < 8192 * s_zmap_blocks (sb demo_fs) -> zbit demo_fs d' n =
       if decide (nums demo_fs (map (szone demo_disk (iget demo_fs demo_disk 2)) unlink_slots) n)
       then false else zbit demo_fs demo_disk n) /\
    named_entries name_a (dblocks d' (iget demo_fs d' 1)) = tail (named_entries name_a (dblocks demo_disk (iget demo_fs demo_disk 1))) /\
    (named_entries name_a (dblocks demo_disk (iget demo_fs demo_disk 1)) = [2] -> dir_lookup demo_fs d' 1 name_a = None) /\
    (forall name, ~ same_name name_a name ->
       dir_lookup demo_fs d' 1 name = dir_lookup demo_fs demo_disk 1 name) /\
    forall ino', live demo_fs demo_disk ino' -> ino' <> 2 -> ino' <> 1 -> live demo_fs d' ino' /\
      iget demo_fs d' ino' = iget demo_fs demo_disk ino' /\
      forall fb, 0 <= fb < MAX_FILE_BLOCKS ->
        fblock d' (iget demo_fs d' ino') fb = fblock demo_disk (iget demo_fs demo_disk ino') fb.
Proof.
  apply (unlink_last_link demo_fs demo_disk path_a 1 name_a 2);
    [apply demo_inv|apply demo_is_dir|vm_compute; reflexivity|vm_compute; reflexivity|apply demo_live; lia
    |vm_compute; reflexivity|vm_compute; congruence].
Defined.
End witnesses.
End MinixFree.
