(* ===== verification/Keyboard.v ===== *)
(** * The keyboard driver (kernel/drivers/keyboard.c)

    The state of the module is its ring buffer, the modifier flags and the foreground
    process; interrupting the foreground process works on the scheduler's state.  The
    interrupt handler is a function of the scan code it reads from the port. *)

From stdpp Require Import base list gmap numbers.
From S2P Require Import Prelude Sched.

#[local] Open Scope Z_scope.

Module Keyboard.
Import Sched.

Definition BUF_SIZE : Z := 256.

Definition map_lower : list Z :=
  [0; 27; 49; 50; 51; 52; 53; 54; 55; 56; 57; 48; 45; 61; 8;
   9; 113; 119; 101; 114; 116; 121; 117; 105; 111; 112; 91; 93; 10;
   0; 97; 115; 100; 102; 103; 104; 106; 107; 108; 59; 39; 96;
   0; 92; 122; 120; 99; 118; 98; 110; 109; 44; 46; 47; 0;
   42; 0; 32; 0] ++ replicate 69 0.

Definition map_upper : list Z :=
  [0; 27; 33; 64; 35; 36; 37; 94; 38; 42; 40; 41; 95; 43; 8;
   9; 81; 87; 69; 82; 84; 89; 85; 73; 79; 80; 123; 125; 10;
   0; 65; 83; 68; 70; 71; 72; 74; 75; 76; 58; 34; 126;
   0; 124; 90; 88; 67; 86; 66; 78; 77; 60; 62; 63; 0;
   42; 0; 32; 0] ++ replicate 69 0.

Record keyboard := Kbd {
  kbuf : list Z;
  khead : Z;
  ktail : Z;
  shift : bool;
  ctrl : bool;
  caps : bool;
  extended : bool;
  foreground : Z }.

Definition set_mods (sh ct ca ex : bool) (k : keyboard) : keyboard :=
  Kbd (kbuf k) (khead k) (ktail k) sh ct ca ex (foreground k).
Definition set_ring (b : list Z) (h t : Z) (k : keyboard) : keyboard :=
  Kbd b h t (shift k) (ctrl k) (caps k) (extended k) (foreground k).

(** [keyboard_init]: the statics; the port is drained as well. *)
Definition keyboard_init (buf : list Z) : keyboard := Kbd buf 0 0 false false false false 0.

Definition keyboard_set_foreground (p : Z) (k : keyboard) : keyboard :=
  Kbd (kbuf k) (khead k) (ktail k) (shift k) (ctrl k) (caps k) (extended k) p.

Definition keyboard_available (k : keyboard) : bool := negb (khead k =? ktail k).

Definition keyboard_getchar (k : keyboard) : Z * keyboard :=
  if khead k =? ktail k then (-1, k)
  else (lget 0 (kbuf k) (ktail k), set_ring (kbuf k) (khead k) ((ktail k + 1) mod BUF_SIZE) k).

Section handler.
Context {E : Type} `{KE : KEnv E}.
Implicit Types (k : keyboard) (s : sched E).

(** One round of the loop of [interrupt_foreground]. *)
Definition interrupt_slot (owner i : Z) (st : sched E * Z) : sched E * Z :=
  let '(s, killed) := st in
  let t := sched_find_slot i s in
  if (t =? 0) || negb (parent (get s t) =? owner) || (state (get s t) =? TASK_ZOMBIE) then (s, killed)
  else
    let s1 := upd (zombify 130) t s in
    (sched_wakeup_parent t s1, 1).

Definition interrupt_foreground k s : sched E * Z :=
  let owner := sched_find (foreground k) s in
  if owner =? 0 then (s, 0)
  else for_loop (interrupt_slot owner) 0 (Z.to_nat MAX_TASKS) (s, 0).

(** The part of [keyboard_enqueue] that stores a character. *)
Definition ring_put (c : Z) k : keyboard :=
  let next := (khead k + 1) mod BUF_SIZE in
  if negb (next =? ktail k) then set_ring (lset (kbuf k) (khead k) c) next (ktail k) k else k.

Definition keyboard_enqueue (c : Z) (st : keyboard * sched E) : keyboard * sched E :=
  let '(k, s) := st in
  if c =? 3 then
    let '(s1, killed) := interrupt_foreground k s in
    if negb (killed =? 0) then (k, s1) else (ring_put c k, s1)
  else (ring_put c k, s).

Definition enqueue_escape (code : Z) (st : keyboard * sched E) : keyboard * sched E :=
  keyboard_enqueue code (keyboard_enqueue 91 (keyboard_enqueue 27 st)).

Definition translate k (sc : Z) : Z :=
  let c := if xorb (shift k) (caps k) then lget 0 map_upper sc else lget 0 map_lower sc in
  if ctrl k && (65 <=? c) && (c <=? 90) then c - 65 + 1
  else if ctrl k && (97 <=? c) && (c <=? 122) then c - 97 + 1
  else c.

Definition kbd_handler (sc : Z) (st : keyboard * sched E) : keyboard * sched E :=
  let '(k, s) := st in
  if sc =? 224 then (set_mods (shift k) (ctrl k) (caps k) true k, s)
  else if negb (Z.land sc 128 =? 0) then
    let code := Z.land sc 127 in
    let sh := if (code =? 42) || (code =? 54) then false else shift k in
    let ct := if (code =? 42) || (code =? 54) then ctrl k else if code =? 29 then false else ctrl k in
    (set_mods sh ct (caps k) false k, s)
  else if extended k then
    let st1 := (set_mods (shift k) (ctrl k) (caps k) false k, s) in
    if sc =? 72 then enqueue_escape 65 st1
    else if sc =? 80 then enqueue_escape 66 st1
    else if sc =? 77 then enqueue_escape 67 st1
    else if sc =? 75 then enqueue_escape 68 st1
    else if sc =? 83 then keyboard_enqueue 126 (enqueue_escape 51 st1)
    else st1
  else if (sc =? 42) || (sc =? 54) then (set_mods true (ctrl k) (caps k) (extended k) k, s)
  else if sc =? 29 then (set_mods (shift k) true (caps k) (extended k) k, s)
  else if sc =? 58 then (set_mods (shift k) (ctrl k) (negb (caps k)) (extended k) k, s)
  else if 128 <=? sc then (k, s)
  else
    let c0 := if xorb (shift k) (caps k) then lget 0 map_upper sc else lget 0 map_lower sc in
    if c0 =? 0 then (k, s) else keyboard_enqueue (translate k sc) (k, s).
End handler.

(** ** The ring buffer *)

Record wf (k : keyboard) : Prop := {
  wf_len : lenZ (kbuf k) = 256;
  wf_head : 0 <= khead k < 256;
  wf_tail : 0 <= ktail k < 256 }.

Definition pending (k : keyboard) : Z := (khead k - ktail k) mod 256.

(** The characters waiting to be read, oldest first. *)
Definition contents (k : keyboard) : list Z :=
  map (fun i => lget 0 (kbuf k) ((ktail k + i) mod 256)) (range 0 (Z.to_nat (pending k))).

Lemma range_app n : forall b, range b (S n) = range b n ++ [b + Z.of_nat n].
Proof.
  induction n as [|n IH]; intros b; [cbn; by rewrite Z.add_0_r|].
  change (range b (S (S n))) with (b :: range (b + 1) (S n)). rewrite IH. cbn [range app].
  do 3 f_equal. lia.
Qed.

Lemma length_contents k : wf k -> lenZ (contents k) = pending k /\ 0 <= pending k < 256.
Proof.
  intros _. assert (0 <= pending k < 256) as Hp by (unfold pending; dlia). split; [|done].
  unfold contents, lenZ. rewrite length_map.
  assert (forall n b, length (range b n) = n) as Hr by (induction n; intros; cbn; auto). rewrite Hr. lia.
Qed.

Lemma ring_put_contents c k : wf k -> wf (ring_put c k) /\
  contents (ring_put c k) = if lenZ (contents k) <? 255 then contents k ++ [c] else contents k.
Proof.
  intros Hwf. destruct (length_contents k Hwf) as [-> Hp]. destruct Hwf as [Hl Hh Ht].
  unfold ring_put, BUF_SIZE. destruct (Z.eqb_spec ((khead k + 1) mod 256) (ktail k)) as [He|He]; cbn [negb].
  - split; [done|]. destruct (Z.ltb_spec (pending k) 255); [|done]. unfold pending in *. dlia.
  - split; [constructor; cbn; [by rewrite lenZ_lset|dlia|dlia]|].
    destruct (Z.ltb_spec (pending k) 255) as [Hlt|Hge]; [|exfalso; unfold pending in *; dlia].
    assert (pending (set_ring (lset (kbuf k) (khead k) c) ((khead k + 1) mod 256) (ktail k) k) = pending k + 1) as Hpd.
    { unfold pending in *. cbn. dlia. }
    unfold contents. rewrite Hpd. replace (Z.to_nat (pending k + 1)) with (S (Z.to_nat (pending k))) by lia.
    rewrite range_app, map_app. cbn [map kbuf ktail set_ring]. f_equal.
    + apply map_ext_in. intros i Hi. apply In_range in Hi. apply lget_lset_ne.
      unfold pending in *. dlia.
    + f_equal. replace ((ktail k + (0 + Z.of_nat (Z.to_nat (pending k)))) mod 256) with (khead k)
        by (unfold pending in *; dlia).
      apply lget_lset_eq. lia.
Qed.

Lemma getchar_contents k : wf k -> wf (snd (keyboard_getchar k)) /\
  match contents k with
  | [] => keyboard_getchar k = (-1, k)
  | c :: rest => fst (keyboard_getchar k) = c /\ contents (snd (keyboard_getchar k)) = rest
  end.
Proof.
  intros Hwf. pose proof (length_contents k Hwf) as [_ Hp]. destruct Hwf as [Hl Hh Ht].
  unfold keyboard_getchar, BUF_SIZE, contents. destruct (Z.eqb_spec (khead k) (ktail k)) as [He|He].
  - split; [done|]. replace (pending k) with 0 by (unfold pending; rewrite He, Z.sub_diag; done). done.
  - cbn [fst snd]. split; [constructor; cbn; [done|done|dlia]|].
    assert (1 <= pending k) as Hp1 by (unfold pending in *; dlia).
    replace (Z.to_nat (pending k)) with (S (Z.to_nat (pending k - 1))) by lia. cbn [range map].
    rewrite Z.add_0_r, Z.mod_small by lia. split; [done|].
    assert (pending (set_ring (kbuf k) (khead k) ((ktail k + 1) mod 256) k) = pending k - 1) as ->.
    { unfold pending in *. cbn. dlia. }
    cbn [kbuf ktail set_ring].
    assert (forall n b, map (fun i => lget 0 (kbuf k) (((ktail k + 1) mod 256 + i) mod 256)) (range b n) =
      map (fun i => lget 0 (kbuf k) ((ktail k + i) mod 256)) (range (b + 1) n)) as Hshift.
    { induction n as [|n IH]; intros b; cbn [range map]; [done|]. rewrite IH. do 2 f_equal.
      rewrite Z.add_mod_idemp_l by lia. f_equal. lia. }
    apply Hshift.
Qed.

(** The keyboard buffer is a queue of at most 255 characters: a character other
    than Ctrl-C is appended when there is room and dropped otherwise, and
    [keyboard_getchar] takes the oldest one, or returns -1 when there is none. *)
Theorem keyboard_fifo {E} `{KE : KEnv E} (c : Z) (k : keyboard) (s : sched E) :
  wf k -> c <> 3 ->
  (exists k', keyboard_enqueue c (k, s) = (k', s) /\ wf k' /\
    contents k' = if lenZ (contents k) <? 255 then contents k ++ [c] else contents k) /\
  wf (snd (keyboard_getchar k)) /\
  match contents k with
  | [] => keyboard_getchar k = (-1, k)
  | x :: rest => fst (keyboard_getchar k) = x /\ contents (snd (keyboard_getchar k)) = rest
  end.
Proof.
  intros Hwf Hc. split; [|by apply getchar_contents].
  unfold keyboard_enqueue. destruct (Z.eqb_spec c 3); [done|].
  eexists. split; [done|]. by apply ring_put_contents.
Qed.

(** ** Ctrl-C *)

Section interrupt.
Context {E : Type} `{KE : KEnv E}.
Implicit Types (s : sched E) (k : keyboard).

(** The tasks that Ctrl-C kills: live children of the foreground process. *)
Definition victim s (owner x : Z) : bool :=
  (parent (get s x) =? owner) && negb (state (get s x) =? TASK_ZOMBIE).

Definition in_slots s (n : Z) (x : Z) : Prop := exists i, 0 <= i < n /\ lget 0 (tasks s) i = x.

Definition woken (t : task) : task :=
  if (state t =? TASK_BLOCKED) && waiting t then set_state TASK_READY (set_waiting false t) else t.

(** The state after the first [n] slots. *)
Record interrupted s (owner n : Z) (s' : sched E) (killed : Z) : Prop := {
  in_tasks : tasks s' = tasks s;
  in_others : forall x, x <> owner -> ~ (in_slots s n x /\ victim s owner x = true) -> get s' x = get s x;
  in_killed : forall x, x <> 0 -> x <> owner -> in_slots s n x -> victim s owner x = true ->
    get s' x = zombify 130 (get s x);
  in_result : killed = 0 \/ killed = 1;
  in_none : killed = 0 -> s' = s /\ forall x, x <> 0 -> in_slots s n x -> victim s owner x = false;
  in_owner : killed = 1 -> get s' owner = woken (get s owner) }.

Lemma sched_find_slot_get i s : 0 <= i < 64 -> sched_find_slot i s = lget 0 (tasks s) i.
Proof.
  intros Hi. unfold sched_find_slot, MAX_TASKS.
  destruct (Z.ltb_spec i 0), (Z.leb_spec 64 i); cbn [orb]; done || lia.
Qed.

Lemma tasks_upd f p s : tasks (upd f p s) = tasks s.
Proof. done. Qed.

Lemma kb_wakeup_get t s x : get (sched_wakeup_parent t s) x =
  if (x =? parent (get s t)) && negb (parent (get s t) =? 0) then woken (get s x) else get s x.
Proof.
  unfold sched_wakeup_parent, woken. destruct (Z.eqb_spec (parent (get s t)) 0) as [Hz|Hz]; cbn [negb andb].
  - by rewrite andb_false_r.
  - rewrite andb_true_r. destruct (Z.eqb_spec x (parent (get s t))) as [->|Hne].
    + destruct ((state (get s (parent (get s t))) =? TASK_BLOCKED) && waiting (get s (parent (get s t)))); [|done].
      rewrite get_upd, Z.eqb_refl. done.
    + destruct (_ && _); [|done]. rewrite get_upd. destruct (Z.eqb_spec (parent (get s t)) x); congruence.
Qed.

Lemma tasks_wakeup t s : tasks (sched_wakeup_parent t s) = tasks s.
Proof. unfold sched_wakeup_parent. by destruct (_ && _ && _). Qed.

Lemma woken_idem t : woken (woken t) = woken t.
Proof.
  unfold woken. destruct ((state t =? TASK_BLOCKED) && waiting t) eqn:Hc; [|by rewrite Hc]. done.
Qed.

Lemma in_slots_step s n x : in_slots s (n + 1) x <-> in_slots s n x \/ (0 <= n /\ lget 0 (tasks s) n = x).
Proof.
  unfold in_slots. split.
  - intros (i & Hi & Hx). destruct (decide (i = n)) as [->|]; [right; lia|left; exists i; split; [lia|done]].
  - intros [(i & Hi & Hx)|[Hn Hx]]; [exists i|exists n]; split; lia.
Qed.

Lemma victim_spec s owner x : victim s owner x = true <-> parent (get s x) = owner /\ state (get s x) <> TASK_ZOMBIE.
Proof. unfold victim. by rewrite andb_true_iff, negb_true_iff, Z.eqb_eq, Z.eqb_neq. Qed.

(** A slot that is skipped. *)
Lemma interrupted_skip s owner n s' killed : 0 <= n -> interrupted s owner n s' killed ->
  (lget 0 (tasks s) n = 0 \/ lget 0 (tasks s) n = owner /\ victim s owner owner = false \/
   (in_slots s n (lget 0 (tasks s) n)) \/ victim s owner (lget 0 (tasks s) n) = false) ->
  interrupted s owner (n + 1) s' killed.
Proof.
  intros Hn [I1 I2 I3 I4 I5 I6] Hskip. constructor; try done.
  - intros x Hx Hno. apply I2; [done|]. intros [Hin Hv]. apply Hno. split; [|done].
    apply in_slots_step. by left.
  - intros x Hx0 Hx Hin Hv. apply in_slots_step in Hin as [Hin|[_ <-]]; [by apply I3|].
    destruct Hskip as [?|[[? _]|[?|Hv']]]; [done|done|by apply I3|congruence].
  - intros Hk. destruct (I5 Hk) as [-> Hall]. split; [done|]. intros x Hx0 Hin.
    apply in_slots_step in Hin as [Hin|[_ <-]]; [by apply Hall|].
    destruct Hskip as [?|[[-> ?]|[?|?]]]; [done|done|by apply Hall|done].
Qed.

Lemma woken_parent t : parent (woken t) = parent t.
Proof. unfold woken. by destruct (_ && _). Qed.

Lemma interrupted_step s owner n s' killed : owner <> 0 -> parent (get s owner) <> owner ->
  0 <= n < 64 -> interrupted s owner n s' killed ->
  let '(s2, killed2) := interrupt_slot owner n (s', killed) in interrupted s owner (n + 1) s2 killed2.
Proof.
  intros Ho Hpo Hn I. pose proof I as [I1 I2 I3 I4 I5 I6]. unfold interrupt_slot.
  rewrite sched_find_slot_get by done. rewrite I1. set (t := lget 0 (tasks s) n).
  assert (parent (get s' owner) = parent (get s owner)) as Hparent.
  { destruct I4 as [Hk|Hk]; [by destruct (I5 Hk) as [-> _]|]. by rewrite (I6 Hk), woken_parent. }
  destruct (Z.eqb_spec t 0) as [Ht|Ht]; cbn [orb]; [apply interrupted_skip; [lia|done|by left]|].
  destruct (decide (t = owner)) as [Hto|Hto].
  { destruct (Z.eqb_spec (parent (get s' t)) owner) as [Hp|Hp].
    - exfalso. apply Hpo. rewrite Hto in Hp. congruence.
    - cbn [negb orb]. apply interrupted_skip; [lia|done|]. right; left. split; [done|].
      unfold victim. destruct (Z.eqb_spec (parent (get s owner)) owner); done. }
  destruct (victim s owner t) eqn:Hv.
  2:{ rewrite (I2 t) by (try done; intros [_ ?]; congruence).
      assert (negb (parent (get s t) =? owner) || (state (get s t) =? TASK_ZOMBIE) = true) as ->.
      { unfold victim in Hv. by destruct (parent (get s t) =? owner), (state (get s t) =? TASK_ZOMBIE). }
      apply interrupted_skip; [lia|done|]. by do 3 right. }
  pose proof Hv as Hv0. apply victim_spec in Hv0 as [Hpar Hst].
  destruct (decide (Exists (fun i => lget 0 (tasks s) i = t) (range 0 (Z.to_nat n)))) as [Hin|Hnin].
  { assert (in_slots s n t) as His.
    { apply List.Exists_exists in Hin as (i & Hi & Hit). apply In_range in Hi. exists i. split; [lia|done]. }
    rewrite (I3 t) by done. cbn [zombify set_state state]. rewrite orb_true_r.
    apply interrupted_skip; [lia|done|]. right; right; by left. }
  assert (~ in_slots s n t) as His.
  { intros (i & Hi & Hit). apply Hnin. apply List.Exists_exists. exists i. split; [apply In_range; lia|done]. }
  assert (get s' t = get s t) as Hgt by (apply I2; [done|intros [? _]; done]).
  rewrite Hgt, Hpar, Z.eqb_refl. destruct (Z.eqb_spec (state (get s t)) TASK_ZOMBIE); [done|]. cbn [negb orb].
  assert (forall x, get (sched_wakeup_parent t (upd (zombify 130) t s')) x =
    if x =? owner then woken (get s' owner) else if x =? t then zombify 130 (get s t) else get s' x) as Hget.
  { intros x. rewrite kb_wakeup_get, !get_upd, Z.eqb_refl, Hgt. cbn [zombify set_state set_exit_code parent].
    rewrite Hpar. destruct (Z.eqb_spec owner 0); [done|]. cbn [negb]. rewrite andb_true_r, (Z.eqb_sym t x).
    destruct (Z.eqb_spec x owner) as [->|]; [|done].
    destruct (Z.eqb_spec owner t); [congruence|done]. }
  constructor.
  - by rewrite tasks_wakeup.
  - intros x Hx Hno. rewrite Hget. destruct (Z.eqb_spec x owner); [done|].
    destruct (Z.eqb_spec x t) as [->|Hxt].
    + exfalso. apply Hno. split; [|done]. apply in_slots_step. right. split; [lia|done].
    + apply I2; [done|]. intros [Hin Hvx]. apply Hno. split; [|done]. apply in_slots_step. by left.
  - intros x Hx0 Hx Hin Hvx. rewrite Hget. destruct (Z.eqb_spec x owner); [done|].
    destruct (Z.eqb_spec x t) as [->|Hxt]; [done|].
    apply in_slots_step in Hin as [Hin|[_ Hx']]; [by apply I3|]. by destruct Hxt.
  - by right.
  - done.
  - intros _. rewrite Hget, Z.eqb_refl. destruct I4 as [Hk|Hk].
    + by destruct (I5 Hk) as [-> _].
    + by rewrite (I6 Hk), woken_idem.
Qed.

(** Ctrl-C kills exactly the live children of the foreground process: each becomes
    a zombie with exit status 130, the process is woken if it was waiting for a child,
    no other task changes and the character is swallowed; when there is no such child
    nothing happens to the tasks and the character is queued like any other. *)
Theorem ctrl_c_interrupts k s owner :
  sched_find (foreground k) s = owner -> owner <> 0 -> parent (get s owner) <> owner ->
  exists s' killed, interrupt_foreground k s = (s', killed) /\ interrupted s owner 64 s' killed /\
    keyboard_enqueue 3 (k, s) = if killed =? 0 then (ring_put 3 k, s) else (k, s').
Proof.
  intros Hf Ho Hpo. unfold keyboard_enqueue. change (3 =? 3) with true.
  destruct (interrupt_foreground k s) as [s' killed] eqn:Hi. exists s', killed. split; [done|].
  assert (interrupted s owner 64 s' killed) as I.
  { unfold interrupt_foreground in Hi. rewrite Hf in Hi. destruct (Z.eqb_spec owner 0); [done|].
    pose proof (for_loop_ind (fun n st => interrupted s owner n (fst st) (snd st)) (interrupt_slot owner)
      0 (Z.to_nat MAX_TASKS) (s, 0)) as Hind. cbn beta in Hind. rewrite Hi in Hind. cbn [fst snd] in Hind.
    apply Hind.
    - constructor; cbn [fst snd].
      + done.
      + done.
      + intros x Hx0 Hx (i & Hi' & _). lia.
      + by left.
      + intros _. split; [done|]. intros x _ (i & Hi' & _). lia.
      + done.
    - intros i [s1 k1] Hr I1. cbn [fst snd] in *.
      pose proof (interrupted_step s owner i s1 k1 Ho Hpo) as Hst.
      unfold MAX_TASKS in Hr. specialize (Hst ltac:(lia) I1).
      destruct (interrupt_slot owner i (s1, k1)) as [s2 k2]. done. }
  split; [done|]. destruct (Z.eqb_spec killed 0) as [Hk|Hk]; cbn [negb]; [|done].
  by destruct (in_none _ _ _ _ _ I Hk) as [-> _].
Qed.

(** Keys and modifiers.  The digit keys are shifted by Caps Lock as well. *)
Theorem caps_lock_shifts_digits (k : keyboard) s :
  extended k = false -> shift k = false -> ctrl k = false -> caps k = true ->
  kbd_handler 2 (k, s) = keyboard_enqueue 33 (k, s).
Proof.
  intros He Hs Hc Ha. unfold kbd_handler. rewrite He. cbn [Z.eqb Z.land Z.leb Z.compare negb orb].
  unfold translate. rewrite Hs, Hc, Ha. done.
Qed.
End interrupt.

Section witnesses.

#[local] Existing Instance bump_env.

(** Process 1 waits for its child, process 2, which is the third task's parent. *)
Definition kb_shell : task := set_waiting true (set_state TASK_BLOCKED (Task 1 0 [] 0 0 0 0 0 0 0 0 0 [] [] 0 false false 0 0 0 false false)).
Definition kb_child : task := Task 2 1 [] TASK_READY 0 0 0 0 0 0 0 0 [] [] 100 false false 0 0 0 false false.
Definition kb_sched : sched Z :=
  MkSched {[ 100 := kb_shell; 200 := kb_child ]} ([100; 200] ++ replicate 62 0) 200 0 3 true 0.
Definition kb_state : keyboard := keyboard_set_foreground 1 (keyboard_init (replicate 256 0)).

Lemma kb_state_wf : wf kb_state.
Proof. constructor; cbn; lia || done. Qed.

Lemma keyboard_fifo_witness :
  (exists k', keyboard_enqueue 97 (kb_state, kb_sched) = (k', kb_sched) /\ wf k' /\
    contents k' = if lenZ (contents kb_state) <? 255 then contents kb_state ++ [97] else contents kb_state) /\
  wf (snd (keyboard_getchar kb_state)) /\
  match contents kb_state with
  | [] => keyboard_getchar kb_state = (-1, kb_state)
  | x :: rest => fst (keyboard_getchar kb_state) = x /\ contents (snd (keyboard_getchar kb_state)) = rest
  end.
Proof. apply (keyboard_fifo 97 kb_state kb_sched); [apply kb_state_wf|lia]. Defined.

Lemma ctrl_c_interrupts_witness :
  exists s' killed, interrupt_foreground kb_state kb_sched = (s', killed) /\
    interrupted kb_sched 100 64 s' killed /\
    keyboard_enqueue 3 (kb_state, kb_sched) = if killed =? 0 then (ring_put 3 kb_state, kb_sched) else (kb_state, s').
Proof.
  apply (ctrl_c_interrupts kb_state kb_sched 100); [vm_compute; reflexivity|lia|vm_compute; discriminate].
Defined.

(** In this state the child is killed. *)
Example ctrl_c_kills : snd (interrupt_foreground kb_state kb_sched) = 1.
Proof. vm_compute. reflexivity. Qed.
End witnesses.
End Keyboard.
