(* ===== verification/Console.v ===== *)
(** * The text console (kernel/drivers/vga.c)

    The screen is the array of 80 x 25 cells, with the cursor, the colour and the
    state of the escape-sequence parser.  [oob] records whether a store outside the
    screen has happened, [serial] the characters sent to the serial port and
    [hw_cursor] the position last written to the cursor registers.  Characters are
    bytes. *)

From stdpp Require Import base list numbers.
From S2P Require Import Prelude.

#[local] Open Scope Z_scope.

Module Console.

Definition VGA_COLS : Z := 80.
Definition VGA_ROWS : Z := 25.

Record console := Cons {
  vga : list Z;
  cur_row : Z;
  cur_col : Z;
  color : Z;
  esc_state : Z;
  esc_a : Z;
  esc_b : Z;
  esc_second : bool;
  oob : bool;
  serial : list Z;
  hw_cursor : Z }.

Definition set_cell (i v : Z) (s : console) : console :=
  Cons (lset (vga s) i v) (cur_row s) (cur_col s) (color s) (esc_state s) (esc_a s) (esc_b s)
    (esc_second s) (oob s || negb ((0 <=? i) && (i <? lenZ (vga s)))) (serial s) (hw_cursor s).
Definition set_pos (r c : Z) (s : console) : console :=
  Cons (vga s) r c (color s) (esc_state s) (esc_a s) (esc_b s) (esc_second s) (oob s) (serial s) (hw_cursor s).
Definition set_color (v : Z) (s : console) : console :=
  Cons (vga s) (cur_row s) (cur_col s) v (esc_state s) (esc_a s) (esc_b s) (esc_second s) (oob s)
    (serial s) (hw_cursor s).
Definition set_esc (st a b : Z) (second : bool) (s : console) : console :=
  Cons (vga s) (cur_row s) (cur_col s) (color s) st a b second (oob s) (serial s) (hw_cursor s).

Definition update_cursor (s : console) : console :=
  let pos := u16 (cur_row s * VGA_COLS + cur_col s) in
  Cons (vga s) (cur_row s) (cur_col s) (color s) (esc_state s) (esc_a s) (esc_b s) (esc_second s)
    (oob s) (serial s) pos.

Definition blank (s : console) : Z := Z.lor (u16 (Z.shiftl (color s) 8)) 32.

(** The row copies of [scroll], in the order of the two loops. *)
Definition copy_cell (i : Z) (s : console) : console := set_cell (i - VGA_COLS) (lget 0 (vga s) i) s.

Definition scroll (s : console) : console :=
  if cur_row s <? VGA_ROWS then s
  else
    let s1 := for_loop copy_cell VGA_COLS (Z.to_nat (VGA_COLS * (VGA_ROWS - 1))) s in
    let s2 := for_loop (fun c t => set_cell ((VGA_ROWS - 1) * VGA_COLS + c) (blank t) t)
                0 (Z.to_nat VGA_COLS) s1 in
    set_pos (VGA_ROWS - 1) (cur_col s2) s2.

Definition console_set_color (fg bg : Z) (s : console) : console :=
  set_color (u8 (Z.lor (Z.shiftl bg 4) (Z.land fg 15))) s.

Definition console_clear (s : console) : console :=
  let s1 := for_loop (fun i t => set_cell i (blank t) t) 0 (Z.to_nat (VGA_COLS * VGA_ROWS)) s in
  update_cursor (set_pos 0 0 s1).

Definition console_init (s : console) : console := console_clear (set_color 7 s).

Definition serial_put (c : Z) (s : console) : console :=
  Cons (vga s) (cur_row s) (cur_col s) (color s) (esc_state s) (esc_a s) (esc_b s) (esc_second s)
    (oob s) (serial s ++ [c]) (hw_cursor s).

(** The command that ends an escape sequence. *)
Definition esc_command (c : Z) (s : console) : console :=
  if (c =? 72) || (c =? 102) then
    let r := u8 (if 0 <? esc_a s then esc_a s - 1 else 0) in
    let k := u8 (if 0 <? esc_b s then esc_b s - 1 else 0) in
    set_pos (if VGA_ROWS <=? r then VGA_ROWS - 1 else r) (if VGA_COLS <=? k then VGA_COLS - 1 else k) s
  else if (c =? 74) && (esc_a s =? 2) then console_clear s
  else if c =? 75 then
    for_loop (fun x t => set_cell (cur_row t * VGA_COLS + x) (blank t) t)
      (cur_col s) (Z.to_nat (VGA_COLS - cur_col s)) s
  else if c =? 109 then set_color (if esc_a s =? 7 then 112 else 7) s
  else s.

(** The part of [console_putc] after the escape parser. *)
Definition put_plain (c : Z) (s : console) : console :=
  let s1 :=
    if c =? 10 then set_pos (u8 (cur_row s + 1)) 0 s
    else if c =? 13 then set_pos (cur_row s) 0 s
    else if c =? 9 then set_pos (cur_row s) (u8 (Z.land (cur_col s + 8) (not32 7))) s
    else if c =? 8 then
      if 0 <? cur_col s then
        let t := set_pos (cur_row s) (cur_col s - 1) s in
        set_cell (cur_row t * VGA_COLS + cur_col t) (blank t) t
      else s
    else
      let t := set_cell (cur_row s * VGA_COLS + cur_col s) (Z.lor (u16 (Z.shiftl (color s) 8)) c) s in
      set_pos (cur_row t) (u8 (cur_col t + 1)) t in
  let s2 := if VGA_COLS <=? cur_col s1 then set_pos (u8 (cur_row s1 + 1)) 0 s1 else s1 in
  update_cursor (scroll s2).

Definition console_putc (c : Z) (s0 : console) : console :=
  let s := serial_put c s0 in
  if (esc_state s =? 0) && (c =? 27) then set_esc 1 0 0 false s
  else if (esc_state s =? 1) && (c =? 91) then set_esc 2 (esc_a s) (esc_b s) (esc_second s) s
  else
    let s := if esc_state s =? 1 then set_esc 0 (esc_a s) (esc_b s) (esc_second s) s else s in
    if esc_state s =? 2 then
      if c =? 63 then s
      else if (48 <=? c) && (c <=? 57) then
        if esc_second s then set_esc 2 (esc_a s) (i32 (esc_b s * 10 + c - 48)) true s
        else set_esc 2 (i32 (esc_a s * 10 + c - 48)) (esc_b s) false s
      else if c =? 59 then set_esc 2 (esc_a s) (esc_b s) true s
      else
        let t := esc_command c s in
        update_cursor (set_esc 0 (esc_a t) (esc_b t) (esc_second t) t)
    else put_plain c s.

Definition console_puts (l : list Z) (s : console) : console := fold_left (fun t c => console_putc c t) l s.

(** ** Numbers *)

Definition digit_char (d : Z) : Z := if d <? 10 then 48 + d else 97 + d - 10.

(** The digit loop: the characters stored in [buf], least significant first. *)
Fixpoint digits (fuel : nat) (value base : Z) : list Z :=
  match fuel with
  | O => []
  | S f => if value =? 0 then [] else digit_char (value mod base) :: digits f (value / base) base
  end.

(** The characters printed, in order; [value] is an unsigned 32-bit value. *)
Definition num_chars (value base : Z) (sign : bool) (width pad : Z) : list Z :=
  let neg := sign && (i32 value <? 0) in
  let v := if neg then u32 (- i32 value) else value in
  let b0 := if v =? 0 then [48] else digits 32 v base in
  let b1 := if neg then b0 ++ [45] else b0 in
  let b2 := b1 ++ replicate (Z.to_nat (width - lenZ b1)) pad in
  rev b2.

Definition print_num (value base : Z) (sign : bool) (width pad : Z) (s : console) : console :=
  console_puts (num_chars value base sign width pad) s.

(** Arguments of [console_printf]: machine words, or strings. *)
Inductive arg := AWord (v : Z) | AStr (p : option (list Z)).

Definition word_of (a : arg) : Z := match a with AWord v => v | AStr _ => 0 end.
Definition str_of (a : arg) : list Z :=
  match a with
  | AStr (Some l) => l
  | _ => [40; 110; 117; 108; 108; 41]
  end.

Fixpoint scan_width (fmt : list Z) (w : Z) : Z * list Z :=
  match fmt with
  | c :: f => if (48 <=? c) && (c <=? 57) then scan_width f (i32 (w * 10 + (c - 48))) else (w, fmt)
  | [] => (w, [])
  end.

(** The characters that [console_printf] prints. *)
Fixpoint format (fuel : nat) (fmt : list Z) (args : list arg) : list Z :=
  match fuel with
  | O => []
  | S f =>
      match fmt with
      | [] => []
      | c :: rest =>
          if negb (c =? 37) then c :: format f rest args
          else
            let '(pad, fmt1) := match rest with 48 :: r => (48, r) | _ => (32, rest) end in
            let '(width, fmt2) := scan_width fmt1 0 in
            let a := List.hd (AWord 0) args in
            let as' := List.tl args in
            match fmt2 with
            | [] => [37; 0]
            | k :: fmt3 =>
                if (k =? 100) || (k =? 105) then
                  num_chars (u32 (word_of a)) 10 true width pad ++ format f fmt3 as'
                else if k =? 117 then num_chars (u32 (word_of a)) 10 false width pad ++ format f fmt3 as'
                else if k =? 120 then num_chars (u32 (word_of a)) 16 false width pad ++ format f fmt3 as'
                else if k =? 112 then
                  [48; 120] ++ num_chars (u32 (word_of a)) 16 false 8 48 ++ format f fmt3 as'
                else if k =? 99 then u8 (word_of a) :: format f fmt3 as'
                else if k =? 115 then str_of a ++ format f fmt3 as'
                else if k =? 37 then 37 :: format f fmt3 args
                else 37 :: k :: format f fmt3 args
            end
      end
  end.

Definition console_printf (fmt : list Z) (args : list arg) (s : console) : console :=
  console_puts (format (S (length fmt)) fmt args) s.

(** ** The cursor stays on the screen *)

Record wf (s : console) : Prop := {
  wf_vga : lenZ (vga s) = 2000;
  wf_row : 0 <= cur_row s < 25;
  wf_col : 0 <= cur_col s < 80;
  wf_oob : oob s = false }.

(** The screen without constraints on the cursor. *)
Definition safe (s : console) : Prop := lenZ (vga s) = 2000 /\ oob s = false.

Lemma set_cell_safe i v s : safe s -> 0 <= i < 2000 -> safe (set_cell i v s) /\
  cur_row (set_cell i v s) = cur_row s /\ cur_col (set_cell i v s) = cur_col s.
Proof.
  intros [Hl Ho] Hi. unfold safe, set_cell. cbn [vga oob cur_row cur_col].
  rewrite lenZ_lset, Ho, Hl. split_and!; try done.
  destruct (Z.leb_spec 0 i), (Z.ltb_spec i 2000); lia || done.
Qed.

(** A loop of stores inside the screen. *)
Lemma cells_safe f start n s : safe s ->
  (forall i t, start <= i < start + Z.of_nat n -> safe t -> cur_row t = cur_row s -> cur_col t = cur_col s ->
    safe (f i t) /\ cur_row (f i t) = cur_row t /\ cur_col (f i t) = cur_col t) ->
  exists t, for_loop f start n s = t /\ safe t /\ cur_row t = cur_row s /\ cur_col t = cur_col s.
Proof.
  intros Hs Hf. eexists. split; [reflexivity|]. apply (for_loop_ind (fun _ t => safe t /\ cur_row t = cur_row s /\ cur_col t = cur_col s)); [done|].
  intros i t Hi (Ht & Hr & Hc). destruct (Hf i t Hi Ht Hr Hc) as (H1 & H2 & H3). split_and!; [done|congruence|congruence].
Qed.

Lemma scroll_wf s : safe s -> 0 <= cur_row s <= 25 -> 0 <= cur_col s < 80 -> wf (scroll s).
Proof.
  intros Hs Hr Hc. unfold scroll, VGA_ROWS, VGA_COLS.
  destruct (Z.ltb_spec (cur_row s) 25) as [Hlt|Hge]; [destruct Hs; constructor; done || lia|].
  destruct (cells_safe copy_cell 80 (Z.to_nat (80 * (25 - 1))) s Hs) as (s1 & -> & Hs1 & Hr1 & Hc1).
  { intros i t Hi Ht _ _. apply set_cell_safe; [done|unfold VGA_COLS; lia]. }
  edestruct (cells_safe (fun c t => set_cell ((25 - 1) * 80 + c) (blank t) t) 0 (Z.to_nat 80) s1 Hs1)
    as (s2 & -> & [] & Hr2 & Hc2).
  { intros i t Hi Ht _ _. apply set_cell_safe; [done|lia]. }
  constructor; cbn; try done; lia.
Qed.

Lemma clear_wf s : safe s -> wf (console_clear s).
Proof.
  intros Hs. unfold console_clear, VGA_ROWS, VGA_COLS.
  destruct (cells_safe (fun i t => set_cell i (blank t) t) 0 (Z.to_nat (80 * 25)) s Hs)
    as (s2 & -> & [] & _ & _).
  { intros i t Hi Ht _ _. apply set_cell_safe; [done|lia]. }
  constructor; cbn; done || lia.
Qed.

Lemma wf_safe s : wf s -> safe s.
Proof. by intros []. Qed.

Lemma wf_ext s t : wf s -> vga t = vga s -> cur_row t = cur_row s -> cur_col t = cur_col s -> oob t = oob s -> wf t.
Proof. intros [] E1 E2 E3 E4. constructor; congruence. Qed.

Lemma esc_command_wf c s : wf s -> wf (esc_command c s).
Proof.
  intros Hwf. pose proof Hwf as [Hv Hr Hc Ho]. unfold esc_command, VGA_ROWS, VGA_COLS.
  destruct (_ || _).
  - constructor; cbn; try done.
    + pose proof (u8_range (if 0 <? esc_a s then esc_a s - 1 else 0)) as Hu. unfold is_u8 in Hu.
      destruct (Z.leb_spec 25 (u8 (if 0 <? esc_a s then esc_a s - 1 else 0))); lia.
    + pose proof (u8_range (if 0 <? esc_b s then esc_b s - 1 else 0)) as Hu. unfold is_u8 in Hu.
      destruct (Z.leb_spec 80 (u8 (if 0 <? esc_b s then esc_b s - 1 else 0))); lia.
  - destruct (_ && _); [apply clear_wf; by apply wf_safe|]. destruct (c =? 75).
    + destruct (cells_safe (fun x t => set_cell (cur_row t * 80 + x) (blank t) t)
        (cur_col s) (Z.to_nat (80 - cur_col s)) s (wf_safe s Hwf)) as (s2 & -> & [] & Hr2 & Hc2).
      { intros i t Hi Ht Hrt Hct. apply set_cell_safe; [done|]. rewrite Hrt. lia. }
      constructor; done || lia.
    + destruct (c =? 109); [by eapply wf_ext|done].
Qed.

Lemma put_plain_wf c s : wf s -> wf (put_plain c s).
Proof.
  intros Hwf. pose proof Hwf as [Hv Hr Hc Ho]. pose proof (wf_safe s Hwf) as Hs. unfold put_plain.
  assert (forall t, safe t -> 0 <= cur_row t <= 25 -> 0 <= cur_col t <= 80 ->
    (cur_row t = 25 -> cur_col t = 0) ->
    wf (update_cursor (scroll (if VGA_COLS <=? cur_col t then set_pos (u8 (cur_row t + 1)) 0 t else t)))) as Hfin.
  { intros t Ht Htr Htc H25. unfold VGA_COLS. destruct (Z.leb_spec 80 (cur_col t)).
    - eapply wf_ext; [apply (scroll_wf (set_pos (u8 (cur_row t + 1)) 0 t)); cbn; [done|dlia|lia]|done..].
    - eapply wf_ext; [apply (scroll_wf t); [done|lia|lia]|done..]. }
  apply Hfin.
  - destruct (c =? 10); [done|]. destruct (c =? 13); [done|]. destruct (c =? 9); [done|]. destruct (c =? 8).
    + destruct (Z.ltb_spec 0 (cur_col s)); [|done]. apply set_cell_safe; [done|]. cbn. unfold VGA_COLS. lia.
    + cbv zeta. apply (set_cell_safe (cur_row s * VGA_COLS + cur_col s) _ s Hs). unfold VGA_COLS. lia.
  - destruct (c =? 10); [cbn; dlia|]. destruct (c =? 13); [cbn; lia|]. destruct (c =? 9); [cbn; lia|].
    destruct (c =? 8); [destruct (0 <? cur_col s); cbn; lia|cbn; lia].
  - destruct (c =? 10); [cbn; lia|]. destruct (c =? 13); [cbn; lia|]. destruct (c =? 9).
    + cbn. change 7 with (Z.ones 3). rewrite mask_low by (try (unfold is_u32; lia); lia).
      change (2 ^ 3) with 8. dlia.
    + destruct (c =? 8); [destruct (Z.ltb_spec 0 (cur_col s)); cbn; lia|cbn; dlia].
  - destruct (c =? 10); [done|]. destruct (c =? 13); [done|]. destruct (c =? 9); [cbn; lia|].
    destruct (c =? 8); [destruct (0 <? cur_col s); cbn; lia|cbn; lia].
Qed.

(** C40: Whatever is printed, escape sequences included, the cursor stays on the 80 x 25
    screen and no store falls outside the video memory. *)
Theorem console_putc_in_bounds c s : wf s -> wf (console_putc c s).
Proof.
  intros Hwf. assert (wf (serial_put c s)) as Hs by (by eapply wf_ext).
  unfold console_putc. set (t := serial_put c s) in *. clearbody t. clear s Hwf.
  destruct (_ && _); [by eapply wf_ext|]. destruct (_ && _); [by eapply wf_ext|].
  set (u := if esc_state t =? 1 then _ else t).
  assert (wf u) as Hu by (unfold u; destruct (esc_state t =? 1); [by eapply wf_ext|done]). clearbody u.
  destruct (esc_state u =? 2); [|by apply put_plain_wf].
  destruct (c =? 63); [done|]. destruct (_ && _); [destruct (esc_second u); by eapply wf_ext|].
  destruct (c =? 59); [by eapply wf_ext|]. eapply wf_ext; [by apply (esc_command_wf c u)|done..].
Qed.

Definition blank_screen : console := Cons (replicate 2000 32) 24 79 7 0 0 0 false false [] 0.

Lemma blank_screen_wf : wf blank_screen.
Proof. constructor; [reflexivity|cbn; lia|cbn; lia|reflexivity]. Qed.

Lemma console_putc_in_bounds_witness : wf (console_putc 65 blank_screen).
Proof. apply (console_putc_in_bounds 65 blank_screen). apply blank_screen_wf. Defined.

(** ** Printed numbers read back *)

Definition char_digit (c : Z) : Z := if c <? 58 then c - 48 else c - 97 + 10.

Fixpoint read_rev (base : Z) (l : list Z) : Z :=
  match l with
  | [] => 0
  | c :: l' => char_digit c + base * read_rev base l'
  end.

Lemma char_digit_char d : 0 <= d < 16 -> char_digit (digit_char d) = d.
Proof. intros H. unfold char_digit, digit_char. destruct (Z.ltb_spec d 10); bcase; lia. Qed.

Lemma digits_read base fuel : 2 <= base <= 16 -> forall v, 0 <= v < 2 ^ Z.of_nat fuel ->
  read_rev base (digits fuel v base) = v.
Proof.
  intros Hb. induction fuel as [|f IH]; intros v Hv; cbn [digits].
  - cbn in *. lia.
  - destruct (Z.eqb_spec v 0) as [->|Hne]; [done|]. cbn [read_rev].
    rewrite char_digit_char by (pose proof (Z.mod_pos_bound v base); lia).
    rewrite IH.
    + pose proof (Z.div_mod v base). lia.
    + rewrite Nat2Z.inj_succ, Z.pow_succ_r in Hv by lia.
      split; [apply Z.div_pos; lia|]. apply Z.div_lt_upper_bound; [lia|]. nia.
Qed.

(** [print_num] prints a 32-bit value as its digits, most significant first: read
    back in the base they give the value, in decimal and in hexadecimal; a negative
    value printed as signed is a minus sign and the digits of its absolute value. *)
Theorem print_num_reads_back v base pad : is_u32 v -> base = 10 \/ base = 16 ->
  read_rev base (rev (num_chars v base false 0 pad)) = v /\
  num_chars v base true 0 pad =
    if i32 v <? 0 then 45 :: num_chars (u32 (- i32 v)) base false 0 pad else num_chars v base false 0 pad.
Proof.
  intros Hv Hb.
  assert (forall (l : list Z), Z.to_nat (0 - lenZ l) = O) as Hpad by (intros l; pose proof (lenZ_nonneg l); lia).
  split.
  - unfold num_chars. cbn [andb]. rewrite Hpad. cbn [replicate]. rewrite app_nil_r, rev_involutive.
    destruct (Z.eqb_spec v 0) as [->|Hne]; [cbn; lia|]. apply digits_read; [lia|]. unfold is_u32 in Hv. lia.
  - unfold num_chars. cbn [andb]. destruct (i32 v <? 0); rewrite !Hpad; cbn [replicate]; rewrite !app_nil_r; [|done].
    by rewrite rev_app_distr.
Qed.

Lemma print_num_reads_back_witness :
  read_rev 10 (rev (num_chars 4294967254 10 false 0 32)) = 4294967254 /\
  num_chars 4294967254 10 true 0 32 =
    if i32 4294967254 <? 0 then 45 :: num_chars (u32 (- i32 4294967254)) 10 false 0 32
    else num_chars 4294967254 10 false 0 32.
Proof. apply (print_num_reads_back 4294967254 10 32); [unfold is_u32; lia|by left]. Defined.
End Console.
