(* ===== verification/AddrSpace.v ===== *)
(** * Address spaces: invariant and effect of the primitive steps

    A user address space is a tree of frames rooted at its page directory.  [owned]
    names the frame at each place of the tree and [space] is the invariant: every
    frame of the tree is allocated and occupies one place only.  The two primitive
    steps of kernel/i386/paging.c, attaching an empty table to a directory and storing
    an entry in a table, are characterised by their effect on [owned]. *)

From stdpp Require Import base list gmap numbers sets.
From S2P Require Import Prelude CString Pmm Layout Paging.

#[local] Open Scope Z_scope.

Module AddrSpace.
Import Paging.

(** ** Entries *)

Lemma frame_of_lor a b : frame_of (Z.lor a b) = Z.lor (frame_of a) (frame_of b).
Proof. apply Z.land_lor_distr_l. Qed.

Lemma flags_of_lor a b : flags_of (Z.lor a b) = Z.lor (flags_of a) (flags_of b).
Proof. apply Z.land_lor_distr_l. Qed.

Lemma frame_of_small x : 0 <= x < 4096 -> frame_of x = 0.
Proof. intros H. unfold frame_of. rewrite mask_page by dlia. rewrite Z.mod_small; lia. Qed.

Lemma frame_of_aligned f : is_u32 f -> f mod 4096 = 0 -> frame_of f = f.
Proof. intros H Hf. unfold frame_of. rewrite mask_page by done. lia. Qed.

Lemma flags_of_aligned f : f mod 4096 = 0 -> flags_of f = 0.
Proof. intros H. unfold flags_of. by rewrite low_page. Qed.

Lemma flags_of_small x : 0 <= x < 4096 -> flags_of x = x.
Proof. intros H. unfold flags_of. rewrite low_page. by apply Z.mod_small. Qed.

Lemma flags_of_range x : 0 <= flags_of x < 4096.
Proof. unfold flags_of. rewrite low_page. dlia. Qed.

Lemma present_bit e : present e = Z.testbit e 0.
Proof.
  unfold present. change HAL_PG_PRESENT with (Z.shiftl 1 0).
  rewrite land_bit_zero by lia. apply negb_involutive.
Qed.

Lemma present_lor a b : present (Z.lor a b) = present a || present b.
Proof. rewrite !present_bit. apply Z.lor_spec. Qed.

Lemma present_flags e : present (flags_of e) = present e.
Proof. rewrite !present_bit. unfold flags_of. rewrite Z.land_spec. apply andb_true_r. Qed.

Lemma present_aligned f : f mod 4096 = 0 -> present f = false.
Proof. intros H. rewrite <- present_flags, flags_of_aligned by done. done. Qed.

Lemma lor_small a b k : 0 <= k -> 0 <= a < 2 ^ k -> 0 <= b < 2 ^ k -> 0 <= Z.lor a b < 2 ^ k.
Proof.
  intros Hk Ha Hb. split; [apply Z.lor_nonneg; lia|]. apply bounded_of_bits; [lia|apply Z.lor_nonneg; lia|].
  intros i Hi. rewrite Z.lor_spec, <- (Z.mod_small a (2 ^ k)), <- (Z.mod_small b (2 ^ k)) by lia.
  by rewrite !Z.mod_pow2_bits_high by lia.
Qed.

(** An entry made of an aligned frame and flags. *)
Lemma entry_make f fl : is_u32 f -> f mod 4096 = 0 -> 0 <= fl < 4096 ->
  is_u32 (Z.lor f fl) /\ frame_of (Z.lor f fl) = f /\ flags_of (Z.lor f fl) = fl /\
  present (Z.lor f fl) = present fl.
Proof.
  intros Hf Ha Hfl. split_and!.
  - apply (lor_small f fl 32); dlia.
  - by rewrite frame_of_lor, (frame_of_small fl), (frame_of_aligned f), Z.lor_0_r.
  - by rewrite flags_of_lor, (flags_of_aligned f), (flags_of_small fl), Z.lor_0_l.
  - by rewrite present_lor, present_aligned.
Qed.

(** The entry [map_in_dir] stores in the table. *)
Lemma pte_make pa flags : is_u32 pa -> pa mod 4096 = 0 ->
  Z.lor (Z.lor (frame_of pa) (flags_of flags)) HAL_PG_PRESENT =
    Z.lor pa (Z.lor (flags_of flags) 1) /\
  0 <= Z.lor (flags_of flags) 1 < 4096 /\ present (Z.lor (flags_of flags) 1) = true.
Proof.
  intros H Ha. split_and!.
  - by rewrite frame_of_aligned, Z.lor_assoc.
  - apply (lor_small _ _ 12); pose proof (flags_of_range flags); lia.
  - apply (lor_small _ _ 12); pose proof (flags_of_range flags); lia.
  - rewrite present_lor. by rewrite orb_comm.
Qed.

Lemma frame_of_facts e : is_u32 e -> is_u32 (frame_of e) /\ frame_of e mod 4096 = 0 /\
  Z.lor (frame_of e) (flags_of e) = e.
Proof.
  intros H. assert (frame_of e = e - e mod 4096) as -> by (by apply mask_page).
  split_and!; [dlia|dlia|].
  rewrite <- (mask_page e) by done. unfold flags_of. rewrite <- Z.land_lor_distr_r.
  replace (Z.lor (not32 4095) 4095) with (Z.ones 32) by done.
  rewrite Z.land_ones by lia. apply u32_small. done.
Qed.

Lemma pd_index_range va : 0 <= pd_index va < 1024.
Proof. unfold pd_index. change 1023 with (Z.ones 10). rewrite Z.land_ones by lia. dlia. Qed.

Lemma pt_index_range va : 0 <= pt_index va < 1024.
Proof. unfold pt_index. change 1023 with (Z.ones 10). rewrite Z.land_ones by lia. dlia. Qed.

Lemma indices va : is_u32 va ->
  pd_index va = va / 4194304 /\ pt_index va = va / 4096 mod 1024.
Proof.
  intros H. unfold pd_index, pt_index. change 1023 with (Z.ones 10).
  rewrite !Z.land_ones, !Z.shiftr_div_pow2 by lia. split; [dlia|done].
Qed.

Lemma user_pd_index va : is_u32 va -> USER_BASE <= va -> 256 <= pd_index va.
Proof. intros H Hu. unfold USER_BASE in Hu. destruct (indices va H) as [-> _]. dlia. Qed.

Lemma same_indices va va' : is_u32 va -> is_u32 va' ->
  pd_index va = pd_index va' -> pt_index va = pt_index va' -> va / 4096 = va' / 4096.
Proof.
  intros H H'. destruct (indices va H) as [-> ->], (indices va' H') as [-> ->]. dlia.
Qed.

(** ** Memory *)

Definition mem_wf (s : machine) : Prop := forall f, lenZ (mem s f) = 4096 /\ bytes (mem s f).

Lemma entry_u32 s f i : mem_wf s -> 0 <= i < 1024 -> is_u32 (entry s f i).
Proof. intros Hw Hi. destruct (Hw f). apply rd32_u32; [done|lia|lia]. Qed.

Lemma mem_wf_set_page s f p : mem_wf s -> lenZ p = 4096 -> bytes p -> mem_wf (set_page f p s).
Proof. intros Hw Hl Hb g. simpl. bcase; [done|apply Hw]. Qed.

Lemma mem_wf_set_entry s f i v : mem_wf s -> 0 <= i < 1024 -> mem_wf (set_entry f i v s).
Proof.
  intros Hw Hi. destruct (Hw f). apply mem_wf_set_page; [done| |by apply bytes_wr32].
  rewrite lenZ_wr32; lia.
Qed.

Lemma entry_set_entry s f i v g j : mem_wf s -> 0 <= i < 1024 -> 0 <= j < 1024 -> is_u32 v ->
  entry (set_entry f i v s) g j = if (g =? f) && (j =? i) then v else entry s g j.
Proof.
  intros Hw Hi Hj Hv. destruct (Hw f) as [Hl _]. unfold entry, set_entry, set_page. simpl.
  destruct (Z.eqb_spec g f) as [->|]; [|done]. destruct (Z.eqb_spec j i) as [->|]; simpl.
  - apply rd32_wr32_eq; (done || lia).
  - apply rd32_wr32_ne; lia.
Qed.

Lemma zero_page_ok : lenZ zero_page = 4096 /\ bytes zero_page.
Proof.
  unfold zero_page, PAGE_SIZE. split; [unfold lenZ; rewrite length_replicate; lia|].
  apply Forall_replicate. unfold is_u8. lia.
Qed.

Lemma rd32_zeros n i : rd32 (replicate n 0) i = 0.
Proof.
  unfold rd32, lsub. rewrite drop_replicate, take_replicate. generalize (Z.to_nat 4 `min` (n - Z.to_nat i))%nat.
  intros k. induction k as [|k IH]; [done|]. cbn [replicate le_val]. by rewrite IH.
Qed.

Lemma rd32_zero_page i : rd32 zero_page i = 0.
Proof. apply rd32_zeros. Qed.

#[local] Opaque zero_page.

Lemma entry_set_page s f p g i : entry (set_page f p s) g i = if g =? f then rd32 p (4 * i) else entry s g i.
Proof. unfold entry, set_page. simpl. by bcase. Qed.

(** ** Frames in use *)

Definition free (s : machine) : gset Z := Pmm.free_set (phys s).

Record ok (s : machine) : Prop := {
  ok_mem : mem_wf s;
  ok_phys : Pmm.wf (phys s);
  ok_zero : 0 ∉ free s }.

Record used (s : machine) (f : Z) : Prop := {
  us_pos : 0 < f;
  us_aligned : f mod 4096 = 0;
  us_total : f / 4096 < Pmm.total_frames (phys s);
  us_taken : f / 4096 ∉ free s }.

(** At least [n] frames can be allocated. *)
Definition avail (s : machine) (n : nat) : Prop := (n <= size (free s))%nat.

Lemma used_u32 s f : ok s -> used s f -> is_u32 f.
Proof.
  intros [_ [_ _ Ht _] _] [Hp Ha Hl _]. unfold Pmm.MAX_FRAMES in Ht. dlia.
Qed.

(** What a step from [s] to [s'] that allocates the frames [A] leaves alone: the
    kernel's view, and every page in use before except those that satisfy [P]. *)
Record keeps (P : Z -> Prop) (A : gset Z) (s s' : machine) : Prop := {
  kp_ok : ok s';
  kp_dir : kernel_dir s' = kernel_dir s;
  kp_dirp : kernel_dir_phys s' = kernel_dir_phys s;
  kp_cur : current_dir_phys s' = current_dir_phys s;
  kp_total : Pmm.total_frames (phys s') = Pmm.total_frames (phys s);
  kp_free : free s' = free s ∖ A;
  kp_mem : forall f, used s f -> ~ P f -> mem s' f = mem s f }.

Lemma keeps_used P A s s' f : keeps P A s s' -> used s f -> used s' f.
Proof. intros [_ _ _ _ Ht Hf _] [Hp Ha Hl Hn]. split; [done|done|lia|]. rewrite Hf. set_solver. Qed.

Lemma keeps_refl s : ok s -> keeps (fun _ => False) ∅ s s.
Proof. intros H. split; try done. set_solver. Qed.

Lemma keeps_trans P A Q B s s' s'' :
  keeps P A s s' -> keeps Q B s' s'' -> keeps (fun f => P f \/ Q f) (A ∪ B) s s''.
Proof.
  intros H1 H2. destruct H2 as [Ho Hd Hdp Hc Ht Hf Hm]. destruct H1 as [Ho1 Hd1 Hdp1 Hc1 Ht1 Hf1 Hm1] eqn:E.
  split; try congruence.
  - rewrite Hf, Hf1. set_solver.
  - intros f Hu Hp. rewrite Hm; [apply Hm1; tauto| |tauto]. by apply (keeps_used P A s s').
Qed.

Lemma keeps_mono (P Q : Z -> Prop) A B s s' : keeps P A s s' -> A = B ->
  (forall f, used s f -> P f -> Q f) -> keeps Q B s s'.
Proof. intros [] <- H. split; try done. intros f Hu Hn. apply kp_mem0; [done|]. intros Hp. apply Hn. eauto. Qed.

Lemma alloc_spec s n : ok s -> avail s (S n) ->
  exists f s1, alloc s = (f, s1) /\ keeps (fun _ => False) {[f / 4096]} s s1 /\ used s1 f /\
    f / 4096 ∈ free s /\ mem s1 = mem s /\ avail s1 n.
Proof.
  intros [Hm Hw Hz] Ha. unfold avail, free in *.
  destruct (Pmm.pmm_alloc_some (phys s) Hw) as (k & Hk & _ & p & He & Hf & Ht & Hw').
  { intros E. rewrite E, size_empty in Ha. lia. }
  pose proof Hk as Hr. apply Pmm.elem_of_free_set in Hr as [Hr _].
  assert (k <> 0) by congruence. change Pmm.PMM_FRAME_SIZE with 4096 in *.
  assert (k * 4096 / 4096 = k) as Hdiv by dlia.
  assert (ok (with_phys s p)) as Hok by (split; [done|done|unfold free; simpl; rewrite Hf; set_solver]).
  exists (k * 4096), (with_phys s p). unfold alloc. rewrite He, Hdiv. split_and!; try done.
  - split; simpl; [dlia|dlia|rewrite Hdiv, Ht; lia|unfold free; simpl; rewrite Hdiv, Hf; set_solver].
  - simpl. rewrite Hf, size_difference, size_singleton by set_solver. lia.
Qed.

Lemma set_page_keeps s f p : ok s -> lenZ p = 4096 -> bytes p ->
  keeps (eq f) ∅ s (set_page f p s).
Proof.
  intros [Hm Hw Hz] Hl Hb. split; try done.
  - split; [by apply mem_wf_set_page|done|done].
  - unfold free. simpl. set_solver.
  - intros g _ Hn. simpl. bcase; congruence.
Qed.

Lemma set_entry_keeps s f i v : ok s -> 0 <= i < 1024 -> keeps (eq f) ∅ s (set_entry f i v s).
Proof.
  intros Hok Hi. destruct (ok_mem _ Hok f). apply set_page_keeps; [done| |by apply bytes_wr32].
  rewrite lenZ_wr32; lia.
Qed.

(** ** The tree of an address space *)

Inductive place := PDir | PTable (di : Z) | PPage (di ti : Z).

#[global] Instance place_eq_dec : EqDecision place.
Proof. solve_decision. Defined.

Definition table_at (s : machine) (dir di : Z) : option Z :=
  if (256 <=? di) && (di <? 1024) && present (entry s dir di)
  then Some (frame_of (entry s dir di)) else None.

Definition owned (s : machine) (dir : Z) (p : place) : option Z :=
  match p with
  | PDir => Some dir
  | PTable di => table_at s dir di
  | PPage di ti =>
      match table_at s dir di with
      | Some t => if (0 <=? ti) && (ti <? 1024) && present (entry s t ti)
                  then Some (frame_of (entry s t ti)) else None
      | None => None
      end
  end.

Record space (s : machine) (dir : Z) : Prop := {
  sp_used : forall p f, owned s dir p = Some f -> used s f;
  sp_inj : forall p q f, owned s dir p = Some f -> owned s dir q = Some f -> p = q }.

Lemma table_at_Some s dir di t : table_at s dir di = Some t <->
  256 <= di < 1024 /\ present (entry s dir di) = true /\ frame_of (entry s dir di) = t.
Proof.
  unfold table_at. split.
  - intros H. destruct (Z.leb_spec 256 di); [|done]. destruct (Z.ltb_spec di 1024); [|done].
    simpl in H. destruct (present _); simplify_eq. split_and!; (done || lia).
  - intros (Hd & -> & ->). destruct (Z.leb_spec 256 di), (Z.ltb_spec di 1024); (done || lia).
Qed.

Lemma table_at_page s dir di ti f : owned s dir (PPage di ti) = Some f ->
  exists t, table_at s dir di = Some t /\ 0 <= ti < 1024 /\ present (entry s t ti) = true /\
    frame_of (entry s t ti) = f.
Proof.
  simpl. destruct (table_at s dir di) as [t|]; [|done]. intros H. exists t.
  destruct (Z.leb_spec 0 ti); [|done]. destruct (Z.ltb_spec ti 1024); [|done]. simpl in H.
  destruct (present (entry s t ti)); [|done]. naive_solver.
Qed.

Lemma table_ne_dir s dir di t : space s dir -> table_at s dir di = Some t -> t <> dir.
Proof. intros H Ht ->. by pose proof (sp_inj _ _ H (PTable di) PDir dir Ht eq_refl). Qed.

Lemma table_inj s dir di di' t : space s dir -> table_at s dir di = Some t ->
  table_at s dir di' = Some t -> di = di'.
Proof. intros H Ht Ht'. by pose proof (sp_inj _ _ H (PTable di) (PTable di') t Ht Ht') as [=]. Qed.

(** The tree depends on the pages of the directory and of the tables only. *)
Lemma owned_ext s s' dir : mem s' dir = mem s dir ->
  (forall di t, table_at s dir di = Some t -> mem s' t = mem s t) ->
  forall p, owned s' dir p = owned s dir p.
Proof.
  intros Hd Ht.
  assert (forall di, table_at s' dir di = table_at s dir di) as Htab
    by (intros di; unfold table_at, entry; by rewrite Hd).
  intros [|di|di ti]; [done|apply Htab|]. simpl. rewrite Htab.
  destruct (table_at s dir di) as [t|] eqn:E; [|done]. unfold entry. by rewrite (Ht di t E).
Qed.

Lemma space_ext s s' dir : (forall p, owned s' dir p = owned s dir p) ->
  (forall f, used s f -> used s' f) -> space s dir -> space s' dir.
Proof.
  intros He Hu [H1 H2]. split.
  - intros p f. rewrite He. eauto.
  - intros p q f. rewrite !He. eauto.
Qed.

(** A space none of whose frames is touched stays as it is. *)
Lemma space_frame P A s s' dir : keeps P A s s' -> space s dir ->
  (forall p f, owned s dir p = Some f -> ~ P f) ->
  space s' dir /\ (forall p, owned s' dir p = owned s dir p) /\
  (forall p f, owned s dir p = Some f -> mem s' f = mem s f).
Proof.
  intros Hk Hs Hn.
  assert (forall p f, owned s dir p = Some f -> mem s' f = mem s f) as Hm.
  { intros p f Hf. apply (kp_mem _ _ _ _ Hk); [by apply (sp_used _ _ Hs p)|by apply (Hn p)]. }
  assert (forall p, owned s' dir p = owned s dir p) as Ho.
  { apply owned_ext; [by apply (Hm PDir)|]. intros di t Ht. by apply (Hm (PTable di)). }
  split_and!; [|done|done]. eapply space_ext; [done| |done].
  intros f. by apply (keeps_used P A).
Qed.

(** ** The primitive steps *)

(** Inserting the frame [f] at a place of a space keeps the invariant. *)
Lemma space_insert s s' dir p0 f : space s dir -> used s' f -> (forall p, owned s dir p <> Some f) ->
  (forall g, used s g -> used s' g) ->
  (forall p, owned s' dir p = if decide (p = p0) then Some f else owned s dir p) -> space s' dir.
Proof.
  intros [H1 H2] Hf Hn Hu Ho. split.
  - intros p g. rewrite Ho. case_decide; [naive_solver|eauto].
  - intros p q g. rewrite !Ho. case_decide; case_decide; subst; try done; intros [=] [=]; subst;
      try (by exfalso; eapply Hn); eauto.
Qed.

Lemma table_at_leaf s dir t ti v di : ok s -> 0 <= ti < 1024 -> is_u32 v -> t <> dir ->
  table_at (set_entry t ti v s) dir di = table_at s dir di.
Proof.
  intros [Hm _ _] Ht Hv Hne. unfold table_at, entry, set_entry. simpl.
  destruct (Z.eqb_spec dir t); congruence.
Qed.

Lemma set_leaf s dir di ti t f fl : ok s -> space s dir -> table_at s dir di = Some t ->
  0 <= ti < 1024 -> used s f -> (forall p, owned s dir p <> Some f) -> 0 <= fl < 4096 ->
  present fl = true ->
  space (set_entry t ti (Z.lor f fl) s) dir /\
  forall p, owned (set_entry t ti (Z.lor f fl) s) dir p =
    if decide (p = PPage di ti) then Some f else owned s dir p.
Proof.
  intros Hok Hs Ht Hti Hu Hn Hfl Hp.
  pose proof (used_u32 s f Hok Hu) as Hf32.
  destruct (entry_make f fl Hf32 (us_aligned _ _ Hu) Hfl) as (Hv & Hfr & _ & Hpr).
  pose proof (table_ne_dir s dir di t Hs Ht) as Hne.
  assert (forall p, owned (set_entry t ti (Z.lor f fl) s) dir p =
    if decide (p = PPage di ti) then Some f else owned s dir p) as Ho.
  { intros [|d|d i]; [by case_decide|case_decide; [done|by apply table_at_leaf]|].
    cbn [owned]. rewrite table_at_leaf by done.
    destruct (table_at s dir d) as [t'|] eqn:E.
    2:{ case_decide as Hd; [|done]. injection Hd as -> ->. congruence. }
    destruct (Z.leb_spec 0 i), (Z.ltb_spec i 1024); simpl;
      try (case_decide as Hd; [injection Hd as -> ->; lia|done]).
    rewrite entry_set_entry by (done || apply Hok).
    destruct (Z.eqb_spec t' t) as [->|Hne'].
    - assert (d = di) as -> by (by apply (table_inj s dir d di t)).
      destruct (Z.eqb_spec i ti) as [->|]; simpl.
      + rewrite decide_True by done. by rewrite Hpr, Hp, Hfr.
      + rewrite decide_False by congruence. done.
    - simpl. rewrite decide_False; [done|]. intros [= -> ->]. congruence. }
  split; [|done]. apply (space_insert s _ dir (PPage di ti) f Hs); try done.
  - by apply (keeps_used _ _ s _ f (set_entry_keeps s t ti (Z.lor f fl) Hok Hti)).
  - intros g. apply (keeps_used _ _ s _ g (set_entry_keeps s t ti (Z.lor f fl) Hok Hti)).
Qed.

Lemma table_at_set s dir i v di : ok s -> 0 <= i < 1024 -> is_u32 v ->
  table_at (set_entry dir i v s) dir di =
    if decide (di = i) then
      if (256 <=? i) && present v then Some (frame_of v) else None
    else table_at s dir di.
Proof.
  intros Hok Hi Hv. unfold table_at. case_decide as Hd.
  - subst. rewrite entry_set_entry by (done || apply Hok). rewrite !Z.eqb_refl. simpl.
    destruct (Z.ltb_spec i 1024); [|lia]. by rewrite andb_true_r.
  - destruct (Z.leb_spec 256 di), (Z.ltb_spec di 1024); simpl; try done.
    rewrite entry_set_entry by (done || lia || apply Hok).
    destruct (Z.eqb_spec di i); [done|]. by rewrite andb_false_r.
Qed.

Lemma owned_page_frame s dir di ti i v : ok s -> space s dir -> 0 <= i < 1024 -> di <> i ->
  is_u32 v -> owned (set_entry dir i v s) dir (PPage di ti) = owned s dir (PPage di ti).
Proof.
  intros Hok Hs Hi Hne Hv. cbn [owned]. rewrite table_at_set, decide_False by done.
  destruct (table_at s dir di) as [t|] eqn:E; [|done].
  pose proof (table_ne_dir s dir di t Hs E). unfold entry, set_entry. simpl.
  by destruct (Z.eqb_spec t dir).
Qed.

Lemma attach_table s dir di t fl : ok s -> space s dir -> 256 <= di < 1024 ->
  table_at s dir di = None -> used s t -> (forall p, owned s dir p <> Some t) ->
  mem s t = zero_page -> 0 <= fl < 4096 -> present fl = true ->
  space (set_entry dir di (Z.lor t fl) s) dir /\
  forall p, owned (set_entry dir di (Z.lor t fl) s) dir p =
    if decide (p = PTable di) then Some t else owned s dir p.
Proof.
  intros Hok Hs Hdi Hno Hu Hn Hz Hfl Hp.
  pose proof (used_u32 s t Hok Hu) as Ht32.
  destruct (entry_make t fl Ht32 (us_aligned _ _ Hu) Hfl) as (Hv & Hfr & _ & Hpr).
  assert (forall p, owned (set_entry dir di (Z.lor t fl) s) dir p =
    if decide (p = PTable di) then Some t else owned s dir p) as Ho.
  { intros [|d|d i]; [by case_decide|cbn [owned]|].
    - rewrite table_at_set by (done || lia). destruct (decide (d = di)) as [->|].
      + rewrite decide_True by done. destruct (Z.leb_spec 256 di); [|lia]. by rewrite Hpr, Hp, Hfr.
      + rewrite decide_False by congruence. done.
    - rewrite (decide_False (P := PPage d i = PTable di)) by done.
      destruct (decide (d = di)) as [->|]; [|by apply owned_page_frame; (done || lia)].
      cbn [owned]. rewrite table_at_set, decide_True, Hno by (done || lia).
      destruct (Z.leb_spec 256 di); [|lia]. rewrite Hpr, Hp, Hfr. simpl.
      assert (t <> dir) as Hne by (intros ->; by apply (Hn PDir)).
      unfold entry, set_entry. simpl. destruct (Z.eqb_spec t dir); [done|]. rewrite Hz.
      rewrite rd32_zero_page. by rewrite andb_false_r. }
  split; [|done]. apply (space_insert s _ dir (PTable di) t Hs); try done.
  - apply (keeps_used _ _ s _ t (set_entry_keeps s dir di (Z.lor t fl) Hok ltac:(lia)) Hu).
  - intros g. apply (keeps_used _ _ s _ g (set_entry_keeps s dir di (Z.lor t fl) Hok ltac:(lia))).
Qed.

(** Adding flags to a directory entry changes no place. *)
Lemma pde_flags s dir di x : ok s -> space s dir -> 0 <= di < 1024 -> 0 <= x < 4096 ->
  present x = false -> 
  forall p, owned (set_entry dir di (Z.lor (entry s dir di) x) s) dir p = owned s dir p.
Proof.
  intros Hok Hs Hdi Hx Hp.
  pose proof (entry_u32 s dir di (ok_mem _ Hok) Hdi) as He.
  assert (is_u32 (Z.lor (entry s dir di) x)) as Hv by (apply (lor_small _ _ 32); dlia).
  assert (forall d, table_at (set_entry dir di (Z.lor (entry s dir di) x) s) dir d = table_at s dir d) as Ht.
  { intros d. rewrite table_at_set by done. case_decide as Hd; [subst d|done].
    rewrite present_lor, Hp, orb_false_r, frame_of_lor, (frame_of_small x Hx), Z.lor_0_r.
    unfold table_at. destruct (Z.ltb_spec di 1024); [|lia]. by rewrite andb_true_r. }
  intros [|d|d i]; [done|apply Ht|]. cbn [owned]. rewrite Ht.
  destruct (table_at s dir d) as [t|] eqn:E; [|done].
  pose proof (table_ne_dir s dir d t Hs E). unfold entry, set_entry. simpl.
  by destruct (Z.eqb_spec t dir).
Qed.

(** ** Growth of a space *)

(** The pages that hold the tree itself. *)
Definition node (s : machine) (dir g : Z) : Prop :=
  g = dir \/ exists di, table_at s dir di = Some g.

(** A step that adds the frames [A] to a space, touching no page in use besides the
    pages of its tree. *)
Record grows (s s' : machine) (dir : Z) (A : gset Z) : Prop := {
  gr_keeps : keeps (node s dir) A s s';
  gr_space : space s' dir;
  gr_fresh : A ⊆ free s;
  gr_mono : forall p g, owned s dir p = Some g -> owned s' dir p = Some g;
  gr_new : forall p g, owned s' dir p = Some g -> owned s dir p = Some g \/ g / 4096 ∈ A;
  gr_all : forall a, a ∈ A -> exists p g, owned s' dir p = Some g /\ g / 4096 = a;
  gr_leaf : forall di ti t, table_at s dir di = Some t -> 0 <= ti < 1024 ->
    present (entry s t ti) = true -> entry s' t ti = entry s t ti }.

Lemma used_not_free s f : used s f -> f / 4096 ∈ free s -> False.
Proof. intros [_ _ _ H] H'. done. Qed.

Lemma node_owned s dir g : node s dir g -> exists p, owned s dir p = Some g.
Proof. intros [->|[di H]]; [by exists PDir|by exists (PTable di)]. Qed.

Lemma page_not_node s dir di ti f : space s dir -> owned s dir (PPage di ti) = Some f -> ~ node s dir f.
Proof.
  intros Hs Hf [->|[d Hd]].
  - by pose proof (sp_inj _ _ Hs _ PDir dir Hf eq_refl).
  - by pose proof (sp_inj _ _ Hs _ (PTable d) f Hf Hd).
Qed.

Lemma fresh_union (X A B : gset Z) : A ⊆ X -> B ⊆ X ∖ A -> A ∪ B ⊆ X.
Proof. set_solver. Qed.

Lemma grows_refl s dir : ok s -> space s dir -> grows s s dir ∅.
Proof.
  intros Hok Hs. split; try done; [|by left].
  by apply (keeps_mono (fun _ => False) _ ∅); [apply keeps_refl| |].
Qed.

Lemma grows_trans s s' s'' dir A B : grows s s' dir A -> grows s' s'' dir B -> grows s s'' dir (A ∪ B).
Proof.
  intros H1 H2. destruct H1 as [Hk1 Hs1 Hf1 Hm1 Hn1 Ha1 Hl1], H2 as [Hk2 Hs2 Hf2 Hm2 Hn2 Ha2 Hl2].
  pose proof (kp_free _ _ _ _ Hk1) as Hfree. split.
  - eapply keeps_mono; [by eapply keeps_trans|done|].
    intros f Hu [|Hn]; [done|]. destruct Hn as [->|[di Hd]]; [by left|].
    destruct (Hn1 (PTable di) f Hd) as [|Hin]; [right; by exists di|].
    exfalso. apply (used_not_free s f Hu). set_solver.
  - done.
  - rewrite Hfree in Hf2. by apply fresh_union.
  - eauto.
  - intros p g Hg. destruct (Hn2 p g Hg) as [Ho|]; [|set_solver].
    destruct (Hn1 p g Ho); [by left|set_solver].
  - intros a. rewrite elem_of_union. intros [Ha|Ha]; [|by apply Ha2].
    destruct (Ha1 a Ha) as (p & g & Hg & <-). exists p, g. auto.
  - intros di ti t Ht Hti Hp. rewrite <- (Hl1 di ti t) by done.
    apply (Hl2 di); [by apply (Hm1 (PTable di))|done|by rewrite (Hl1 di)].
Qed.

(** The pages of the space itself keep their contents, and so does every other space. *)
Lemma grows_page s s' dir A di ti f : space s dir -> grows s s' dir A ->
  owned s dir (PPage di ti) = Some f -> owned s' dir (PPage di ti) = Some f /\ mem s' f = mem s f.
Proof.
  intros Hs Hg Hf. split; [by apply (gr_mono _ _ _ _ Hg)|].
  apply (kp_mem _ _ _ _ (gr_keeps _ _ _ _ Hg)); [by apply (sp_used _ _ Hs _ _ Hf)|].
  by eapply page_not_node.
Qed.

(** One allocation followed by stores into the new frame and into the tree. *)
Lemma alloc_grows s n : ok s -> avail s (S n) ->
  exists f s1, alloc s = (f, s1) /\ f / 4096 ∈ free s /\ used s1 f /\ f <> 0 /\ avail s1 n /\
    keeps (fun _ => False) {[f / 4096]} s s1 /\ mem s1 = mem s /\
    forall dir, space s dir -> space s1 dir /\ (forall p, owned s1 dir p = owned s dir p) /\
      forall p, owned s1 dir p <> Some f.
Proof.
  intros Hok Ha. destruct (alloc_spec s n Hok Ha) as (f & s1 & E & Hk & Hu & Hf & Hm & Hav).
  exists f, s1. split_and!; try done.
  - intros ->. by apply (ok_zero _ Hok).
  - intros dir Hs. destruct (space_frame _ _ _ _ dir Hk Hs) as (Hs1 & Ho & _); [tauto|].
    split_and!; [done|done|]. intros p. rewrite Ho. intros Hp.
    apply (used_not_free s f); [by apply (sp_used _ _ Hs p)|done].
Qed.

Lemma owned_leaf s dir di ti t : table_at s dir di = Some t -> 0 <= ti < 1024 ->
  owned s dir (PPage di ti) = if present (entry s t ti) then Some (frame_of (entry s t ti)) else None.
Proof.
  intros Ht Hti. cbn [owned]. rewrite Ht.
  by destruct (Z.leb_spec 0 ti), (Z.ltb_spec ti 1024); try lia.
Qed.

(** Storing into a frame outside the tree changes no place. *)
Lemma owned_set_page s dir f p q : (forall di, table_at s dir di <> Some f) -> f <> dir ->
  owned (set_page f p s) dir q = owned s dir q.
Proof.
  intros Ht Hd. apply owned_ext; simpl; [by destruct (Z.eqb_spec dir f)|].
  intros di t H. destruct (Z.eqb_spec t f); [|done]. subst. by apply Ht in H.
Qed.

Lemma set_page_space s dir f p : ok s -> space s dir -> (forall di, table_at s dir di <> Some f) ->
  f <> dir -> lenZ p = 4096 -> bytes p ->
  ok (set_page f p s) /\ space (set_page f p s) dir /\
  forall q, owned (set_page f p s) dir q = owned s dir q.
Proof.
  intros Hok Hs Ht Hd Hl Hb. pose proof (set_page_keeps s f p Hok Hl Hb) as Hk.
  split_and!; [apply Hk| |by intros; apply owned_set_page].
  apply (space_ext s); [by intros; apply owned_set_page|intros g; by apply (keeps_used (eq f) ∅)|done].
Qed.

End AddrSpace.
