(* ===== verification/Spaces.v ===== *)
(** * Theorems about address spaces (kernel/i386/paging.c)

    Mapping a page, copying into a space, cloning a space (fork) and destroying it,
    on the tree of frames of the file AddrSpace. *)

From stdpp Require Import base list gmap numbers sets.
From S2P Require Import Prelude CString Pmm Layout Paging AddrSpace.

#[local] Open Scope Z_scope.

Module Spaces.
Import Paging AddrSpace.

#[local] Opaque zero_page.

(** ** Building blocks of the operations *)

(** A new, empty page table for a directory entry that has none. *)
Lemma new_table s dir di fl n : ok s -> space s dir -> 256 <= di < 1024 ->
  table_at s dir di = None -> 0 <= fl < 4096 -> present fl = true -> avail s (S n) ->
  exists t s1, alloc s = (t, s1) /\ t <> 0 /\
    let s' := set_entry dir di (Z.lor t fl) (set_page t zero_page s1) in
    grows s s' dir {[t / 4096]} /\ avail s' n /\ entry s' dir di = Z.lor t fl /\
    (forall j, 0 <= j < 1024 -> j <> di -> entry s' dir j = entry s dir j) /\
    forall p, owned s' dir p = if decide (p = PTable di) then Some t else owned s dir p.
Proof.
  intros Hok Hs Hdi Hno Hfl Hp Ha.
  destruct (alloc_grows s n Hok Ha) as (t & s1 & E & Hfr & Hu & H0 & Hav & Hk & Hm & Hsp).
  destruct (Hsp dir Hs) as (Hs1 & Ho1 & Hn1). exists t, s1. split; [done|]. split; [done|]. cbv zeta.
  destruct zero_page_ok as [Hzl Hzb].
  destruct (set_page_space s1 dir t zero_page) as (Hok2 & Hs2 & Ho2); try assumption.
  { apply Hk. } { intros d. apply (Hn1 (PTable d)). } { intros ->. by apply (Hn1 PDir). }
  pose proof (set_page_keeps s1 t zero_page (kp_ok _ _ _ _ Hk) Hzl Hzb) as Hk2. clear Hzl Hzb.
  destruct (attach_table (set_page t zero_page s1) dir di t fl) as [Hs3 Ho3]; try assumption.
  { specialize (Ho2 (PTable di)). cbn [owned] in Ho2. rewrite Ho2.
    specialize (Ho1 (PTable di)). cbn [owned] in Ho1. congruence. }
  { by apply (keeps_used _ _ _ _ _ Hk2). } { intros p. rewrite Ho2. apply Hn1. }
  { simpl. by rewrite Z.eqb_refl. }
  assert (0 <= di < 1024) as Hdi0 by lia.
  pose proof (set_entry_keeps (set_page t zero_page s1) dir di (Z.lor t fl) Hok2 Hdi0) as Hk3.
  assert (forall p, owned (set_entry dir di (Z.lor t fl) (set_page t zero_page s1)) dir p =
    if decide (p = PTable di) then Some t else owned s dir p) as Ho.
  { intros p. rewrite Ho3. case_decide; [done|]. by rewrite Ho2, Ho1. }
  assert (forall g i, used s g -> g <> dir -> entry (set_entry dir di (Z.lor t fl)
    (set_page t zero_page s1)) g i = entry s g i) as Hent.
  { intros g i Hg Hgd. unfold entry, set_entry, set_page. cbn [mem with_mem].
    destruct (Z.eqb_spec g dir); [done|]. destruct (Z.eqb_spec g t) as [->|]; [|by rewrite Hm].
    destruct (used_not_free s t Hg Hfr). }
  assert (is_u32 (Z.lor t fl)) as Hv.
  { apply (entry_make t fl); [by apply (used_u32 s1); [apply Hk|]|apply Hu|done]. }
  split_and!; [split| | | |done].
  - eapply keeps_mono; [eapply keeps_trans; [exact Hk|eapply keeps_trans; [exact Hk2|exact Hk3]]|by rewrite !union_empty_r_L|].
    intros f Hf [[]|[<-|<-]]; [|by left]. destruct (used_not_free s t Hf Hfr).
  - done.
  - by apply singleton_subseteq_l.
  - intros p g Hg. rewrite Ho. case_decide; [subst; cbn [owned] in Hg; congruence|done].
  - intros p g. rewrite Ho. case_decide; [intros [= <-]; right; by apply elem_of_singleton|by left].
  - intros a. rewrite elem_of_singleton. intros ->. exists (PTable di), t. split; [|done].
    rewrite Ho. by rewrite decide_True.
  - intros d i t' Ht' _ _. apply Hent; [by apply (sp_used _ _ Hs (PTable d))|by apply (table_ne_dir s dir d t')].
  - done.
  - rewrite entry_set_entry by (done || apply Hok2). by rewrite !Z.eqb_refl.
  - intros j Hj Hji. rewrite entry_set_entry by (done || apply Hok2).
    destruct (Z.eqb_spec j di); [done|]. rewrite andb_false_r, entry_set_page.
    destruct (Z.eqb_spec dir t) as [<-|]; [by destruct (Hn1 PDir)|]. unfold entry. by rewrite Hm.
Qed.

(** A new page with the given contents at a free place of a table. *)
Lemma new_page s dir di ti t fl content n : ok s -> space s dir -> table_at s dir di = Some t ->
  0 <= ti < 1024 -> owned s dir (PPage di ti) = None -> 0 <= fl < 4096 -> present fl = true ->
  lenZ content = 4096 -> bytes content -> avail s (S n) ->
  exists f s1, alloc s = (f, s1) /\ f <> 0 /\ mem s1 = mem s /\
    let s' := set_entry t ti (Z.lor f fl) (set_page f content s1) in
    grows s s' dir {[f / 4096]} /\ avail s' n /\ mem s' f = content /\ entry s' t ti = Z.lor f fl /\
    mem s' dir = mem s dir /\
    forall p, owned s' dir p = if decide (p = PPage di ti) then Some f else owned s dir p.
Proof.
  intros Hok Hs Ht Hti Hno Hfl Hp Hl Hb Ha.
  destruct (alloc_grows s n Hok Ha) as (f & s1 & E & Hfr & Hu & H0 & Hav & Hk & Hm & Hsp).
  destruct (Hsp dir Hs) as (Hs1 & Ho1 & Hn1). exists f, s1. split_and!; [done|done|done|]. cbv zeta.
  pose proof (kp_ok _ _ _ _ Hk) as Hok1.
  destruct (set_page_space s1 dir f content) as (Hok2 & Hs2 & Ho2); try done.
  { intros d. apply (Hn1 (PTable d)). } { intros ->. by apply (Hn1 PDir). }
  pose proof (set_page_keeps s1 f content Hok1 Hl Hb) as Hk2.
  assert (table_at (set_page f content s1) dir di = Some t) as Ht2
    by (pose proof (Ho2 (PTable di)) as H2; pose proof (Ho1 (PTable di)) as H1; cbn [owned] in H1, H2; congruence).
  assert (f <> t) as Hne.
  { intros ->. apply (Hn1 (PTable di)). pose proof (Ho1 (PTable di)) as H1. cbn [owned] in *. congruence. }
  destruct (set_leaf (set_page f content s1) dir di ti t f fl) as [Hs3 Ho3]; try done.
  { by apply (keeps_used _ _ _ _ _ Hk2). } { intros p. rewrite Ho2. apply Hn1. }
  pose proof (set_entry_keeps (set_page f content s1) t ti (Z.lor f fl) Hok2 Hti) as Hk3.
  assert (forall p, owned (set_entry t ti (Z.lor f fl) (set_page f content s1)) dir p =
    if decide (p = PPage di ti) then Some f else owned s dir p) as Ho.
  { intros p. rewrite Ho3. case_decide; [done|]. by rewrite Ho2, Ho1. }
  assert (is_u32 (Z.lor f fl)) as Hv.
  { apply (entry_make f fl); [by apply (used_u32 s1)|apply Hu|done]. }
  split_and!; [split| | | | |done].
  - eapply keeps_mono; [eapply keeps_trans; [exact Hk|eapply keeps_trans; [exact Hk2|exact Hk3]]|by rewrite !union_empty_r_L|].
    intros g Hg [[]|[<-|<-]]; [destruct (used_not_free s f Hg Hfr)|right; eauto].
  - done.
  - by apply singleton_subseteq_l.
  - intros p g Hg. rewrite Ho. case_decide; [subst; congruence|done].
  - intros p g. rewrite Ho. case_decide; [intros [= <-]; right; by apply elem_of_singleton|by left].
  - intros a. rewrite elem_of_singleton. intros ->. exists (PPage di ti), f. split; [|done].
    rewrite Ho. by rewrite decide_True.
  - intros d i t' Ht' Hi Hpr. rewrite entry_set_entry by (done || apply Hok2).
    destruct (Z.eqb_spec t' t) as [->|]; [destruct (Z.eqb_spec i ti) as [->|]|]; cbn [andb].
    + rewrite (owned_leaf s dir di ti t Ht Hti), Hpr in Hno. done.
    + rewrite entry_set_page. destruct (Z.eqb_spec t f); [congruence|]. unfold entry. by rewrite Hm.
    + rewrite entry_set_page. destruct (Z.eqb_spec t' f) as [->|]; [|unfold entry; by rewrite Hm].
      destruct (Hn1 (PTable d)). rewrite Ho1. done.
  - done.
  - simpl. destruct (Z.eqb_spec f t); [done|]. by rewrite Z.eqb_refl.
  - rewrite entry_set_entry by (done || apply Hok2). by rewrite !Z.eqb_refl.
  - simpl. pose proof (table_ne_dir s dir di t Hs Ht). destruct (Z.eqb_spec dir t); [congruence|].
    destruct (Z.eqb_spec dir f) as [<-|]; [by destruct (Hn1 PDir)|]. by rewrite Hm.
Qed.

(** ** Mapping a page *)

Definition page_of (va : Z) : place := PPage (pd_index va) (pt_index va).

Lemma dir_resolve_owned s dir va : is_u32 va -> USER_BASE <= va ->
  dir_resolve s dir va = default 0 (owned s dir (page_of va)).
Proof.
  intros Hv Hu. pose proof (user_pd_index va Hv Hu). pose proof (pd_index_range va).
  pose proof (pt_index_range va). unfold dir_resolve, page_of. cbn [owned]. unfold table_at.
  destruct (Z.leb_spec 256 (pd_index va)), (Z.ltb_spec (pd_index va) 1024); try lia. cbn [andb].
  destruct (present _); cbn [negb]; [|done].
  destruct (Z.leb_spec 0 (pt_index va)), (Z.ltb_spec (pt_index va) 1024); try lia. cbn [andb].
  by destruct (present _).
Qed.

Lemma page_of_ne va va' : is_u32 va -> is_u32 va' -> va / 4096 <> va' / 4096 -> page_of va <> page_of va'.
Proof. intros H H' Hne [=]. by apply Hne, same_indices. Qed.

Lemma page_of_eq va va' : is_u32 va -> is_u32 va' -> va / 4096 = va' / 4096 -> page_of va = page_of va'.
Proof.
  intros H H' He. unfold page_of. destruct (indices va H) as [-> ->], (indices va' H') as [-> ->].
  rewrite He. f_equal. dlia.
Qed.

(** The frames a page table takes: one unless it is there. *)
Definition table_cost (s : machine) (dir di : Z) : nat := if present (entry s dir di) then 0 else 1.

Lemma ensure_table_ok s dir di flags n : ok s -> space s dir -> 256 <= di < 1024 -> avail s (table_cost s dir di + n) ->
  exists t s1 A, ensure_table dir di flags s = (t, s1) /\ grows s s1 dir A /\ avail s1 n /\
    table_at s1 dir di = Some t /\ size A = table_cost s dir di /\
    forall d i, owned s1 dir (PPage d i) = owned s dir (PPage d i).
Proof.
  intros Hok Hs Hdi Ha. unfold ensure_table, table_cost in *.
  destruct (present (entry s dir di)) eqn:Ep; cbn [negb Nat.add] in *.
  - assert (table_at s dir di = Some (frame_of (entry s dir di))) as Ht by (by apply table_at_Some).
    rename Ha into Hn. exists (frame_of (entry s dir di)).
    destruct (Z.eqb_spec (Z.land flags HAL_PG_USER) 0); cbn [negb].
    + exists s, ∅. split_and!; try done. by apply grows_refl.
    + assert (0 <= di < 1024) as Hdi0 by lia.
      pose proof (pde_flags s dir di HAL_PG_USER Hok Hs Hdi0 ltac:(unfold HAL_PG_USER; lia) eq_refl) as Ho.
      set (s1 := set_entry _ _ _ _) in *. exists s1, ∅.
      assert (keeps (eq dir) ∅ s s1) as Hk by (by apply set_entry_keeps).
      split_and!; [done| |done|by rewrite <- Ht; apply (Ho (PTable di))|done|by intros; apply Ho].
      split; [|eapply space_ext; [exact Ho|intros f; by apply (keeps_used _ _ _ _ f Hk)|done]
        |done|by intros p g; rewrite Ho|by intros p g; rewrite Ho; left|done|].
      2:{ intros d i t' Ht' _ _. pose proof (table_ne_dir s dir d t' Hs Ht').
          unfold s1, entry, set_entry, set_page. cbn [mem with_mem]. by destruct (Z.eqb_spec t' dir). }
      apply (keeps_mono _ _ _ _ _ _ Hk); [done|]. intros f _ <-. by left.
  - assert (table_at s dir di = None) as Hno.
    { unfold table_at. rewrite Ep. by rewrite andb_false_r. }
    set (fl := Z.lor (Z.lor HAL_PG_PRESENT HAL_PG_WRITE) (Z.land flags HAL_PG_USER)).
    assert (0 <= fl < 4096 /\ present fl = true) as [Hfl Hp].
    { split; [|unfold fl; by rewrite !present_lor]. apply (lor_small _ _ 12); [done|done|].
      change HAL_PG_USER with (Z.shiftl 1 2). destruct (Z.testbit flags 2) eqn:E.
      - replace (Z.land flags (Z.shiftl 1 2)) with 4; [lia|]. apply Z.bits_inj'. intros k Hk.
        rewrite Z.land_spec. change (Z.testbit 4 k) with (Z.testbit (2 ^ 2) k).
        change (Z.shiftl 1 2) with (2 ^ 2). rewrite Z.pow2_bits_eqb by lia.
        destruct (Z.eqb_spec 2 k); [subst; by rewrite E|by rewrite andb_false_r].
      - pose proof (land_bit_zero flags 2 ltac:(lia)) as Hz. rewrite E in Hz. apply Z.eqb_eq in Hz.
        rewrite Hz. lia. }
    destruct (new_table s dir di fl n Hok Hs Hdi Hno Hfl Hp Ha) as (t & s1 & -> & _ & Hg & Hav & _ & _ & Ho).
    rewrite <- !Z.lor_assoc, (Z.lor_assoc HAL_PG_PRESENT). fold fl.
    eexists t, _, _. split_and!; [done|exact Hg|done|specialize (Ho (PTable di))|apply size_singleton|].
    + by rewrite decide_True in Ho.
    + intros d i. rewrite Ho. by rewrite decide_False.
Qed.

(** The page of [va] gets a fresh frame; all places other than the page and its table
    stay as they are. *)
Lemma map_user_takes s dir va flags n : ok s -> space s dir -> is_u32 va -> USER_BASE <= va ->
  owned s dir (page_of va) = None -> avail s (S (table_cost s dir (pd_index va) + n)) ->
  exists f s' A, hal_addrspace_map_user dir va flags s = (0, s') /\ grows s s' dir A /\ avail s' n /\
    owned s' dir (page_of va) = Some f /\ f / 4096 ∈ free s /\ size A = S (table_cost s dir (pd_index va)) /\
    forall d i, PPage d i <> page_of va -> owned s' dir (PPage d i) = owned s dir (PPage d i).
Proof.
  intros Hok Hs Hv Hu Hno Ha. unfold hal_addrspace_map_user.
  destruct (alloc_grows s _ Hok Ha) as (f & s1 & -> & Hfr & Huf & H0 & Hav & Hk & Hm & Hsp).
  destruct (Z.eqb_spec f 0); [done|]. destruct (Hsp dir Hs) as (Hs1 & Ho1 & Hn1). clear Hsp.
  assert (table_cost s1 dir (pd_index va) = table_cost s dir (pd_index va)) as Hco by (unfold table_cost, entry; by rewrite Hm).
  unfold map_in_dir. set (fl := Z.lor _ flags).
  pose proof (user_pd_index va Hv Hu). pose proof (pd_index_range va).
  destruct (ensure_table_ok s1 dir (pd_index va) fl n (kp_ok _ _ _ _ Hk) Hs1) as
    (t & s2 & A & -> & Hg & Hav2 & Ht & HsA & Ho2); [lia|by rewrite Hco|].
  pose proof (gr_keeps _ _ _ _ Hg) as Hk2. pose proof (kp_ok _ _ _ _ Hk2) as Hok2.
  assert (used s2 f) as Huf2 by (by apply (keeps_used _ _ _ _ _ Hk2)).
  assert (forall p, owned s2 dir p <> Some f) as Hn2.
  { intros p Hp. destruct (gr_new _ _ _ _ Hg p f Hp) as [|Hin]; [by apply (Hn1 p)|].
    apply (used_not_free s1 f Huf). by apply (gr_fresh _ _ _ _ Hg). }
  destruct (pte_make f fl) as (-> & Hfl & Hp); [by apply (used_u32 s2)|apply Huf2|].
  destruct (set_leaf s2 dir (pd_index va) (pt_index va) t f _ Hok2 (gr_space _ _ _ _ Hg) Ht
    (pt_index_range va) Huf2 Hn2 Hfl Hp) as [Hs3 Ho3].
  pose proof (set_entry_keeps s2 t (pt_index va) (Z.lor f (Z.lor (flags_of fl) 1)) Hok2
    (pt_index_range va)) as Hk3.
  set (s3 := set_entry _ _ _ _) in *.
  exists f, s3, ({[f / 4096]} ∪ A). split_and!; [done| |done|rewrite Ho3; by rewrite decide_True|done| |].
  2:{ rewrite size_union, size_singleton, HsA, Hco; [done|]. apply disjoint_singleton_l. intros Hin%(gr_fresh _ _ _ _ Hg).
      rewrite (kp_free _ _ _ _ Hk) in Hin. apply elem_of_difference in Hin as [_ []]. by apply elem_of_singleton. }
  2:{ intros d i Hne. rewrite Ho3, decide_False by done. by rewrite Ho2, Ho1. }
  pose proof (kp_free _ _ _ _ Hk) as Hf1. pose proof (gr_fresh _ _ _ _ Hg) as Hf2. rewrite Hf1 in Hf2.
  split.
  - eapply keeps_mono; [eapply keeps_trans; [exact Hk|eapply keeps_trans; [exact Hk2|exact Hk3]]
      |by rewrite union_empty_r_L|].
    assert (forall g, used s g -> node s2 dir g -> node s dir g) as Hnode.
    { intros g Hg' [->|[d Hd]]; [by left|]. right. exists d. specialize (Ho1 (PTable d)). cbn in Ho1.
      rewrite <- Ho1. destruct (gr_new _ _ _ _ Hg (PTable d) g Hd) as [|Hin]; [done|].
      apply Hf2, elem_of_difference in Hin as [Hin _]. destruct (used_not_free s g Hg' Hin). }
    intros g Hg' [[]|[Hn|<-]].
    + apply Hnode; [done|]. destruct Hn as [->|[d Hd]]; [by left|right].
      exists d. by apply (gr_mono _ _ _ _ Hg (PTable d)).
    + apply Hnode; [done|]. right. eauto.
  - done.
  - apply fresh_union; [by apply singleton_subseteq_l|done].
  - intros p g Hp'. rewrite Ho3. case_decide; [subst; unfold page_of in Hno; congruence|].
    apply (gr_mono _ _ _ _ Hg). by rewrite Ho1.
  - intros p g. rewrite Ho3. case_decide; [intros [= <-]; right; apply elem_of_union_l; by apply elem_of_singleton|].
    intros Hp'. destruct (gr_new _ _ _ _ Hg p g Hp') as [Hp1|]; [left; by rewrite <- Ho1|right; by apply elem_of_union_r].
  - intros a. rewrite elem_of_union, elem_of_singleton. intros [->|Hin].
    + exists (page_of va), f. split; [|done]. rewrite Ho3. by rewrite decide_True.
    + destruct (gr_all _ _ _ _ Hg a Hin) as (p & g & Hp' & <-). exists p, g. split; [|done].
      rewrite Ho3, decide_False; [done|]. intros ->.
      assert (owned s2 dir (page_of va) = None) as He by (unfold page_of in *; by rewrite Ho2, Ho1).
      unfold page_of in He. congruence.
  - intros d i t' Ht' Hi Hpr. pose proof (Ho1 (PTable d)) as Htd. cbn [owned] in Htd. rewrite Ht' in Htd.
    assert (entry s1 t' i = entry s t' i) as He1 by (unfold entry; by rewrite Hm).
    pose proof (gr_leaf _ _ _ _ Hg d i t' Htd Hi ltac:(by rewrite He1)) as He2.
    unfold s3. rewrite entry_set_entry; [|apply Hok2|apply pt_index_range|done|
      by apply (entry_make f _); [apply (used_u32 s2)|apply Huf2|]].
    destruct (Z.eqb_spec t' t) as [->|]; [destruct (Z.eqb_spec i (pt_index va)) as [->|]|]; cbn [andb]; try congruence.
    assert (d = pd_index va) as -> by (apply (table_inj s2 dir d _ t (gr_space _ _ _ _ Hg));
      [by apply (gr_mono _ _ _ _ Hg (PTable d))|done]).
    unfold page_of in Hno. rewrite (owned_leaf s dir _ _ t Ht' Hi), Hpr in Hno. done.
Qed.

Lemma map_user_grows s dir va flags n : ok s -> space s dir -> is_u32 va -> USER_BASE <= va ->
  owned s dir (page_of va) = None -> avail s (S (S n)) ->
  exists f s' A, hal_addrspace_map_user dir va flags s = (0, s') /\ grows s s' dir A /\ avail s' n /\
    owned s' dir (page_of va) = Some f /\ f / 4096 ∈ free s /\
    forall d i, PPage d i <> page_of va -> owned s' dir (PPage d i) = owned s dir (PPage d i).
Proof.
  intros Hok Hs Hv Hu Hno Ha. destruct (map_user_takes s dir va flags n Hok Hs Hv Hu Hno) as (f & s' & A & H1 & H2 & H3 & H4 & H5 & _ & H6).
  - unfold avail, table_cost in *. destruct (present _); lia.
  - exists f, s', A. done.
Qed.

(** ** The bytes of a space *)

Definition user_va (va : Z) : Prop := USER_BASE <= va < 4294967296.

(** What a program sees at [va]. *)
Definition ubyte (s : machine) (dir va : Z) : option Z :=
  let f := dir_resolve s dir va in
  if f =? 0 then None else Some (lget 0 (mem s f) (va mod 4096)).

Lemma user_u32 va : user_va va -> is_u32 va.
Proof. unfold user_va, USER_BASE, is_u32. lia. Qed.

Lemma ubyte_owned s dir va : space s dir -> user_va va ->
  ubyte s dir va = match owned s dir (page_of va) with
                   | Some f => Some (lget 0 (mem s f) (va mod 4096)) | None => None end.
Proof.
  intros Hs Hv. unfold ubyte. rewrite dir_resolve_owned by (apply user_u32, Hv || apply Hv).
  destruct (owned s dir (page_of va)) as [f|] eqn:E; [|done]. simpl.
  pose proof (us_pos _ _ (sp_used _ _ Hs _ _ E)). destruct (Z.eqb_spec f 0); [lia|done].
Qed.

(** A step that may rewrite the bytes in [[lo, hi)] of a space and add the frames [A]
    to it, and leaves its other bytes and all frames of other spaces alone. *)
Record wrote (s s' : machine) (dir lo hi : Z) (A : gset Z) : Prop := {
  wr_keeps : keeps (fun g => exists p, owned s dir p = Some g) A s s';
  wr_space : space s' dir;
  wr_fresh : A ⊆ free s;
  wr_mono : forall p g, owned s dir p = Some g -> owned s' dir p = Some g;
  wr_new : forall p g, owned s' dir p = Some g -> owned s dir p = Some g \/ g / 4096 ∈ A;
  wr_bytes : forall a b, user_va a -> ~ (lo <= a < hi) -> ubyte s dir a = Some b -> ubyte s' dir a = Some b }.

Lemma copied_trans s s' s'' dir lo mid hi A B : lo <= mid <= hi ->
  wrote s s' dir lo mid A -> wrote s' s'' dir mid hi B -> wrote s s'' dir lo hi (A ∪ B).
Proof.
  intros Hm H1 H2. destruct H1 as [Hk1 Hs1 Hf1 Hm1 Hn1 Hb1], H2 as [Hk2 Hs2 Hf2 Hm2 Hn2 Hb2].
  rewrite (kp_free _ _ _ _ Hk1) in Hf2. split.
  - eapply keeps_mono; [by eapply keeps_trans|done|]. intros f Hu [Hp|[p Hp]]; [done|].
    exists p. destruct (Hn1 p f Hp) as [|Hin]; [done|]. destruct (used_not_free s f Hu). by apply Hf1.
  - done.
  - by apply fresh_union.
  - eauto.
  - intros p g Hp. destruct (Hn2 p g Hp) as [Hp'|]; [|right; by apply elem_of_union_r].
    destruct (Hn1 p g Hp'); [by left|right; by apply elem_of_union_l].
  - intros a b Ha Hn Hb. apply Hb2; [done|lia|]. apply Hb1; [done|lia|done].
Qed.

Lemma wrote_grows s s' dir A x : space s dir -> grows s s' dir A -> wrote s s' dir x x A.
Proof.
  intros Hs Hg. pose proof Hg as [Hk Hs' Hf Hm Hn _ _]. split; try done.
  - apply (keeps_mono _ _ _ _ _ _ Hk); [done|]. intros f _. apply node_owned.
  - intros a b Ha _. rewrite !ubyte_owned by done.
    destruct (owned s dir (page_of a)) as [f|] eqn:E; [|done].
    destruct (grows_page s s' dir A _ _ f Hs Hg E) as [E' Hmf]. unfold page_of. by rewrite E', Hmf.
Qed.

(** Storing into a page of the space. *)
Lemma wrote_page s dir cur f d : ok s -> space s dir -> user_va cur -> owned s dir (page_of cur) = Some f ->
  bytes d -> cur mod 4096 + lenZ d <= 4096 ->
  let s' := set_page f (lsplice (mem s f) (cur mod 4096) d) s in
  wrote s s' dir cur (cur + lenZ d) ∅ /\
  forall k, 0 <= k < lenZ d -> ubyte s' dir (cur + k) = Some (lget 0 d k).
Proof.
  intros Hok Hs Hv Hf Hd Hl s'. destruct (ok_mem _ Hok f) as [Hlen Hby].
  pose proof (lenZ_nonneg d) as Hd0.
  assert (lenZ (lsplice (mem s f) (cur mod 4096) d) = 4096) as Hl' by (rewrite lenZ_lsplice; dlia).
  assert (~ node s dir f) as Hnode by (by eapply page_not_node).
  assert (forall di, table_at s dir di <> Some f) as Ht by (intros di Hdi; apply Hnode; right; eauto).
  assert (f <> dir) as Hfd by (intros ->; apply Hnode; by left).
  destruct (set_page_space s dir f (lsplice (mem s f) (cur mod 4096) d) Hok Hs Ht Hfd Hl'
    (bytes_lsplice _ _ _ Hby Hd)) as (Hok' & Hs' & Ho). fold s' in Hok', Hs', Ho.
  assert (forall a, user_va a -> ubyte s' dir a =
    if decide (page_of a = page_of cur)
    then Some (lget 0 (lsplice (mem s f) (cur mod 4096) d) (a mod 4096)) else ubyte s dir a) as Hb.
  { intros a Ha. rewrite !ubyte_owned by done. rewrite Ho. case_decide as E.
    - rewrite E, Hf. simpl. by rewrite Z.eqb_refl.
    - destruct (owned s dir (page_of a)) as [g|] eqn:Eg; [|done]. simpl.
      destruct (Z.eqb_spec g f); [|done]. subst g. by destruct E; apply (sp_inj _ _ Hs _ _ f). }
  split; [split; try done|].
  - apply (keeps_mono (eq f) _ ∅); [apply set_page_keeps; (done || by apply bytes_lsplice)|done|].
    intros g _ <-. eauto.
  - intros p g. by rewrite Ho.
  - intros p g. rewrite Ho. by left.
  - intros a b Ha Hn. rewrite Hb by done. case_decide as E; [|done].
    rewrite ubyte_owned, E, Hf by done. intros [= <-]. f_equal.
    assert (a / 4096 = cur / 4096) as Hq.
    { injection E as E1 E2. apply same_indices; (done || by apply user_u32). }
    rewrite lget_lsplice by dlia. destruct (Z.leb_spec (cur mod 4096) (a mod 4096)); [|done].
    destruct (Z.ltb_spec (a mod 4096) (cur mod 4096 + lenZ d)); [|done]. exfalso. dlia.
  - intros k Hk. assert (user_va (cur + k)) as Hck by (unfold user_va, USER_BASE in *; dlia).
    assert ((cur + k) / 4096 = cur / 4096) by dlia.
    rewrite Hb by done. rewrite decide_True by (apply page_of_eq; (done || by apply user_u32)).
    replace ((cur + k) mod 4096) with (cur mod 4096 + k) by dlia.
    rewrite lget_lsplice by dlia.
    destruct (Z.leb_spec (cur mod 4096) (cur mod 4096 + k)); [|lia].
    destruct (Z.ltb_spec (cur mod 4096 + k) (cur mod 4096 + lenZ d)); [|lia]. simpl. f_equal. f_equal. lia.
Qed.

Lemma demand_ok s dir cur n : ok s -> space s dir -> user_va cur -> avail s (S (S n)) ->
  exists f s1 A, demand dir cur s = (f, s1) /\ grows s s1 dir A /\ avail s1 n /\ f <> 0 /\
    owned s1 dir (page_of cur) = Some f.
Proof.
  intros Hok Hs Hv Ha. pose proof (user_u32 cur Hv) as H32. unfold demand.
  rewrite dir_resolve_owned by (done || apply Hv).
  destruct (owned s dir (page_of cur)) as [f|] eqn:E; cbn [default from_option id].
  - pose proof (us_pos _ _ (sp_used _ _ Hs _ _ E)). destruct (Z.eqb_spec f 0); [lia|].
    exists f, s, ∅. split_and!; try done; [by apply grows_refl|unfold avail in *; lia].
  - rewrite mask_page by done. set (base := cur - cur mod 4096).
    assert (user_va base) as Hvb by (unfold base, user_va, USER_BASE in *; dlia).
    assert (page_of base = page_of cur) as Hpb
      by (apply page_of_eq; [by apply user_u32|done|unfold base; dlia]).
    destruct (map_user_grows s dir base 0 n Hok Hs (user_u32 _ Hvb)) as
      (f & s' & A & -> & Hg & Hav & Ho & _); [apply Hvb|by rewrite Hpb|done|].
    cbn [snd]. rewrite dir_resolve_owned by (done || apply Hv). rewrite <- Hpb, Ho.
    exists f, s', A. split_and!; try done.
    pose proof (us_pos _ _ (sp_used _ _ (gr_space _ _ _ _ Hg) _ _ Ho)). lia.
Qed.

(** ** Copying into a space *)

(** The pages that [[va + done, va + len)] touches. *)
Definition turns (va len done : Z) : nat :=
  if done <? len then Z.to_nat ((va + len - 1) / 4096 - (va + done) / 4096 + 1) else 0.

Section loop.
Context (data : Z -> Z -> list Z) (D : Z -> Z) (dir va len : Z).
Hypothesis data_ok : forall done n, 0 <= done -> 0 <= n -> done + n <= len ->
  lenZ (data done n) = n /\ bytes (data done n) /\
  forall k, 0 <= k < n -> lget 0 (data done n) k = D (done + k).
Hypothesis Hva : USER_BASE <= va.
Hypothesis Hend : va + len <= 4294967296.

Lemma page_loop_ok fuel : forall done s, ok s -> space s dir -> 0 <= done <= len ->
  len - done < Z.of_nat fuel -> avail s (2 * turns va len done) ->
  exists s' A, page_loop data fuel dir va len done s = s' /\ wrote s s' dir (va + done) (va + len) A /\
    forall j, done <= j < len -> ubyte s' dir (va + j) = Some (D j).
Proof.
  induction fuel as [|fuel IH]; intros done s Hok Hs Hdone Hfuel Hav; [lia|]. cbn [page_loop].
  unfold turns in Hav. destruct (Z.ltb_spec done len) as [Hlt|].
  2:{ replace done with len by lia. exists s, ∅. split_and!; [done| |lia].
      by apply wrote_grows; [|apply grows_refl]. }
  assert (user_va (va + done)) as Hv by (unfold user_va in *; lia).
  pose proof (user_u32 _ Hv) as H32. rewrite (u32_small (va + done)), low_page by done.
  set (cur := va + done) in *. set (chunk := Z.min (PAGE_SIZE - cur mod 4096) (len - done)).
  assert (0 < chunk <= len - done /\ cur mod 4096 + chunk <= 4096) as [Hc Hco]
    by (unfold chunk, PAGE_SIZE; dlia).
  assert (turns va len (done + chunk) + 1 <= Z.to_nat ((va + len - 1) / 4096 - cur / 4096 + 1))%nat as Ht.
  { unfold turns. destruct (Z.ltb_spec (done + chunk) len); [|dlia].
    assert (cur mod 4096 + chunk = 4096) by (unfold chunk, PAGE_SIZE in *; dlia).
    replace (va + (done + chunk)) with (cur + chunk) by (unfold cur; lia). dlia. }
  destruct (demand_ok s dir cur (2 * turns va len (done + chunk)) Hok Hs Hv) as
    (f & s1 & A & -> & Hg & Hav1 & Hf0 & Ho); [unfold avail in *; lia|].
  destruct (Z.eqb_spec f 0); [done|].
  destruct (data_ok done chunk) as (Hdl & Hdb & HdD); [lia|lia|lia|].
  pose proof (gr_space _ _ _ _ Hg) as Hs1. pose proof (kp_ok _ _ _ _ (gr_keeps _ _ _ _ Hg)) as Hok1.
  destruct (wrote_page s1 dir cur f (data done chunk) Hok1 Hs1 Hv Ho Hdb) as [Hw Hby]; [lia|].
  set (s2 := set_page _ _ _) in *. rewrite Hdl in Hw, Hby.
  destruct (IH (done + chunk) s2) as (s' & B & -> & Hw' & HD);
    [apply Hw|apply Hw|lia|lia|exact Hav1|].
  replace (va + (done + chunk)) with (cur + chunk) in Hw' by (unfold cur; lia).
  exists s', (A ∪ (∅ ∪ B)). split_and!; [done| |].
  - apply (copied_trans s s1 s' dir cur cur); [unfold cur; lia|by apply wrote_grows|].
    apply (copied_trans s1 s2 s' dir cur (cur + chunk)); [unfold cur; lia|done|done].
  - intros j Hj. destruct (Z.lt_ge_cases j (done + chunk)) as [Hjc|]; [|apply HD; lia].
    apply (wr_bytes _ _ _ _ _ _ Hw'); [unfold user_va in *; lia|unfold cur; lia|].
    replace (va + j) with (cur + (j - done)) by (unfold cur; lia).
    rewrite Hby by lia. f_equal. rewrite HdD by lia. f_equal. lia.
Qed.
End loop.

(** ** Theorems *)

(** With one free frame and no page table for the page, the frame goes to the page and
    the table is put into frame 0, which [pmm_alloc_frame] means as "none". *)
Lemma map_user_zero_table s dir va flags : ok s -> space s dir -> user_va va ->
  size (free s) = 1%nat -> present (entry s dir (pd_index va)) = false ->
  exists s', hal_addrspace_map_user dir va flags s = (0, s') /\ free s' = ∅ /\
    present (entry s' dir (pd_index va)) = true /\ frame_of (entry s' dir (pd_index va)) = 0.
Proof.
  intros Hok Hs Hv H1 Hp. unfold hal_addrspace_map_user.
  destruct (alloc_grows s 0 Hok) as (f & s1 & -> & Hfr & Huf & H0 & Hav & Hk & Hm & Hsp); [unfold avail; lia|].
  destruct (Z.eqb_spec f 0); [done|]. unfold map_in_dir, ensure_table.
  assert (entry s1 dir (pd_index va) = entry s dir (pd_index va)) as -> by (unfold entry; by rewrite Hm). rewrite Hp. cbn [negb].
  assert (free s1 = ∅) as He.
  { rewrite (kp_free _ _ _ _ Hk). apply leibniz_equiv, size_empty_inv. rewrite size_difference by (by apply singleton_subseteq_l).
    rewrite size_singleton. lia. }
  pose proof (kp_ok _ _ _ _ Hk) as Hok1.
  assert (alloc s1 = (0, s1)) as -> by (unfold alloc; rewrite Pmm.pmm_alloc_none by (apply Hok1 || done); by destruct s1).
  assert (dir <> 0) as Hd0 by (pose proof (us_pos _ _ (sp_used _ _ Hs PDir dir eq_refl)); lia).
  assert (forall x, Z.land (Z.lor (Z.lor (Z.lor HAL_PG_PRESENT HAL_PG_WRITE) HAL_PG_USER) x) HAL_PG_USER = HAL_PG_USER) as Hland.
  { intros x. rewrite Z.land_lor_distr_l. apply Z.bits_inj'. intros i Hi. rewrite Z.lor_spec, !Z.land_spec.
    change HAL_PG_USER with (2 ^ 2). rewrite Z.pow2_bits_eqb by lia. destruct (Z.eqb_spec 2 i) as [<-|]; [reflexivity|by rewrite !andb_false_r]. }
  rewrite Hland. change (Z.lor (Z.lor (Z.lor 0 _) _) _) with 7.
  pose proof (pd_index_range va). pose proof (pt_index_range va).
  assert (mem_wf (set_page 0 zero_page s1)) as Hw1 by (apply mem_wf_set_page; [apply Hok1|apply zero_page_ok..]).
  eexists. split; [reflexivity|]. split; [exact He|]. pose proof (pte_make f (Z.lor (Z.lor (Z.lor HAL_PG_PRESENT HAL_PG_WRITE) HAL_PG_USER) flags)) as Hpte.
  set (v := Z.lor (Z.lor (frame_of f) _) _) in *.
  assert (forall g, entry (set_entry 0 (pt_index va) v g) dir (pd_index va) = entry g dir (pd_index va)) as Hent.
  { intros g. unfold entry, set_entry, set_page. cbn [mem with_mem]. by destruct (Z.eqb_spec dir 0). }
  rewrite Hent, entry_set_entry by (done || lia). rewrite !Z.eqb_refl. done.
Qed.

(** C27: Mapping an unmapped user page when there is a free frame for the page and, unless
    the directory has the page table already, a second one for the table: the call takes
    exactly these frames (one or two), makes the page resolve to a fresh one and leaves
    every other page of the space, its contents, and every page in use by anyone else as
    they were; the space stays a tree of distinct frames.  When there is no free frame at
    all the call fails and changes nothing.  In the case in between, one free frame and no
    page table, the call reports success but has put the page table into frame 0
    ([map_in_dir] does not check [pmm_alloc_frame]). *)
Theorem map_user_correct s dir va flags :
  ok s -> space s dir -> user_va va -> dir_resolve s dir va = 0 ->
  (avail s (S (table_cost s dir (pd_index va))) -> exists f s', hal_addrspace_map_user dir va flags s = (0, s') /\
    ok s' /\ space s' dir /\ f / 4096 ∈ free s /\ dir_resolve s' dir va = f /\
    free s' ⊆ free s /\ size (free s) = (size (free s') + S (table_cost s dir (pd_index va)))%nat /\
    (forall va', user_va va' -> va' / 4096 <> va / 4096 ->
       dir_resolve s' dir va' = dir_resolve s dir va' /\
       forall b, ubyte s dir va' = Some b -> ubyte s' dir va' = Some b) /\
    forall g, used s g -> (forall p, owned s dir p <> Some g) -> mem s' g = mem s g) /\
  (free s = ∅ -> hal_addrspace_map_user dir va flags s = (-1, s)) /\
  (size (free s) = 1%nat -> present (entry s dir (pd_index va)) = false ->
   exists s', hal_addrspace_map_user dir va flags s = (0, s') /\ free s' = ∅ /\
     present (entry s' dir (pd_index va)) = true /\ frame_of (entry s' dir (pd_index va)) = 0).
Proof.
  intros Hok Hs Hv Hr. pose proof (user_u32 _ Hv) as H32. split_and!.
  - intros Ha. rewrite dir_resolve_owned in Hr by (done || apply Hv).
    destruct (owned s dir (page_of va)) as [g|] eqn:E.
    { pose proof (us_pos _ _ (sp_used _ _ Hs _ _ E)). cbn [default from_option id] in Hr. lia. }
    destruct (map_user_takes s dir va flags 0 Hok Hs H32) as (f & s' & A & Hm & Hg & _ & Ho & Hf & HsA & Hoth);
      [apply Hv|done|by rewrite Nat.add_0_r|].
    pose proof (kp_free _ _ _ _ (gr_keeps _ _ _ _ Hg)) as Hfree. pose proof (gr_fresh _ _ _ _ Hg) as HA.
    exists f, s'. split_and!; try done.
    + apply Hg.
    + apply Hg.
    + rewrite dir_resolve_owned by (done || apply Hv). by rewrite Ho.
    + rewrite Hfree. by intros x [? _]%elem_of_difference.
    + rewrite Hfree, size_difference, HsA by done. pose proof (subseteq_size _ _ HA). lia.
    + intros va' Hv' Hne. pose proof (user_u32 _ Hv'). split.
      * rewrite !dir_resolve_owned by (done || apply Hv'). f_equal. apply Hoth. by apply page_of_ne.
      * intros b. apply (wr_bytes _ _ _ _ _ _ (wrote_grows s s' dir A 0 Hs Hg)); [done|lia].
    + intros g Hu Hn. apply (kp_mem _ _ _ _ (gr_keeps _ _ _ _ Hg)); [done|].
      intros [p Hp]%node_owned. by apply (Hn p).
  - intros He. unfold hal_addrspace_map_user, alloc.
    rewrite Pmm.pmm_alloc_none by (apply Hok || done). by destruct s.
  - intros H1 Hp. by apply map_user_zero_table.
Qed.

(** [hal_addrspace_copy_to] with enough free frames makes the bytes at [va] the
    bytes of the source, mapping pages on demand, and [hal_addrspace_memset] makes them
    [c]; neither changes another mapped byte of the space or a page of anyone else. *)
Theorem copy_to_correct s dir va src len c :
  ok s -> space s dir -> USER_BASE <= va -> va + len <= 4294967296 -> 0 <= len <= lenZ src -> bytes src ->
  avail s (2 * turns va len 0) ->
  exists s1 s2 A B, hal_addrspace_copy_to dir va src len s = s1 /\ wrote s s1 dir va (va + len) A /\
    (forall j, 0 <= j < len -> ubyte s1 dir (va + j) = Some (lget 0 src j)) /\
    hal_addrspace_memset dir va c len s = s2 /\ wrote s s2 dir va (va + len) B /\
    (forall j, 0 <= j < len -> ubyte s2 dir (va + j) = Some (u8 c)).
Proof.
  intros Hok Hs Hva Hend Hlen Hsrc Hav.
  destruct (page_loop_ok (fun done n => lsub src done n) (lget 0 src) dir va len) with
    (fuel := S (Z.to_nat len)) (done := 0) (s := s) as (s1 & A & E1 & Hw1 & Hb1); try done; try lia.
  { intros done n Hd Hn Hl. split_and!; [apply lenZ_lsub; lia|by apply bytes_lsub|].
    intros k Hk. apply lget_lsub; lia. }
  destruct (page_loop_ok (fun _ n => replicate (Z.to_nat n) (u8 c)) (fun _ => u8 c) dir va len) with
    (fuel := S (Z.to_nat len)) (done := 0) (s := s) as (s2 & B & E2 & Hw2 & Hb2); try done; try lia.
  { intros done n Hd Hn Hl. unfold lenZ. rewrite length_replicate. split_and!; [lia| |].
    - apply Forall_replicate. apply u8_range.
    - intros k Hk. apply lookup_lget; [lia|]. apply lookup_replicate_2. lia. }
  rewrite Z.add_0_r in Hw1, Hw2. exists s1, s2, A, B. split_and!; done.
Qed.

End Spaces.
