(* ===== verification/Image.v ===== *)
(** * Memory images

    The bytes of a range of an address space as a list, and what stores into mapped
    ranges do to them: the vocabulary in which loading a program and building its
    initial stack are specified. *)

From stdpp Require Import base list gmap numbers sets.
From S2P Require Import Prelude CString Pmm Layout Paging AddrSpace Spaces.

#[local] Open Scope Z_scope.

Module Image.
Import Paging AddrSpace Spaces.

(** ** Images *)

Definition image (s : machine) (dir va : Z) (l : list Z) : Prop :=
  forall j, 0 <= j < lenZ l -> ubyte s dir (va + j) = Some (lget 0 l j).

Lemma image_nil s dir va : image s dir va [].
Proof. intros j Hj. unfold lenZ in Hj. cbn in Hj. lia. Qed.

Lemma image_app s dir va l l' : image s dir va (l ++ l') <-> image s dir va l /\ image s dir (va + lenZ l) l'.
Proof.
  unfold image. rewrite lenZ_app. pose proof (lenZ_nonneg l) as Hl1. pose proof (lenZ_nonneg l') as Hl2. split.
  - intros H. split; intros j Hj.
    + rewrite H, lget_app by lia. by destruct (Z.ltb_spec j (lenZ l)); [|lia].
    + rewrite <- Z.add_assoc, H, lget_app by lia. destruct (Z.ltb_spec (lenZ l + j) (lenZ l)); [lia|]. do 2 f_equal. lia.
  - intros [H1 H2] j Hj. rewrite lget_app by lia. destruct (Z.ltb_spec j (lenZ l)); [apply H1; lia|].
    rewrite <- H2 by lia. f_equal. lia.
Qed.

(** A store elsewhere leaves an image alone. *)
Lemma image_kept s s' dir lo hi A va l : wrote s s' dir lo hi A -> USER_BASE <= va -> va + lenZ l <= 4294967296 ->
  va + lenZ l <= lo \/ hi <= va -> image s dir va l -> image s' dir va l.
Proof.
  intros Hw Hva Hend Hd H j Hj. apply (wr_bytes _ _ _ _ _ _ Hw); [unfold user_va; lia|lia|by apply H].
Qed.

Lemma wrote_weaken s s' dir lo hi lo' hi' A : wrote s s' dir lo hi A -> lo' <= lo -> hi <= hi' -> wrote s s' dir lo' hi' A.
Proof. intros [K S F M N B] Hlo Hhi. split; try done. intros a b Ha Hn. apply B; [done|lia]. Qed.

Lemma wrote_none s dir lo hi : ok s -> space s dir -> wrote s s dir lo hi ∅.
Proof. intros Hok Hs. split; try done; [split; try done; set_solver|auto]. Qed.

(** One store after another. *)
Lemma wrote_join s s' s'' dir lo hi A B : wrote s s' dir lo hi A -> wrote s' s'' dir lo hi B ->
  wrote s s'' dir lo hi (A ∪ B).
Proof.
  intros H1 H2. destruct H1 as [Hk1 Hs1 Hf1 Hm1 Hn1 Hb1], H2 as [Hk2 Hs2 Hf2 Hm2 Hn2 Hb2].
  rewrite (kp_free _ _ _ _ Hk1) in Hf2. split.
  - eapply keeps_mono; [by eapply keeps_trans|done|]. intros f Hu [Hp|[p Hp]]; [done|].
    destruct (Hn1 p f Hp) as [|Hin]; [eauto|]. by destruct (used_not_free _ _ Hu (Hf1 _ Hin)).
  - done.
  - set_solver.
  - intros p g Hp. by apply Hm2, Hm1.
  - intros p g Hp. destruct (Hn2 p g Hp) as [Hq|]; [destruct (Hn1 p g Hq); [by left|]|]; right; set_solver.
  - intros a b Ha Hn Hab. apply Hb2; [done..|]. by apply Hb1.
Qed.

Lemma wrote_seq s s' s'' dir lo hi : wrote s s' dir lo hi ∅ -> wrote s' s'' dir lo hi ∅ -> wrote s s'' dir lo hi ∅.
Proof. intros H1 H2. rewrite <- (union_idemp_L ∅). by apply (wrote_join _ s'). Qed.

(** ** Mapped ranges *)

Definition mapped (s : machine) (dir lo hi : Z) : Prop :=
  forall a, lo <= a < hi -> is_Some (owned s dir (page_of a)).

Lemma mapped_sub s dir lo hi lo' hi' : mapped s dir lo hi -> lo <= lo' -> hi' <= hi -> mapped s dir lo' hi'.
Proof. intros H H1 H2 a Ha. apply H. lia. Qed.

Lemma mapped_kept s s' dir lo hi lo' hi' A : wrote s s' dir lo' hi' A -> mapped s dir lo hi -> mapped s' dir lo hi.
Proof. intros Hw H a Ha. destruct (H a Ha) as [f Hf]. exists f. by apply (wr_mono _ _ _ _ _ _ Hw). Qed.

Lemma demand_mapped s dir cur f : space s dir -> user_va cur -> owned s dir (page_of cur) = Some f ->
  demand dir cur s = (f, s) /\ f <> 0.
Proof.
  intros Hs Hv E. unfold demand. rewrite dir_resolve_owned by (apply user_u32, Hv || apply Hv). rewrite E.
  cbn [default from_option id]. pose proof (us_pos _ _ (sp_used _ _ Hs _ _ E)). destruct (Z.eqb_spec f 0); [lia|].
  split; [done|lia].
Qed.

Section loop.
Context (data : Z -> Z -> list Z) (D : Z -> Z) (dir va len : Z).
Hypothesis data_ok : forall done n, 0 <= done -> 0 <= n -> done + n <= len ->
  lenZ (data done n) = n /\ bytes (data done n) /\
  forall k, 0 <= k < n -> lget 0 (data done n) k = D (done + k).
Hypothesis Hva : USER_BASE <= va.
Hypothesis Hend : va + len <= 4294967296.

Lemma page_loop_mapped fuel : forall done s, ok s -> space s dir -> 0 <= done <= len ->
  len - done < Z.of_nat fuel -> mapped s dir (va + done) (va + len) ->
  exists s', page_loop data fuel dir va len done s = s' /\ wrote s s' dir (va + done) (va + len) ∅ /\
    forall j, done <= j < len -> ubyte s' dir (va + j) = Some (D j).
Proof.
  induction fuel as [|fuel IH]; intros done s Hok Hs Hdone Hfuel Hm; [lia|]. cbn [page_loop].
  destruct (Z.ltb_spec done len) as [Hlt|]; [|exists s; split_and!; [done|by apply wrote_none|lia]].
  assert (user_va (va + done)) as Hv by (unfold user_va in *; lia).
  pose proof (user_u32 _ Hv) as H32. rewrite (u32_small (va + done)), low_page by done.
  set (cur := va + done) in *. set (chunk := Z.min (PAGE_SIZE - cur mod 4096) (len - done)).
  assert (0 < chunk <= len - done /\ cur mod 4096 + chunk <= 4096) as [Hc Hco] by (unfold chunk, PAGE_SIZE; dlia).
  destruct (Hm cur) as [f Hf]; [unfold cur; lia|].
  destruct (demand_mapped s dir cur f Hs Hv Hf) as [-> Hf0]. destruct (Z.eqb_spec f 0); [done|].
  destruct (data_ok done chunk) as (Hdl & Hdb & HdD); [lia|lia|lia|].
  destruct (wrote_page s dir cur f (data done chunk) Hok Hs Hv Hf Hdb) as [Hw Hby]; [lia|].
  set (s2 := set_page _ _ _) in *. rewrite Hdl in Hw, Hby.
  destruct (IH (done + chunk) s2) as (s' & -> & Hw' & HD);
    [apply Hw|apply Hw|lia|lia|apply (mapped_kept _ _ _ _ _ _ _ _ Hw), (mapped_sub _ _ _ _ _ _ Hm); unfold cur; lia|].
  replace (va + (done + chunk)) with (cur + chunk) in Hw' by (unfold cur; lia).
  exists s'. split_and!; [done| |].
  - apply (wrote_seq s s2 s'); [apply (wrote_weaken _ _ _ _ _ _ _ _ Hw)|apply (wrote_weaken _ _ _ _ _ _ _ _ Hw')]; unfold cur; lia.
  - intros j Hj. destruct (Z.lt_ge_cases j (done + chunk)) as [Hjc|]; [|apply HD; lia].
    apply (wr_bytes _ _ _ _ _ _ Hw'); [unfold user_va in *; lia|unfold cur; lia|].
    replace (va + j) with (cur + (j - done)) by (unfold cur; lia).
    rewrite Hby by lia. f_equal. rewrite HdD by lia. f_equal. lia.
Qed.
End loop.

(** What the two copying routines do on mapped ranges. *)
Lemma copy_mapped s dir va src len : ok s -> space s dir -> USER_BASE <= va -> va + len <= 4294967296 ->
  0 <= len <= lenZ src -> bytes src -> mapped s dir va (va + len) ->
  let s' := hal_addrspace_copy_to dir va src len s in
  wrote s s' dir va (va + len) ∅ /\ image s' dir va (lsub src 0 len).
Proof.
  intros Hok Hs Hva Hend Hlen Hsrc Hm.
  destruct (page_loop_mapped (fun done n => lsub src done n) (lget 0 src) dir va len) with
    (fuel := S (Z.to_nat len)) (done := 0) (s := s) as (s1 & E1 & Hw1 & Hb1); try done; try lia.
  { intros done n Hd Hn Hl. split_and!; [apply lenZ_lsub; lia|by apply bytes_lsub|]. intros k Hk. apply lget_lsub; lia. }
  { by rewrite Z.add_0_r. }
  rewrite Z.add_0_r in Hw1. cbv zeta. unfold hal_addrspace_copy_to. rewrite E1. split; [done|].
  intros j Hj. rewrite lenZ_lsub in Hj by lia. rewrite lget_lsub, Z.add_0_l by lia. by apply Hb1.
Qed.

Lemma memset_mapped s dir va c len : ok s -> space s dir -> USER_BASE <= va -> va + len <= 4294967296 -> 0 <= len ->
  mapped s dir va (va + len) ->
  let s' := hal_addrspace_memset dir va c len s in
  wrote s s' dir va (va + len) ∅ /\ image s' dir va (replicate (Z.to_nat len) (u8 c)).
Proof.
  intros Hok Hs Hva Hend Hlen Hm.
  destruct (page_loop_mapped (fun _ n => replicate (Z.to_nat n) (u8 c)) (fun _ => u8 c) dir va len) with
    (fuel := S (Z.to_nat len)) (done := 0) (s := s) as (s1 & E1 & Hw1 & Hb1); try done; try lia.
  { intros done n Hd Hn Hl. unfold lenZ. rewrite length_replicate. split_and!; [lia| |].
    - apply Forall_replicate. apply u8_range.
    - intros k Hk. apply lookup_lget; [lia|]. apply lookup_replicate_2. lia. }
  { by rewrite Z.add_0_r. }
  rewrite Z.add_0_r in Hw1. cbv zeta. unfold hal_addrspace_memset. rewrite E1. split; [done|].
  intros j Hj. unfold lenZ in Hj. rewrite length_replicate in Hj. rewrite Hb1 by lia. f_equal. symmetry.
  apply lookup_lget; [lia|]. apply lookup_replicate_2. lia.
Qed.

End Image.
