(* ===== verification/SpaceClone.v ===== *)
(** * Cloning and destroying address spaces (kernel/i386/paging.c)

    [hal_addrspace_clone] is what fork relies on: the child gets its own copy of every
    page of the parent.  [hal_addrspace_destroy] gives back exactly the frames of a
    space, so that a clone followed by a destroy leaves the allocator as it was. *)

From stdpp Require Import base list gmap numbers sets.
From S2P Require Import Prelude CString Pmm Layout Paging AddrSpace Spaces.

#[local] Open Scope Z_scope.

Module SpaceClone.
Import Paging AddrSpace Spaces.

#[local] Opaque zero_page.

(** No frame belongs to both spaces. *)
Definition apart (s : machine) (dir1 dir2 : Z) : Prop :=
  forall p q f, owned s dir1 p = Some f -> owned s dir2 q <> Some f.

(** The page of a space at a directory and a table index: the flags of the two
    entries that lead to it and its contents. *)
Definition leaf (s : machine) (dir di ti : Z) : option (Z * Z * list Z) :=
  let pde := entry s dir di in
  if present pde then
    let pte := entry s (frame_of pde) ti in
    if present pte then Some (flags_of pde, flags_of pte, mem s (frame_of pte)) else None
  else None.

(** A space from which the growing space is apart is left alone. *)
Lemma grows_apart s s' src dst A : space s src -> apart s src dst -> grows s s' dst A ->
  space s' src /\ (forall p, owned s' src p = owned s src p) /\
  (forall p f, owned s src p = Some f -> mem s' f = mem s f) /\ apart s' src dst.
Proof.
  intros Hs Hap Hg. pose proof (gr_keeps _ _ _ _ Hg) as Hk.
  destruct (space_frame _ _ _ _ src Hk Hs) as (Hs' & Ho & Hm).
  { intros p f Hp [q Hq]%node_owned. by apply (Hap p q f). }
  split_and!; [done|done|done|]. intros p q f. rewrite Ho. intros Hp Hq.
  destruct (gr_new _ _ _ _ Hg q f Hq) as [Hq'|Hin]; [by apply (Hap p q f)|].
  apply (used_not_free s f); [by apply (sp_used _ _ Hs p)|by apply (gr_fresh _ _ _ _ Hg)].
Qed.

Lemma leaf_src s s' src : space s src -> (forall p, owned s' src p = owned s src p) ->
  (forall p f, owned s src p = Some f -> mem s' f = mem s f) ->
  forall di ti, 256 <= di < 1024 -> 0 <= ti < 1024 -> leaf s' src di ti = leaf s src di ti.
Proof.
  intros Hs Ho Hm di ti Hdi Hti. unfold leaf.
  assert (entry s' src di = entry s src di) as -> by (unfold entry; by rewrite (Hm PDir)).
  destruct (present (entry s src di)) eqn:E; [|done].
  assert (table_at s src di = Some (frame_of (entry s src di))) as Ht by (by apply table_at_Some).
  assert (entry s' (frame_of (entry s src di)) ti = entry s (frame_of (entry s src di)) ti) as ->
    by (unfold entry at 1 3; by rewrite (Hm (PTable di) _ Ht)).
  destruct (present (entry s (frame_of _) ti)) eqn:E'; [|done].
  rewrite (Hm (PPage di ti)); [done|]. rewrite (owned_leaf s src di ti _ Ht Hti). by rewrite E'.
Qed.

(** A page that is there survives growth, if the directory entry does. *)
Lemma leaf_grows s s' dst A di ti x : space s dst -> grows s s' dst A -> 256 <= di < 1024 ->
  0 <= ti < 1024 -> entry s' dst di = entry s dst di -> leaf s dst di ti = Some x -> leaf s' dst di ti = Some x.
Proof.
  intros Hs Hg Hdi Hti He. unfold leaf. rewrite He.
  destruct (present (entry s dst di)) eqn:E; [|done].
  assert (table_at s dst di = Some (frame_of (entry s dst di))) as Ht by (by apply table_at_Some).
  destruct (present (entry s (frame_of _) ti)) eqn:E'; [|done].
  rewrite (gr_leaf _ _ _ _ Hg di ti _ Ht Hti E'), E'.
  assert (owned s dst (PPage di ti) = Some (frame_of (entry s (frame_of (entry s dst di)) ti))) as Ho
    by (rewrite (owned_leaf s dst di ti _ Ht Hti); by rewrite E').
  by destruct (grows_page s s' dst A di ti _ Hs Hg Ho) as [_ ->].
Qed.

(** ** Creating *)

Lemma create_ok s n : ok s -> used s (kernel_dir s) -> avail s (S n) ->
  exists dir s', hal_addrspace_create s = (dir, s') /\ dir <> 0 /\ dir / 4096 ∈ free s /\
    keeps (fun _ => False) {[dir / 4096]} s s' /\ space s' dir /\ avail s' n /\
    (forall i, 0 <= i < 256 -> entry s' dir i = entry s (kernel_dir s) i) /\
    (forall i, 256 <= i < 1024 -> entry s' dir i = 0).
Proof.
  intros Hok Hkd Ha. unfold hal_addrspace_create.
  destruct (alloc_grows s n Hok Ha) as (dir & s1 & -> & Hfr & Hu & H0 & Hav & Hk & Hm & _).
  destruct (Z.eqb_spec dir 0); [done|].
  destruct zero_page_ok as [Hzl Hzb].
  pose proof (set_page_keeps s1 dir zero_page (kp_ok _ _ _ _ Hk) Hzl Hzb) as Hk2. clear Hzl Hzb.
  set (s2 := set_page dir zero_page s1) in *.
  assert (kernel_dir s <> dir) as Hne by (intros E; apply (used_not_free s dir); [by rewrite <- E|done]).
  set (P := fun i t => keeps (eq dir) ∅ s2 t /\ free t = free s2 /\
    (forall g, g <> dir -> mem t g = mem s2 g) /\
    (forall j, 0 <= j < i -> entry t dir j = entry s (kernel_dir s) j) /\
    (forall j, i <= j < 1024 -> entry t dir j = 0)).
  assert (forall t, P 256 t -> exists dir' s', (dir, t) = (dir', s') /\ dir' <> 0 /\ dir' / 4096 ∈ free s /\
    keeps (fun _ => False) {[dir' / 4096]} s s' /\ space s' dir' /\ avail s' n /\
    (forall i, 0 <= i < 256 -> entry s' dir' i = entry s (kernel_dir s) i) /\
    (forall i, 256 <= i < 1024 -> entry s' dir' i = 0)) as Hfin.
  { intros t (Hkt & Hft & _ & Hlo & Hhi). exists dir, t. split_and!; try done.
    - eapply keeps_mono; [eapply keeps_trans; [exact Hk|eapply keeps_trans; [exact Hk2|exact Hkt]]
        |by rewrite !union_empty_r_L|].
      intros f Hf [[]|[<-|<-]]; destruct (used_not_free s dir Hf Hfr).
    - assert (forall di, table_at t dir di = None) as Hno.
      { intros di. destruct (table_at t dir di) as [x|] eqn:E; [|done].
        apply table_at_Some in E as (Hdi & Hp & _). by rewrite Hhi in Hp. }
      split.
      + intros [|di|di ti] f; cbn [owned]; rewrite ?Hno; [|done|done]. intros [= <-].
        apply (keeps_used _ _ _ _ _ Hkt), (keeps_used _ _ _ _ _ Hk2), Hu.
      + intros [|di|di ti] [|dj|dj tj] f; cbn [owned]; rewrite ?Hno; done.
    - unfold avail. by rewrite Hft. }
  apply Hfin. change (Z.to_nat kernel_pdes) with 256%nat.
  apply (for_loop_ind P _ 0 256%nat s2).
  - unfold P. split_and!; try done; [|intros; lia|].
    + eapply keeps_mono; [apply keeps_refl; apply Hk2|done|done].
    + intros j Hj. unfold s2. rewrite entry_set_page, Z.eqb_refl. apply rd32_zero_page.
  - intros i t Hi (Hkt & Hft & Hmt & Hlo & Hhi).
    pose proof (kp_ok _ _ _ _ Hkt) as Hokt.
    assert (kernel_dir t = kernel_dir s) as Hkdt.
    { by rewrite (kp_dir _ _ _ _ Hkt), (kp_dir _ _ _ _ Hk2), (kp_dir _ _ _ _ Hk). }
    assert (entry t (kernel_dir t) i = entry s (kernel_dir s) i) as Hval.
    { rewrite Hkdt. unfold entry. rewrite Hmt by done. unfold s2. cbn [mem set_page with_mem].
      destruct (Z.eqb_spec (kernel_dir s) dir); [done|]. by rewrite Hm. }
    rewrite Hval. assert (is_u32 (entry s (kernel_dir s) i)) by (apply entry_u32; [apply Hok|lia]).
    pose proof (set_entry_keeps t dir i (entry s (kernel_dir s) i) Hokt ltac:(lia)) as Hks.
    unfold P. split_and!.
    + eapply keeps_mono; [eapply keeps_trans; [exact Hkt|exact Hks]|by rewrite union_empty_r_L|].
      by intros f _ [|].
    + rewrite <- Hft. done.
    + intros g Hg. rewrite <- Hmt by done. cbn. by destruct (Z.eqb_spec g dir).
    + intros j Hj. rewrite entry_set_entry by (done || lia || apply Hokt). rewrite Z.eqb_refl.
      destruct (Z.eqb_spec j i) as [->|]; [done|]. apply Hlo. lia.
    + intros j Hj. rewrite entry_set_entry by (done || lia || apply Hokt). rewrite Z.eqb_refl.
      destruct (Z.eqb_spec j i) as [->|]; [lia|]. apply Hhi. lia.
Qed.

(** ** Cloning *)

Lemma leaf_None s dir di ti : 256 <= di < 1024 -> 0 <= ti < 1024 ->
  leaf s dir di ti = None <-> owned s dir (PPage di ti) = None.
Proof.
  intros Hdi Hti. unfold leaf. destruct (present (entry s dir di)) eqn:E.
  - assert (table_at s dir di = Some (frame_of (entry s dir di))) as Ht by (by apply table_at_Some).
    rewrite (owned_leaf s dir di ti _ Ht Hti). by destruct (present (entry s (frame_of _) ti)).
  - cbn [owned]. unfold table_at. by rewrite E, andb_false_r.
Qed.

Lemma leaf_stable s s' dst A di ti : space s dst -> grows s s' dst A -> 256 <= di < 1024 ->
  0 <= ti < 1024 -> entry s' dst di = entry s dst di ->
  owned s' dst (PPage di ti) = owned s dst (PPage di ti) -> leaf s' dst di ti = leaf s dst di ti.
Proof.
  intros Hs Hg Hdi Hti He Ho. destruct (leaf s dst di ti) as [x|] eqn:E.
  - by apply (leaf_grows s s' dst A).
  - apply leaf_None in E; [|done|done]. apply leaf_None; [done|done|congruence].
Qed.

(** The pages a table maps, from index [ti] on, and the frames a clone of it takes. *)
Definition count_pages (s : machine) (table ti : Z) (n : nat) : nat :=
  length (List.filter (fun i => present (entry s table i)) (range ti n)).
Definition need (s : machine) (dir di : Z) : nat :=
  if present (entry s dir di) then S (count_pages s (frame_of (entry s dir di)) 0 1024) else 0.
Definition needs (s : machine) (dir di : Z) (n : nat) : nat := sum_list_with (need s dir) (range di n).

Lemma count_pages_S s table ti n : count_pages s table ti (S n) =
  ((if present (entry s table ti) then 1 else 0) + count_pages s table (ti + 1) n)%nat.
Proof. unfold count_pages. cbn [range List.filter]. by destruct (present _). Qed.

Lemma needs_S s dir di n : needs s dir di (S n) = (need s dir di + needs s dir (di + 1) n)%nat.
Proof. done. Qed.

Lemma count_pages_ext s s' table ti n : mem s' table = mem s table ->
  count_pages s' table ti n = count_pages s table ti n.
Proof. intros H. unfold count_pages, entry. by rewrite H. Qed.

Lemma need_ext s s' src di : space s src -> 256 <= di < 1024 ->
  (forall p f, owned s src p = Some f -> mem s' f = mem s f) -> need s' src di = need s src di.
Proof.
  intros Hs Hdi Hm. unfold need.
  assert (entry s' src di = entry s src di) as -> by (unfold entry; by rewrite (Hm PDir)).
  destruct (present (entry s src di)) eqn:Ep; [|done]. f_equal. apply count_pages_ext.
  apply (Hm (PTable di)). by apply table_at_Some.
Qed.

Lemma needs_ext s s' src n : space s src ->
  (forall p f, owned s src p = Some f -> mem s' f = mem s f) ->
  forall di, 256 <= di -> di + Z.of_nat n <= 1024 -> needs s' src di n = needs s src di n.
Proof.
  intros Hs Hm. induction n as [|n IH]; intros di H1 H2; [done|].
  rewrite !needs_S, IH, (need_ext s) by (done || lia). done.
Qed.

#[local] Opaque count_pages needs for_loop.

Lemma avail_le s n m : avail s n -> (m <= n)%nat -> avail s m.
Proof. unfold avail. lia. Qed.

Lemma clone_page_ok s src dst di ti ts td n :
  ok s -> space s src -> space s dst -> apart s src dst -> table_at s src di = Some ts ->
  table_at s dst di = Some td -> 0 <= ti < 1024 -> owned s dst (PPage di ti) = None ->
  flags_of (entry s dst di) = flags_of (entry s src di) ->
  avail s ((if present (entry s ts ti) then 1 else 0) + n) ->
  exists A, grows s (clone_page ts td ti s) dst A /\ avail (clone_page ts td ti s) n /\
    mem (clone_page ts td ti s) dst = mem s dst /\
    leaf (clone_page ts td ti s) dst di ti = leaf s src di ti /\
    forall d j, PPage d j <> PPage di ti ->
      owned (clone_page ts td ti s) dst (PPage d j) = owned s dst (PPage d j).
Proof.
  intros Hok Hs Hd Hap Hts Htd Hti Hno Hfl Hav. unfold clone_page.
  pose proof Hts as (Hdi & Hps & Hfs)%table_at_Some.
  destruct (present (entry s ts ti)) eqn:Ep; cbn [negb].
  2:{ exists ∅. split_and!; [by apply grows_refl|done|done| |done].
      rewrite (proj2 (leaf_None s dst di ti Hdi Hti) Hno). symmetry. apply leaf_None; [done|done|].
      rewrite (owned_leaf s src di ti ts Hts Hti). by rewrite Ep. }
  destruct (ok_mem _ Hok (frame_of (entry s ts ti))) as [Hcl Hcb].
  destruct (new_page s dst di ti td (flags_of (entry s ts ti)) (mem s (frame_of (entry s ts ti))) n) as
    (f & s1 & -> & _ & Hm1 & Hg & Hav' & Hmf & Hef & Hmd & Ho); try done;
    [apply flags_of_range|by rewrite present_flags|].
  assert (entry (set_page f (mem s1 (frame_of (entry s ts ti))) s1) ts ti = entry s ts ti) as ->.
  { rewrite entry_set_page. destruct (Z.eqb_spec ts f) as [->|]; [|unfold entry; by rewrite Hm1].
    exfalso. apply (used_not_free s f); [by apply (sp_used _ _ Hs (PTable di))|].
    apply (gr_fresh _ _ _ _ Hg). by apply elem_of_singleton. }
  rewrite Hm1. cbv zeta in *. set (s' := set_entry _ _ _ _) in *. exists {[f / 4096]}.
  split_and!; [done|done|done| |intros d j Hne; rewrite Ho; by rewrite decide_False].
  unfold leaf. assert (entry s' dst di = entry s dst di) as -> by (unfold entry; by rewrite Hmd).
  pose proof Htd as (_ & -> & ->)%table_at_Some. rewrite Hef, Hps, Hfs, Ep.
  assert (used s' f) as Huf.
  { apply (sp_used _ _ (gr_space _ _ _ _ Hg) (PPage di ti)). rewrite Ho. by rewrite decide_True. }
  destruct (entry_make f (flags_of (entry s ts ti))) as (_ & Hf1 & Hf2 & Hf3);
    [apply (used_u32 s'); [apply Hg|done]|apply Huf|apply flags_of_range|].
  rewrite Hf1, Hf2, Hf3, present_flags, Ep, Hmf, Hfl. done.
Qed.

Lemma clone_pages_ok s src dst di ts td n :
  ok s -> space s src -> space s dst -> apart s src dst -> table_at s src di = Some ts ->
  table_at s dst di = Some td -> (forall ti, 0 <= ti < 1024 -> owned s dst (PPage di ti) = None) ->
  flags_of (entry s dst di) = flags_of (entry s src di) -> avail s (count_pages s ts 0 1024 + n) ->
  exists t A, for_loop (clone_page ts td) 0 1024%nat s = t /\ grows s t dst A /\ avail t n /\
    mem t dst = mem s dst /\
    (forall ti, 0 <= ti < 1024 -> leaf t dst di ti = leaf s src di ti) /\
    forall d j, d <> di -> owned t dst (PPage d j) = owned s dst (PPage d j).
Proof.
  intros Hok Hs Hd Hap Hts Htd Hno Hfl Hav. pose proof Hts as (Hdi & _)%table_at_Some.
  set (P := fun i t => exists A, grows s t dst A /\ avail t (count_pages s ts i (Z.to_nat (1024 - i)) + n) /\
    mem t dst = mem s dst /\ (forall ti, 0 <= ti < i -> leaf t dst di ti = leaf s src di ti) /\
    (forall ti, i <= ti < 1024 -> owned t dst (PPage di ti) = None) /\
    forall d j, d <> di -> owned t dst (PPage d j) = owned s dst (PPage d j)).
  assert (P 1024 (for_loop (clone_page ts td) 0 1024%nat s)) as (A & Hg & Hav' & Hm & Hl & _ & Ho).
  2:{ eexists _, A. split_and!; done. }
  apply (for_loop_ind P _ 0 1024%nat s).
  { exists ∅. split_and!; [by apply grows_refl|done|done|lia|done|done]. }
  intros i t Hi (A & Hg & Hav' & Hm & Hl & Hn & Ho).
  destruct (grows_apart s t src dst A Hs Hap Hg) as (Hs' & Hos & Hms & Hap').
  assert (entry t dst di = entry s dst di) as Hed by (unfold entry; by rewrite Hm).
  assert (entry t src di = entry s src di) as Hes by (unfold entry; by rewrite (Hms PDir)).
  assert (entry t ts i = entry s ts i) as Hets by (unfold entry; by rewrite (Hms (PTable di))).
  destruct (clone_page_ok t src dst di i ts td
    (count_pages s ts (i + 1) (Z.to_nat (1024 - (i + 1))) + n)) as (B & Hg' & Hav'' & Hm' & Hl' & Ho').
  { apply Hg. } { done. } { apply Hg. } { done. } { rewrite <- Hts. apply (Hos (PTable di)). }
  { by apply (gr_mono _ _ _ _ Hg (PTable di)). } { lia. } { apply Hn. lia. } { congruence. }
  { rewrite Hets. replace (Z.to_nat (1024 - i)) with (S (Z.to_nat (1024 - (i + 1)))) in Hav' by lia.
    rewrite count_pages_S in Hav'. by rewrite Nat.add_assoc. }
  set (t' := clone_page ts td i t) in *. exists (A ∪ B).
  assert (entry t' dst di = entry t dst di) as Hed' by (unfold entry; by rewrite Hm').
  split_and!; [by eapply grows_trans|done|congruence| | |].
  - intros ti Hti. destruct (decide (ti = i)) as [->|].
    + rewrite Hl'. apply (leaf_src s t src Hs Hos Hms); lia.
    + rewrite <- (Hl ti) by lia. apply (leaf_stable t t' dst B); [apply Hg|done|done|lia|done|].
      apply Ho'. congruence.
  - intros ti Hti. rewrite Ho' by (intros [=]; lia). apply Hn. lia.
  - intros d j Hne. rewrite Ho' by congruence. by apply Ho.
Qed.

Lemma clone_table_ok s src dst di n :
  ok s -> space s src -> space s dst -> apart s src dst -> 256 <= di < 1024 ->
  table_at s dst di = None -> avail s (need s src di + n) ->
  exists t A, clone_table src dst di s = t /\ grows s t dst A /\ avail t n /\
    (forall j, 0 <= j < 1024 -> j <> di -> entry t dst j = entry s dst j) /\
    (forall ti, 0 <= ti < 1024 -> leaf t dst di ti = leaf s src di ti) /\
    forall d j, d <> di -> owned t dst (PPage d j) = owned s dst (PPage d j).
Proof.
  intros Hok Hs Hd Hap Hdi Hno Hav. unfold clone_table. unfold need in Hav.
  assert (forall ti, owned s dst (PPage di ti) = None) as Hnop by (intros; cbn [owned]; by rewrite Hno).
  destruct (present (entry s src di)) eqn:Ep; cbn [negb].
  2:{ exists s, ∅. split_and!; [done|by apply grows_refl|done|done| |done]. intros ti Hti.
      rewrite (proj2 (leaf_None s dst di ti Hdi Hti) (Hnop ti)). unfold leaf. by rewrite Ep. }
  assert (table_at s src di = Some (frame_of (entry s src di))) as Hts by (by apply table_at_Some).
  set (ts := frame_of (entry s src di)) in *.
  destruct (new_table s dst di (flags_of (entry s src di)) (count_pages s ts 0 1024 + n)) as
    (td & s1 & -> & _ & Hg & Hav' & Hent & Hother & Ho); try done;
    [apply flags_of_range|by rewrite present_flags|].
  assert (entry (set_page td zero_page s1) src di = entry s src di) as Hsd.
  { destruct (grows_apart s _ src dst _ Hs Hap Hg) as (_ & _ & Hms & _).
    pose proof (Hms PDir src eq_refl) as He. unfold entry. rewrite <- He.
    unfold set_entry, set_page. cbn [mem with_mem]. destruct (Z.eqb_spec src dst) as [->|]; [|done].
    by destruct (Hap PDir PDir dst). }
  rewrite Hsd. cbv zeta in *. set (s2 := set_entry _ _ _ _) in *.
  destruct (grows_apart s s2 src dst _ Hs Hap Hg) as (Hs2 & Hos & Hms & Hap2).
  assert (entry s2 src di = entry s src di) as Hse by (unfold entry; by rewrite (Hms PDir)).
  assert (table_at s2 src di = Some ts) as Hts2 by (by rewrite <- Hts; apply (Hos (PTable di))).
  assert (table_at s2 dst di = Some td) as Htd2.
  { pose proof (Ho (PTable di)) as Ht. by rewrite decide_True in Ht. }
  assert (forall i, entry s2 ts i = entry s ts i) as Hets
    by (intros i; unfold entry; by rewrite (Hms (PTable di) ts Hts)).
  assert (used s2 td) as Hu by (by apply (sp_used _ _ (gr_space _ _ _ _ Hg) (PTable di))).
  destruct (clone_pages_ok s2 src dst di ts td n) as (t & B & Hloop & Hg2 & Hav2 & Hm2 & Hl2 & Ho2); try assumption.
  { apply Hg. } { apply Hg. } { intros ti _. rewrite Ho. rewrite decide_False by done. apply Hnop. }
  { rewrite Hent, Hse. apply entry_make; [by apply (used_u32 s2); [apply Hg|]|apply Hu|apply flags_of_range]. }
  { rewrite (count_pages_ext s) by apply (Hms (PTable di) ts Hts). done. }
  change (Z.to_nat ENTRIES) with 1024%nat. rewrite Hloop. exists t, ({[td / 4096]} ∪ B).
  split_and!; [done|by eapply grows_trans|done| | |].
  - intros j Hj Hne. unfold entry. rewrite Hm2. by apply Hother.
  - intros ti Hti. rewrite Hl2 by done. by apply (leaf_src s s2 src Hs Hos Hms).
  - intros d j Hne. rewrite Ho2 by done. rewrite Ho. by rewrite decide_False.
Qed.

(** The whole user part. *)
Lemma clone_tables_ok s src dst : ok s -> space s src -> space s dst -> apart s src dst ->
  (forall di, 256 <= di < 1024 -> table_at s dst di = None) -> avail s (needs s src 256 768) ->
  exists t A, for_loop (clone_table src dst) 256 768%nat s = t /\ grows s t dst A /\
    (forall j, 0 <= j < 256 -> entry t dst j = entry s dst j) /\
    forall di ti, 256 <= di < 1024 -> 0 <= ti < 1024 -> leaf t dst di ti = leaf s src di ti.
Proof.
  intros Hok Hs Hd Hap Hno Hav.
  set (P := fun i t => exists A, grows s t dst A /\ avail t (needs s src i (Z.to_nat (1024 - i))) /\
    (forall j, 0 <= j < 256 -> entry t dst j = entry s dst j) /\
    (forall di ti, 256 <= di < i -> 0 <= ti < 1024 -> leaf t dst di ti = leaf s src di ti) /\
    forall di, i <= di < 1024 -> table_at t dst di = None).
  assert (P 1024 (for_loop (clone_table src dst) 256 768%nat s)) as (A & Hg & _ & He & Hl & _).
  2:{ eexists _, A. split_and!; done. }
  apply (for_loop_ind P _ 256 768%nat s).
  { exists ∅. split_and!; [by apply grows_refl|done|done|lia|done]. }
  intros i t Hi (A & Hg & Hav' & He & Hl & Hn).
  destruct (grows_apart s t src dst A Hs Hap Hg) as (Hs' & Hos & Hms & Hap').
  assert (need t src i = need s src i) as Hneed by (apply need_ext; (done || lia)).
  replace (Z.to_nat (1024 - i)) with (S (Z.to_nat (1024 - (i + 1)))) in Hav' by lia.
  rewrite needs_S, <- Hneed in Hav'.
  destruct (clone_table_ok t src dst i _ (kp_ok _ _ _ _ (gr_keeps _ _ _ _ Hg)) Hs' (gr_space _ _ _ _ Hg) Hap'
    ltac:(lia) (Hn i ltac:(lia)) Hav') as (t' & B & -> & Hg' & Hav'' & He' & Hl' & Ho').
  exists (A ∪ B). split_and!; [by eapply grows_trans|done| | |].
  - intros j Hj. rewrite He' by lia. by apply He.
  - intros di ti Hdi Hti. destruct (decide (di = i)) as [->|].
    + rewrite Hl' by done. apply (leaf_src s t src Hs Hos Hms); lia.
    + rewrite <- (Hl di ti) by lia. apply (leaf_stable t t' dst B); [apply Hg|done|lia|done| |].
      * apply He'; lia.
      * by apply Ho'.
  - intros di Hdi. unfold table_at. rewrite He' by lia. apply Hn. lia.
Qed.

Lemma apart_fresh s dir s' new : space s dir -> (forall p, owned s' dir p = owned s dir p) ->
  new / 4096 ∈ free s -> (forall p f, owned s' new p = Some f -> f = new) -> apart s' dir new.
Proof.
  intros Hs Ho Hf Hn p q f. rewrite Ho. intros Hp Hq. apply Hn in Hq as ->.
  apply (used_not_free s new); [by apply (sp_used _ _ Hs p)|done].
Qed.

Lemma clone_spec s src :
  ok s -> space s src -> used s (kernel_dir s) -> avail s (S (needs s src 256 768)) ->
  exists new s', hal_addrspace_clone src s = (new, s') /\ new <> 0 /\ ok s' /\
    space s' new /\ space s' src /\ apart s' src new /\
    kernel_dir_phys s' = kernel_dir_phys s /\ new / 4096 ∈ free s /\
    (forall g, used s g -> used s' g /\ mem s' g = mem s g) /\
    (forall i, 0 <= i < 256 -> entry s' new i = entry s (kernel_dir s) i) /\
    (forall di ti, 256 <= di < 1024 -> 0 <= ti < 1024 -> leaf s' new di ti = leaf s src di ti) /\
    forall n, n ∈ free s <-> n ∈ free s' \/ exists p f, owned s' new p = Some f /\ n = f / 4096.
Proof.
  intros Hok Hs Hkd Hav. unfold hal_addrspace_clone.
  destruct (create_ok s _ Hok Hkd Hav) as (new & s1 & -> & H0 & Hfr & Hk & Hn1 & Hav1 & Hlo & Hhi).
  destruct (Z.eqb_spec new 0); [done|].
  destruct (space_frame _ _ _ _ src Hk Hs) as (Hs1 & Ho1 & Hm1); [tauto|].
  assert (forall di, table_at s1 new di = None) as Hno.
  { intros di. destruct (table_at s1 new di) as [x|] eqn:E; [|done].
    apply table_at_Some in E as (Hdi & Hp & _). by rewrite Hhi in Hp. }
  assert (forall p f, owned s1 new p = Some f -> f = new) as Honly.
  { intros [|d|d i] f; cbn [owned]; rewrite ?Hno; [by intros [=]|done|done]. }
  change (Z.to_nat (ENTRIES - kernel_pdes)) with 768%nat. change kernel_pdes with 256.
  rewrite <- (needs_ext s s1 src 768 Hs Hm1) in Hav1 by lia.
  pose proof (apart_fresh s src s1 new Hs Ho1 Hfr Honly) as Hap.
  destruct (clone_tables_ok s1 src new (kp_ok _ _ _ _ Hk) Hs1 Hn1 Hap ltac:(auto) Hav1) as
    (t & A & -> & Hg & He & Hl).
  destruct (grows_apart s1 t src new A Hs1 Hap Hg) as (Hst & _ & _ & Hapt).
  pose proof (gr_keeps _ _ _ _ Hg) as Hkg.
  exists new, t. split_and!; try done; [apply Hg|apply Hg| | | | |].
  - by rewrite (kp_dirp _ _ _ _ Hkg), (kp_dirp _ _ _ _ Hk).
  - intros g Hu. pose proof (keeps_used _ _ _ _ _ Hk Hu) as Hu1. split; [by apply (keeps_used _ _ _ _ _ Hkg)|].
    rewrite (kp_mem _ _ _ _ Hkg g Hu1); [apply (kp_mem _ _ _ _ Hk); tauto|].
    intros [p Hp]%node_owned. apply Honly in Hp as ->. by apply (used_not_free s new).
  - intros i Hi. rewrite He by done. by apply Hlo.
  - intros di ti Hdi Hti. rewrite Hl by done. by apply (leaf_src s s1 src).
  - intros n'. rewrite (kp_free _ _ _ _ Hkg), (kp_free _ _ _ _ Hk), !elem_of_difference, elem_of_singleton. split.
    + intros Hin. destruct (decide (n' = new / 4096)) as [->|Hne].
      { right. exists PDir, new. split; [done|done]. }
      destruct (decide (n' ∈ A)) as [Ha|]; [|by left].
      right. destruct (gr_all _ _ _ _ Hg n' Ha) as (p & f & Hp & <-). eauto.
    + intros [[[? _] _]|(p & f & Hp & ->)]; [done|].
      destruct (gr_new _ _ _ _ Hg p f Hp) as [Hp1|Hin]; [by apply Honly in Hp1 as ->|].
      apply (gr_fresh _ _ _ _ Hg) in Hin. rewrite (kp_free _ _ _ _ Hk) in Hin.
      by apply elem_of_difference in Hin as [? _].
Qed.

(** C19: Cloning an address space, given a frame for the directory, each table and each page:
    the new space sees, at every user address, a page with the same contents and the
    same rights as the original, and the kernel's own entries; its frames are all
    fresh and shared with no one, no page in use changes, and every frame taken from
    the allocator belongs to the new space. *)
Theorem clone_correct s src :
  ok s -> space s src -> used s (kernel_dir s) -> avail s (S (needs s src 256 768)) ->
  exists new s', hal_addrspace_clone src s = (new, s') /\ new <> 0 /\ ok s' /\
    space s' new /\ space s' src /\ apart s' src new /\
    (forall g, used s g -> used s' g /\ mem s' g = mem s g) /\
    (forall i, 0 <= i < 256 -> entry s' new i = entry s (kernel_dir s) i) /\
    (forall di ti, 256 <= di < 1024 -> 0 <= ti < 1024 -> leaf s' new di ti = leaf s src di ti) /\
    forall n, n ∈ free s <-> n ∈ free s' \/ exists p f, owned s' new p = Some f /\ n = f / 4096.
Proof.
  intros Hok Hs Hkd Hav. destruct (clone_spec s src Hok Hs Hkd Hav) as (new & s' & H).
  exists new, s'. tauto.
Qed.

(** ** Destroying *)

(** From [s] to [t] exactly the frames at the places [S] have been given back. *)
Record released (s t : machine) (dir : Z) (S : place -> Prop) : Prop := {
  re_mem : mem t = mem s;
  re_kdir : kernel_dir_phys t = kernel_dir_phys s;
  re_wf : Pmm.wf (phys t);
  re_total : Pmm.total_frames (phys t) = Pmm.total_frames (phys s);
  re_free : forall n, n ∈ free t <-> n ∈ free s \/ exists p f, S p /\ owned s dir p = Some f /\ n = f / 4096 }.

Lemma released_ext s t dir (S S' : place -> Prop) : (forall p f, owned s dir p = Some f -> S p <-> S' p) ->
  released s t dir S -> released s t dir S'.
Proof.
  intros He [Hm Hk Hw Ht Hf]. split; [done|done|done|done|]. intros n. rewrite Hf.
  split; intros [?|(p & f & Hp & Ho & ?)]; [by left| |by left|]; right; exists p, f; specialize (He p f Ho); tauto.
Qed.

Lemma release_place s t dir S p f : space s dir -> released s t dir S -> owned s dir p = Some f -> ~ S p ->
  released s (release f t) dir (fun q => S q \/ q = p).
Proof.
  intros Hs [Hm Hk Hw Ht Hf] Hp Hn. pose proof (sp_used _ _ Hs p f Hp) as [H0 Ha Hl Hfree].
  change 4096 with Pmm.PMM_FRAME_SIZE in Hl, Hfree.
  destruct (Pmm.pmm_free_in_use (phys t) f Hw) as (Hfs & Htot & Hwf); [lia|lia| |].
  { intros Hin. change (f / Pmm.PMM_FRAME_SIZE ∈ free t) in Hin. apply Hf in Hin as [|(q & g & Hq & Ho & He)]; [done|].
    pose proof (us_aligned _ _ (sp_used _ _ Hs q g Ho)). change Pmm.PMM_FRAME_SIZE with 4096 in He.
    assert (g = f) as -> by dlia. by rewrite (sp_inj _ _ Hs p q f) in Hn. }
  split; [done|done|done|by simpl; congruence|]. intros n. unfold release, free. cbn [phys with_phys].
  rewrite Hfs, elem_of_union, elem_of_singleton. fold (free t). rewrite Hf. split.
  - intros [->|[|(q & g & Hq & ?)]]; [right; by exists p, f; auto|by left|right; exists q, g; auto].
  - intros [|(q & g & [Hq| ->] & Ho & ->)]; [auto|right; right; by exists q, g|left; by replace g with f by congruence].
Qed.

Lemma released_entry s t dir S f i : released s t dir S -> entry t f i = entry s f i.
Proof. intros [Hm _ _ _ _]. unfold entry. by rewrite Hm. Qed.

Lemma destroy_table_ok s t dir di S : space s dir -> 256 <= di < 1024 -> released s t dir S ->
  ~ S (PTable di) -> (forall ti, ~ S (PPage di ti)) ->
  released s (destroy_table dir di t) dir (fun q => S q \/ q = PTable di \/ exists ti, q = PPage di ti).
Proof.
  intros Hs Hdi Hr Hnt Hnp. unfold destroy_table. rewrite (released_entry s t dir S dir di Hr).
  destruct (present (entry s dir di)) eqn:Ep; cbn [negb].
  2:{ assert (table_at s dir di = None) as Hno by (unfold table_at; by rewrite Ep, andb_false_r).
      revert Hr. apply released_ext. intros p f Ho. split; [tauto|].
      intros [?|[->|[ti ->]]]; [done|cbn [owned] in Ho; congruence|]. cbn [owned] in Ho. by rewrite Hno in Ho. }
  assert (table_at s dir di = Some (frame_of (entry s dir di))) as Ht by (by apply table_at_Some).
  set (table := frame_of (entry s dir di)) in *. change (Z.to_nat ENTRIES) with 1024%nat.
  set (loop := for_loop _ _ _ _).
  assert (released s loop dir (fun q => S q \/ exists ti, 0 <= ti < 1024 /\ q = PPage di ti)) as Hloop.
  { apply (for_loop_ind (fun i t => released s t dir (fun q => S q \/ exists ti, 0 <= ti < i /\ q = PPage di ti))).
    - revert Hr. apply released_ext. intros p f _. split; [tauto|]. intros [|(ti & ? & _)]; [done|lia].
    - intros i u Hi Hu. rewrite (released_entry _ _ _ _ table i Hu).
      pose proof (owned_leaf s dir di i table Ht ltac:(lia)) as Hleaf.
      destruct (present (entry s table i)) eqn:Epi.
      + eapply released_ext; [|eapply (release_place s u dir _ (PPage di i)); [done|exact Hu|done|]].
        * intros p f _. cbn beta. split.
          -- intros [[?|(ti & ? & ->)]| ->]; [by left|right; exists ti; split; [lia|done]|right; exists i; split; [lia|done]].
          -- intros [?|(ti & Hti & ->)]; [tauto|]. destruct (decide (ti = i)) as [->|]; [by right|].
             left. right. exists ti. split; [lia|done].
        * intros [?|(ti & Hti & [=])]; [by apply (Hnp i)|lia].
      + revert Hu. apply released_ext. intros p f Ho. split.
        * intros [?|(ti & ? & ->)]; [by left|right; exists ti; split; [lia|done]].
        * intros [?|(ti & Hti & ->)]; [by left|]. destruct (decide (ti = i)) as [->|]; [congruence|].
          right. exists ti. split; [lia|done]. }
  eapply released_ext; [|eapply (release_place s loop dir _ (PTable di)); [done|exact Hloop|done|]].
  - intros p f Ho. cbn beta. split; [intros [[?|(ti & _ & ->)]| ->]; eauto 6|].
    intros [?|[->|[ti ->]]]; [tauto|tauto|]. left. right. exists ti.
    by apply table_at_page in Ho as (? & _ & ? & _).
  - intros [?|(ti & _ & [=])]. done.
Qed.

(** Destroying a space gives back its directory, its tables and its pages, each exactly
    once, and no other frame; no memory changes.  The kernel's own directory and the
    null directory are left alone. *)
Theorem destroy_correct s dir : ok s -> space s dir -> dir <> kernel_dir_phys s ->
  mem (hal_addrspace_destroy dir s) = mem s /\ Pmm.wf (phys (hal_addrspace_destroy dir s)) /\
  (forall n, n ∈ free (hal_addrspace_destroy dir s) <->
     n ∈ free s \/ exists p f, owned s dir p = Some f /\ n = f / 4096) /\
  hal_addrspace_destroy (kernel_dir_phys s) s = s /\ hal_addrspace_destroy 0 s = s.
Proof.
  intros Hok Hs Hne. unfold hal_addrspace_destroy. rewrite Z.eqb_refl, orb_true_r.
  pose proof (us_pos _ _ (sp_used _ _ Hs PDir dir eq_refl)).
  destruct (Z.eqb_spec dir 0); [lia|]. destruct (Z.eqb_spec dir (kernel_dir_phys s)); [done|]. cbn [orb].
  change (Z.to_nat (ENTRIES - kernel_pdes)) with 768%nat. change kernel_pdes with 256.
  set (S := fun i q => exists di, 256 <= di < i /\ (q = PTable di \/ exists ti, q = PPage di ti)).
  assert (released s (for_loop (destroy_table dir) 256 768%nat s) dir (S 1024)) as Hloop.
  { apply (for_loop_ind (fun i t => released s t dir (S i))).
    - split; [done|done|apply Hok|done|]. intros k. split; [by left|].
      intros [?|(p & f & (di & ? & _) & _)]; [done|lia].
    - intros i t Hi Ht.
      eapply released_ext; [|eapply destroy_table_ok; [done|lia|exact Ht| |]].
      + intros p f _. unfold S. split.
        * intros [(di & ? & ?)|Hp]; [exists di; split; [lia|done]|exists i; split; [lia|done]].
        * intros (di & Hdi & Hp). destruct (decide (di = i)) as [->|]; [by right|].
          left. exists di. split; [lia|done].
      + intros (di & Hdi & [[=]|[ti [=]]]); lia.
      + intros ti (di & Hdi & [[=]|[ti' [=]]]); lia. }
  destruct (release_place s _ dir _ PDir dir Hs Hloop eq_refl) as [Hm _ Hw _ Hf].
  { by intros (di & _ & [[=]|[ti [=]]]). }
  split; [exact Hm|]. split; [exact Hw|]. split; [|split; reflexivity]. intros n'. rewrite Hf. split.
  - intros [|(p & f & _ & Ho & ->)]; [by left|right; eauto].
  - intros [|(p & f & Ho & ->)]; [by left|]. right. exists p, f. split_and!; [|done|done].
    destruct p as [|di|di ti]; [by right| |].
    + left. exists di. pose proof Ho as (? & _)%table_at_Some. eauto.
    + left. exists di. pose proof Ho as (x & (? & _)%table_at_Some & _)%table_at_page. eauto.
Qed.

(** C26: When there are free frames for the whole clone, one for the directory and one for
    every user page table and every user page of the source, a clone that is destroyed again
    leaves the allocator with exactly the frames that were free before.  (Short of frames the
    clone goes on with frame 0 for a table, so that nothing is claimed of that case.) *)
Theorem clone_destroy_conserves s src :
  ok s -> space s src -> used s (kernel_dir s) -> kernel_dir_phys s = kernel_dir s ->
  avail s (S (needs s src 256 768)) ->
  let '(new, s') := hal_addrspace_clone src s in free (hal_addrspace_destroy new s') = free s.
Proof.
  intros Hok Hs Hkd Hkp Hav.
  destruct (clone_spec s src Hok Hs Hkd Hav) as
    (new & s' & -> & _ & Hok' & Hsn & _ & _ & Hkp' & Hfr & _ & _ & _ & Hfree).
  assert (new <> kernel_dir_phys s') as Hne.
  { rewrite Hkp', Hkp. intros ->. by apply (used_not_free s (kernel_dir s)). }
  destruct (destroy_correct s' new Hok' Hsn Hne) as (_ & _ & Hf & _).
  apply set_eq. intros n. rewrite Hf, Hfree. done.
Qed.

End SpaceClone.
