(* ===== verification/SpaceDemo.v ===== *)
(** * A small machine with one address space

    2 MiB of memory with a kernel directory, and a user space of one page at
    [USER_BASE]: the concrete state at which the theorems about address spaces are
    exercised. *)

From stdpp Require Import base list gmap numbers sets.
From S2P Require Import Prelude CString Pmm Layout Paging AddrSpace Spaces SpaceClone.

#[local] Open Scope Z_scope.

Module SpaceDemo.
Import Paging AddrSpace Spaces SpaceClone.

Definition take1 (p : Pmm.pmm) : Pmm.pmm := snd (Pmm.pmm_alloc_frame p).
Definition demo_phys : Pmm.pmm := take1 (take1 (take1 (take1 Pmm.small))).

(** Frames 256 to 259: the kernel directory, the user directory, its table, its page. *)
Definition f_kernel : Z := 1048576.
Definition f_dir : Z := 1052672.
Definition f_table : Z := 1056768.
Definition f_page : Z := 1060864.

Definition demo_mem (f : Z) : list Z :=
  if f =? f_dir then wr32 zero_page 1024 (Z.lor f_table 7)
  else if f =? f_table then wr32 zero_page 0 (Z.lor f_page 7)
  else if f =? f_page then replicate 4096 65
  else zero_page.

Definition demo : machine := Machine demo_mem demo_phys f_kernel f_kernel f_kernel f_kernel true.

Lemma take1_run s o : Pmm.run 0 s o -> exists o', Pmm.run 0 (take1 s) o'.
Proof.
  intros H. unfold take1. destruct (Pmm.pmm_alloc_frame s) as [a s'] eqn:E.
  destruct (decide (a = 0)) as [->|Hne].
  - exists o. by apply (Pmm.run_alloc_fail 0 s).
  - eexists. by apply (Pmm.run_alloc 0 s o a s').
Qed.

Lemma demo_wf : Pmm.wf demo_phys.
Proof.
  assert (Pmm.run 0 Pmm.small ∅) as H0 by exact (Pmm.run_init 0 1024).
  apply take1_run in H0 as [o1 H1]. apply take1_run in H1 as [o2 H2].
  apply take1_run in H2 as [o3 H3]. apply take1_run in H3 as [o4 H4].
  unfold demo_phys. exact (proj1 (Pmm.run_inv 0 _ o4 ltac:(lia) H4)).
Qed.

#[local] Opaque demo_phys zero_page.

Lemma not_free f : Pmm.test_frame demo_phys f = true -> f ∉ free demo.
Proof. intros H Hin. unfold free in Hin. apply Pmm.elem_of_free_set in Hin as [_ Hf].
  cbn [phys demo] in Hf. by rewrite H in Hf. Qed.

Lemma demo_pages f : lenZ (demo_mem f) = 4096 /\ bytes (demo_mem f).
Proof.
  unfold demo_mem. destruct zero_page_ok as [Hl Hb].
  repeat (destruct (_ =? _)); [split; [by rewrite lenZ_wr32; lia|by apply bytes_wr32]..| |done].
  split; [unfold lenZ; rewrite length_replicate; lia|]. apply Forall_replicate. unfold is_u8. lia.
Qed.

Lemma demo_ok : ok demo.
Proof.
  split; [exact demo_pages|exact demo_wf|]. apply not_free. vm_compute. reflexivity.
Qed.

Lemma demo_used f : In f [f_kernel; f_dir; f_table; f_page] -> used demo f.
Proof.
  intros Hin. repeat (destruct Hin as [<-|Hin]; [split; [vm_compute; reflexivity..|apply not_free; vm_compute; reflexivity]|]).
  destruct Hin.
Qed.

Lemma dir_entries di : 256 <= di < 1024 -> present (entry demo f_dir di) = true -> di = 256.
Proof.
  intros Hd Hp. assert (forallb (fun i => implb (present (entry demo f_dir i)) (i =? 256)) (range 256 768) = true) as H
    by (vm_compute; reflexivity).
  pose proof (forallb_range _ _ _ H di ltac:(lia)) as Hi. cbv beta in Hi. rewrite Hp in Hi. by apply Z.eqb_eq in Hi.
Qed.

Lemma table_entries ti : 0 <= ti < 1024 -> present (entry demo f_table ti) = true -> ti = 0.
Proof.
  intros Hd Hp. assert (forallb (fun i => implb (present (entry demo f_table i)) (i =? 0)) (range 0 1024) = true) as H
    by (vm_compute; reflexivity).
  pose proof (forallb_range _ _ _ H ti ltac:(lia)) as Hi. cbv beta in Hi. rewrite Hp in Hi. by apply Z.eqb_eq in Hi.
Qed.

Lemma demo_table di t : table_at demo f_dir di = Some t -> di = 256 /\ t = f_table.
Proof.
  intros (Hd & Hp & <-)%table_at_Some. assert (di = 256) as -> by (by apply dir_entries).
  split; [done|]. vm_compute. reflexivity.
Qed.

Lemma demo_owned p f : owned demo f_dir p = Some f ->
  (p = PDir /\ f = f_dir) \/ (p = PTable 256 /\ f = f_table) \/ (p = PPage 256 0 /\ f = f_page).
Proof.
  destruct p as [|di|di ti].
  - intros [= <-]. by left.
  - intros H. right. left. apply demo_table in H as [-> ->]. done.
  - intros (t & Ht & Hti & Hp & <-)%table_at_page. right. right.
    apply demo_table in Ht as [-> ->]. assert (ti = 0) as -> by (by apply table_entries).
    split; [done|]. vm_compute. reflexivity.
Qed.

Lemma demo_space : space demo f_dir.
Proof.
  split.
  - intros p f H. apply demo_owned in H as [[_ ->]|[[_ ->]|[_ ->]]]; apply demo_used; simpl; tauto.
  - intros p q f Hp Hq.
    apply demo_owned in Hp as [[-> ->]|[[-> ->]|[-> ->]]];
    apply demo_owned in Hq as [[-> E]|[[-> E]|[-> E]]]; (reflexivity || discriminate E).
Qed.

Lemma demo_avail n : (n <= 252)%nat -> avail demo n.
Proof.
  intros Hn. unfold avail, free. pose proof (Pmm.wf_count _ demo_wf) as H. cbn [phys demo].
  assert (Pmm.free_frames demo_phys = 252) as E by (vm_compute; reflexivity). rewrite E in H. lia.
Qed.

Lemma demo_needs : needs demo f_dir 256 768 = 2%nat.
Proof. vm_compute. reflexivity. Qed.

Lemma map_user_correct_witness :
  avail demo 2 /\ dir_resolve demo f_dir 1073745920 = 0 /\
  exists f s', hal_addrspace_map_user f_dir 1073745920 0 demo = (0, s') /\ dir_resolve s' f_dir 1073745920 = f.
Proof.
  assert (dir_resolve demo f_dir 1073745920 = 0) as Hr by (vm_compute; reflexivity).
  split; [apply demo_avail; lia|]. split; [exact Hr|].
  destruct (map_user_correct demo f_dir 1073745920 0 demo_ok demo_space
    ltac:(unfold user_va, USER_BASE; lia) Hr) as [H _].
  destruct (H (demo_avail (S (table_cost demo f_dir (pd_index 1073745920))) ltac:(apply Nat.leb_le; vm_compute; reflexivity))) as (f & s' & Hm & _ & _ & _ & Hres & _). exists f, s'. auto.
Defined.

(** A copy across the boundary of the mapped page. *)
Lemma copy_to_correct_witness :
  turns 1073745918 4 0 = 2%nat /\
  exists s1, hal_addrspace_copy_to f_dir 1073745918 [1; 2; 3; 4] 4 demo = s1 /\
    ubyte s1 f_dir 1073745921 = Some 4.
Proof.
  split; [reflexivity|].
  destruct (copy_to_correct demo f_dir 1073745918 [1; 2; 3; 4] 4 0 demo_ok demo_space
    ltac:(unfold USER_BASE; lia) ltac:(lia) ltac:(vm_compute; split; discriminate)
    ltac:(apply (bool_decide_eq_true_1 _); vm_compute; reflexivity)
    (demo_avail 4 ltac:(lia))) as (s1 & s2 & A & B & E & _ & Hb & _).
  exists s1. split; [exact E|]. exact (Hb 3 ltac:(lia)).
Defined.

Lemma clone_correct_witness :
  needs demo f_dir 256 768 = 2%nat /\
  exists new s', hal_addrspace_clone f_dir demo = (new, s') /\ space s' new /\
    leaf s' new 256 0 = Some (7, 7, replicate 4096 65).
Proof.
  split; [exact demo_needs|].
  assert (avail demo (S (needs demo f_dir 256 768))) as Hav by (rewrite demo_needs; apply demo_avail; lia).
  destruct (clone_correct demo f_dir demo_ok demo_space (demo_used f_kernel ltac:(simpl; tauto)) Hav)
    as (new & s' & Hc & _ & _ & Hs & _ & _ & _ & _ & Hl & _).
  exists new, s'. split; [exact Hc|]. split; [exact Hs|]. rewrite (Hl 256 0 ltac:(lia) ltac:(lia)).
  vm_compute. reflexivity.
Defined.

Lemma destroy_correct_witness :
  f_dir <> kernel_dir_phys demo /\ 259 ∈ free (hal_addrspace_destroy f_dir demo).
Proof.
  assert (f_dir <> kernel_dir_phys demo) as Hne by discriminate. split; [exact Hne|].
  destruct (destroy_correct demo f_dir demo_ok demo_space Hne) as (_ & _ & Hf & _).
  apply Hf. right. exists (PPage 256 0), f_page. split; vm_compute; reflexivity.
Defined.

Lemma clone_destroy_conserves_witness :
  needs demo f_dir 256 768 = 2%nat /\
  let '(new, s') := hal_addrspace_clone f_dir demo in free (hal_addrspace_destroy new s') = free demo.
Proof.
  split; [exact demo_needs|].
  assert (avail demo (S (needs demo f_dir 256 768))) as Hav by (rewrite demo_needs; apply demo_avail; lia).
  exact (clone_destroy_conserves demo f_dir demo_ok demo_space (demo_used f_kernel ltac:(simpl; tauto))
    eq_refl Hav).
Defined.

End SpaceDemo.
