(* ===== verification/Heap.v ===== *)
(** * The kernel heap (kernel/mm/vmm.c)

    The heap is a doubly linked list of blocks, each a 20-byte header followed by its
    payload.  Headers live in a store indexed by their address; a header that has been
    merged away stays in the store, as it stays in memory.  Pages are added at the end
    by [expand], which takes frames from the allocator of Pmm and maps them with the
    operations of Paging.

    [wf h bs] says that the heap represents the list of blocks [bs] (sizes and free
    flags), laid out one after the other from HEAP_START to [heap_end], with no two
    free blocks next to each other; [place] gives every block its address. *)

From stdpp Require Import base list gmap numbers.
From S2P Require Import Prelude CString Pmm Layout Paging.

#[local] Open Scope Z_scope.

Module Heap.
Import Paging.

Definition HEAP_START : Z := 33554432.
Definition HEAP_MAX : Z := 134217728.
Definition MAGIC : Z := 3405692941.
(** [sizeof(struct block)]: 4 + 4 + 1 (padded to 4) + 4 + 4. *)
Definition sizeof_block : Z := 20.

Record block := Block {
  magic : Z; size : Z; free : bool; next : Z; prev : Z }.

Record heap := Heap {
  store : gmap Z block;
  heap_head : Z;
  heap_end : Z;
  heap_limit : Z;
  mach : machine }.

Definition hget (m : gmap Z block) (b : Z) : block := default (Block 0 0 false 0 0) (m !! b).

Definition set_size (v : Z) (b : block) : block := Block (magic b) v (free b) (next b) (prev b).
Definition set_free (v : bool) (b : block) : block := Block (magic b) (size b) v (next b) (prev b).
Definition set_next (v : Z) (b : block) : block := Block (magic b) (size b) (free b) v (prev b).
Definition set_prev (v : Z) (b : block) : block := Block (magic b) (size b) (free b) (next b) v.

(** [b->field = v]. *)
Definition hupd (f : block -> block) (b : Z) (m : gmap Z block) : gmap Z block := <[b := f (hget m b)]> m.

Definition with_store (h : heap) m : heap := Heap m (heap_head h) (heap_end h) (heap_limit h) (mach h).

Fixpoint expand_from (fuel : nat) (need : Z) (h : heap) : heap :=
  match fuel with
  | O => h
  | S fuel' =>
      if (heap_end h <? heap_limit h) && (0 <? need) then
        let '(frame, s1) := alloc (mach h) in
        let s2 := hal_paging_map (heap_end h) frame (Z.lor HAL_PG_PRESENT HAL_PG_WRITE) s1 in
        expand_from fuel' (if 4096 <? need then need - 4096 else 0)
          (Heap (store h) (heap_head h) (u32 (heap_end h + 4096)) (heap_limit h) s2)
      else h
  end.

(** Each turn adds a page, so the pages up to the limit bound the number of turns. *)
Definition expand (need : Z) (h : heap) : heap :=
  expand_from (S (Z.to_nat ((heap_limit h - heap_end h) / 4096))) need h.

Definition vmm_init (h : heap) : heap :=
  let h1 := expand 4194304 (Heap (store h) (heap_head h) HEAP_START HEAP_MAX (mach h)) in
  Heap (<[HEAP_START := Block MAGIC (u32 (heap_end h1 - HEAP_START - sizeof_block)) true 0 0]> (store h1))
    HEAP_START (heap_end h1) (heap_limit h1) (mach h1).

Definition split (b sz : Z) (m : gmap Z block) : gmap Z block :=
  if size (hget m b) <? u32 (sz + sizeof_block + 16) then m
  else
    let nb := u32 (b + sizeof_block + sz) in
    let bn := next (hget m b) in
    let m1 := <[nb := Block MAGIC (u32 (size (hget m b) - sz - sizeof_block)) true bn b]> m in
    let m2 := if bn =? 0 then m1 else hupd (set_prev nb) bn m1 in
    hupd (set_size sz) b (hupd (set_next nb) b m2).

(** The search loop of [kmalloc]: a free block that is large enough, or the last one. *)
Fixpoint first_fit (fuel : nat) (m : gmap Z block) (sz b : Z) : Z + Z :=
  match fuel with
  | O => inr b
  | S fuel' =>
      if b =? 0 then inr b
      else if free (hget m b) && (sz <=? size (hget m b)) then inl b
      else if next (hget m b) =? 0 then inr b
      else first_fit fuel' m sz (next (hget m b))
  end.

(** A block takes at least its header, which bounds the length of the list. *)
Definition fuel_of (h : heap) : nat := S (Z.to_nat ((heap_end h - HEAP_START) / sizeof_block)).

Definition kmalloc (sz0 : Z) (h : heap) : Z * heap :=
  if sz0 =? 0 then (0, h)
  else
    let sz := Z.land (u32 (sz0 + 7)) (not32 7) in
    match first_fit (fuel_of h) (store h) sz (heap_head h) with
    | inl b =>
        let m := hupd (set_free false) b (split b sz (store h)) in
        (u32 (b + sizeof_block), with_store h m)
    | inr b =>
        let old_end := heap_end h in
        let h1 := expand (u32 (sz + sizeof_block + 4096)) h in
        if heap_end h1 =? old_end then (0, h1)
        else
          let nb := old_end in
          let m1 := <[nb := Block MAGIC (u32 (heap_end h1 - old_end - sizeof_block)) true 0 b]> (store h1) in
          let m2 := hupd (set_next nb) b m1 in
          let m3 := hupd (set_free false) nb (split nb sz m2) in
          (u32 (nb + sizeof_block), with_store h1 m3)
    end.

Definition merge_next (b : Z) (m : gmap Z block) : gmap Z block :=
  let n := next (hget m b) in
  if negb (n =? 0) && free (hget m n) then
    let m1 := hupd (set_size (u32 (size (hget m b) + (sizeof_block + size (hget m n))))) b m in
    let m2 := hupd (set_next (next (hget m1 n))) b m1 in
    let n2 := next (hget m2 b) in
    if n2 =? 0 then m2 else hupd (set_prev b) n2 m2
  else m.

Definition merge_prev (b : Z) (m : gmap Z block) : gmap Z block :=
  let p := prev (hget m b) in
  if negb (p =? 0) && free (hget m p) then
    let m1 := hupd (set_size (u32 (size (hget m p) + (sizeof_block + size (hget m b))))) p m in
    let m2 := hupd (set_next (next (hget m1 b))) p m1 in
    let n2 := next (hget m2 b) in
    if n2 =? 0 then m2 else hupd (set_prev (prev (hget m2 b))) n2 m2
  else m.

Definition coalesce (b : Z) (m : gmap Z block) : gmap Z block := merge_prev b (merge_next b m).

Definition kfree (ptr : Z) (h : heap) : heap :=
  if ptr =? 0 then h
  else
    let b := u32 (ptr - sizeof_block) in
    if negb (magic (hget (store h) b) =? MAGIC) then h
    else with_store h (coalesce b (hupd (set_free true) b (store h))).

Definition kmalloc_aligned (sz : Z) (h : heap) : Z * heap :=
  let '(p, h1) := kmalloc (u32 (sz + 4096)) h in
  if p =? 0 then (0, h1) else (Z.land (u32 (p + 4095)) (not32 4095), h1).

(** ** The blocks *)

(** A pointer to the block at [x], when the blocks end at [e]. *)
Definition ptr_to (e x : Z) : Z := if x =? e then 0 else x.

Fixpoint seg (m : gmap Z block) (e p a : Z) (bs : list (Z * bool)) : Prop :=
  match bs with
  | [] => True
  | (sz, fr) :: bs' =>
      0 <= sz /\ m !! a = Some (Block MAGIC sz fr (ptr_to e (a + 20 + sz)) p) /\
      seg m e a (a + 20 + sz) bs'
  end.

(** Where a list of blocks that starts at [a] ends, and its last block. *)
Fixpoint fin (a : Z) (bs : list (Z * bool)) : Z :=
  match bs with [] => a | (sz, _) :: bs' => fin (a + 20 + sz) bs' end.
Fixpoint lastb (p a : Z) (bs : list (Z * bool)) : Z :=
  match bs with [] => p | (sz, _) :: bs' => lastb a (a + 20 + sz) bs' end.

(** No two adjacent free blocks. *)
Fixpoint coalesced (bs : list (Z * bool)) : Prop :=
  match bs with
  | (_, f1) :: ((_, f2) :: _) as bs' => (f1 && f2 = false) /\ coalesced bs'
  | _ => True
  end.

Record wf0 (h : heap) (bs : list (Z * bool)) : Prop := {
  wf_head : heap_head h = HEAP_START;
  wf_seg : seg (store h) (heap_end h) 0 HEAP_START bs;
  wf_fin : fin HEAP_START bs = heap_end h;
  wf_ne : bs <> [];
  wf_end : heap_end h <= heap_limit h <= HEAP_MAX;
  wf_pages : (heap_limit h - heap_end h) mod 4096 = 0 }.

Record wf (h : heap) (bs : list (Z * bool)) : Prop := {
  wf_core : wf0 h bs;
  wf_coal : coalesced bs }.

(** The blocks with their addresses. *)
Fixpoint place (a : Z) (bs : list (Z * bool)) : list (Z * Z * bool) :=
  match bs with [] => [] | (sz, fr) :: bs' => (a, sz, fr) :: place (a + 20 + sz) bs' end.

(** ** Segments of the list *)

Definition sized (bs : list (Z * bool)) : Prop := Forall (fun b => 0 <= fst b) bs.

Lemma seg_sized m e p a bs : seg m e p a bs -> sized bs.
Proof.
  revert p a. induction bs as [|[sz fr] bs IH]; intros p a; [constructor|].
  intros (H & _ & Hs). constructor; [done|by eapply IH].
Qed.

Lemma fin_le a bs : sized bs -> a + 20 * lenZ bs <= fin a bs.
Proof.
  unfold lenZ. revert a. induction bs as [|[sz fr] bs IH]; intros a H; simpl; [lia|].
  apply Forall_cons_1 in H as [H1 H2]. simpl in H1. specialize (IH (a + 20 + sz) H2). lia.
Qed.

Lemma fin_app a b1 b2 : fin a (b1 ++ b2) = fin (fin a b1) b2.
Proof. revert a. induction b1 as [|[sz fr] b1 IH]; intros a; simpl; [done|apply IH]. Qed.

Lemma lastb_app p a b1 b2 : lastb p a (b1 ++ b2) = lastb (lastb p a b1) (fin a b1) b2.
Proof. revert p a. induction b1 as [|[sz fr] b1 IH]; intros p a; simpl; [done|apply IH]. Qed.

Lemma seg_app m e p a b1 b2 :
  seg m e p a (b1 ++ b2) <-> seg m e p a b1 /\ seg m e (lastb p a b1) (fin a b1) b2.
Proof.
  revert p a. induction b1 as [|[sz fr] b1 IH]; intros p a; simpl; [tauto|]. rewrite IH. tauto.
Qed.

Lemma seg_frame m m' e p a bs : seg m e p a bs ->
  (forall x, a <= x < fin a bs -> m' !! x = m !! x) -> seg m' e p a bs.
Proof.
  revert p a. induction bs as [|[sz fr] bs IH]; intros p a; [done|]. intros (H & Hl & Hs) Hx. simpl in Hx.
  pose proof (fin_le (a + 20 + sz) bs (seg_sized _ _ _ _ _ Hs)). pose proof (lenZ_nonneg bs).
  split_and!; [done|rewrite Hx; [done|lia]|]. apply IH; [done|]. intros x Hr. apply Hx. lia.
Qed.

(** The end of the heap matters for the last block only. *)
Lemma seg_ends m e e' p a bs : fin a bs < e -> fin a bs < e' -> seg m e p a bs -> seg m e' p a bs.
Proof.
  revert p a. induction bs as [|[sz fr] bs IH]; intros p a He He'; [done|]. intros (H & Hl & Hs). simpl in *.
  pose proof (fin_le (a + 20 + sz) bs (seg_sized _ _ _ _ _ Hs)). pose proof (lenZ_nonneg bs).
  split_and!; [done| |by apply IH]. rewrite Hl. unfold ptr_to. repeat (bcase; try lia). done.
Qed.

Definition relink (n q : Z) (m : gmap Z block) : gmap Z block :=
  if n =? 0 then m else hupd (set_prev q) n m.

(** Changing the predecessor of a segment that reaches the end. *)
Lemma relink_seg m e p q a bs : 0 < a -> fin a bs = e -> seg m e p a bs ->
  seg (relink (ptr_to e a) q m) e q a bs /\
  forall x, x <> a -> relink (ptr_to e a) q m !! x = m !! x.
Proof.
  intros Ha He Hs. unfold relink, ptr_to. destruct bs as [|[sz fr] bs].
  - simpl in He. subst. rewrite Z.eqb_refl. done.
  - pose proof (fin_le a _ (seg_sized _ _ _ _ _ Hs)) as Hle. unfold lenZ in Hle. simpl length in Hle.
    destruct (Z.eqb_spec a e); [lia|]. destruct (Z.eqb_spec a 0); [lia|].
    destruct Hs as (H & Hl & Hs). split.
    + split_and!; [done|unfold hupd, hget; by rewrite lookup_insert_eq, Hl|].
      apply (seg_frame m); [done|]. intros x Hx. unfold hupd. rewrite lookup_insert_ne by lia. done.
    + intros x Hx. unfold hupd. by rewrite lookup_insert_ne.
Qed.

(** The block at the end of [b1]. *)
Lemma seg_block m e p a b1 sz fr b2 : seg m e p a (b1 ++ (sz, fr) :: b2) ->
  m !! fin a b1 = Some (Block MAGIC sz fr (ptr_to e (fin a b1 + 20 + sz)) (lastb p a b1)) /\ 0 <= sz /\
  seg m e p a b1 /\ seg m e (fin a b1) (fin a b1 + 20 + sz) b2.
Proof. rewrite seg_app. intros (H1 & H2 & H3 & H4). auto. Qed.

(** Replacing blocks in the middle: the blocks before stay, the ones after get a new
    predecessor. *)
Lemma seg_replace m m' e p a b1 mid b2 :
  seg m e p a b1 -> seg m' e (lastb p a b1) (fin a b1) mid ->
  seg m' e (lastb (lastb p a b1) (fin a b1) mid) (fin (fin a b1) mid) b2 ->
  (forall x, a <= x < fin a b1 -> m' !! x = m !! x) ->
  seg m' e p a (b1 ++ mid ++ b2).
Proof.
  intros H1 H2 H3 Hx. rewrite !seg_app. split_and!; [by apply (seg_frame m)|done|done].
Qed.

Ltac hlook := repeat first [rewrite lookup_insert_eq | rewrite lookup_insert_ne by lia].

(** Evaluates reads of two known blocks through updates. *)
Ltac hread H1 H2 :=
  repeat (progress (rewrite ?lookup_insert_eq, ?H1, ?H2; cbn [default from_option id])
          || rewrite lookup_insert_ne by lia).

Lemma split_seg m e p a b1 sz0 fr b2 sz :
  0 < a -> e < 4294967296 -> 0 <= sz -> fin a (b1 ++ (sz0, fr) :: b2) = e ->
  seg m e p a (b1 ++ (sz0, fr) :: b2) -> sz + 36 <= sz0 ->
  seg (split (fin a b1) sz m) e p a (b1 ++ (sz, fr) :: (sz0 - sz - 20, true) :: b2).
Proof.
  intros Ha He Hsz Hfin Hseg Hfit. pose proof (seg_block _ _ _ _ _ _ _ _ Hseg) as (Hl & H0 & H1 & H2).
  pose proof (fin_le a b1 (seg_sized _ _ _ _ _ H1)) as Hx. pose proof (lenZ_nonneg b1).
  rewrite fin_app in Hfin. cbn [fin] in Hfin.
  pose proof (fin_le (fin a b1 + 20 + sz0) b2 (seg_sized _ _ _ _ _ H2)) as Hx2. pose proof (lenZ_nonneg b2).
  set (x := fin a b1) in *. unfold split, sizeof_block.
  assert (hget m x = Block MAGIC sz0 fr (ptr_to e (x + 20 + sz0)) (lastb p a b1)) as Hg
    by (unfold hget; by rewrite Hl).
  rewrite Hg. cbn [size next].
  rewrite (u32_small (sz + 20 + 16)), (u32_small (x + 20 + sz)), (u32_small (sz0 - sz - 20)) by dlia.
  destruct (Z.ltb_spec sz0 (sz + 20 + 16)); [lia|]. set (nb := x + 20 + sz). set (bn := ptr_to e (x + 20 + sz0)).
  set (m1 := <[nb := _]> m). change (if bn =? 0 then m1 else hupd (set_prev nb) bn m1) with (relink bn nb m1).
  assert (seg m1 e x (x + 20 + sz0) b2) as Hb2.
  { apply (seg_frame m); [done|]. intros y Hy. unfold m1. by rewrite lookup_insert_ne by lia. }
  destruct (relink_seg m1 e x nb (x + 20 + sz0) b2 ltac:(lia) Hfin Hb2) as [Hr1 Hr2]. fold bn in Hr1, Hr2.
  set (m2 := relink bn nb m1) in *.
  assert (m2 !! x = Some (Block MAGIC sz0 fr bn (lastb p a b1))) as Hm2
    by (rewrite Hr2 by lia; unfold m1; rewrite lookup_insert_ne by lia; done).
  unfold hupd, hget. rewrite Hm2. hlook. unfold set_size, set_next. cbn -[Z.add].
  apply (seg_replace m _ e p a b1 [(sz, fr); (sz0 - sz - 20, true)] b2 H1).
  - cbn [seg fst]. fold x. replace (x + 20 + sz + 20 + (sz0 - sz - 20)) with (x + 20 + sz0) by lia.
    hlook. split_and!; [done| |lia| |done].
    + unfold ptr_to. destruct (Z.eqb_spec (x + 20 + sz) e); [lia|done].
    + fold nb. rewrite Hr2 by lia. unfold m1. by hlook.
  - cbn [lastb fin]. fold x nb. replace (nb + 20 + (sz0 - sz - 20)) with (x + 20 + sz0) by lia.
    apply (seg_frame m2); [done|]. intros y Hy. by hlook.
  - intros y Hy. hlook. rewrite Hr2 by lia. unfold m1. by hlook.
Qed.

Lemma split_none m x sz sz0 : size (hget m x) = sz0 -> 0 <= sz < 4294967000 -> sz0 < sz + 36 -> split x sz m = m.
Proof. intros H Hs Hlt. unfold split, sizeof_block. rewrite H, u32_small by dlia.
  destruct (Z.ltb_spec sz0 (sz + 20 + 16)); [done|lia]. Qed.

(** Two adjacent blocks become one. *)
Definition merged (m : gmap Z block) (e p x s1 : Z) (f1 : bool) (s2 : Z) : gmap Z block :=
  relink (ptr_to e (x + 20 + s1 + 20 + s2)) x
    (<[x := Block MAGIC (s1 + 20 + s2) f1 (ptr_to e (x + 20 + s1 + 20 + s2)) p]> m).

Lemma merged_seg m e p a b1 s1 f1 s2 f2 b2 :
  0 < a -> fin a (b1 ++ (s1, f1) :: (s2, f2) :: b2) = e -> seg m e p a (b1 ++ (s1, f1) :: (s2, f2) :: b2) ->
  seg (merged m e (lastb p a b1) (fin a b1) s1 f1 s2) e p a (b1 ++ (s1 + 20 + s2, f1) :: b2).
Proof.
  intros Ha Hfin Hseg. pose proof (seg_block _ _ _ _ _ _ _ _ Hseg) as (_ & H0 & H1 & H2).
  destruct H2 as (H0' & _ & H2). rewrite fin_app in Hfin. cbn [fin] in Hfin.
  pose proof (fin_le a b1 (seg_sized _ _ _ _ _ H1)). pose proof (lenZ_nonneg b1).
  unfold merged. set (x := fin a b1) in *. set (m1 := <[x := _]> m).
  assert (seg m1 e (x + 20 + s1) (x + 20 + s1 + 20 + s2) b2) as Hb2.
  { apply (seg_frame m); [done|]. intros y Hy. unfold m1. by rewrite lookup_insert_ne by lia. }
  destruct (relink_seg m1 e (x + 20 + s1) x (x + 20 + s1 + 20 + s2) b2 ltac:(lia) Hfin Hb2) as [Hr1 Hr2].
  apply (seg_replace m _ e p a b1 [(s1 + 20 + s2, f1)] b2 H1).
  - cbn [seg]. fold x. split_and!; [lia| |done]. rewrite Hr2 by lia. unfold m1.
    rewrite lookup_insert_eq. do 2 f_equal. f_equal. lia.
  - cbn [lastb fin]. fold x. by replace (x + 20 + (s1 + 20 + s2)) with (x + 20 + s1 + 20 + s2) by lia.
  - intros y Hy. rewrite Hr2 by lia. unfold m1. by rewrite lookup_insert_ne by lia.
Qed.

Lemma merge_next_eq m e p x s1 f1 s2 : 0 < x -> 0 <= s1 -> 0 <= s2 -> x + 20 + s1 < e ->
  s1 + 20 + s2 < 4294967296 ->
  m !! x = Some (Block MAGIC s1 f1 (ptr_to e (x + 20 + s1)) p) ->
  m !! (x + 20 + s1) = Some (Block MAGIC s2 true (ptr_to e (x + 20 + s1 + 20 + s2)) x) ->
  merge_next x m = merged m e p x s1 f1 s2.
Proof.
  intros Hx H1 H2 He H32 Hl1 Hl2. unfold merge_next, sizeof_block.
  assert (hget m x = Block MAGIC s1 f1 (x + 20 + s1) p) as ->.
  { unfold hget. rewrite Hl1. simpl. unfold ptr_to. by destruct (Z.eqb_spec (x + 20 + s1) e); [lia|]. }
  cbn [next size]. destruct (Z.eqb_spec (x + 20 + s1) 0); [lia|].
  unfold hget at 1. rewrite Hl2. cbn [negb andb free default from_option id].
  unfold hupd, hget. hread Hl1 Hl2.
  unfold set_size, set_next. cbn [magic size free next prev]. rewrite insert_insert_eq.
  rewrite (u32_small (s1 + (20 + s2))), Z.add_assoc by dlia. done.
Qed.

Lemma merge_prev_eq m e p x s1 s2 f2 : 0 < x -> 0 <= s1 -> 0 <= s2 ->
  s1 + 20 + s2 < 4294967296 ->
  m !! x = Some (Block MAGIC s1 true (ptr_to e (x + 20 + s1)) p) ->
  m !! (x + 20 + s1) = Some (Block MAGIC s2 f2 (ptr_to e (x + 20 + s1 + 20 + s2)) x) ->
  merge_prev (x + 20 + s1) m = merged m e p x s1 true s2.
Proof.
  intros Hx H1 H2 H32 Hl1 Hl2. unfold merge_prev, sizeof_block.
  assert (hget m (x + 20 + s1) = Block MAGIC s2 f2 (ptr_to e (x + 20 + s1 + 20 + s2)) x) as ->
    by (unfold hget; by rewrite Hl2).
  cbn [prev size]. destruct (Z.eqb_spec x 0); [lia|].
  unfold hget at 1. rewrite Hl1. cbn [negb andb free default from_option id].
  unfold hupd, hget. hread Hl1 Hl2.
  unfold set_size, set_next. cbn [magic size free next prev]. rewrite insert_insert_eq.
  rewrite (u32_small (s1 + (20 + s2))), Z.add_assoc by dlia. done.
Qed.

Lemma merge_next_no m x : next (hget m x) = 0 \/ free (hget m (next (hget m x))) = false -> merge_next x m = m.
Proof. intros [H|H]; unfold merge_next; rewrite H; [done|by rewrite andb_false_r]. Qed.

Lemma merge_prev_no m x : prev (hget m x) = 0 \/ free (hget m (prev (hget m x))) = false -> merge_prev x m = m.
Proof. intros [H|H]; unfold merge_prev; rewrite H; [done|by rewrite andb_false_r]. Qed.

(** Setting the free flag of a block. *)
Lemma set_free_seg m e p a b1 sz fr fr' b2 : 0 < a -> seg m e p a (b1 ++ (sz, fr) :: b2) ->
  seg (hupd (set_free fr') (fin a b1) m) e p a (b1 ++ (sz, fr') :: b2).
Proof.
  intros Ha Hseg. pose proof (seg_block _ _ _ _ _ _ _ _ Hseg) as (Hl & H0 & H1 & H2).
  unfold hupd, hget. rewrite Hl. unfold set_free. cbn [default from_option id magic size next prev].
  apply (seg_replace m _ e p a b1 [(sz, fr')] b2 H1).
  - cbn [seg]. split_and!; [done|by rewrite lookup_insert_eq|done].
  - cbn [lastb fin]. apply (seg_frame m); [done|]. intros y Hy. by rewrite lookup_insert_ne by lia.
  - intros y Hy. by rewrite lookup_insert_ne by lia.
Qed.

(** ** The blocks in use *)

Definition used_at (a : Z) (bs : list (Z * bool)) (b s : Z) : Prop := In (b, s, false) (place a bs).

Lemma place_app a b1 b2 : place a (b1 ++ b2) = place a b1 ++ place (fin a b1) b2.
Proof. revert a. induction b1 as [|[sz fr] b1 IH]; intros a; simpl; [done|]. by rewrite IH. Qed.

Lemma length_place a bs : length (place a bs) = length bs.
Proof. revert a. induction bs as [|[sz fr] bs IH]; intros a; simpl; [done|]. by rewrite IH. Qed.

Lemma used_app a b1 b2 b s : used_at a (b1 ++ b2) b s <-> used_at a b1 b s \/ used_at (fin a b1) b2 b s.
Proof. unfold used_at. rewrite place_app. apply in_app_iff. Qed.

Lemma used_cons a sz fr bs b s : used_at a ((sz, fr) :: bs) b s <->
  (fr = false /\ b = a /\ s = sz) \/ used_at (a + 20 + sz) bs b s.
Proof. unfold used_at. simpl. split; intros [H|H]; auto; [injection H as -> -> ->; auto|]. destruct H as (-> & -> & ->). auto. Qed.

Lemma used_nil a b s : used_at a [] b s <-> False.
Proof. done. Qed.

Lemma used_range a bs b s : sized bs -> used_at a bs b s -> a <= b /\ 0 <= s /\ b + 20 + s <= fin a bs.
Proof.
  revert a. induction bs as [|[sz fr] bs IH]; intros a Hs; [done|]. apply Forall_cons_1 in Hs as [H0 Hs].
  simpl in H0. rewrite used_cons. cbn [fin]. pose proof (fin_le (a + 20 + sz) bs Hs). pose proof (lenZ_nonneg bs).
  intros [(-> & -> & ->)|H']; [lia|]. apply IH in H'; [lia|done].
Qed.

Lemma used_split a bs b s : used_at a bs b s ->
  exists b1 b2, bs = b1 ++ (s, false) :: b2 /\ fin a b1 = b.
Proof.
  revert a. induction bs as [|[sz fr] bs IH]; intros a; [done|]. rewrite used_cons.
  intros [(-> & -> & ->)|H]; [by exists [], bs|].
  destruct (IH _ H) as (b1 & b2 & -> & <-). by exists ((sz, fr) :: b1), b2.
Qed.

End Heap.
