(* ===== verification/HeapSpec.v ===== *)
(** * Theorems about the kernel heap (kernel/mm/vmm.c)

    [kmalloc] and [kfree] implement an allocator of disjoint regions: an allocation adds
    one region, large enough and apart from all others, a release removes one, and the
    free blocks are kept merged.  The exception is an allocation that meets the limit
    of the heap. *)

From stdpp Require Import base list gmap numbers.
From S2P Require Import Prelude CString Pmm Layout Paging Heap.

#[local] Open Scope Z_scope.

Module HeapSpec.
Import Paging Heap.

(** ** Growing the heap *)

Lemma expand_from_spec fuel : forall need h, 0 <= need -> heap_end h <= heap_limit h < 4294963200 ->
  0 <= heap_end h -> (heap_limit h - heap_end h) mod 4096 = 0 ->
  (heap_limit h - heap_end h) / 4096 < Z.of_nat fuel ->
  exists s, expand_from fuel need h = Heap (store h) (heap_head h)
    (Z.min (heap_limit h) (heap_end h + 4096 * ((need + 4095) / 4096))) (heap_limit h) s.
Proof.
  induction fuel as [|fuel IH]; intros need h Hn He H0 Hm Hf; [dlia|]. cbn [expand_from].
  destruct (Z.ltb_spec (heap_end h) (heap_limit h)) as [Hlt|]; cbn [andb].
  - destruct (Z.ltb_spec 0 need).
    + destruct (alloc (mach h)) as [frame s1]. set (h1 := Heap _ _ _ _ _).
      assert (heap_end h1 = heap_end h + 4096) as Hend by (cbn; apply u32_small; dlia).
      destruct (IH (if 4096 <? need then need - 4096 else 0) h1) as [s ->]; rewrite ?Hend; cbn [heap_limit h1];
        [bcase; lia|dlia|dlia|dlia|dlia|].
      exists s. cbn [store heap_head heap_limit h1]. f_equal. bcase; dlia.
    + exists (mach h). replace need with 0 by lia. destruct h. cbn [store heap_head heap_end heap_limit mach] in *.
      f_equal. dlia.
  - exists (mach h). destruct h. cbn [store heap_head heap_end heap_limit mach] in *. f_equal. dlia.
Qed.

Lemma expand_spec need h : 0 <= need -> heap_end h <= heap_limit h < 4294963200 -> 0 <= heap_end h ->
  (heap_limit h - heap_end h) mod 4096 = 0 ->
  exists s, expand need h = Heap (store h) (heap_head h)
    (Z.min (heap_limit h) (heap_end h + 4096 * ((need + 4095) / 4096))) (heap_limit h) s.
Proof. intros. apply expand_from_spec; try done. dlia. Qed.

(** ** Searching *)

Lemma first_fit_spec m e sz bs : forall p a fuel, 0 < a -> seg m e p a bs -> fin a bs = e -> bs <> [] ->
  (length bs <= fuel)%nat ->
  (exists b1 s0 b2, bs = b1 ++ (s0, true) :: b2 /\ sz <= s0 /\ first_fit fuel m sz a = inl (fin a b1)) \/
  ((forall s, In (s, true) bs -> s < sz) /\
   exists b1 s f, bs = b1 ++ [(s, f)] /\ first_fit fuel m sz a = inr (fin a b1)).
Proof.
  induction bs as [|[s f] bs IH]; intros p a fuel Ha Hseg Hfin Hne Hfuel; [done|].
  pose proof (seg_sized _ _ _ _ _ Hseg) as Hsz. pose proof Hseg as (H0 & Hl & Hs).
  destruct fuel as [|fuel]; [simpl in Hfuel; lia|]. cbn [first_fit].
  destruct (Z.eqb_spec a 0); [lia|].
  assert (hget m a = Block MAGIC s f (ptr_to e (a + 20 + s)) p) as -> by (unfold hget; by rewrite Hl).
  cbn [Heap.free size next].
  destruct (f && (sz <=? s)) eqn:Efit.
  { apply andb_true_iff in Efit as [-> Hle%Z.leb_le]. left. by exists [], s, bs. }
  assert (forall s', (s, f) = (s', true) -> s' < sz) as Hnofit.
  { intros s' [= -> ->]. cbn [andb] in Efit. apply Z.leb_gt in Efit. done. }
  cbn [fin] in Hfin. unfold ptr_to. destruct bs as [|x bs].
  { cbn [fin] in Hfin. rewrite Hfin, Z.eqb_refl. right. split; [intros s' [H|[]]; by apply Hnofit|].
    by exists [], s, f. }
  pose proof (fin_le (a + 20 + s) (x :: bs) (seg_sized _ _ _ _ _ Hs)) as Hle2.
  unfold lenZ in Hle2. simpl length in Hle2.
  destruct (Z.eqb_spec (a + 20 + s) e); [lia|]. destruct (Z.eqb_spec (a + 20 + s) 0); [lia|].
  destruct (IH a (a + 20 + s) fuel ltac:(lia) Hs Hfin ltac:(done) ltac:(simpl in *; lia)) as
    [(b1 & s0 & b2 & E & Hs0 & ->)|(Hno & b1 & s0 & f0 & E & ->)]; rewrite E in *.
  - left. by exists ((s, f) :: b1), s0, b2.
  - right. split; [intros s' [H|Hin]; [by apply Hnofit|by apply Hno]|]. by exists ((s, f) :: b1), s0, f0.
Qed.

(** ** Adjacent free blocks *)

Lemma coal_mid b1 x b2 : coalesced (b1 ++ x :: b2) <-> coalesced (b1 ++ [x]) /\ coalesced (x :: b2).
Proof.
  induction b1 as [|[s f] b1 IH]; [simpl; destruct x; tauto|].
  destruct b1 as [|[s' f'] b1].
  - destruct x as [sx fx]. cbn [app coalesced]. tauto.
  - cbn [app] in *. cbn [coalesced]. rewrite IH. tauto.
Qed.

Lemma coal_size b1 s s' f : coalesced (b1 ++ [(s, f)]) -> coalesced (b1 ++ [(s', f)]).
Proof.
  induction b1 as [|[sb fb] b1 IH]; [done|]. destruct b1 as [|[sc fc] b1]; [done|].
  cbn [app coalesced] in *. intros [H1 H2]. split; [done|by apply IH].
Qed.

Lemma coal_used b1 s s' f : coalesced (b1 ++ [(s, f)]) -> coalesced (b1 ++ [(s', false)]).
Proof.
  induction b1 as [|[sb fb] b1 IH]; [done|]. destruct b1 as [|[sc fc] b1].
  - cbn. intros _. by rewrite andb_false_r.
  - cbn [app coalesced] in *. intros [H1 H2]. split; [done|by apply IH].
Qed.

Lemma coal_head s s' f b2 : coalesced ((s, f) :: b2) -> coalesced ((s', f) :: b2).
Proof. destruct b2 as [|[s2 f2] b2]; [done|]. cbn [coalesced]. done. Qed.

Lemma coal_tail x b2 : coalesced (x :: b2) -> coalesced b2.
Proof. destruct x as [s f], b2 as [|[s2 f2] b2]; [done|]. cbn [coalesced]. tauto. Qed.

Lemma coal_cons_used s b2 : coalesced b2 -> coalesced ((s, false) :: b2).
Proof. destruct b2 as [|[s2 f2] b2]; [done|]. cbn [coalesced]. done. Qed.

(** ** Allocating *)

Definition round8 (sz : Z) : Z := Z.land (u32 (sz + 7)) (not32 7).

Lemma round8_spec sz : 0 < sz <= HEAP_MAX -> sz <= round8 sz < sz + 8 /\ 0 < round8 sz <= HEAP_MAX + 8.
Proof.
  intros H. unfold HEAP_MAX in *. unfold round8. rewrite u32_small by dlia.
  rewrite (mask_low 3) by dlia. change (2 ^ 3) with 8. dlia.
Qed.

(** The heap after an allocation: one more region, of [s] bytes at [p]. *)
Record allocated (h : heap) (bs : list (Z * bool)) (p s : Z) (h' : heap) (bs' : list (Z * bool)) : Prop := {
  al_wf : wf h' bs';
  al_used : forall b t, used_at HEAP_START bs' b t <-> used_at HEAP_START bs b t \/ (b = p - 20 /\ t = s);
  al_apart : forall b t, used_at HEAP_START bs b t -> b + 20 + t <= p - 20 \/ p + s <= b;
  al_range : HEAP_START + 20 <= p /\ p + s <= heap_end h' }.

Lemma us_nonneg h bs p s h' bs' : allocated h bs p s h' bs' -> 0 <= s.
Proof.
  intros [[[_ Hs _ _ _ _] _] Hu _ _].
  destruct (used_range HEAP_START bs' (p - 20) s (seg_sized _ _ _ _ _ Hs)) as (_ & ? & _); [apply Hu; auto|done].
Qed.

Lemma wf_bounds h bs : wf0 h bs -> HEAP_START + 20 * lenZ bs <= heap_end h /\ heap_end h <= HEAP_MAX.
Proof.
  intros [_ Hs Hf _ He _]. pose proof (fin_le HEAP_START bs (seg_sized _ _ _ _ _ Hs)). lia.
Qed.

Lemma kmalloc_fit h b1 s0 b2 sz : wf0 h (b1 ++ (s0, true) :: b2) ->
  coalesced (b1 ++ [(s0, false)]) -> coalesced ((s0, true) :: b2) -> 0 < sz < 4294967000 ->
  let x := fin HEAP_START b1 in
  let h' := with_store h (hupd (set_free false) x (split x sz (store h))) in
  exists s bs', (sz <= s0 -> sz <= s) /\ allocated h (b1 ++ (s0, true) :: b2) (x + 20) s h' bs'.
Proof.
  intros Hwf Hc1 Hc2 Hsz x h'. pose proof (wf_bounds _ _ Hwf) as [Hb1 Hb2]. unfold HEAP_MAX in Hb2.
  destruct Hwf as [Hhead Hseg Hfin Hne Hend Hpg].
  pose proof (seg_block _ _ _ _ _ _ _ _ Hseg) as (Hl & H0 & H1 & H2). fold x in Hl, H2.
  assert (0 < HEAP_START) as Hst by done.
  pose proof (fin_le HEAP_START b1 (seg_sized _ _ _ _ _ H1)) as Hx. fold x in Hx. pose proof (lenZ_nonneg b1).
  pose proof (fin_le (x + 20 + s0) b2 (seg_sized _ _ _ _ _ H2)) as Hx2. pose proof (lenZ_nonneg b2).
  assert (fin (x + 20 + s0) b2 = heap_end h) as Hfin2 by (rewrite fin_app in Hfin; exact Hfin).
  assert (forall b t, used_at HEAP_START b1 b t -> b + 20 + t <= x) as Hu1.
  { intros b t Hu. apply used_range in Hu; [fold x in Hu; lia|by eapply seg_sized]. }
  assert (forall b t, used_at (x + 20 + s0) b2 b t -> x + 20 + s0 <= b) as Hu2.
  { intros b t Hu. apply used_range in Hu; [lia|by eapply seg_sized]. }
  destruct (Z.le_gt_cases (sz + 36) s0) as [Hsp|Hsp].
  - exists sz, (b1 ++ (sz, false) :: (s0 - sz - 20, true) :: b2). split; [lia|]. split.
    + split; [split; cbn [with_store heap_head heap_end heap_limit store h']; try done|].
      * apply (set_free_seg _ _ _ _ _ sz true); [done|]. apply split_seg; try done; [lia|lia].
      * rewrite fin_app. cbn [fin]. fold x. rewrite <- Hfin2. f_equal. lia.
      * by destruct b1.
      * apply coal_mid. split; [by apply (coal_size _ s0)|]. cbn [coalesced]. split; [done|].
        by apply (coal_head s0).
    + intros b t. rewrite !used_app, !used_cons. fold x.
      replace (x + 20 + sz + 20 + (s0 - sz - 20)) with (x + 20 + s0) by lia.
      replace (x + 20 - 20) with x by lia. intuition congruence.
    + intros b t. rewrite used_app, used_cons. fold x. intros [Hu|[[? _]|Hu]]; [|done|].
      * specialize (Hu1 b t Hu). lia.
      * specialize (Hu2 b t Hu). lia.
    + cbn [with_store heap_end h']. lia.
  - exists s0, (b1 ++ (s0, false) :: b2). split; [lia|].
    assert (split x sz (store h) = store h) as Hno.
    { apply (split_none _ _ _ s0); [unfold hget; by rewrite Hl| |lia]. lia. }
    unfold h'. rewrite Hno. split.
    + split; [split; cbn [with_store heap_head heap_end heap_limit store]; try done|].
      * by apply (set_free_seg _ _ _ _ _ s0 true).
      * rewrite fin_app. cbn [fin]. fold x. done.
      * by destruct b1.
      * apply coal_mid. split; [by apply (coal_size _ s0)|]. by apply coal_cons_used, (coal_tail (s0, true)).
    + intros b t. rewrite !used_app, !used_cons. fold x.
      replace (x + 20 - 20) with x by lia. intuition congruence.
    + intros b t. rewrite used_app, used_cons. fold x. intros [Hu|[[? _]|Hu]]; [|done|].
      * specialize (Hu1 b t Hu). lia.
      * specialize (Hu2 b t Hu). lia.
    + cbn [with_store heap_end]. lia.
Qed.

(** A new last block after the old end. *)
Lemma append_seg m e e' a b1 s f n : 0 < a -> e < e' -> n = e' - e - 20 -> 0 <= n ->
  seg m e 0 a (b1 ++ [(s, f)]) -> fin a (b1 ++ [(s, f)]) = e ->
  seg (hupd (set_next e) (fin a b1) (<[e := Block MAGIC n true 0 (fin a b1)]> m)) e' 0 a
    (b1 ++ [(s, f); (n, true)]).
Proof.
  intros Ha He Hn Hn0 Hseg Hfin. pose proof (seg_block _ _ _ _ _ _ _ _ Hseg) as (Hl & H0 & H1 & _).
  rewrite fin_app in Hfin. cbn [fin] in Hfin. pose proof (fin_le a b1 (seg_sized _ _ _ _ _ H1)).
  pose proof (lenZ_nonneg b1). set (x := fin a b1) in *.
  unfold hupd, hget. rewrite lookup_insert_ne by lia. rewrite Hl. unfold set_next.
  cbn [default from_option id magic size Heap.free prev].
  change [(s, f); (n, true)] with ([(s, f); (n, true)] ++ []).
  apply (seg_replace m _ e' 0 a b1 [(s, f); (n, true)] []).
  - apply (seg_ends m e); [fold x; lia|fold x; lia|done].
  - cbn [seg]. fold x. split_and!; [done| |done| |done].
    + rewrite lookup_insert_eq. unfold ptr_to. destruct (Z.eqb_spec (x + 20 + s) e'); [lia|]. by rewrite Hfin.
    + rewrite Hfin, lookup_insert_ne, lookup_insert_eq by lia. unfold ptr_to.
      destruct (Z.eqb_spec (e + 20 + n) e'); [done|lia].
  - done.
  - intros y Hy. fold x in Hy. by rewrite !lookup_insert_ne by lia.
Qed.

Lemma kmalloc_search h bs sz : wf0 h bs -> 0 < sz ->
  (exists b1 s0 b2, bs = b1 ++ (s0, true) :: b2 /\ sz <= s0 /\
     first_fit (fuel_of h) (store h) sz (heap_head h) = inl (fin HEAP_START b1)) \/
  ((forall s, In (s, true) bs -> s < sz) /\ exists b1 s f, bs = b1 ++ [(s, f)] /\
     first_fit (fuel_of h) (store h) sz (heap_head h) = inr (fin HEAP_START b1)).
Proof.
  intros Hwf Hsz. pose proof (wf_bounds _ _ Hwf) as [Hb _]. destruct Hwf as [Hhead Hseg Hfin Hne _ _].
  rewrite Hhead. eapply (first_fit_spec _ _ _ _ 0); try done.
  unfold fuel_of, sizeof_block. unfold lenZ in Hb. dlia.
Qed.

(** The pages [kmalloc] asks for. *)
Lemma kmalloc_expand h bs sz : wf0 h bs -> 0 < sz <= HEAP_MAX ->
  exists st, expand (u32 (round8 sz + sizeof_block + 4096)) h = Heap (store h) (heap_head h)
    (Z.min (heap_limit h) (heap_end h + 4096 * ((round8 sz + 8211) / 4096))) (heap_limit h) st.
Proof.
  intros Hwf Hsz. pose proof (round8_spec sz Hsz) as [_ Hr]. pose proof (wf_bounds _ _ Hwf) as [Hb _].
  pose proof (lenZ_nonneg bs). unfold HEAP_START, HEAP_MAX in *.
  assert (u32 (round8 sz + sizeof_block + 4096) = round8 sz + 4116) as ->
    by (unfold sizeof_block; rewrite u32_small by dlia; lia).
  destruct Hwf as [_ _ _ _ He Hp]. unfold HEAP_MAX in He.
  destruct (expand_spec (round8 sz + 4116) h) as [st ->]; [lia|lia|lia|done|].
  exists st. by replace (round8 sz + 4116 + 4095) with (round8 sz + 8211) by lia.
Qed.

(** The branch of [kmalloc] that adds a block at the end of the heap. *)
Lemma kmalloc_append h b1 s f sz st e' : wf h (b1 ++ [(s, f)]) -> 0 < sz <= HEAP_MAX ->
  heap_end h + 4096 <= e' <= heap_limit h -> (heap_limit h - e') mod 4096 = 0 ->
  exists p s0 h' bs', (if e' =? heap_end h then (0, Heap (store h) (heap_head h) e' (heap_limit h) st)
    else
      let m1 := <[heap_end h := Block MAGIC (u32 (e' - heap_end h - sizeof_block)) true 0 (fin HEAP_START b1)]> (store h) in
      let m2 := hupd (set_next (heap_end h)) (fin HEAP_START b1) m1 in
      let m3 := hupd (set_free false) (heap_end h) (split (heap_end h) (round8 sz) m2) in
      (u32 (heap_end h + sizeof_block), with_store (Heap (store h) (heap_head h) e' (heap_limit h) st) m3)) = (p, h') /\
    p <> 0 /\ (round8 sz + 20 <= e' - heap_end h -> sz <= s0) /\ allocated h (b1 ++ [(s, f)]) p s0 h' bs'.
Proof.
  intros [Hwf Hcoal] Hsz Hroom Hpg'. pose proof (round8_spec sz Hsz) as [Hr1 Hr2].
  pose proof (wf_bounds _ _ Hwf) as [Hb1 Hb2]. pose proof (lenZ_nonneg (b1 ++ [(s, f)])).
  destruct Hwf as [Hhead Hseg Hfin Hne Hend Hpg]. unfold HEAP_MAX in *.
  destruct (Z.eqb_spec e' (heap_end h)) as [|_]; [lia|]. unfold sizeof_block.
  rewrite (u32_small (e' - heap_end h - 20)), (u32_small (heap_end h + 20)) by (unfold HEAP_START in *; dlia).
  cbv zeta. set (n := e' - heap_end h - 20). set (m2 := hupd _ (fin HEAP_START b1) _).
  set (h2 := Heap m2 (heap_head h) e' (heap_limit h) st).
  assert (wf0 h2 ((b1 ++ [(s, f)]) ++ [(n, true)])) as Hwf2.
  { rewrite <- app_assoc. split; cbn [heap_head store heap_end heap_limit h2].
    - done.
    - by apply append_seg; (done || unfold n; lia).
    - rewrite fin_app. rewrite fin_app in Hfin. cbn [fin app] in *. rewrite Hfin. unfold n. lia.
    - by destruct b1.
    - unfold HEAP_MAX. lia.
    - done. }
  destruct (kmalloc_fit h2 (b1 ++ [(s, f)]) n [] (round8 sz) Hwf2) as (s0 & bs' & Hs & Hal).
  { rewrite <- app_assoc. apply coal_mid. split; [done|]. cbn. by rewrite andb_false_r. }
  { done. } { lia. }
  rewrite Hfin in Hal. cbn [store h2] in Hal.
  exists (heap_end h + 20), s0, (with_store h2 (hupd (set_free false) (heap_end h) (split (heap_end h) (round8 sz) m2))), bs'.
  split_and!; [done|unfold HEAP_START in *; lia|unfold n in Hs; lia|].
  destruct Hal as [Hw Hu Ha Hr]. split; [done| | |done].
  - intros b t. rewrite Hu, (used_app _ (b1 ++ _)), used_cons, used_nil. intuition congruence.
  - intros b t Hb. apply Ha. rewrite used_app. by left.
Qed.

(** What [kmalloc] does in all cases: a fresh region, at least as large as the request
    unless the heap has met its limit, or NULL and the same blocks. *)
Lemma kmalloc_total h bs sz : wf h bs -> 0 < sz <= HEAP_MAX ->
  exists p h', kmalloc sz h = (p, h') /\
    ((p = 0 /\ wf h' bs /\ heap_end h = heap_limit h /\ forall s, In (s, true) bs -> s < round8 sz) \/
     (p <> 0 /\ ((exists s, In (s, true) bs /\ round8 sz <= s) \/ heap_end h < heap_limit h) /\
      exists s bs', allocated h bs p s h' bs' /\
        ((exists s, In (s, true) bs /\ round8 sz <= s) \/
         heap_end h + 4096 * ((round8 sz + 8211) / 4096) <= heap_limit h -> sz <= s))).
Proof.
  intros Hw Hsz. pose proof Hw as [Hwf Hcoal]. pose proof (round8_spec sz Hsz) as [Hr1 Hr2].
  pose proof (wf_bounds _ _ Hwf) as [Hb1 Hb2]. pose proof (lenZ_nonneg bs). unfold HEAP_MAX in Hr2.
  unfold kmalloc. destruct (Z.eqb_spec sz 0); [lia|]. fold (round8 sz).
  destruct (kmalloc_expand h bs sz Hwf Hsz) as [st Hexp].
  destruct (kmalloc_search h bs (round8 sz) Hwf ltac:(lia)) as
    [(b1 & s0 & b2 & -> & Hle & ->)|(Hno & b1 & s & f & -> & ->)].
  - apply coal_mid in Hcoal as [Hc1 Hc2].
    destruct (kmalloc_fit h b1 s0 b2 (round8 sz) Hwf ltac:(by apply (coal_used _ s0 _ true)) Hc2 ltac:(lia))
      as (s & bs' & Hs & Hal).
    pose proof (al_range _ _ _ _ _ _ Hal) as [Hp1 Hp2]. cbn [with_store heap_end] in Hp2.
    pose proof (us_nonneg _ _ _ _ _ _ Hal).
    rewrite u32_small by (unfold sizeof_block, HEAP_START, HEAP_MAX in *; dlia).
    eexists _, _. split; [done|]. right. split; [unfold sizeof_block, HEAP_START in *; lia|].
    split; [left; exists s0; split; [apply in_app_iff; simpl; tauto|done]|]. exists s, bs'. split; [exact Hal|]. intros _. lia.
  - rewrite Hexp. cbn [heap_end store]. destruct Hwf as [Hhead Hseg Hfin Hne Hend Hpg].
    destruct (decide (heap_end h = heap_limit h)) as [He|Hlt].
    + rewrite Z.min_l by (rewrite He; dlia). rewrite He, Z.eqb_refl.
      eexists _, _. split; [done|]. left. split_and!; try done.
      split; [split; cbn [heap_head store heap_end heap_limit]; rewrite <- ?He; try done; by rewrite Z.sub_diag|done].
    + set (e' := Z.min _ _).
      destruct (kmalloc_append h b1 s f sz st e' Hw Hsz) as (p & s0 & h' & bs' & E & Hp & Hs & Hal);
        [unfold e'; dlia|unfold e'; dlia|].
      exists p, h'. split; [exact E|]. right. split; [done|]. split; [right; lia|]. exists s0, bs'. split; [done|].
      intros [(s' & Hin & ?)|Hroom]; [specialize (Hno s' Hin); lia|]. apply Hs. unfold e'. dlia.
Qed.

(** What an allocation does to the list of blocks. *)
Lemma kmalloc_regions h bs sz : wf h bs -> 0 < sz <= HEAP_MAX ->
  kmalloc 0 h = (0, h) /\
  ((exists s, In (s, true) bs /\ round8 sz <= s) \/
   heap_end h + 4096 * ((round8 sz + 8211) / 4096) <= heap_limit h ->
   exists p s h' bs', kmalloc sz h = (p, h') /\ sz <= s /\ allocated h bs p s h' bs') /\
  ((forall s, In (s, true) bs -> s < round8 sz) -> heap_end h = heap_limit h ->
   exists h', kmalloc sz h = (0, h') /\ wf h' bs).
Proof.
  intros Hw Hsz. split; [done|].
  destruct (kmalloc_total h bs sz Hw Hsz) as (p & h' & -> & [(-> & Hw' & He & Hno)|(Hp & Hc & s & bs' & Hal & Hs)]).
  - split; [|by intros _ _; exists h'].
    intros [(s & Hin & Hle)|Hroom]; [specialize (Hno s Hin); lia|].
    pose proof (round8_spec sz Hsz). dlia.
  - split; [intros Hc'; exists p, s, h', bs'; auto|].
    intros Hno He. exfalso. destruct Hc as [(s' & Hin & Hle)|Hlt]; [specialize (Hno s' Hin); lia|lia].
Qed.

(** Near its limit the heap cannot always be extended by as much as was asked for, and
    [kmalloc] does not look at how much it got: when no free block fits and fewer than
    [sz] bytes (and a header) are left below the limit, it still returns the new last
    block, whose [sz] bytes reach past the end of the heap. *)
Theorem kmalloc_undersized h bs sz : wf h bs -> 0 < sz <= HEAP_MAX ->
  (forall s, In (s, true) bs -> s < round8 sz) ->
  heap_end h < heap_limit h < heap_end h + 20 + sz ->
  exists h', kmalloc sz h = (heap_end h + 20, h') /\ heap_end h' = heap_limit h /\
    heap_end h' < heap_end h + 20 + sz.
Proof.
  intros [Hwf Hcoal] Hsz Hno Hlim. pose proof (round8_spec sz Hsz) as [Hr1 Hr2].
  pose proof (wf_bounds _ _ Hwf) as [Hb1 Hb2]. pose proof (lenZ_nonneg bs).
  unfold kmalloc. destruct (Z.eqb_spec sz 0); [lia|]. fold (round8 sz).
  destruct (kmalloc_expand h bs sz Hwf Hsz) as [st ->].
  destruct (kmalloc_search h bs (round8 sz) Hwf ltac:(lia)) as
    [(b1 & s0 & b2 & -> & Hle & _)|(_ & b1 & s & f & -> & ->)].
  { specialize (Hno s0 ltac:(apply in_app_iff; simpl; tauto)). lia. }
  cbn [heap_end]. rewrite Z.min_l by dlia. destruct (Z.eqb_spec (heap_limit h) (heap_end h)); [lia|].
  eexists. split; [f_equal; unfold sizeof_block; apply u32_small; unfold HEAP_START, HEAP_MAX in *; dlia|].
  cbn [with_store heap_end]. lia.
Qed.

(** ** Releasing *)

(** Merging the block [sz] with the free blocks around it. *)
Definition join_next (sz : Z) (b2 : list (Z * bool)) : Z * list (Z * bool) :=
  match b2 with (s2, true) :: b2' => (sz + 20 + s2, b2') | _ => (sz, b2) end.

Lemma join_next_seg m e a b1 sz b2 : 0 < a -> e < 4294967296 -> seg m e 0 a (b1 ++ (sz, true) :: b2) ->
  fin a (b1 ++ (sz, true) :: b2) = e ->
  let '(sz', b2') := join_next sz b2 in
  seg (merge_next (fin a b1) m) e 0 a (b1 ++ (sz', true) :: b2') /\
  fin a (b1 ++ (sz', true) :: b2') = e /\
  (forall b t, used_at a (b1 ++ (sz', true) :: b2') b t <-> used_at a (b1 ++ (sz, true) :: b2) b t) /\
  (coalesced ((sz, false) :: b2) -> coalesced ((sz', true) :: b2')).
Proof.
  intros Ha He Hseg Hfin. pose proof (seg_block _ _ _ _ _ _ _ _ Hseg) as (Hl & H0 & H1 & H2).
  pose proof (fin_le a b1 (seg_sized _ _ _ _ _ H1)) as Hx. pose proof (lenZ_nonneg b1).
  pose proof Hfin as Hfin'. rewrite fin_app in Hfin'. cbn [fin] in Hfin'. set (x := fin a b1) in *.
  assert (hget m x = Block MAGIC sz true (ptr_to e (x + 20 + sz)) (lastb 0 a b1)) as Hg
    by (unfold hget; by rewrite Hl).
  destruct b2 as [|[s2 f2] b2]; [|pose proof (fin_le (x + 20 + sz) _ (seg_sized _ _ _ _ _ H2)) as Hx2;
    unfold lenZ in Hx2; cbn [length] in Hx2; destruct f2]; cbn [join_next].
  - split_and!; try done. rewrite merge_next_no; [done|]. left. rewrite Hg. cbn [next fin] in *.
    unfold ptr_to. by rewrite Hfin', Z.eqb_refl.
  - pose proof H2 as (H0' & Hl2 & H2'). cbn [fin] in Hfin', Hx2.
    pose proof (fin_le (x + 20 + sz + 20 + s2) b2 (seg_sized _ _ _ _ _ H2')). pose proof (lenZ_nonneg b2).
    rewrite (merge_next_eq m e (lastb 0 a b1) x sz true s2); try done; try lia.
    split_and!.
    + by apply (merged_seg m e 0 a b1 sz true s2 true b2).
    + rewrite fin_app. cbn [fin]. fold x. rewrite <- Hfin'. f_equal. lia.
    + intros b t. rewrite !used_app, !used_cons. fold x.
      replace (x + 20 + (sz + 20 + s2)) with (x + 20 + sz + 20 + s2) by lia. intuition congruence.
    + intros Hc. apply coal_tail in Hc. by apply (coal_head s2).
  - split_and!; try done.
    + rewrite merge_next_no; [done|]. right. destruct H2 as (H0' & Hl2 & _). rewrite Hg. cbn [next].
      unfold ptr_to. destruct (Z.eqb_spec (x + 20 + sz) e); [lia|]. unfold hget. by rewrite Hl2.
Qed.

Lemma join_prev_seg m e a b1 sz b2 : 0 < a -> e < 4294967296 -> seg m e 0 a (b1 ++ (sz, true) :: b2) ->
  fin a (b1 ++ (sz, true) :: b2) = e -> coalesced (b1 ++ [(sz, false)]) -> coalesced ((sz, true) :: b2) ->
  exists bs', seg (merge_prev (fin a b1) m) e 0 a bs' /\ fin a bs' = e /\ bs' <> [] /\ coalesced bs' /\
    forall b t, used_at a bs' b t <-> used_at a (b1 ++ (sz, true) :: b2) b t.
Proof.
  intros Ha He Hseg Hfin Hc1 Hc2. pose proof (seg_block _ _ _ _ _ _ _ _ Hseg) as (Hl & H0 & H1 & H2).
  pose proof (fin_le a b1 (seg_sized _ _ _ _ _ H1)) as Hx. pose proof (lenZ_nonneg b1).
  pose proof Hfin as Hfin'. rewrite fin_app in Hfin'. cbn [fin] in Hfin'.
  pose proof (fin_le (fin a b1 + 20 + sz) b2 (seg_sized _ _ _ _ _ H2)). pose proof (lenZ_nonneg b2).
  assert (hget m (fin a b1) = Block MAGIC sz true (ptr_to e (fin a b1 + 20 + sz)) (lastb 0 a b1)) as Hg
    by (unfold hget; by rewrite Hl).
  destruct b1 as [|[s1 f1] b1 _] using rev_ind.
  { exists ((sz, true) :: b2). rewrite merge_prev_no; [done|]. left. by rewrite Hg. }
  rewrite <- app_assoc in Hseg, Hfin, Hc1 |- *. cbn [app] in Hseg, Hfin, Hc1 |- *.
  pose proof (seg_block _ _ _ _ _ _ _ _ Hseg) as (Hl1 & H01 & H11 & _).
  pose proof (fin_le a b1 (seg_sized _ _ _ _ _ H11)). pose proof (lenZ_nonneg b1).
  rewrite fin_app, lastb_app in *. cbn [fin lastb] in *. set (x := fin a b1) in *.
  destruct f1.
  - exists (b1 ++ (s1 + 20 + sz, true) :: b2).
    rewrite (merge_prev_eq m e (lastb 0 a b1) x s1 sz true); try done; try lia.
    split_and!.
    + apply (merged_seg m e 0 a b1 s1 true sz true b2); [done|by rewrite fin_app|done].
    + rewrite fin_app. cbn [fin]. fold x. rewrite <- Hfin'. f_equal. lia.
    + by destruct b1.
    + apply coal_mid. apply coal_mid in Hc1 as [Hc1 _].
      split; [by apply (coal_size _ s1)|by apply (coal_head sz)].
    + intros b t. rewrite !used_app, !used_cons. fold x.
      replace (x + 20 + (s1 + 20 + sz)) with (x + 20 + s1 + 20 + sz) by lia. intuition congruence.
  - exists (b1 ++ (s1, false) :: (sz, true) :: b2).
    rewrite merge_prev_no by (right; rewrite Hg; cbn [prev]; unfold hget; by rewrite Hl1).
    split_and!; try done; [by rewrite fin_app|by destruct b1|].
    apply coal_mid. apply coal_mid in Hc1 as [Hc1 _]. split; [done|]. by apply coal_cons_used.
Qed.

Lemma kfree_spec h bs p s : wf h bs -> used_at HEAP_START bs (p - 20) s ->
  exists bs', wf (kfree p h) bs' /\
    forall b t, used_at HEAP_START bs' b t <-> used_at HEAP_START bs b t /\ b <> p - 20.
Proof.
  intros [Hwf Hcoal] Hu. pose proof (wf_bounds _ _ Hwf) as [Hb1 Hb2].
  destruct Hwf as [Hhead Hseg Hfin Hne Hend Hpg].
  pose proof (used_range _ _ _ _ (seg_sized _ _ _ _ _ Hseg) Hu) as (Hu1 & Hu2 & Hu3). rewrite Hfin in Hu3.
  apply used_split in Hu as (b1 & b2 & -> & Hx). unfold HEAP_MAX in *.
  assert (0 < HEAP_START) as Hst by done. assert (heap_end h < 4294967296) as He by lia.
  unfold kfree, sizeof_block. destruct (Z.eqb_spec p 0); [unfold HEAP_START in *; lia|].
  rewrite u32_small by (unfold HEAP_START in *; dlia). rewrite <- Hx in *.
  pose proof (seg_block _ _ _ _ _ _ _ _ Hseg) as (Hl & _ & H1 & H2).
  assert (magic (hget (store h) (fin HEAP_START b1)) = MAGIC) as -> by (unfold hget; by rewrite Hl).
  rewrite Z.eqb_refl. cbn [negb]. unfold coalesce.
  apply coal_mid in Hcoal as [Hc1 Hc2].
  pose proof (set_free_seg _ _ _ _ _ s false true b2 Hst Hseg) as Hseg1.
  pose proof (join_next_seg _ _ _ _ _ _ Hst He Hseg1) as Hj.
  rewrite fin_app in Hfin. cbn [fin] in Hfin.
  specialize (Hj ltac:(rewrite fin_app; exact Hfin)).
  destruct (join_next s b2) as [s' b2']. destruct Hj as (Hseg2 & Hfin2 & Hused2 & Hcoal2).
  destruct (join_prev_seg _ _ _ _ _ _ Hst He Hseg2 Hfin2 (coal_size _ s _ _ Hc1) (Hcoal2 Hc2)) as
    (bs' & Hseg3 & Hfin3 & Hne3 & Hcoal3 & Hused3).
  exists bs'. split; [by split; [split|]|].
  intros b t. rewrite Hused3, Hused2, !used_app, !used_cons.
  assert (used_at HEAP_START b1 b t -> b < fin HEAP_START b1) as Hr1.
  { intros Hu. apply used_range in Hu; [lia|by eapply seg_sized]. }
  assert (used_at (fin HEAP_START b1 + 20 + s) b2 b t -> fin HEAP_START b1 < b) as Hr2.
  { intros Hu. apply used_range in Hu; [lia|by eapply seg_sized]. }
  split; [intros [Hu|[[? _]|Hu]]; [split; [tauto|specialize (Hr1 Hu); lia]|done|split; [tauto|specialize (Hr2 Hu); lia]]|].
  intros [[Hu|[(_ & -> & _)|Hu]] Hn]; [tauto|done|tauto].
Qed.

(** C21: Releasing a region in use removes exactly that region; every other region stays
    where it is and the heap stays well formed, in particular no two free blocks are
    left next to each other.  Releasing NULL does nothing. *)
Theorem kfree_correct h bs p s : wf h bs -> used_at HEAP_START bs (p - 20) s ->
  kfree 0 h = h /\
  exists bs', wf (kfree p h) bs' /\
    forall b t, used_at HEAP_START bs' b t <-> used_at HEAP_START bs b t /\ b <> p - 20.
Proof. intros Hw Hu. split; [done|]. by apply (kfree_spec h bs p s). Qed.

(** After [vmm_init] the heap is one free block of 4 MiB less a header. *)
Lemma vmm_init_wf h : wf (vmm_init h) [(4194284, true)].
Proof.
  unfold vmm_init. destruct (expand_spec 4194304 (Heap (store h) (heap_head h) HEAP_START HEAP_MAX (mach h)))
    as [st ->]; [done|done|done|done|].
  cbn [heap_end heap_limit heap_head store mach]. unfold HEAP_START, HEAP_MAX.
  split; [|done]. split; cbn [heap_end heap_limit heap_head store]; try done.
  cbn [seg]. split_and!; [lia| |done]. by rewrite lookup_insert_eq.
Qed.

(** ** Concrete heaps *)

Definition full_heap : heap :=
  Heap {[HEAP_START := Block MAGIC 100659180 false 0 0]} HEAP_START 134213632 HEAP_MAX
    (Machine (fun _ => zero_page) Pmm.small 0 0 0 0 true).

Lemma full_heap_wf : wf full_heap [(100659180, false)].
Proof.
  split; [|exact I]. split; try reflexivity; try discriminate.
  - split; [lia|]. split; [reflexivity|exact I].
  - cbn. unfold HEAP_MAX. lia.
Qed.

Lemma kmalloc_undersized_witness :
  exists h', kmalloc 8192 full_heap = (134213652, h') /\ heap_end h' < 134213652 + 8192.
Proof.
  destruct (kmalloc_undersized full_heap [(100659180, false)] 8192 full_heap_wf ltac:(unfold HEAP_MAX; lia))
    as (h' & H1 & H2 & H3).
  - intros s [[=]|[]].
  - cbn. unfold HEAP_MAX. lia.
  - exists h'. split; [exact H1|cbn in H3; lia].
Defined.

Lemma kfree_correct_witness :
  used_at HEAP_START [(100659180, false)] HEAP_START 100659180 /\
  exists bs', wf (kfree 33554452 full_heap) bs' /\ forall b t, ~ used_at HEAP_START bs' b t.
Proof.
  assert (used_at HEAP_START [(100659180, false)] (33554452 - 20) 100659180) as Hu by (left; reflexivity).
  split; [exact Hu|].
  destruct (kfree_correct full_heap [(100659180, false)] 33554452 100659180 full_heap_wf Hu) as (_ & bs' & Hw & H).
  exists bs'. split; [exact Hw|]. intros b t Hb. apply H in Hb as [[[= <- <-]|[]] Hn]. apply Hn. reflexivity.
Defined.

End HeapSpec.
