(* ===== verification/KernelMap.v ===== *)
(** * The kernel's own mapping

    What [hal_paging_init] and [vmm_init] leave in the kernel's page tables.  The kernel
    uses physical addresses as pointers, for page tables and for the pages of programs, and
    so relies on an identity mapping.  [mapping] describes a directory with distinct tables
    by the frame behind each page; the two primitive steps of [map_in_dir] are shown to
    change it in one place only. *)

From stdpp Require Import base list gmap numbers sets.
From S2P Require Import Prelude CString Pmm Layout Paging AddrSpace Spaces Heap HeapSpec.

#[local] Open Scope Z_scope.

Module KernelMap.
Import Paging AddrSpace.

Definition PAGES : Z := 1048576.

(** The frame behind page [n], and the table that serves directory entry [i]. *)
Definition table (s : machine) (dir i : Z) : option Z :=
  if present (entry s dir i) then Some (frame_of (entry s dir i)) else None.
Definition page (s : machine) (dir n : Z) : option Z :=
  t ← table s dir (n / 1024);
  if present (entry s t (n mod 1024)) then Some (frame_of (entry s t (n mod 1024))) else None.

Record mapping (s : machine) (dir : Z) (m : Z -> option Z) : Prop := {
  mp_ok : ok s;
  mp_dir : used s dir;
  mp_used : forall i t, 0 <= i < 1024 -> table s dir i = Some t -> used s t /\ t <> dir;
  mp_inj : forall i j t, 0 <= i < 1024 -> 0 <= j < 1024 -> table s dir i = Some t -> table s dir j = Some t -> i = j;
  mp_page : forall n, 0 <= n < PAGES -> page s dir n = m n }.

Lemma mapping_ext s dir m m' : (forall n, 0 <= n < PAGES -> m n = m' n) -> mapping s dir m -> mapping s dir m'.
Proof. intros H [A B C E F]. split; try done. intros n Hn. rewrite F by done. by apply H. Qed.

(** A store elsewhere. *)
Lemma mapping_frame P A s s' dir m : keeps P A s s' -> mapping s dir m -> ~ P dir ->
  (forall i t, 0 <= i < 1024 -> table s dir i = Some t -> ~ P t) ->
  mapping s' dir m /\ forall i, table s' dir i = table s dir i.
Proof.
  intros Hk [Hok Hd Hu Hi Hp] HPd HPt.
  assert (forall i, table s' dir i = table s dir i) as Ht.
  { intros i. unfold table, entry. by rewrite (kp_mem _ _ _ _ Hk dir Hd HPd). }
  split; [|done]. split.
  - apply Hk.
  - by apply (keeps_used _ _ _ _ _ Hk).
  - intros i t Hir. rewrite Ht. intros E. destruct (Hu i t Hir E). split; [by apply (keeps_used _ _ _ _ _ Hk)|done].
  - intros i j t Hir Hjr. rewrite !Ht. by apply Hi.
  - intros n Hn. rewrite <- Hp by done. unfold page. rewrite Ht.
    assert (0 <= n / 1024 < 1024) as Hr by (unfold PAGES in Hn; dlia).
    destruct (table s dir (n / 1024)) as [t|] eqn:E; [|done]. cbn. destruct (Hu _ _ Hr E) as [Hut _].
    unfold entry. rewrite (kp_mem _ _ _ _ Hk t Hut); [done|]. by apply (HPt (n / 1024)).
Qed.

Definition upd (m : Z -> option Z) (n f : Z) : Z -> option Z := fun k => if k =? n then Some f else m k.

(** Storing an entry in a table that is there. *)
Lemma store_mapping s dir m n t pa fl : mapping s dir m -> 0 <= n < PAGES -> table s dir (n / 1024) = Some t ->
  is_u32 pa -> pa mod 4096 = 0 -> 0 <= fl < 4096 -> present fl = true ->
  let s' := set_entry t (n mod 1024) (Z.lor pa fl) s in
  mapping s' dir (upd m n pa) /\ keeps (eq t) ∅ s s' /\ forall i, 0 <= i < 1024 -> table s' dir i = table s dir i.
Proof.
  intros Hm Hn Ht Hpa Hal Hfl Hpr. cbv zeta. unfold PAGES in Hn.
  assert (0 <= n mod 1024 < 1024 /\ 0 <= n / 1024 < 1024) as [Hti Hdi] by dlia.
  destruct (entry_make pa fl Hpa Hal Hfl) as (Hv & Hfr & _ & Hpv).
  pose proof (set_entry_keeps s t (n mod 1024) (Z.lor pa fl) (mp_ok _ _ _ Hm) Hti) as Hk.
  set (s' := set_entry _ _ _ s) in *. destruct Hm as [Hok Hd Hu Hi Hp]. destruct (Hu _ _ Hdi Ht) as [Hut Htd].
  assert (forall g j, 0 <= j < 1024 -> entry s' g j = if (g =? t) && (j =? n mod 1024) then Z.lor pa fl else entry s g j) as He.
  { intros g j Hj. apply entry_set_entry; (done || apply Hok). }
  assert (forall i, 0 <= i < 1024 -> table s' dir i = table s dir i) as Htab.
  { intros i Hir. unfold table. rewrite He by done. destruct (Z.eqb_spec dir t); [congruence|done]. }
  split_and!; [|done|done]. split.
  - apply Hk.
  - by apply (keeps_used _ _ _ _ _ Hk).
  - intros i u Hir. rewrite Htab by done. intros E. destruct (Hu i u Hir E). split; [by apply (keeps_used _ _ _ _ _ Hk)|done].
  - intros i j u Hir Hjr. rewrite !Htab by done. by apply Hi.
  - intros k Hkr. unfold PAGES in Hkr. assert (0 <= k mod 1024 < 1024 /\ 0 <= k / 1024 < 1024) as [Hkt Hkd] by dlia.
    unfold upd, page. rewrite Htab by done. destruct (Z.eqb_spec k n) as [->|Hne].
    { rewrite Ht. cbn. rewrite He by done. rewrite !Z.eqb_refl. cbn [andb]. by rewrite Hpv, Hpr, Hfr. }
    rewrite <- Hp by done. unfold page. destruct (table s dir (k / 1024)) as [u|] eqn:Eu; [|done]. cbn. rewrite He by done.
    destruct (Z.eqb_spec u t) as [->|]; [|done]. destruct (Z.eqb_spec (k mod 1024) (n mod 1024)) as [Eq|]; [|done].
    pose proof (Hi _ _ _ Hkd Hdi Eu Ht). dlia.
Qed.

(** ** Allocating in order

    At boot the free frames are those from [a] to the end of memory, and every allocation
    takes the lowest. *)

Definition fresh_frame (s : machine) (f : Z) (s1 : machine) : Prop :=
  keeps (fun _ => False) {[f / 4096]} s s1 /\ used s1 f /\ f / 4096 ∈ free s /\ mem s1 = mem s.

Record free_from (s : machine) (a : Z) : Prop := {
  ff_pos : 0 < a <= Pmm.total_frames (phys s);
  ff_free : forall f, f ∈ free s <-> a <= f < Pmm.total_frames (phys s) }.

Lemma alloc_from s a : ok s -> free_from s a -> a < Pmm.total_frames (phys s) ->
  exists s1, alloc s = (a * 4096, s1) /\ fresh_frame s (a * 4096) s1 /\ free_from s1 (a + 1) /\
    Pmm.total_frames (phys s1) = Pmm.total_frames (phys s).
Proof.
  intros [Hm Hw Hz] [Hpos Hff] Ha.
  destruct (Pmm.pmm_alloc_some (phys s) Hw) as (k & Hk & Hmin & p & He & Hf & Ht & Hw').
  { intros E. assert (a ∈ free s) as H by (apply Hff; lia). unfold free in H. rewrite E in H. set_solver. }
  assert (k = a) as ->.
  { pose proof (Hmin a ltac:(apply Hff; lia)). apply Hff in Hk. lia. }
  change Pmm.PMM_FRAME_SIZE with 4096 in He. exists (with_phys s p). unfold alloc. rewrite He.
  assert (a * 4096 / 4096 = a) as Hdiv by dlia.
  assert (ok (with_phys s p)) as Hok by (split; [done|done|unfold free; cbn [phys with_phys]; rewrite Hf; set_solver]).
  split_and!; [done| | |done].
  - split_and!; [|split|..]; rewrite ?Hdiv; try done.
    + lia.
    + dlia.
    + cbn [phys with_phys]. lia.
    + unfold free. cbn [phys with_phys]. rewrite Hf. set_solver.
  - split; [cbn [phys with_phys]; lia|]. intros f. unfold free. cbn [phys with_phys]. rewrite Hf, Ht.
    rewrite elem_of_difference, elem_of_singleton. unfold free in Hff. rewrite Hff. lia.
Qed.

(** A new, empty table does not change what is mapped. *)
Lemma attach_mapping s dir m i t s1 : mapping s dir m -> 0 <= i < 1024 -> table s dir i = None -> fresh_frame s t s1 ->
  let s' := set_entry dir i (Z.lor t 3) (set_page t zero_page s1) in
  mapping s' dir m /\ table s' dir i = Some t /\
  (forall j, 0 <= j < 1024 -> j <> i -> table s' dir j = table s dir j) /\ keeps (eq dir) {[t / 4096]} s s'.
Proof.
  intros Hm Hi Hno (Hk & Hut & Hfr & Hmem). destruct Hm as [Hok Hd Hu Hinj Hp]. cbv zeta.
  destruct zero_page_ok as [Hzl Hzb].
  pose proof (set_page_keeps s1 t zero_page (kp_ok _ _ _ _ Hk) Hzl Hzb) as Hk2. clear Hzl Hzb. set (s2 := set_page t zero_page s1) in *.
  pose proof (set_entry_keeps s2 dir i (Z.lor t 3) (kp_ok _ _ _ _ Hk2) Hi) as Hk3. set (s' := set_entry _ _ _ s2) in *.
  assert (forall g, used s g -> g <> t) as Hne by (intros g Hg ->; by destruct (used_not_free s t Hg)).
  assert (keeps (eq dir) {[t / 4096]} s s') as Hkk.
  { eapply keeps_mono; [eapply keeps_trans; [exact Hk|eapply keeps_trans; [exact Hk2|exact Hk3]]|by rewrite !union_empty_r_L|].
    intros f Hf [[]|[<-|<-]]; [|done]. by destruct (Hne t Hf). }
  assert (is_u32 t) as Ht32 by (apply (used_u32 s1); [apply Hk|done]).
  destruct (entry_make t 3 Ht32 (us_aligned _ _ Hut) ltac:(lia)) as (Hv & Hfr3 & _ & Hp3).
  assert (forall g j, 0 <= j < 1024 -> entry s' g j =
    if (g =? dir) && (j =? i) then Z.lor t 3 else if g =? t then 0 else entry s g j) as He.
  { intros g j Hj. unfold s'. rewrite entry_set_entry by (done || apply Hk2).
    destruct ((g =? dir) && (j =? i)); [done|]. unfold s2. rewrite entry_set_page. destruct (g =? t); [apply rd32_zero_page|].
    unfold entry. by rewrite Hmem. }
  assert (dir <> t) as Hdt by (by apply Hne).
  assert (table s' dir i = Some t) as Hti.
  { unfold table. rewrite He by done. rewrite !Z.eqb_refl. cbn [andb]. by rewrite Hp3, Hfr3. }
  assert (forall j, 0 <= j < 1024 -> j <> i -> table s' dir j = table s dir j) as Htj.
  { intros j Hj Hji. unfold table. rewrite He by done. destruct (Z.eqb_spec j i); [done|]. rewrite andb_false_r.
    by destruct (Z.eqb_spec dir t). }
  assert (used s' t) as Hut' by (apply (keeps_used _ _ _ _ _ Hk3), (keeps_used _ _ _ _ _ Hk2), Hut).
  split_and!; [|done|done|done]. split.
  - apply Hk3.
  - by apply (keeps_used _ _ _ _ _ Hkk).
  - intros j u Hj. destruct (decide (j = i)) as [->|Hji]; [rewrite Hti; intros [= <-]; done|]. rewrite Htj by done. intros Eu.
    destruct (Hu j u Hj Eu). split; [by apply (keeps_used _ _ _ _ _ Hkk)|done].
  - intros j l u Hj Hl. destruct (decide (j = i)) as [->|Hji], (decide (l = i)) as [->|Hli]; [done|..].
    + rewrite Hti, Htj by done. intros [= <-] Eu. destruct (Hu l t Hl Eu) as [H _]. by destruct (Hne t H).
    + rewrite Hti, Htj by done. intros Eu [= <-]. destruct (Hu j t Hj Eu) as [H _]. by destruct (Hne t H).
    + rewrite !Htj by done. by apply Hinj.
  - intros n Hn. rewrite <- Hp by done. unfold PAGES in Hn.
    assert (0 <= n mod 1024 < 1024 /\ 0 <= n / 1024 < 1024) as [Hnt Hnd] by dlia. unfold page.
    destruct (decide (n / 1024 = i)) as [->|Hne1].
    + rewrite Hti, Hno. cbn. rewrite He by done. destruct (Z.eqb_spec t dir); [done|]. by rewrite Z.eqb_refl.
    + rewrite Htj by done. destruct (table s dir (n / 1024)) as [u|] eqn:Eu; [|done]. cbn. rewrite He by done.
      destruct (Hu _ _ Hnd Eu) as [Huu Hud]. destruct (Z.eqb_spec u dir); [done|].
      by destruct (Z.eqb_spec u t) as [->|]; [destruct (Hne t Huu)|].
Qed.

(** ** Mapping a page of the kernel *)

Lemma page_indices n : 0 <= n < PAGES -> pd_index (n * 4096) = n / 1024 /\ pt_index (n * 4096) = n mod 1024.
Proof.
  intros Hn. unfold PAGES in Hn. destruct (indices (n * 4096)) as [-> ->]; [dlia|]. split; [dlia|].
  replace (n * 4096 / 4096) with n by dlia. done.
Qed.

(** [HAL_PG_PRESENT | HAL_PG_WRITE]. *)
Definition KRW : Z := Z.lor HAL_PG_PRESENT HAL_PG_WRITE.

Lemma map_there s dir m n t pa : mapping s dir m -> 0 <= n < PAGES -> table s dir (n / 1024) = Some t ->
  is_u32 pa -> pa mod 4096 = 0 ->
  let s' := map_in_dir dir (n * 4096) pa KRW s in
  mapping s' dir (upd m n pa) /\ keeps (eq t) ∅ s s' /\ forall i, 0 <= i < 1024 -> table s' dir i = table s dir i.
Proof.
  intros Hm Hn Ht Hpa Hal. cbv zeta. unfold map_in_dir. destruct (page_indices n Hn) as [-> ->].
  unfold ensure_table. unfold table in Ht. destruct (present (entry s dir (n / 1024))) eqn:Ep; [|done]. injection Ht as Ht.
  cbn [negb]. change (negb (Z.land KRW HAL_PG_USER =? 0)) with false. cbv iota.
  destruct (pte_make pa KRW Hpa Hal) as (-> & _ & _). change (Z.lor (flags_of KRW) 1) with 3. rewrite Ht.
  apply store_mapping; try done. unfold table. by rewrite Ep, Ht.
Qed.

Lemma map_new s dir m n pa t s1 : mapping s dir m -> 0 <= n < PAGES -> table s dir (n / 1024) = None ->
  is_u32 pa -> pa mod 4096 = 0 -> alloc s = (t, s1) -> fresh_frame s t s1 ->
  let s' := map_in_dir dir (n * 4096) pa KRW s in
  mapping s' dir (upd m n pa) /\ table s' dir (n / 1024) = Some t /\
  (forall i, 0 <= i < 1024 -> i <> n / 1024 -> table s' dir i = table s dir i) /\ keeps (eq dir) {[t / 4096]} s s'.
Proof.
  intros Hm Hn Ht Hpa Hal Ea Hfr. cbv zeta. unfold map_in_dir. destruct (page_indices n Hn) as [-> ->].
  unfold ensure_table. pose proof Ht as Ht0. unfold table in Ht0. destruct (present (entry s dir (n / 1024))); [done|]. cbn [negb].
  rewrite Ea. rewrite <- !Z.lor_assoc. change (Z.lor HAL_PG_PRESENT (Z.lor HAL_PG_WRITE (Z.land KRW HAL_PG_USER))) with 3.
  assert (0 <= n / 1024 < 1024) as Hr by (unfold PAGES in Hn; dlia).
  destruct (attach_mapping s dir m (n / 1024) t s1 Hm Hr Ht Hfr) as (Hm2 & Ht2 & Htj & Hk2).
  set (s2 := set_entry dir (n / 1024) (Z.lor t 3) _) in *.
  rewrite Z.lor_assoc. destruct (pte_make pa KRW Hpa Hal) as (-> & _ & _). change (Z.lor (flags_of KRW) 1) with 3.
  destruct (store_mapping s2 dir m n t pa 3 Hm2 Hn Ht2 Hpa Hal ltac:(lia) eq_refl) as (Hm3 & Hk3 & Ht3).
  split_and!; [done|by rewrite Ht3|intros i Hi Hne; rewrite Ht3 by done; by apply Htj|].
  eapply keeps_mono; [eapply keeps_trans; [exact Hk2|exact Hk3]|by rewrite union_empty_r_L|].
  intros f Hf [<-|<-]; [done|]. destruct Hfr as (_ & _ & Hin & _). by destruct (used_not_free s t Hf).
Qed.

Lemma free_from_keeps P s s' a : keeps P ∅ s s' -> free_from s a -> free_from s' a.
Proof.
  intros Hk [H1 H2]. split; [by rewrite (kp_total _ _ _ _ Hk)|]. intros f. rewrite (kp_free _ _ _ _ Hk), (kp_total _ _ _ _ Hk).
  rewrite difference_empty_L. apply H2.
Qed.

Lemma free_from_step P s s' a : keeps P {[a]} s s' -> free_from s a -> a < Pmm.total_frames (phys s) -> free_from s' (a + 1).
Proof.
  intros Hk [H1 H2] Ha. split; [rewrite (kp_total _ _ _ _ Hk); lia|]. intros f.
  rewrite (kp_free _ _ _ _ Hk), (kp_total _ _ _ _ Hk), elem_of_difference, elem_of_singleton, H2. lia.
Qed.

(** ** The identity mapping of [hal_paging_init] *)

Lemma used_regs s s' f : phys s' = phys s -> used s f -> used s' f.
Proof. intros E [A B C F]. split; try done; [by rewrite E|]. unfold free in *. by rewrite E. Qed.

Lemma ok_regs s s' : mem s' = mem s -> phys s' = phys s -> ok s -> ok s'.
Proof. intros E1 E2 [A B C]. split; unfold mem_wf, free in *; by rewrite ?E1, ?E2. Qed.

(** The registers are not part of a mapping. *)
Lemma mapping_regs s s' dir m : mem s' = mem s -> phys s' = phys s -> mapping s dir m -> mapping s' dir m.
Proof.
  intros E1 E2 [A B C F G].
  assert (forall i, table s' dir i = table s dir i) as Ht by (intros i; unfold table, entry; by rewrite E1).
  split.
  - by apply (ok_regs s).
  - by apply (used_regs s).
  - intros i t Hi. rewrite Ht. intros E. destruct (C i t Hi E). split; [by apply (used_regs s)|done].
  - intros i j t. rewrite !Ht. apply F.
  - intros n Hn. rewrite <- G by done. unfold page, entry. by rewrite Ht, E1.
Qed.

Lemma free_from_regs s s' a : phys s' = phys s -> free_from s a -> free_from s' a.
Proof. intros E [A B]. split; unfold free in *; by rewrite ?E. Qed.

(** A directory that has just been cleared. *)
Lemma mapping_empty s k : ok s -> used s k -> mapping (set_page k zero_page s) k (fun _ => None).
Proof.
  intros Hok Hu. destruct zero_page_ok as [Hl Hb]. pose proof (set_page_keeps s k zero_page Hok Hl Hb) as Hk.
  assert (forall i, table (set_page k zero_page s) k i = None) as Ht.
  { intros i. unfold table. rewrite entry_set_page, Z.eqb_refl, rd32_zero_page. done. }
  split; [apply Hk|by apply (keeps_used _ _ _ _ _ Hk)|..].
  - intros i t _. by rewrite Ht.
  - intros i j t _ _. by rewrite Ht.
  - intros n _. unfold page. by rewrite Ht.
Qed.

(** The pages below [i] are mapped to themselves, by tables in the frames after the
    directory's frame [a]. *)
Record identity_upto (a total i : Z) (s : machine) : Prop := {
  id_map : mapping s (a * 4096) (fun n => if n <? i then Some (n * 4096) else None);
  id_tab : forall j, 0 <= j < 1024 -> table s (a * 4096) j =
    if j <? (i + 1023) / 1024 then Some ((a + 1 + j) * 4096) else None;
  id_free : free_from s (a + 1 + (i + 1023) / 1024);
  id_total : Pmm.total_frames (phys s) = total;
  id_dir : kernel_dir s = a * 4096;
  id_dirp : kernel_dir_phys s = a * 4096 }.

Lemma identity_step a total i s : 0 <= i < 32768 -> a + 33 <= total -> identity_upto a total i s ->
  identity_upto a total (i + 1) (map_in_dir (a * 4096) (i * 4096) (i * 4096) KRW s).
Proof.
  intros Hi Hroom [Hm Ht Hf HT Hd Hdp].
  assert (0 <= i < PAGES) as Hn by (unfold PAGES; lia). assert (is_u32 (i * 4096)) as H32 by dlia.
  assert (i * 4096 mod 4096 = 0) as Hal by dlia. assert (0 <= i / 1024 < 1024) as Hir by dlia.
  assert (forall s', mapping s' (a * 4096) (upd (fun n => if n <? i then Some (n * 4096) else None) i (i * 4096)) ->
    mapping s' (a * 4096) (fun n => if n <? i + 1 then Some (n * 4096) else None)) as Hext.
  { intros s'. apply mapping_ext. intros n _. unfold upd.
    destruct (Z.eqb_spec n i), (Z.ltb_spec n i), (Z.ltb_spec n (i + 1)); congruence || lia. }
  destruct (decide (i mod 1024 = 0)) as [Hz|Hz].
  - assert ((i + 1023) / 1024 = i / 1024 /\ (i + 1 + 1023) / 1024 = i / 1024 + 1) as [E1 E2] by dlia.
    rewrite E1 in Ht, Hf. set (c := i / 1024) in *.
    assert (a + 1 + c < Pmm.total_frames (phys s)) as Hlt by (rewrite HT; unfold c; dlia).
    destruct (alloc_from s (a + 1 + c) (mp_ok _ _ _ Hm) Hf Hlt) as (s1 & Ea & Hfr & Hf1 & _).
    assert (table s (a * 4096) c = None) as Hno by (rewrite Ht by done; by rewrite Z.ltb_irrefl).
    destruct (map_new s (a * 4096) _ i (i * 4096) _ _ Hm Hn Hno H32 Hal Ea Hfr) as (Hm' & Ht' & Htj & Hk).
    rewrite Z.div_mul in Hk by done. fold c in Ht', Htj. split; rewrite ?E2.
    + by apply Hext.
    + intros j Hj. destruct (decide (j = c)) as [->|Hjc]; [rewrite Ht'; by rewrite (proj2 (Z.ltb_lt c (c + 1))) by lia|].
      rewrite Htj, Ht by done. destruct (Z.ltb_spec j c), (Z.ltb_spec j (c + 1)); done || lia.
    + rewrite Z.add_assoc. by apply (free_from_step _ _ _ _ Hk).
    + by rewrite (kp_total _ _ _ _ Hk).
    + by rewrite (kp_dir _ _ _ _ Hk).
    + by rewrite (kp_dirp _ _ _ _ Hk).
  - assert ((i + 1023) / 1024 = i / 1024 + 1 /\ (i + 1 + 1023) / 1024 = i / 1024 + 1) as [E1 E2] by dlia.
    rewrite E1 in Ht, Hf.
    assert (table s (a * 4096) (i / 1024) = Some ((a + 1 + i / 1024) * 4096)) as Hyes.
    { rewrite Ht by done. by rewrite (proj2 (Z.ltb_lt (i / 1024) (i / 1024 + 1))) by lia. }
    destruct (map_there s (a * 4096) _ i _ (i * 4096) Hm Hn Hyes H32 Hal) as (Hm' & Hk & Htj). split; rewrite ?E2.
    + by apply Hext.
    + intros j Hj. by rewrite Htj, Ht.
    + by apply (free_from_keeps _ _ _ _ Hk).
    + by rewrite (kp_total _ _ _ _ Hk).
    + by rewrite (kp_dir _ _ _ _ Hk).
    + by rewrite (kp_dirp _ _ _ _ Hk).
Qed.

Definition paging_starts (a total : Z) (s : machine) : Prop :=
  identity_upto a total 32768 s /\ cr3 s = a * 4096 /\ current_dir_phys s = a * 4096 /\ paging_on s = true.

(** The end of [hal_paging_init]. *)
Lemma paging_on_spec a total s : identity_upto a total 32768 s ->
  let s4 := hal_paging_switch (kernel_dir_phys s) s in
  paging_starts a total (Machine (mem s4) (phys s4) (kernel_dir s4) (kernel_dir_phys s4) (current_dir_phys s4) (cr3 s4) true).
Proof.
  intros [Hm Ht Hf HT Hd Hdp]. split_and!; [|done|done|done].
  split; try done; [by apply (mapping_regs s)|by apply (free_from_regs s)].
Qed.

(** Its loop, from the cleared directory on. *)
Lemma paging_loop_spec a total (N : nat) s : a + 33 <= total -> identity_upto a total 0 s -> Z.of_nat N <= 32768 ->
  identity_upto a total (Z.of_nat N) (for_loop (fun i => map_in_dir (a * 4096) (i * 4096) (i * 4096) KRW) 0 N s).
Proof.
  intros Hroom H0 HN.
  refine (for_loop_ind (fun i s => identity_upto a total i s) _ 0 N s H0 _). intros i s' Hi Hs'.
  apply identity_step; [lia|done|done].
Qed.

Lemma cleared_spec s a s1 : ok s -> fresh_frame s (a * 4096) s1 -> free_from s1 (a + 1) ->
  identity_upto a (Pmm.total_frames (phys s1)) 0
    (set_page (a * 4096) zero_page (with_dirs s1 (a * 4096) (a * 4096) (a * 4096))).
Proof.
  intros Hok (Hk & Hu & _) Hf1. set (k := a * 4096) in *. set (s2 := set_page k zero_page (with_dirs s1 k k k)).
  assert (mapping s2 k (fun _ => None)) as Hm.
  { apply mapping_empty; [by apply (ok_regs s1); [..|apply Hk]|by apply (used_regs s1)]. }
  split; try done.
  - revert Hm. apply mapping_ext. intros n Hn. by destruct (Z.ltb_spec n 0); [lia|].
  - intros j Hj. destruct (Z.ltb_spec j ((0 + 1023) / 1024)) as [H|_]; [change ((0 + 1023) / 1024) with 0 in H; lia|].
    unfold table, s2. by rewrite entry_set_page, Z.eqb_refl, rd32_zero_page.
  - replace (a + 1 + (0 + 1023) / 1024) with (a + 1) by (change ((0 + 1023) / 1024) with 0; lia). by apply (free_from_regs s1).
Qed.

Lemma hal_paging_init_spec s a : ok s -> free_from s a -> a + 33 <= Pmm.total_frames (phys s) ->
  paging_starts a (Pmm.total_frames (phys s)) (hal_paging_init s).
Proof.
  intros Hok Hf Hroom. destruct (alloc_from s a Hok Hf ltac:(lia)) as (s1 & E & Hfr & Hf1 & HT).
  pose proof (cleared_spec s a s1 Hok Hfr Hf1) as H0. rewrite HT in H0.
  pose proof (paging_loop_spec a _ (Z.to_nat (134217728 / PAGE_SIZE)) _ Hroom H0) as H.
  rewrite Z2Nat.id in H by done. unfold hal_paging_init. rewrite E. exact (paging_on_spec _ _ _ (H ltac:(done))).
Qed.

(** ** The heap's pages *)

(** The mapping when the first [i] pages of the heap have been mapped: they shadow the
    identity, the other pages below 128 MiB keep it. *)
Definition heap_map (a i n : Z) : option Z :=
  if (8192 <=? n) && (n <? 8192 + i) then Some ((a + 33 + (n - 8192)) * 4096)
  else if n <? 32768 then Some (n * 4096) else None.

Record heap_upto (a total i : Z) (s : machine) : Prop := {
  hu_map : mapping s (a * 4096) (heap_map a i);
  hu_tab : forall j, 0 <= j < 1024 -> table s (a * 4096) j = if j <? 32 then Some ((a + 1 + j) * 4096) else None;
  hu_free : free_from s (a + 33 + i);
  hu_total : Pmm.total_frames (phys s) = total;
  hu_dir : kernel_dir s = a * 4096 }.

Lemma heap_upto_start a total s : paging_starts a total s -> heap_upto a total 0 s.
Proof.
  intros ([Hm Ht Hf HT Hd Hdp] & _). split; try done.
  - revert Hm. apply mapping_ext. intros n Hn. unfold heap_map.
    by destruct (Z.leb_spec 8192 n), (Z.ltb_spec n (8192 + 0)); [lia|..].
  - change ((32768 + 1023) / 1024) with 32 in Hf. by replace (a + 33 + 0) with (a + 1 + 32) by lia.
Qed.

(** One turn of [expand]. *)
Lemma heap_step a total i s : 0 < a -> 0 <= i < 24576 -> a + 33 + i < total -> heap_upto a total i s ->
  exists s1, alloc s = ((a + 33 + i) * 4096, s1) /\
    heap_upto a total (i + 1) (hal_paging_map ((8192 + i) * 4096) ((a + 33 + i) * 4096) KRW s1).
Proof.
  intros Ha Hi Hroom [Hm Ht Hf HT Hd].
  destruct (alloc_from s (a + 33 + i) (mp_ok _ _ _ Hm) Hf ltac:(lia)) as (s1 & E & (Hk & Hu & Hin & Hmem) & Hf1 & HT1).
  exists s1. split; [done|]. unfold hal_paging_map. rewrite (kp_dir _ _ _ _ Hk), Hd.
  destruct (mapping_frame _ _ _ _ _ _ Hk Hm (fun H => H) (fun _ _ _ _ H => H)) as [Hm1 Ht1].
  assert (0 <= 8192 + i < PAGES) as Hn by (unfold PAGES; lia).
  assert (0 <= (8192 + i) / 1024 < 32) as Hir by dlia.
  assert (table s1 (a * 4096) ((8192 + i) / 1024) = Some ((a + 1 + (8192 + i) / 1024) * 4096)) as Hyes
    by (rewrite Ht1, Ht, (proj2 (Z.ltb_lt _ 32)) by lia; done).
  destruct (map_there s1 (a * 4096) _ (8192 + i) _ ((a + 33 + i) * 4096) Hm1 Hn Hyes) as (Hm2 & Hk2 & Ht2).
  { apply (used_u32 s1); [apply Hk|done]. } { dlia. }
  split.
  - revert Hm2. apply mapping_ext. intros n _. unfold upd, heap_map.
    destruct (Z.eqb_spec n (8192 + i)) as [->|Hne].
    + rewrite (proj2 (Z.leb_le 8192 (8192 + i))), (proj2 (Z.ltb_lt (8192 + i) (8192 + (i + 1)))) by lia. cbn. do 2 f_equal. lia.
    + by destruct (Z.leb_spec 8192 n), (Z.ltb_spec n (8192 + i)), (Z.ltb_spec n (8192 + (i + 1))); (lia || cbn).
  - intros j Hj. rewrite Ht2, Ht1 by lia. by apply Ht.
  - rewrite Z.add_assoc. by apply (free_from_keeps _ _ _ _ Hk2).
  - rewrite (kp_total _ _ _ _ Hk2). congruence.
  - rewrite (kp_dir _ _ _ _ Hk2), (kp_dir _ _ _ _ Hk). done.
Qed.

Lemma expand_from_map a total j : forall i fuel h, 0 < a -> 0 <= i -> i + Z.of_nat j <= 24576 -> a + 33 + i + Z.of_nat j <= total ->
  (j <= fuel)%nat -> Heap.heap_end h = (8192 + i) * 4096 -> Heap.heap_limit h = 134217728 -> heap_upto a total i (Heap.mach h) ->
  heap_upto a total (i + Z.of_nat j) (Heap.mach (Heap.expand_from fuel (4096 * Z.of_nat j) h)).
Proof.
  induction j as [|j IH]; intros i fuel h Ha Hi Hlim Hroom Hfuel He Hl Hu.
  - replace (i + Z.of_nat 0) with i by lia. destruct fuel; cbn [Heap.expand_from]; [done|].
    rewrite (proj2 (Z.ltb_ge 0 (4096 * Z.of_nat 0))) by lia. by rewrite andb_false_r.
  - destruct fuel as [|fuel]; [lia|]. cbn [Heap.expand_from].
    rewrite (proj2 (Z.ltb_lt (Heap.heap_end h) (Heap.heap_limit h))), (proj2 (Z.ltb_lt 0 (4096 * Z.of_nat (S j)))) by lia. cbn [andb].
    destruct (heap_step a total i (Heap.mach h) Ha ltac:(lia) ltac:(lia) Hu) as (s1 & -> & Hu1). rewrite He.
    replace (if 4096 <? 4096 * Z.of_nat (S j) then 4096 * Z.of_nat (S j) - 4096 else 0) with (4096 * Z.of_nat j) by (bcase; lia).
    replace (i + Z.of_nat (S j)) with (i + 1 + Z.of_nat j) by lia.
    apply IH; cbn [Heap.heap_end Heap.heap_limit Heap.mach]; try done; try lia. rewrite u32_small by dlia. lia.
Qed.

Lemma vmm_init_map a total h : 0 < a -> a + 1057 <= total -> heap_upto a total 0 (Heap.mach h) ->
  heap_upto a total 1024 (Heap.mach (Heap.vmm_init h)).
Proof.
  intros Ha Hroom Hu. unfold Heap.vmm_init. cbn [Heap.mach]. unfold Heap.expand.
  set (fuel := S _). assert (Z.of_nat fuel = 24577) as Hfuel by (unfold fuel; rewrite Nat2Z.inj_succ, Z2Nat.id; done).
  clearbody fuel. apply (expand_from_map a total 1024 0 fuel); cbn [Heap.heap_end Heap.heap_limit Heap.mach]; done || lia.
Qed.

(** ** What the kernel reaches through a physical address *)

Lemma lor_offset f x : f mod 4096 = 0 -> 0 <= x < 4096 -> Z.lor f x = f + x.
Proof.
  intros Hf Hx. assert (Z.land f x = 0) as Hl.
  { apply Z.bits_inj'. intros i Hi. rewrite Z.land_spec, Z.bits_0. change 4096 with (2 ^ 12) in *.
    destruct (Z.lt_ge_cases i 12).
    - rewrite <- (Z.mod_pow2_bits_low f 12) by lia. by rewrite Hf, Z.bits_0.
    - rewrite <- (Z.mod_small x (2 ^ 12)) by lia. rewrite (Z.mod_pow2_bits_high x 12) by lia. apply andb_false_r. }
  rewrite Z.add_nocarry_lxor by done. by rewrite Z.lxor_lor.
Qed.

Lemma resolve_page s m va f : mapping s (kernel_dir s) m -> is_u32 va -> m (va / 4096) = Some f ->
  hal_paging_resolve s va = f + va mod 4096.
Proof.
  intros Hm Hva Hf. assert (0 <= va / 4096 < PAGES) as Hn by (unfold PAGES; dlia).
  pose proof (mp_page _ _ _ Hm _ Hn) as Hp. rewrite Hf in Hp. unfold hal_paging_resolve. destruct (indices va Hva) as [-> ->].
  unfold page, table in Hp. replace (va / 4096 / 1024) with (va / 4194304) in Hp by dlia.
  destruct (present (entry s (kernel_dir s) (va / 4194304))) eqn:E1; [|done]. cbn in Hp |- *.
  set (t := frame_of (entry s (kernel_dir s) (va / 4194304))) in *.
  assert (0 <= va / 4096 mod 1024 < 1024) as Hti by dlia.
  destruct (present (entry s t (va / 4096 mod 1024))); [|done]. injection Hp as <-. cbn [negb].
  change (Z.land va 4095) with (flags_of va). unfold flags_of. rewrite low_page.
  apply lor_offset; [|dlia]. apply frame_of_facts. by apply entry_u32; [apply Hm|].
Qed.

(** The machine before [hal_paging_init]. *)
Definition at_boot (mem : Z -> list Z) (mem_upper kernel_end : Z) : machine :=
  Machine mem (Pmm.pmm_init mem_upper kernel_end) 0 0 0 0 false.

Lemma at_boot_spec mem mu ke : (forall f, lenZ (mem f) = 4096 /\ bytes (mem f)) -> 0 <= ke <= 4292866048 ->
  let a := Pmm.reserved_end ke / 4096 in
  a <= Pmm.total_frames (Pmm.pmm_init mu ke) ->
  ok (at_boot mem mu ke) /\ 0 < a /\ free_from (at_boot mem mu ke) a.
Proof.
  intros Hmem Hke. cbv zeta. intros Ht. destruct (Pmm.pmm_init_spec mu ke) as [Hw Hf].
  pose proof (Pmm.reserved_start_pos ke Hke) as Hp. change Pmm.PMM_FRAME_SIZE with 4096 in *. split_and!; [|lia|].
  - split; [done|done|]. unfold free, at_boot. cbn [phys]. rewrite Hf, elem_of_difference, !Pmm.elem_of_frames. lia.
  - split; [cbn [phys at_boot]; lia|]. intros f. unfold free, at_boot. cbn [phys].
    rewrite Hf, elem_of_difference, !Pmm.elem_of_frames. lia.
Qed.

(** C22: Paging and the heap at boot.  Let [a] be the first free frame.  When memory has at
    least 1057 free frames, [hal_paging_init] and [vmm_init] take the frames from [a] on,
    for the directory, 32 page tables and 1024 pages of the heap, and afterwards the
    kernel's addresses below 128 MiB are physical addresses, except for the 4 MiB of the
    heap at 32 MiB: those lead to the frames [a + 33] and following.  So a page table or a
    page of a program in one of the physical frames behind the heap's addresses, which the
    allocator still considers free, cannot be reached: the kernel, which uses its physical
    address as a pointer, reads and writes the heap instead. *)
Theorem heap_shadows_frames mem mu ke st hd e l :
  let a := Pmm.reserved_end ke / 4096 in
  let total := Pmm.total_frames (Pmm.pmm_init mu ke) in
  let s := Heap.mach (Heap.vmm_init (Heap.Heap st hd e l (hal_paging_init (at_boot mem mu ke)))) in
  (forall f, lenZ (mem f) = 4096 /\ bytes (mem f)) -> 0 <= ke <= 4292866048 -> a + 1057 <= total ->
  (forall va, 0 <= va < 33554432 \/ 37748736 <= va < 134217728 -> hal_paging_resolve s va = va) /\
  (forall va, 33554432 <= va < 37748736 -> hal_paging_resolve s va = va - 33554432 + (a + 33) * 4096) /\
  (a + 1057 <= 8192 -> forall f, 8192 <= f < 9216 -> f < total ->
     f ∈ free s /\ hal_paging_resolve s (f * 4096) <> f * 4096 /\ used s (hal_paging_resolve s (f * 4096))).
Proof.
  cbv zeta. set (a := Pmm.reserved_end ke / 4096). set (total := Pmm.total_frames _). intros Hmem Hke Hroom.
  destruct (at_boot_spec mem mu ke Hmem Hke) as (Hok & Ha & Hf); [fold total; fold a; lia|]. fold a in Ha, Hf.
  pose proof (hal_paging_init_spec _ a Hok Hf ltac:(cbn [at_boot phys]; fold total; lia)) as Hst.
  cbn [at_boot phys] in Hst. fold total in Hst. apply heap_upto_start in Hst.
  pose proof (vmm_init_map a total (Heap.Heap st hd e l (hal_paging_init (at_boot mem mu ke))) Ha Hroom Hst) as Hu.
  set (s := Heap.mach _) in *. clearbody s. clear Hst. destruct Hu as [Hm _ Hff HT Hd]. rewrite <- Hd in Hm.
  assert (forall va, 33554432 <= va < 37748736 -> hal_paging_resolve s va = va - 33554432 + (a + 33) * 4096) as Hwin.
  { intros va Hva. erewrite resolve_page; [|exact Hm|dlia|unfold heap_map].
    2:{ rewrite (proj2 (Z.leb_le 8192 (va / 4096))), (proj2 (Z.ltb_lt (va / 4096) (8192 + 1024))) by dlia. reflexivity. }
    dlia. }
  split_and!; [|done|].
  - intros va Hva. erewrite resolve_page; [|exact Hm|dlia|unfold heap_map].
    2:{ replace ((8192 <=? va / 4096) && (va / 4096 <? 8192 + 1024)) with false.
        - rewrite (proj2 (Z.ltb_lt (va / 4096) 32768)) by dlia. reflexivity.
        - symmetry. apply andb_false_iff. rewrite Z.leb_gt, Z.ltb_ge. dlia. }
    dlia.
  - intros Hlow f Hfr Hft. rewrite Hwin by lia. split_and!; [apply (ff_free _ _ Hff); lia|lia|].
    split; [lia|dlia|dlia|]. rewrite (ff_free _ _ Hff). dlia.
Qed.

(** 64 MiB of memory and a kernel image of 3 MiB. *)
Lemma heap_shadows_frames_witness :
  let s := Heap.mach (Heap.vmm_init (Heap.Heap ∅ 0 0 0 (hal_paging_init (at_boot (fun _ => zero_page) 64512 4194304)))) in
  hal_paging_resolve s 4198400 = 4198400 /\ hal_paging_resolve s 33554436 = 5378052 /\ (8192 ∈ free s).
Proof.
  assert (Pmm.total_frames (Pmm.pmm_init 64512 4194304) = 16384) as HT by (vm_compute; reflexivity).
  destruct (heap_shadows_frames (fun _ => zero_page) 64512 4194304 ∅ 0 0 0 (fun _ => zero_page_ok) ltac:(lia)) as (H1 & H2 & H3).
  { rewrite HT. vm_compute. discriminate. }
  split; [apply H1; lia|]. split; [rewrite H2 by lia; vm_compute; reflexivity|].
  apply (H3 ltac:(vm_compute; discriminate) 8192); [lia|rewrite HT; lia].
Defined.
End KernelMap.
