(* ===== verification/HeapPages.v ===== *)
(** * The pages of the kernel heap

    Heap and HeapSpec work on the list of blocks.  Here the pages below it are followed:
    [expand] takes a frame for every page and maps it in the kernel's directory, and as long
    as the allocator has a frame for each, every page of the heap is backed by a frame of its
    own, used for nothing else.  (When [pmm_alloc_frame] has nothing left it returns 0, which
    [expand] does not check: the new pages then all lie on frame 0.) *)

From stdpp Require Import base list gmap numbers sets.
From S2P Require Import Prelude CString Pmm Layout Paging AddrSpace Spaces Heap HeapSpec KernelMap.

#[local] Open Scope Z_scope.

Module HeapPages.
Import Paging AddrSpace KernelMap.

(** [m] gives the frame behind each page of the kernel's directory; the frames of the heap,
    whose pages begin with number 8192 (32 MiB), are taken from the allocator, are distinct,
    and are neither the directory nor one of its tables. *)
Record backed (h : Heap.heap) (m : Z -> option Z) : Prop := {
  bk_end : Heap.heap_end h mod 4096 = 0;
  bk_map : mapping (Heap.mach h) (kernel_dir (Heap.mach h)) m;
  bk_tab : forall i, 8 <= i < 32 -> is_Some (table (Heap.mach h) (kernel_dir (Heap.mach h)) i);
  bk_frame : forall n, 8192 <= n < Heap.heap_end h / 4096 -> exists f, m n = Some f /\ used (Heap.mach h) f /\
    f <> kernel_dir (Heap.mach h) /\ forall i, 0 <= i < 1024 -> table (Heap.mach h) (kernel_dir (Heap.mach h)) i <> Some f;
  bk_inj : forall n n' f, 8192 <= n < Heap.heap_end h / 4096 -> 8192 <= n' < Heap.heap_end h / 4096 ->
    m n = Some f -> m n' = Some f -> n = n' }.

Lemma backed_ext h h' m : Heap.mach h' = Heap.mach h -> Heap.heap_end h' = Heap.heap_end h -> backed h m -> backed h' m.
Proof. intros E1 E2 [Z A B C D]. split; rewrite ?E1, ?E2; done. Qed.

(** One turn of the loop of [expand]. *)
Definition grown (h : Heap.heap) : Heap.heap :=
  let '(frame, s1) := alloc (Heap.mach h) in
  Heap.Heap (Heap.store h) (Heap.heap_head h) (u32 (Heap.heap_end h + 4096)) (Heap.heap_limit h)
    (hal_paging_map (Heap.heap_end h) frame KRW s1).

Lemma grown_spec h m k : backed h m -> Heap.HEAP_START <= Heap.heap_end h < Heap.HEAP_MAX ->
  avail (Heap.mach h) (S k) ->
  exists f, backed (grown h) (upd m (Heap.heap_end h / 4096) f) /\ avail (Heap.mach (grown h)) k /\
    Heap.heap_end (grown h) = Heap.heap_end h + 4096 /\ Heap.heap_limit (grown h) = Heap.heap_limit h.
Proof.
  intros [Hal Hm Ht Hf Hi] Hr Ha. unfold Heap.HEAP_START, Heap.HEAP_MAX in Hr. unfold grown.
  destruct (alloc_grows (Heap.mach h) k (mp_ok _ _ _ Hm) Ha) as (f & s1 & -> & Hfr & Huf & H0 & Hav & Hk & Hmem & _).
  set (s := Heap.mach h) in *. set (dir := kernel_dir s) in *. set (n := Heap.heap_end h / 4096).
  assert (Heap.heap_end h = n * 4096) as En by (unfold n; dlia). assert (8192 <= n < 32768) as Hn by (unfold n; dlia).
  assert (kernel_dir s1 = dir) as Hd1 by apply Hk.
  destruct (mapping_frame _ _ _ _ _ _ Hk Hm (fun H => H) (fun _ _ _ _ H => H)) as [Hm1 Ht1].
  destruct (Ht (n / 1024)) as [t Etab]; [dlia|].
  unfold hal_paging_map. rewrite Hd1, En.
  destruct (map_there s1 dir m n t f Hm1 ltac:(unfold PAGES; lia) ltac:(by rewrite Ht1)) as (Hm2 & Hk2 & Ht2).
  { by apply (used_u32 s1); [apply Hk|]. } { apply Huf. }
  set (s2 := map_in_dir dir (n * 4096) f KRW s1) in *.
  assert (kernel_dir s2 = dir) as Hd2 by (by rewrite (kp_dir _ _ _ _ Hk2)).
  assert (forall g, used s g -> used s2 g) as Hus by (intros g Hg; apply (keeps_used _ _ _ _ _ Hk2); by apply (keeps_used _ _ _ _ _ Hk)).
  assert (forall g, used s g -> g <> f) as Hnf by (intros g Hg ->; by apply (used_not_free s f)).
  assert (forall i, 0 <= i < 1024 -> table s2 dir i = table s dir i) as Htab by (intros i Hir; by rewrite Ht2, Ht1).
  assert (u32 (n * 4096 + 4096) = n * 4096 + 4096) as Eu by (apply u32_small; dlia).
  assert ((n * 4096 + 4096) / 4096 = n + 1) as Ed by dlia.
  exists f. cbn [Heap.mach Heap.heap_end Heap.heap_limit]. rewrite Eu. split_and!; [|unfold avail in *; by rewrite (kp_free _ _ _ _ Hk2), difference_empty_L|done|done].
  split; cbn [Heap.mach Heap.heap_end]; rewrite ?Hd2, ?Ed.
  - dlia.
  - exact Hm2.
  - intros i Hir. rewrite Htab by lia. by apply Ht.
  - intros x Hx. unfold upd. destruct (Z.eqb_spec x n) as [->|Hne].
    + exists f. split_and!; [done|by apply (keeps_used _ _ _ _ _ Hk2)| |].
      * intros E. by destruct (Hnf dir (mp_dir _ _ _ Hm)).
      * intros i Hir. rewrite Htab by done. intros E. destruct (mp_used _ _ _ Hm i f Hir E) as [Hu _]. by apply (Hnf f Hu).
    + destruct (Hf x ltac:(fold n; lia)) as (g & E & Hu & Hd & Hti). exists g. split_and!; [done|by apply Hus|done|].
      intros i Hir. rewrite Htab by done. by apply Hti.
  - intros x y g Hx Hy. unfold upd.
    assert (forall z, 8192 <= z < n + 1 -> z <> n -> m z = Some g -> g <> f) as Hold.
    { intros z Hz Hne E. destruct (Hf z ltac:(fold n; lia)) as (g' & E' & Hu & _). assert (g = g') as -> by congruence. by apply Hnf. }
    destruct (Z.eqb_spec x n) as [->|Hxn], (Z.eqb_spec y n) as [->|Hyn]; [done|..].
    + intros [= <-] E. by destruct (Hold y Hy Hyn E).
    + intros E [= <-]. by destruct (Hold x Hx Hxn E).
    + apply Hi; fold n; lia.
Qed.

(** The loop: [k] frames are enough for [4096 * k] bytes. *)
Lemma expand_from_backed fuel : forall need h m k, backed h m ->
  Heap.HEAP_START <= Heap.heap_end h -> Heap.heap_limit h <= Heap.HEAP_MAX -> need <= 4096 * Z.of_nat k -> avail (Heap.mach h) k ->
  exists m', backed (Heap.expand_from fuel need h) m' /\ Heap.heap_end h <= Heap.heap_end (Heap.expand_from fuel need h) /\
    forall n, ~ (Heap.heap_end h / 4096 <= n < Heap.heap_end (Heap.expand_from fuel need h) / 4096) -> m' n = m n.
Proof.
  induction fuel as [|fuel IH]; intros need h m k Hb Hs Hl Hn Ha; cbn [Heap.expand_from]; [by exists m|].
  destruct (Z.ltb_spec (Heap.heap_end h) (Heap.heap_limit h)); cbn [andb]; [|by exists m].
  destruct (Z.ltb_spec 0 need); [|by exists m]. destruct k as [|k]; [lia|].
  destruct (grown_spec h m k Hb ltac:(lia) Ha) as (f & Hg & Hav & He & Hlim). unfold grown in *.
  change (Z.lor HAL_PG_PRESENT HAL_PG_WRITE) with KRW. destruct (alloc (Heap.mach h)) as [fr s1].
  set (h1 := Heap.Heap _ _ _ _ _) in *.
  destruct (IH (if 4096 <? need then need - 4096 else 0) h1 _ k Hg) as (m' & Hb' & Hle & Hout);
    [lia|lia|destruct (Z.ltb_spec 4096 need); lia|done|].
  exists m'. split_and!; [done|lia|]. intros n Hnn. rewrite Hout by (rewrite He; dlia). unfold upd.
  destruct (Z.eqb_spec n (Heap.heap_end h / 4096)) as [->|]; [|done]. destruct Hnn. split; [lia|].
  rewrite He in Hle. dlia.
Qed.

(** The pages [kmalloc] asks for when no block is large enough. *)
Definition pages (sz : Z) : Z := (HeapSpec.round8 sz + 8211) / 4096.

(** [kmalloc] leaves machine and end of the heap alone when it finds a block. *)
Lemma kmalloc_found h sz b : sz <> 0 ->
  Heap.first_fit (Heap.fuel_of h) (Heap.store h) (HeapSpec.round8 sz) (Heap.heap_head h) = inl b ->
  Heap.mach (snd (Heap.kmalloc sz h)) = Heap.mach h /\ Heap.heap_end (snd (Heap.kmalloc sz h)) = Heap.heap_end h.
Proof.
  intros H0 Hb. unfold Heap.kmalloc. destruct (Z.eqb_spec sz 0); [done|]. fold (HeapSpec.round8 sz). by rewrite Hb.
Qed.
Lemma kmalloc_grows h sz b : sz <> 0 ->
  Heap.first_fit (Heap.fuel_of h) (Heap.store h) (HeapSpec.round8 sz) (Heap.heap_head h) = inr b ->
  let h1 := Heap.expand (u32 (HeapSpec.round8 sz + Heap.sizeof_block + 4096)) h in
  Heap.mach (snd (Heap.kmalloc sz h)) = Heap.mach h1 /\ Heap.heap_end (snd (Heap.kmalloc sz h)) = Heap.heap_end h1.
Proof.
  intros H0 Hb. unfold Heap.kmalloc. destruct (Z.eqb_spec sz 0); [done|]. fold (HeapSpec.round8 sz). rewrite Hb. cbv zeta.
  by destruct (_ =? _).
Qed.

(** A heap below its limit always has something to give. *)
Lemma kmalloc_room h bs sz : Heap.wf h bs -> 0 < sz <= Heap.HEAP_MAX -> Heap.heap_end h < Heap.heap_limit h ->
  fst (Heap.kmalloc sz h) <> 0 /\ Heap.heap_limit (snd (Heap.kmalloc sz h)) = Heap.heap_limit h /\
  Heap.heap_end (snd (Heap.kmalloc sz h)) <= Heap.heap_end h + 4096 * pages sz.
Proof.
  intros Hw Hsz Hlt. pose proof Hw as [Hw0 _]. pose proof (HeapSpec.round8_spec sz Hsz) as [Hr1 Hr2]. split_and!.
  - destruct (HeapSpec.kmalloc_total h bs sz Hw Hsz) as (p & h' & -> & [(_ & _ & E & _)|(Hp & _)]); [lia|done].
  - unfold Heap.kmalloc. destruct (sz =? 0); [done|]. fold (HeapSpec.round8 sz). destruct (HeapSpec.kmalloc_expand h bs sz Hw0 Hsz) as [st E].
    destruct (Heap.first_fit _ _ _ _); [done|]. rewrite E. by destruct (_ =? _).
  - destruct (Heap.first_fit (Heap.fuel_of h) (Heap.store h) (HeapSpec.round8 sz) (Heap.heap_head h)) as [b|b] eqn:E.
    + destruct (kmalloc_found h sz b ltac:(lia) E) as [_ ->]. unfold pages. dlia.
    + destruct (kmalloc_grows h sz b ltac:(lia) E) as [_ ->]. destruct (HeapSpec.kmalloc_expand h bs sz Hw0 Hsz) as [st ->].
      cbn [Heap.heap_end]. unfold pages. lia.
Qed.

(** At the limit [expand] does nothing. *)
Lemma expand_at_limit need h : Heap.heap_end h = Heap.heap_limit h -> Heap.expand need h = h.
Proof. intros E. unfold Heap.expand. cbn [Heap.expand_from]. by rewrite E, Z.ltb_irrefl. Qed.

(** C20: An allocation of [sz] bytes, at least 1 and at most HEAP_MAX, that finds a free block, or
    room below the limit of the heap and free frames for the pages it asks for, returns a
    region of at least [sz] bytes inside the heap: it is disjoint from every region in use,
    those stay where they are and the heap stays well formed; every page of the heap, the new
    ones too, is backed by a frame of its own, and no other page of the kernel is mapped
    differently.  A request of 0 bytes, or one that finds no block with the heap at its limit,
    returns NULL and changes nothing. *)
Theorem kmalloc_correct h bs sz m : Heap.wf h bs -> backed h m -> 0 < sz <= Heap.HEAP_MAX ->
  Heap.kmalloc 0 h = (0, h) /\
  ((exists s, In (s, true) bs /\ HeapSpec.round8 sz <= s) \/
   (Heap.heap_end h + 4096 * pages sz <= Heap.heap_limit h /\ avail (Heap.mach h) (Z.to_nat (pages sz))) ->
   exists p s h' bs' m', Heap.kmalloc sz h = (p, h') /\ sz <= s /\ HeapSpec.allocated h bs p s h' bs' /\ backed h' m' /\
     forall n, ~ (Heap.heap_end h / 4096 <= n < Heap.heap_end h' / 4096) -> m' n = m n) /\
  ((forall s, In (s, true) bs -> s < HeapSpec.round8 sz) -> Heap.heap_end h = Heap.heap_limit h -> Heap.kmalloc sz h = (0, h)).
Proof.
  intros Hw Hb Hsz. pose proof (HeapSpec.kmalloc_regions h bs sz Hw Hsz) as (H1 & H2 & _). split; [done|].
  pose proof Hw as [Hw0 _]. pose proof (HeapSpec.wf_bounds _ _ Hw0) as [Hs He]. pose proof (Heap.wf_end _ _ Hw0) as Hend.
  pose proof (lenZ_nonneg bs). pose proof (HeapSpec.round8_spec sz Hsz) as [Hr1 Hr2].
  destruct (HeapSpec.kmalloc_search h bs (HeapSpec.round8 sz) Hw0 ltac:(lia)) as
    [(b1 & s0 & b2 & Eb & Hle & Eff)|(Hno & b1 & s & f & Eb & Eff)]; split.
  - intros _. destruct H2 as (p & s & h' & bs' & Ek & Hss & Hall); [left; exists s0; subst; split; [apply in_app_iff; simpl; tauto|done]|].
    destruct (kmalloc_found h sz _ ltac:(lia) Eff) as [M1 M2]. rewrite Ek in M1, M2. cbn [snd] in M1, M2.
    exists p, s, h', bs', m. split_and!; try done. by apply (backed_ext h).
  - intros Hno. assert (In (s0, true) bs) as Hin by (subst; apply in_app_iff; simpl; tauto). specialize (Hno s0 Hin). lia.
  - intros [(s1 & Hin & Hle)|[Hroom Hav]]; [specialize (Hno s1 Hin); lia|].
    destruct H2 as (p & s2 & h' & bs' & Ek & Hss & Hall); [by right|].
    destruct (kmalloc_grows h sz _ ltac:(lia) Eff) as [M1 M2]. rewrite Ek in M1, M2. cbn [snd] in M1, M2.
    unfold Heap.expand in *. unfold Heap.HEAP_START, Heap.HEAP_MAX in *. set (need := u32 _) in *.
    assert (need = HeapSpec.round8 sz + 4116) as En by (unfold need, Heap.sizeof_block; rewrite u32_small by dlia; lia).
    destruct (expand_from_backed (S (Z.to_nat ((Heap.heap_limit h - Heap.heap_end h) / 4096))) need h m (Z.to_nat (pages sz)) Hb)
      as (m' & Hb' & _ & Hout); [unfold Heap.HEAP_START; lia|unfold Heap.HEAP_MAX; lia|unfold pages; dlia|done|].
    exists p, s2, h', bs', m'. rewrite M2. split_and!; try done. by apply (backed_ext _ _ _ M1 M2).
  - intros _ Elim. unfold Heap.kmalloc. destruct (Z.eqb_spec sz 0); [lia|]. fold (HeapSpec.round8 sz). rewrite Eff.
    rewrite expand_at_limit by done. by rewrite Z.eqb_refl.
Qed.


(** ** The heap at boot *)

Lemma free_from_avail s a n : free_from s a -> a + Z.of_nat n <= Pmm.total_frames (phys s) -> avail s n.
Proof.
  intros [Hp Hf] Hn. unfold avail.
  assert (size (list_to_set (range a n) : gset Z) = n) as <-.
  { rewrite size_list_to_set; [apply length_range|]. clear. revert a. induction n as [|n IH]; intros a; cbn [range]; [constructor|].
    constructor; [|apply IH]. intros H%list_elem_of_In%In_range. lia. }
  apply subseteq_size. intros x Hx%elem_of_list_to_set%list_elem_of_In%In_range. apply Hf. lia.
Qed.

(** What [vmm_init] leaves. *)
Lemma boot_backed a total i h : 0 < a -> 0 <= i <= 24576 -> heap_upto a total i (Heap.mach h) ->
  Heap.heap_end h = (8192 + i) * 4096 -> backed h (heap_map a i).
Proof.
  intros Ha Hi [Hm Ht Hf HT Hd] He.
  assert (Heap.heap_end h / 4096 = 8192 + i) as En by (rewrite He; dlia).
  assert (forall n, 8192 <= n < 8192 + i -> heap_map a i n = Some ((a + 33 + (n - 8192)) * 4096)) as Hmap.
  { intros n Hn. unfold heap_map. by rewrite (proj2 (Z.leb_le 8192 n)), (proj2 (Z.ltb_lt n (8192 + i))) by lia. }
  split; rewrite ?Hd, ?En.
  - rewrite He. dlia.
  - done.
  - intros j Hj. rewrite Ht, (proj2 (Z.ltb_lt j 32)) by lia. eauto.
  - intros n Hn. rewrite Hmap by lia. eexists. split; [done|]. pose proof (ff_pos _ _ Hf).
    split_and!; [split| |].
    + lia.
    + dlia.
    + rewrite Z.div_mul by done. lia.
    + rewrite Z.div_mul by done. rewrite (ff_free _ _ Hf). lia.
    + lia.
    + intros j Hj. rewrite Ht by done. destruct (Z.ltb_spec j 32); [intros [= E]; lia|done].
  - intros n n' f Hn Hn'. rewrite !Hmap by lia. intros [= <-] [= E]. lia.
Qed.

(** A machine with 64 MiB after [vmm_init]: one free block, and the heap is backed. *)
Definition boot_heap : Heap.heap :=
  Heap.vmm_init (Heap.Heap ∅ 0 0 0 (hal_paging_init (at_boot (fun _ => zero_page) 64512 4194304))).

Lemma vmm_init_backed mem mu ke st hd e l :
  let a := Pmm.reserved_end ke / 4096 in
  let h := Heap.vmm_init (Heap.Heap st hd e l (hal_paging_init (at_boot mem mu ke))) in
  (forall f, lenZ (mem f) = 4096 /\ bytes (mem f)) -> 0 <= ke <= 4292866048 ->
  a + 1057 <= Pmm.total_frames (Pmm.pmm_init mu ke) ->
  backed h (heap_map a 1024) /\ free_from (Heap.mach h) (a + 1057) /\
  Pmm.total_frames (phys (Heap.mach h)) = Pmm.total_frames (Pmm.pmm_init mu ke).
Proof.
  intros a h Hmem Hke Ht. destruct (at_boot_spec mem mu ke Hmem Hke ltac:(fold a; lia)) as (Hok & Ha & Hf). fold a in Ha, Hf.
  pose proof (hal_paging_init_spec _ a Hok Hf ltac:(cbn [at_boot phys]; lia)) as Hp.
  pose proof (vmm_init_map a _ (Heap.Heap st hd e l (hal_paging_init (at_boot mem mu ke))) Ha Ht (heap_upto_start _ _ _ Hp)) as Hu.
  fold h in Hu. split_and!; [|replace (a + 1057) with (a + 33 + 1024) by lia; apply Hu|apply Hu].
  apply (boot_backed a (Pmm.total_frames (Pmm.pmm_init mu ke)) 1024); [done|lia|exact Hu|].
  pose proof (HeapSpec.vmm_init_wf (Heap.Heap st hd e l (hal_paging_init (at_boot mem mu ke)))) as [Hw _].
  fold h in Hw. by rewrite <- (Heap.wf_fin _ _ Hw).
Qed.

Lemma vmm_limit h : Heap.heap_limit (Heap.vmm_init h) = Heap.HEAP_MAX /\ Heap.heap_end (Heap.vmm_init h) = 37748736.
Proof.
  unfold Heap.vmm_init. cbn [Heap.heap_limit Heap.heap_end].
  destruct (HeapSpec.expand_spec 4194304 (Heap.Heap (Heap.store h) (Heap.heap_head h) Heap.HEAP_START Heap.HEAP_MAX (Heap.mach h)))
    as [st E]; [done..|]. by rewrite E.
Qed.

Lemma vmm_room h : Heap.heap_end (Heap.vmm_init h) + 4096 * pages 5000000 <= Heap.heap_limit (Heap.vmm_init h).
Proof. destruct (vmm_limit h) as [-> ->]. vm_compute. discriminate. Qed.

Lemma boot_heap_ready : Heap.wf boot_heap [(4194284, true)] /\ (exists m, backed boot_heap m) /\
  Heap.heap_end boot_heap + 4096 * pages 5000000 <= Heap.heap_limit boot_heap /\
  avail (Heap.mach boot_heap) (Z.to_nat (pages 5000000)).
Proof.
  assert (Pmm.total_frames (Pmm.pmm_init 64512 4194304) = 16384) as HT by (vm_compute; reflexivity).
  destruct (vmm_init_backed (fun _ => zero_page) 64512 4194304 ∅ 0 0 0 (fun _ => zero_page_ok) ltac:(lia)) as (Hb & Hf & HT2).
  { rewrite HT. vm_compute. discriminate. }
  split; [apply HeapSpec.vmm_init_wf|]. split; [by eexists|]. split; [apply vmm_room|].
  apply (free_from_avail _ _ _ Hf). rewrite HT2, HT. vm_compute. discriminate.
Qed.

(** An allocation that does not fit the four megabytes the heap starts with. *)
Lemma kmalloc_correct_witness :
  exists p s h' bs' m', Heap.kmalloc 5000000 boot_heap = (p, h') /\ 5000000 <= s /\
    HeapSpec.allocated boot_heap [(4194284, true)] p s h' bs' /\ backed h' m'.
Proof.
  generalize boot_heap_ready. generalize boot_heap. intros h (Hw & [m Hb] & Hroom & Hav).
  destruct (kmalloc_correct h [(4194284, true)] 5000000 m Hw Hb) as (_ & H & _); [unfold Heap.HEAP_MAX; lia|].
  destruct H as (p & s & h' & bs' & m' & H1 & H2 & H3 & H4 & _); [right; split; assumption|].
  exists p, s, h', bs', m'. split; [exact H1|]. split; [exact H2|]. split; [exact H3|exact H4].
Defined.

End HeapPages.
