(* ===== verification/File.v ===== *)
(** * Open files (kernel/fs/file.c, include/file.h) and the kernel's services

    An open file ([struct filp]) is shared by all descriptors that refer to it and is
    released with the last of them.  Open files and pipes are allocated on the kernel
    heap of the file Heap; they live in stores indexed by their address.  The record
    [services] puts together the parts of the kernel the scheduler calls, and the
    instance [kernel_env] shows that they implement the interface [KEnv] against
    which the scheduler is verified. *)

From stdpp Require Import base list gmap numbers.
From S2P Require Import Prelude CString Pmm Layout Paging Heap HeapSpec Pipe Sched.

#[local] Open Scope Z_scope.

Module File.

Definition FT_NONE : Z := 0.
Definition FT_INODE : Z := 1.
Definition FT_CONS : Z := 2.
Definition FT_PIPE : Z := 3.

Record filp := Filp {
  ftype : Z;
  refcount : Z;
  ino : Z;
  offset : Z;
  flags : Z;
  is_dir : Z;
  fpipe : Z;
  pipe_end : Z }.

Definition set_refcount (v : Z) (f : filp) : filp :=
  Filp (ftype f) v (ino f) (offset f) (flags f) (is_dir f) (fpipe f) (pipe_end f).
Definition set_offset (v : Z) (f : filp) : filp :=
  Filp (ftype f) (refcount f) (ino f) v (flags f) (is_dir f) (fpipe f) (pipe_end f).
(** The fields [sys_pipe] writes in an open file to make it one end of a pipe. *)
Definition set_end (p pend : Z) (f : filp) : filp :=
  Filp FT_PIPE (refcount f) (ino f) (offset f) (flags f) (is_dir f) p pend.

(** A kernel stack is abstracted to what the saved context on it will do: start at an
    entry point, or return to user mode with the given registers. *)
Inductive context := Starts (entry : Z) | ReturnsToUser (regs : list Z).

Record services := Services {
  heap : Heap.heap;
  filps : gmap Z filp;
  pipes : gmap Z Pipe.pipe;
  contexts : gmap Z context;
  tss_esp0 : Z }.

Definition with_heap (e : services) h : services :=
  Services h (filps e) (pipes e) (contexts e) (tss_esp0 e).
Definition with_filps (e : services) m : services :=
  Services (heap e) m (pipes e) (contexts e) (tss_esp0 e).
Definition with_pipes (e : services) m : services :=
  Services (heap e) (filps e) m (contexts e) (tss_esp0 e).
Definition with_contexts (e : services) m : services :=
  Services (heap e) (filps e) (pipes e) m (tss_esp0 e).
Definition with_tss (e : services) v : services :=
  Services (heap e) (filps e) (pipes e) (contexts e) v.

Definition machine_of (e : services) : Paging.machine := Heap.mach (heap e).
Definition with_machine (e : services) (s : Paging.machine) : services :=
  with_heap e (Heap.Heap (Heap.store (heap e)) (Heap.heap_head (heap e)) (Heap.heap_end (heap e))
                 (Heap.heap_limit (heap e)) s).

Definition zero_filp : filp := Filp 0 0 0 0 0 0 0 0.
Definition fget (e : services) (f : Z) : filp := default zero_filp (filps e !! f).
Definition pget (e : services) (p : Z) : Pipe.pipe := default (Pipe.MkPipe [] 0 0 0 0 0) (pipes e !! p).
Definition fupd (g : filp -> filp) (f : Z) (e : services) : services :=
  with_filps e (<[f := g (fget e f)]> (filps e)).
Definition pput (p : Z) (v : Pipe.pipe) (e : services) : services := with_pipes e (<[p := v]> (pipes e)).

Definition kmalloc (n : Z) (e : services) : Z * services :=
  let '(p, h) := Heap.kmalloc n (heap e) in (p, with_heap e h).
Definition kfree (p : Z) (e : services) : services := with_heap e (Heap.kfree p (heap e)).

(** [sizeof(struct filp)] and [sizeof(struct pipe)]. *)
Definition sizeof_filp : Z := 32.
Definition sizeof_pipe : Z := 4116.

Definition filp_alloc (e : services) : Z * services :=
  let '(f, e1) := kmalloc sizeof_filp e in
  if f =? 0 then (0, e1)
  else (f, with_filps e1 (<[f := Filp FT_NONE 1 0 0 0 0 0 0]> (filps e1))).

Definition filp_ref (f : Z) (e : services) : services :=
  if f =? 0 then e else fupd (fun x => set_refcount (i32 (refcount x + 1)) x) f e.

(** What [filp_close] does to the pipe of the last descriptor of one end. *)
Definition close_pipe_end (x : filp) (e : services) : services :=
  if (ftype x =? FT_PIPE) && negb (fpipe x =? 0) then
    let p := pget e (fpipe x) in
    let p1 := if pipe_end x =? 0
              then Pipe.MkPipe (Pipe.buf p) (Pipe.rpos p) (Pipe.wpos p) (Pipe.count p)
                     (i32 (Pipe.readers p - 1)) (Pipe.writers p)
              else Pipe.MkPipe (Pipe.buf p) (Pipe.rpos p) (Pipe.wpos p) (Pipe.count p)
                     (Pipe.readers p) (i32 (Pipe.writers p - 1)) in
    let e1 := pput (fpipe x) p1 e in
    if (Pipe.readers p1 =? 0) && (Pipe.writers p1 =? 0)
    then kfree (fpipe x) (with_pipes e1 (delete (fpipe x) (pipes e1))) else e1
  else e.

Definition filp_close (f : Z) (e : services) : services :=
  if f =? 0 then e
  else
    let e1 := fupd (fun x => set_refcount (i32 (refcount x - 1)) x) f e in
    if 0 <? refcount (fget e1 f) then e1
    else
      let e2 := close_pipe_end (fget e1 f) e1 in
      kfree f (with_filps e2 (delete f (filps e2))).

Definition pipe_create (e : services) : Z * services :=
  let '(p, e1) := kmalloc sizeof_pipe e in
  if p =? 0 then (0, e1) else (p, pput p Pipe.pipe_init e1).

(** The context [hal_context_init] builds below the top of a stack: the entry point,
    a null return address and five registers. *)
Definition hal_context_init (stack_top entry : Z) (e : services) : Z * services :=
  let c := u32 (stack_top - 8 - 20) in
  (c, with_contexts e (<[c := Starts entry]> (contexts e))).

#[global] Instance kernel_env : KEnv services := {|
  Sched.kmalloc := kmalloc;
  Sched.kfree := kfree;
  Sched.hal_paging_kernel_dir e := Paging.hal_paging_kernel_dir (machine_of e);
  Sched.hal_addrspace_current e := Paging.hal_addrspace_current (machine_of e);
  Sched.hal_paging_switch d e := with_machine e (Paging.hal_paging_switch d (machine_of e));
  Sched.hal_addrspace_destroy d e := with_machine e (Paging.hal_addrspace_destroy d (machine_of e));
  Sched.hal_tss_set_kernel_stack v e := with_tss e v;
  Sched.hal_context_init := hal_context_init;
  Sched.filp_close := filp_close;
|}.

End File.
