(* ===== verification/FileSpec.v ===== *)
(** * Reference counting of open files and pipes (kernel/fs/file.c)

    The invariant [ok X]: every open file and pipe, and every other object of the kernel
    (their addresses are [X]), occupies its own block of the heap; a pipe is live as
    long as an open file refers to it, and its counters are the numbers of open files on
    its two ends.  [held X e ds] adds that [ds] are the descriptors: the counter of an
    open file is the number of its descriptors. *)

From stdpp Require Import base list gmap numbers sets.
From S2P Require Import Prelude CString Pmm Layout Paging Heap HeapSpec Pipe Sched File.

#[local] Open Scope Z_scope.

Definition keys {A} (m : gmap Z A) : list Z := (map_to_list m).*1.

Lemma elem_of_keys {A} (m : gmap Z A) x : x ∈ keys m <-> is_Some (m !! x).
Proof.
  unfold keys. rewrite list_elem_of_fmap. split.
  - intros ([y v] & -> & H). apply elem_of_map_to_list in H. eauto.
  - intros [v H]. exists (x, v). split; [done|]. by apply elem_of_map_to_list.
Qed.

Lemma keys_insert_new {A} (m : gmap Z A) x v : m !! x = None -> keys (<[x := v]> m) ≡ₚ x :: keys m.
Proof. intros H. unfold keys. by rewrite map_to_list_insert. Qed.

Lemma keys_delete {A} (m : gmap Z A) x v : m !! x = Some v -> keys m ≡ₚ x :: keys (delete x m).
Proof. intros H. unfold keys. rewrite <- (map_to_list_delete _ _ _ H). done. Qed.

Lemma keys_insert_old {A} (m : gmap Z A) x v w : m !! x = Some w -> keys (<[x := v]> m) ≡ₚ keys m.
Proof.
  intros H. rewrite (keys_delete m x w H). rewrite <- insert_delete_eq.
  apply keys_insert_new, lookup_delete_eq.
Qed.

Module FileSpec.
Import File.

(** ** Blocks in use *)

(** The addresses [L] are distinct blocks in use. *)
Record blocks (h : Heap.heap) (L : list Z) : Prop := {
  bl_wf : exists bs, Heap.wf h bs /\ forall x, x ∈ L -> exists s, Heap.used_at Heap.HEAP_START bs (x - 20) s;
  bl_nodup : NoDup L;
  bl_null : 0 ∉ L }.

#[global] Instance blocks_perm h : Proper ((≡ₚ) ==> iff) (blocks h).
Proof.
  assert (forall l1 l2, l1 ≡ₚ l2 -> blocks h l1 -> blocks h l2) as H.
  { intros l1 l2 Hp [(bs & Hw & Hu) Hn H0]. split; [|by rewrite <- Hp..].
    exists bs. split; [done|]. intros x. rewrite <- Hp. apply Hu. }
  intros l1 l2 Hp. split; by apply H.
Qed.

Lemma kmalloc_blocks n e L : blocks (heap e) L -> 0 < n <= Heap.HEAP_MAX ->
  exists p h, kmalloc n e = (p, with_heap e h) /\
    ((p = 0 /\ blocks h L) \/ (p <> 0 /\ blocks h (p :: L))).
Proof.
  intros [(bs & Hw & Hu) Hnd H0] Hn. unfold kmalloc.
  destruct (HeapSpec.kmalloc_total (heap e) bs n Hw Hn) as (p & h & -> & [(-> & Hw' & _)|(Hp & _ & s & bs' & Hal & _)]).
  - exists 0, h. split; [done|]. left. split; [done|]. split; [by exists bs|done|done].
  - exists p, h. split; [done|]. right. split; [done|].
    pose proof (HeapSpec.us_nonneg _ _ _ _ _ _ Hal) as Hs0. destruct Hal as [Hw' Hu' Ha Hr].
    split; [|apply NoDup_cons; split; [|done]|by apply not_elem_of_cons].
    + exists bs'. split; [done|]. intros x [->|HP]%elem_of_cons; [exists s; apply Hu'; auto|].
      destruct (Hu x HP) as [t Ht]. exists t. apply Hu'. auto.
    + intros HP. destruct (Hu p HP) as [t Ht]. specialize (Ha _ _ Ht).
      destruct (HeapSpec.wf_bounds _ _ (Heap.wf_core _ _ Hw)).
      pose proof (Heap.used_range _ _ _ _ (Heap.seg_sized _ _ _ _ _ (Heap.wf_seg _ _ (Heap.wf_core _ _ Hw))) Ht). lia.
Qed.

Lemma kfree_blocks p h L : blocks h (p :: L) -> blocks (Heap.kfree p h) L.
Proof.
  intros [(bs & Hw & Hu) [Hp Hnd]%NoDup_cons [_ H0]%not_elem_of_cons].
  destruct (Hu p ltac:(left)) as [s Hs].
  destruct (HeapSpec.kfree_spec h bs p s Hw Hs) as (bs' & Hw' & Hu'). split; [|done|done].
  exists bs'. split; [done|]. intros x Hx. destruct (Hu x ltac:(by right)) as [t Ht]. exists t.
  apply Hu'. split; [done|]. intros E. apply Hp. by replace p with x by lia.
Qed.

(** Every block takes at least a header, so there are few of them. *)
Lemma blocks_bound h L : blocks h L -> 20 * lenZ L <= 100663296.
Proof.
  intros [(bs & Hw & Hu) Hnd H0].
  set (addrs := map (fun b : Z * Z * bool => fst (fst b) + 20) (Heap.place Heap.HEAP_START bs)).
  assert (length L <= length addrs)%nat as Hle.
  { apply NoDup_incl_length; [by apply NoDup_ListNoDup|].
    intros x Hx. apply list_elem_of_In in Hx. destruct (Hu x Hx) as [s Hs].
    apply in_map_iff. exists (x - 20, s, false). split; [simpl; lia|done]. }
  unfold addrs in Hle. rewrite length_map in Hle.
  destruct (HeapSpec.wf_bounds _ _ (Heap.wf_core _ _ Hw)) as [Hb1 Hb2].
  rewrite Heap.length_place in Hle.
  unfold lenZ, Heap.HEAP_MAX, Heap.HEAP_START in *. lia.
Qed.

(** The open files on one end of a pipe: end 0 reads, the others write. *)
Definition on_end (p : Z) (rd : bool) (x : filp) : Prop :=
  ftype x = FT_PIPE /\ fpipe x = p /\ bool_decide (pipe_end x = 0) = rd.
#[global] Instance on_end_dec p rd x : Decision (on_end p rd x).
Proof. unfold on_end. apply _. Defined.

Definition ends (m : gmap Z filp) (p : Z) (rd : bool) : Z :=
  Z.of_nat (size (filter (fun fx => on_end p rd (snd fx)) m)).

(** All live objects: open files, pipes and the others. *)
Definition objects (X : list Z) (e : services) : list Z := keys (filps e) ++ keys (pipes e) ++ X.

Record ok (X : list Z) (e : services) : Prop := {
  ok_heap : blocks (heap e) (objects X e);
  ok_live : forall f x, filps e !! f = Some x -> ftype x = FT_PIPE -> is_Some (pipes e !! fpipe x);
  ok_count : forall p q, pipes e !! p = Some q -> Pipe.readers q = ends (filps e) p true /\
    Pipe.writers q = ends (filps e) p false /\ 0 < Pipe.readers q + Pipe.writers q }.

(** ** Counting *)

Lemma ends_insert m f x p rd : m !! f = None ->
  ends (<[f := x]> m) p rd = ends m p rd + (if decide (on_end p rd x) then 1 else 0).
Proof.
  intros Hf. unfold ends. case_decide as Ho.
  - rewrite map_filter_insert_True by done. rewrite map_size_insert_None; [lia|].
    apply map_lookup_filter_None. by left.
  - rewrite map_filter_insert_not' by (cbn; try done; intros y Hy; congruence). lia.
Qed.

Lemma ends_delete m f x p rd : m !! f = Some x ->
  ends (delete f m) p rd = ends m p rd - (if decide (on_end p rd x) then 1 else 0).
Proof.
  intros Hf. rewrite <- (insert_delete_id m f x Hf) at 2. rewrite ends_insert by apply lookup_delete_eq. lia.
Qed.

Lemma ends_update m f x y p rd : m !! f = Some x -> (on_end p rd y <-> on_end p rd x) ->
  ends (<[f := y]> m) p rd = ends m p rd.
Proof.
  intros Hf Hxy. rewrite <- insert_delete_eq. rewrite ends_insert by apply lookup_delete_eq.
  rewrite (ends_delete _ _ _ _ _ Hf). destruct (decide (on_end p rd y)), (decide (on_end p rd x)); tauto || lia.
Qed.

Lemma ends_nonneg m p rd : 0 <= ends m p rd.
Proof. unfold ends. lia. Qed.

Lemma ends_pos m p rd f x : m !! f = Some x -> on_end p rd x -> 0 < ends m p rd.
Proof.
  intros Hf Hx. pose proof (ends_delete m f x p rd Hf) as H. rewrite decide_True in H by done.
  pose proof (ends_nonneg (delete f m) p rd). lia.
Qed.

Lemma ends_none m p rd : (forall k x, m !! k = Some x -> ~ on_end p rd x) -> ends m p rd = 0.
Proof.
  intros H. unfold ends. rewrite map_empty_filter_2; [by rewrite map_size_empty|]. intros k x Hk. by apply (H k).
Qed.

(** ** The operations *)

Definition new_filp : filp := Filp FT_NONE 1 0 0 0 0 0 0.

(** ** Descriptors

    [held X e ds]: [ds] are the references to open files that exist, one entry for each
    descriptor; the counter of an open file is the number of its references. *)

Definition refs (ds : list Z) (f : Z) : Z := Z.of_nat (count_occ Z.eq_dec ds f).

Record held (X : list Z) (e : services) (ds : list Z) : Prop := {
  held_ok : ok X e;
  held_refs : forall f x, filps e !! f = Some x -> refcount x = refs ds f /\ f ∈ ds;
  held_live : forall f, f ∈ ds -> is_Some (filps e !! f) }.

Lemma refs_cons ds f g : refs (f :: ds) g = (if decide (f = g) then 1 else 0) + refs ds g.
Proof. unfold refs. simpl. destruct (Z.eq_dec f g), (decide (f = g)); done || lia. Qed.

Lemma refs_pos ds f : 0 < refs ds f <-> f ∈ ds.
Proof. unfold refs. rewrite list_elem_of_In, (count_occ_In Z.eq_dec). lia. Qed.

Lemma refs_le ds f : 0 <= refs ds f <= lenZ ds.
Proof. unfold refs, lenZ. pose proof (count_occ_bound Z.eq_dec f ds). lia. Qed.

Lemma refs_zero ds f : f ∉ ds -> refs ds f = 0.
Proof. intros H. pose proof (refs_le ds f). rewrite <- refs_pos in H. lia. Qed.

#[global] Instance refs_perm : Proper ((≡ₚ) ==> eq ==> eq) refs.
Proof. intros l1 l2 H f ? <-. unfold refs. f_equal. by apply Permutation_count_occ. Qed.

#[global] Instance held_perm X e : Proper ((≡ₚ) ==> iff) (held X e).
Proof.
  assert (forall l1 l2, l1 ≡ₚ l2 -> held X e l1 -> held X e l2) as H.
  { intros l1 l2 Hp [A B C]. split; [done| |].
    - intros f x Hf. rewrite <- Hp. by apply B.
    - intros f. rewrite <- Hp. apply C. }
  intros l1 l2 Hp. split; by apply H.
Qed.

Section objects.
Context (X : list Z).
Implicit Types e : services.

Lemma elem_of_objects e x : x ∈ objects X e <-> is_Some (filps e !! x) \/ is_Some (pipes e !! x) \/ x ∈ X.
Proof. unfold objects. by rewrite !elem_of_app, !elem_of_keys. Qed.

Lemma ok_null e x : ok X e -> is_Some (filps e !! x) \/ is_Some (pipes e !! x) -> x <> 0.
Proof. intros [[_ _ H0] _ _] Hx ->. apply H0, elem_of_objects. tauto. Qed.

Lemma ok_disj e x : ok X e -> is_Some (filps e !! x) -> pipes e !! x = None.
Proof.
  intros [[_ Hn _] _ _] Hx. apply eq_None_not_Some. intros Hp.
  apply NoDup_app in Hn as (_ & Hn & _). apply (Hn x); [by apply elem_of_keys|].
  apply elem_of_app. left. by apply elem_of_keys.
Qed.

Lemma ends_bound e p rd : ok X e -> 0 <= ends (filps e) p rd < 2147483647.
Proof.
  intros [Hh _ _]. split; [apply ends_nonneg|]. apply blocks_bound in Hh. unfold ends.
  pose proof (map_size_filter (fun fx => on_end p rd (snd fx)) (filps e)).
  unfold objects, lenZ, keys in Hh. rewrite !length_app, length_fmap, length_map_to_list in Hh. lia.
Qed.

(** A new address is none of the live objects. *)
Lemma fresh_object e h f : blocks h (f :: objects X e) ->
  filps e !! f = None /\ pipes e !! f = None /\ (f ∉ X).
Proof.
  intros [_ [Hf _]%NoDup_cons _]. rewrite elem_of_objects in Hf.
  split_and!; [apply eq_None_not_Some..|]; tauto.
Qed.

Lemma filp_alloc_heap e L : blocks (heap e) L -> exists f h,
  (f = 0 /\ blocks h L /\ filp_alloc e = (0, with_heap e h)) \/
  (f <> 0 /\ blocks h (f :: L) /\
   filp_alloc e = (f, with_filps (with_heap e h) (<[f := new_filp]> (filps e)))).
Proof.
  intros Hh. unfold filp_alloc.
  destruct (kmalloc_blocks sizeof_filp e L Hh ltac:(unfold sizeof_filp, Heap.HEAP_MAX; lia)) as
    (f & h & -> & [(-> & Hh')|(Hf & Hh')]); eexists _, h.
  - left. done.
  - right. destruct (Z.eqb_spec f 0); done.
Qed.

Lemma pipe_create_heap e L : blocks (heap e) L -> exists p h,
  (p = 0 /\ blocks h L /\ pipe_create e = (0, with_heap e h)) \/
  (p <> 0 /\ blocks h (p :: L) /\ pipe_create e = (p, pput p Pipe.pipe_init (with_heap e h))).
Proof.
  intros Hh. unfold pipe_create.
  destruct (kmalloc_blocks sizeof_pipe e L Hh ltac:(unfold sizeof_pipe, Heap.HEAP_MAX; lia)) as
    (p & h & -> & [(-> & Hh')|(Hp & Hh')]); eexists _, h.
  - left. done.
  - right. destruct (Z.eqb_spec p 0); done.
Qed.

Lemma filp_alloc_spec e : ok X e -> exists f e', filp_alloc e = (f, e') /\ ok X e' /\ pipes e' = pipes e /\
  ((f = 0 /\ filps e' = filps e) \/
   (f <> 0 /\ filps e !! f = None /\ filps e' = <[f := new_filp]> (filps e))).
Proof.
  intros [Hh Hl Hc]. destruct (filp_alloc_heap e _ Hh) as (f & h & [(-> & Hh' & ->)|(Hf & Hh' & ->)]).
  - exists 0, (with_heap e h). split_and!; [done|by split|done|by left].
  - destruct (fresh_object e h f Hh') as (Hf1 & Hf2 & _).
    eexists f, _. split_and!; [done| |done|right; done]. split; cbn [heap filps pipes with_heap with_filps].
    + unfold objects. cbn [filps pipes with_heap with_filps]. by rewrite keys_insert_new by done.
    + intros g x Hg Ht. destruct (decide (g = f)) as [->|]; [rewrite lookup_insert_eq in Hg; by injection Hg as <-|].
      rewrite lookup_insert_ne in Hg by done. by apply (Hl g).
    + intros p q Hq. rewrite !ends_insert by done.
      rewrite !decide_False by (intros (? & _); done). rewrite !Z.add_0_r. by apply Hc.
Qed.

(** Changing an open file without changing which pipe end it is. *)
Lemma fupd_ok e f x g : ok X e -> filps e !! f = Some x ->
  (forall p rd, on_end p rd (g x) <-> on_end p rd x) ->
  ok X (fupd g f e) /\ filps (fupd g f e) = <[f := g x]> (filps e).
Proof.
  intros [Hh Hl Hc] Hf Hon.
  assert (fget e f = x) as Hg by (unfold fget; by rewrite Hf). unfold fupd. rewrite Hg.
  split; [|done]. split; cbn [heap filps pipes with_filps].
  - unfold objects. cbn [filps pipes with_filps]. by rewrite (keys_insert_old _ _ _ _ Hf).
  - intros k y Hk Ht. destruct (decide (k = f)) as [->|].
    + rewrite lookup_insert_eq in Hk. injection Hk as <-.
      destruct (proj1 (Hon (fpipe (g x)) (bool_decide (pipe_end (g x) = 0)))) as (Ht' & Hp' & _); [done|].
      rewrite <- Hp'. by apply (Hl f).
    + rewrite lookup_insert_ne in Hk by done. by apply (Hl k).
  - intros p q Hq. rewrite !(ends_update _ _ x) by done. by apply Hc.
Qed.

(** Removing an open file, when what is left of the pipes fits the other open files. *)
Lemma ok_remove e f h ps cx ts :
  blocks h (f :: keys (delete f (filps e)) ++ keys ps ++ X) ->
  (forall k y, k <> f -> filps e !! k = Some y -> ftype y = FT_PIPE -> is_Some (ps !! fpipe y)) ->
  (forall p q, ps !! p = Some q -> Pipe.readers q = ends (delete f (filps e)) p true /\
     Pipe.writers q = ends (delete f (filps e)) p false /\ 0 < Pipe.readers q + Pipe.writers q) ->
  ok X (Services (Heap.kfree f h) (delete f (filps e)) ps cx ts).
Proof.
  intros Hh Hlive Hcount. split; cbn [heap filps pipes].
  - by apply kfree_blocks.
  - intros k y Hk. destruct (decide (k = f)) as [->|]; [by rewrite lookup_delete_eq in Hk|].
    rewrite lookup_delete_ne in Hk by done. by apply (Hlive k).
  - done.
Qed.

(** The counters of a pipe after one of its ends has been closed. *)
Definition drop_end (x : filp) (q : Pipe.pipe) : Pipe.pipe :=
  if pipe_end x =? 0
  then Pipe.MkPipe (Pipe.buf q) (Pipe.rpos q) (Pipe.wpos q) (Pipe.count q) (i32 (Pipe.readers q - 1)) (Pipe.writers q)
  else Pipe.MkPipe (Pipe.buf q) (Pipe.rpos q) (Pipe.wpos q) (Pipe.count q) (Pipe.readers q) (i32 (Pipe.writers q - 1)).

Lemma drop_end_count e f x q : ok X e -> filps e !! f = Some x -> ftype x = FT_PIPE ->
  pipes e !! fpipe x = Some q ->
  Pipe.readers (drop_end x q) = ends (delete f (filps e)) (fpipe x) true /\
  Pipe.writers (drop_end x q) = ends (delete f (filps e)) (fpipe x) false.
Proof.
  intros Hok Hf Ht Hq. destruct (ok_count _ _ Hok _ _ Hq) as (Hr & Hw & _).
  pose proof (ends_bound e (fpipe x) true Hok). pose proof (ends_bound e (fpipe x) false Hok).
  assert (on_end (fpipe x) (bool_decide (pipe_end x = 0)) x) as Hon by done.
  assert (~ on_end (fpipe x) (negb (bool_decide (pipe_end x = 0))) x) as Hoff
    by (intros (_ & _ & E); by destruct (bool_decide _)).
  pose proof (ends_pos _ _ _ f x Hf Hon). rewrite !(ends_delete _ _ _ _ _ Hf). unfold drop_end.
  destruct (Z.eqb_spec (pipe_end x) 0) as [E|E]; cbn [Pipe.readers Pipe.writers].
  - rewrite (bool_decide_eq_true_2 _ E) in *. cbn [negb] in Hoff.
    rewrite decide_True, decide_False by done. rewrite i32_small by lia. lia.
  - rewrite (bool_decide_eq_false_2 _ E) in *. cbn [negb] in Hoff.
    rewrite decide_False, decide_True by done. rewrite i32_small by lia. lia.
Qed.

(** The last descriptor of [f] goes: the open file, and the pipe when it was its last end. *)
Lemma close_end_ok e f x : ok X e -> filps e !! f = Some x ->
  let e2 := close_pipe_end x e in
  ok X (kfree f (with_filps e2 (delete f (filps e2)))) /\ filps e2 = filps e.
Proof.
  intros Hok Hf e2. pose proof Hok as [Hh Hl Hc].
  unfold objects in Hh. rewrite (keys_delete _ _ _ Hf) in Hh. cbn [app] in Hh.
  unfold e2, close_pipe_end. destruct ((ftype x =? FT_PIPE) && negb (fpipe x =? 0)) eqn:Ep.
  2:{ split; [|done]. apply ok_remove; [done|by intros k y _; apply Hl|].
      intros p q Hq. rewrite !(ends_delete _ _ _ _ _ Hf).
      assert (forall rd, ~ on_end p rd x) as Hno.
      { intros rd (Ht & Hp & _). rewrite Ht, Hp in Ep. cbn in Ep. apply negb_false_iff, Z.eqb_eq in Ep.
        apply (ok_null e p Hok); [right; eauto|done]. }
      rewrite !decide_False by apply Hno. rewrite !Z.sub_0_r. by apply Hc. }
  apply andb_true_iff in Ep as [Ht%Z.eqb_eq Hp0%negb_true_iff%Z.eqb_neq].
  destruct (Hl f x Hf Ht) as [q Hq]. destruct (drop_end_count e f x q Hok Hf Ht Hq) as [Hr Hw].
  assert (pget e (fpipe x) = q) as -> by (unfold pget; by rewrite Hq). fold (drop_end x q).
  set (p := fpipe x) in *. set (q1 := drop_end x q) in *.
  assert (forall p' rd, p' <> p -> ends (delete f (filps e)) p' rd = ends (filps e) p' rd) as Hother.
  { intros p' rd Hne. rewrite (ends_delete _ _ _ _ _ Hf), decide_False; [lia|]. intros (_ & E & _). by apply Hne. }
  destruct ((Pipe.readers q1 =? 0) && (Pipe.writers q1 =? 0)) eqn:Ez; (split; [|done]);
    unfold kfree, with_heap, with_filps, pput, with_pipes; cbn [heap filps pipes contexts tss_esp0];
    rewrite ?delete_insert_eq.
  - apply andb_true_iff in Ez as [Ez1%Z.eqb_eq Ez2%Z.eqb_eq]. apply ok_remove.
    + apply kfree_blocks. revert Hh. rewrite (keys_delete _ _ _ Hq).
      apply blocks_perm. solve_Permutation.
    + intros k y Hk Hy Hty. destruct (decide (fpipe y = p)) as [E|]; [|rewrite lookup_delete_ne by done; by apply (Hl k)].
      pose proof (ends_pos (delete f (filps e)) p (bool_decide (pipe_end y = 0)) k y
        ltac:(by rewrite lookup_delete_ne) ltac:(split_and!; done)).
      destruct (bool_decide (pipe_end y = 0)); lia.
    + intros p' q' Hq'. destruct (decide (p' = p)) as [->|Hne]; [by rewrite lookup_delete_eq in Hq'|].
      rewrite lookup_delete_ne in Hq' by done. rewrite !Hother by done. by apply Hc.
  - apply ok_remove.
    + by rewrite (keys_insert_old _ _ _ _ Hq).
    + intros k y Hk Hy Hty.
      destruct (decide (fpipe y = p)) as [->|]; [rewrite lookup_insert_eq; eauto|rewrite lookup_insert_ne by done; by apply (Hl k)].
    + intros p' q' Hq'. destruct (decide (p' = p)) as [->|Hne].
      * rewrite lookup_insert_eq in Hq'. injection Hq' as <-. split_and!; [done|done|].
        pose proof (ends_nonneg (delete f (filps e)) p true). pose proof (ends_nonneg (delete f (filps e)) p false).
        apply andb_false_iff in Ez as [Ez%Z.eqb_neq|Ez%Z.eqb_neq]; lia.
      * rewrite lookup_insert_ne in Hq' by done. rewrite !Hother by done. by apply Hc.
Qed.

(** ** Pipes *)

(** The two ends of a new pipe, as [sys_pipe] fills them in. *)
Definition pipe_reader (p : Z) : filp := Filp FT_PIPE 1 0 0 0 0 p 0.
Definition pipe_writer (p : Z) : filp := Filp FT_PIPE 1 0 0 0 0 p 1.

Lemma ok_add_pipe e rf wf p h cx ts : ok X e ->
  blocks h (wf :: p :: rf :: objects X e) ->
  ok X (Services h (<[wf := pipe_writer p]> (<[rf := pipe_reader p]> (filps e)))
        (<[p := Pipe.pipe_init]> (pipes e)) cx ts).
Proof.
  intros [_ Hl Hc] Hh. pose proof Hh as [_ Hnd _].
  apply NoDup_cons in Hnd as [Hw Hnd]. apply NoDup_cons in Hnd as [Hp Hnd]. apply NoDup_cons in Hnd as [Hr _].
  rewrite !elem_of_cons, elem_of_objects in Hw. rewrite elem_of_cons, elem_of_objects in Hp.
  rewrite elem_of_objects in Hr.
  assert (filps e !! rf = None) as Hr1 by (apply eq_None_not_Some; tauto).
  assert (filps e !! wf = None) as Hw1 by (apply eq_None_not_Some; tauto).
  assert (pipes e !! p = None) as Hp2 by (apply eq_None_not_Some; tauto).
  assert (wf <> rf) as N1 by tauto.
  split; cbn [heap filps pipes].
  - unfold objects. cbn [filps pipes]. rewrite !keys_insert_new by (by rewrite ?lookup_insert_ne).
    revert Hh. unfold objects. apply blocks_perm. solve_Permutation.
  - intros k x Hk Ht. destruct (decide (fpipe x = p)) as [->|Hne]; [rewrite lookup_insert_eq; eauto|].
    rewrite lookup_insert_ne by done. destruct (decide (k = wf)) as [->|].
    { rewrite lookup_insert_eq in Hk. by injection Hk as <-. }
    rewrite lookup_insert_ne in Hk by done. destruct (decide (k = rf)) as [->|].
    { rewrite lookup_insert_eq in Hk. by injection Hk as <-. }
    rewrite lookup_insert_ne in Hk by done. by apply (Hl k).
  - intros p' q Hq. rewrite !ends_insert by (by rewrite ?lookup_insert_ne).
    destruct (decide (p' = p)) as [->|Hne].
    + rewrite lookup_insert_eq in Hq. injection Hq as <-.
      assert (forall rd, ends (filps e) p rd = 0) as Hz.
      { intros rd. apply ends_none. intros k x Hk (Ht & E & _).
        destruct (Hl k x Hk Ht) as [? Hx]. rewrite E in Hx. congruence. }
      rewrite !Hz.
      assert (on_end p true (pipe_reader p) /\ on_end p false (pipe_writer p)) as [A1 A2] by done.
      assert (~ on_end p false (pipe_reader p) /\ ~ on_end p true (pipe_writer p)) as [B1 B2]
        by (split; intros (_ & _ & E); done).
      rewrite !(decide_True _ _ A1), !(decide_True _ _ A2), !(decide_False _ _ B1), !(decide_False _ _ B2). done.
    + rewrite lookup_insert_ne in Hq by done.
      rewrite !decide_False by (intros (_ & E & _); cbn in E; congruence). rewrite !Z.add_0_r. by apply Hc.
Qed.

Lemma filp_alloc_held e ds : held X e ds -> exists f e', filp_alloc e = (f, e') /\ pipes e' = pipes e /\
  ((f = 0 /\ filps e' = filps e /\ held X e' ds) \/
   (f <> 0 /\ (f ∉ ds) /\ filps e' = <[f := new_filp]> (filps e) /\ held X e' (f :: ds))).
Proof.
  intros [Hok Hr Hl].
  destruct (filp_alloc_spec e Hok) as (f & e' & -> & Hok' & Hp & [(-> & E)|(Hf & Hf1 & E)]).
  - exists 0, e'. split_and!; [done|done|]. left. split_and!; [done|done|]. split; [done|..]; rewrite E; done.
  - assert (f ∉ ds) as Hnin by (intros Hin; apply Hl in Hin as [? Hin]; congruence).
    exists f, e'. split_and!; [done|done|]. right. split_and!; [done..|].
    assert (refs ds f = 0) as Hz.
    { by apply refs_zero. }
    split; [done|..]; rewrite E.
    + intros g x. rewrite refs_cons. destruct (decide (g = f)) as [->|Hne].
      * rewrite lookup_insert_eq, decide_True by done. intros [= <-]. split; [cbn; lia|left].
      * rewrite lookup_insert_ne, decide_False by done. intros Hx. destruct (Hr _ _ Hx). split; [lia|by right].
    + intros g [->|Hg]%elem_of_cons; [rewrite lookup_insert_eq; eauto|].
      rewrite lookup_insert_ne by congruence. auto.
Qed.

Lemma filp_ref_held e ds f x : held X e ds -> filps e !! f = Some x -> lenZ ds < 2147483647 ->
  held X (filp_ref f e) (f :: ds) /\ pipes (filp_ref f e) = pipes e /\
  filps (filp_ref f e) = <[f := set_refcount (refcount x + 1) x]> (filps e).
Proof.
  intros [Hok Hr Hl] Hf Hlen. pose proof (ok_null e f Hok ltac:(left; eauto)) as Hf0.
  unfold filp_ref. destruct (Z.eqb_spec f 0); [done|].
  destruct (fupd_ok e f x (fun x => set_refcount (i32 (refcount x + 1)) x) Hok Hf) as [Hok' E]; [done..|].
  destruct (Hr _ _ Hf) as [Hx Hin]. pose proof (refs_le ds f).
  rewrite i32_small in E by lia. split_and!; [|done|done]. split; [done|..]; rewrite E.
  - intros g y. rewrite refs_cons. destruct (decide (g = f)) as [->|Hne].
    + rewrite lookup_insert_eq, decide_True by done. intros [= <-]. cbn. split; [lia|left].
    + rewrite lookup_insert_ne, decide_False by done. intros Hy. destruct (Hr _ _ Hy). split; [lia|by right].
  - intros g Hg. destruct (decide (g = f)) as [->|Hne]; [rewrite lookup_insert_eq; eauto|].
    rewrite lookup_insert_ne by done. apply Hl. by apply elem_of_cons in Hg as [?|?].
Qed.

(** Changing an open file without changing its counter or which pipe end it is. *)
Lemma fupd_held e ds f x g : held X e ds -> filps e !! f = Some x ->
  (forall p rd, on_end p rd (g x) <-> on_end p rd x) -> refcount (g x) = refcount x -> held X (fupd g f e) ds.
Proof.
  intros [Hok Hr Hl] Hf Hon Hrc. destruct (fupd_ok e f x g Hok Hf Hon) as [Hok' E].
  split; [done|..]; rewrite E.
  - intros k y. destruct (decide (k = f)) as [->|]; [|rewrite lookup_insert_ne by done; apply Hr].
    rewrite lookup_insert_eq. intros [= <-]. rewrite Hrc. by apply Hr.
  - intros k Hk. destruct (decide (k = f)) as [->|]; [rewrite lookup_insert_eq; eauto|].
    rewrite lookup_insert_ne by done. by apply Hl.
Qed.

(** The contents of a pipe change, its counters do not. *)
Lemma pput_held e ds p q q' : held X e ds -> pipes e !! p = Some q ->
  Pipe.readers q' = Pipe.readers q -> Pipe.writers q' = Pipe.writers q -> held X (pput p q' e) ds.
Proof.
  intros [[Hh Hl Hc] Hr Hv] Hp E1 E2. split; [split|..]; try done.
  - unfold objects. cbn [filps pipes pput with_pipes]. by rewrite (keys_insert_old _ _ _ _ Hp).
  - intros f x Hf Ht. cbn [pipes pput with_pipes]. destruct (decide (fpipe x = p)) as [->|];
      [rewrite lookup_insert_eq; eauto|rewrite lookup_insert_ne by done; by apply (Hl f)].
  - intros p' q''. cbn [pipes filps pput with_pipes]. destruct (decide (p' = p)) as [->|];
      [|rewrite lookup_insert_ne by done; apply Hc]. rewrite lookup_insert_eq. intros [= <-].
    rewrite E1, E2. by apply Hc.
Qed.

(** Closing one of several descriptors of an open file, and closing the last one. *)
Lemma filp_close_held e ds f x : held X e (f :: ds) -> lenZ ds < 2147483647 -> filps e !! f = Some x ->
  held X (filp_close f e) ds /\
  filps (filp_close f e) =
    if decide (f ∈ ds) then <[f := set_refcount (refcount x - 1) x]> (filps e) else delete f (filps e).
Proof.
  intros [Hok Hr Hl] Hlen Hf. pose proof (ok_null e f Hok ltac:(left; eauto)) as Hf0.
  unfold filp_close. destruct (Z.eqb_spec f 0); [done|].
  set (g := fun x => set_refcount (i32 (refcount x - 1)) x).
  destruct (fupd_ok e f x g Hok Hf) as [Hok' E]; [done..|].
  destruct (Hr _ _ Hf) as [Hx _]. rewrite refs_cons, decide_True in Hx by done. pose proof (refs_le ds f).
  assert (g x = set_refcount (refcount x - 1) x) as Eg by (unfold g; rewrite i32_small by lia; done).
  rewrite Eg in E.
  assert (fget (fupd g f e) f = set_refcount (refcount x - 1) x) as -> by (unfold fget; by rewrite E, lookup_insert_eq).
  cbn [refcount set_refcount].
  assert (forall k y, k <> f -> filps e !! k = Some y -> refcount y = refs ds k /\ k ∈ ds) as Hother.
  { intros k y Hne Hk. destruct (Hr _ _ Hk) as [A B]. rewrite refs_cons, decide_False in A by done.
    apply elem_of_cons in B as [?|B]; [done|]. split; [lia|done]. }
  destruct (decide (f ∈ ds)) as [Hin|Hnin].
  - apply refs_pos in Hin as Hpos. destruct (Z.ltb_spec 0 (refcount x - 1)); [|lia].
    split; [|done]. split; [done|..]; rewrite E.
    + intros k y. destruct (decide (k = f)) as [->|Hne]; [|rewrite lookup_insert_ne by done; by apply Hother].
      rewrite lookup_insert_eq. intros [= <-]. cbn. split; [lia|done].
    + intros k Hk. destruct (decide (k = f)) as [->|Hne]; [rewrite lookup_insert_eq; eauto|].
      rewrite lookup_insert_ne by done. apply Hl. by right.
  - assert (refs ds f = 0) as Hz by (by apply refs_zero).
    destruct (Z.ltb_spec 0 (refcount x - 1)); [lia|].
    destruct (close_end_ok (fupd g f e) f (set_refcount (refcount x - 1) x) Hok') as [Hok2 E2];
      [by rewrite E, lookup_insert_eq|].
    set (e3 := kfree f _) in *.
    assert (filps e3 = delete f (filps e)) as E3.
    { unfold e3, kfree, with_heap, with_filps. cbn [filps]. by rewrite E2, E, delete_insert_eq. }
    split; [|done]. split; [done|..]; rewrite E3.
    + intros k y. destruct (decide (k = f)) as [->|Hne]; [by rewrite lookup_delete_eq|].
      rewrite lookup_delete_ne by done. by apply Hother.
    + intros k Hk. assert (k <> f) by congruence. rewrite lookup_delete_ne by done. apply Hl. by right.
Qed.

(** The two open files of a new pipe (the calls of [sys_pipe]). *)
Lemma pipe_pair_held e ds rf e1 p e2 wf e3 : held X e ds ->
  filp_alloc e = (rf, e1) -> rf <> 0 -> pipe_create e1 = (p, e2) -> p <> 0 ->
  filp_alloc e2 = (wf, e3) -> wf <> 0 ->
  let e' := fupd (set_end p 1) wf (fupd (set_end p 0) rf e3) in
  held X e' (wf :: rf :: ds) /\ (rf ∉ ds) /\ (wf ∉ rf :: ds) /\ pipes e !! p = None /\
  filps e' = <[wf := pipe_writer p]> (<[rf := pipe_reader p]> (filps e)) /\
  pipes e' = <[p := Pipe.pipe_init]> (pipes e).
Proof.
  intros [Hok Hr Hl] H1 Hrf H2 Hp H3 Hwf.
  destruct (filp_alloc_heap e _ (ok_heap _ _ Hok)) as (f & h1 & [(_ & _ & E)|(_ & Hh1 & E)]);
    rewrite E in H1; injection H1 as <- <-; [done|].
  match type of H2 with pipe_create ?s = _ => destruct (pipe_create_heap s _ Hh1)
    as (p' & h2 & [(_ & _ & E2)|(_ & Hh2 & E2)]) end; rewrite E2 in H2; injection H2 as <- <-; [done|].
  match type of H3 with filp_alloc ?s = _ => destruct (filp_alloc_heap s _ Hh2)
    as (w & h3 & [(_ & _ & E3)|(_ & Hh3 & E3)]) end; rewrite E3 in H3; injection H3 as <- <-; [done|].
  clear E E2 E3. intros e'. pose proof Hh3 as [_ Hnd _].
  apply NoDup_cons in Hnd as [Nw Hnd]. apply NoDup_cons in Hnd as [Np Hnd]. apply NoDup_cons in Hnd as [Nr _].
  rewrite !elem_of_cons in Nw. rewrite elem_of_cons in Np. assert (f <> w) as N2 by (intros ->; tauto).
  assert (filps e' = <[w := pipe_writer p']> (<[f := pipe_reader p']> (filps e))) as Ef.
  { unfold e', fupd, fget. cbn [filps with_filps with_heap pput with_pipes].
    rewrite !(lookup_insert_ne _ w f), lookup_insert_eq by done. cbn [default].
    rewrite (lookup_insert_ne _ f w), lookup_insert_eq by done. cbn [default].
    rewrite (insert_insert_ne _ w f), insert_insert_eq, (insert_insert_ne _ f w), insert_insert_eq by done. done. }
  assert (pipes e' = <[p' := Pipe.pipe_init]> (pipes e)) as Ep by done.
  assert (forall k, k ∉ objects X e -> k ∉ ds) as Hnd' by (intros k Hk Hin; apply Hk, elem_of_objects; left; by apply Hl).
  assert (w ∉ f :: ds) as Hw by (intros [?|Hin]%elem_of_cons; [congruence|by apply (Hnd' w); [tauto|]]).
  split_and!; [|by apply Hnd'|done| |done|done].
  2:{ apply eq_None_not_Some. intros Hs. apply Np. right. apply elem_of_objects. auto. }
  split.
  - assert (e' = Services h3 (filps e') (pipes e') (contexts e) (tss_esp0 e)) as -> by done. rewrite Ef, Ep.
    by apply ok_add_pipe.
  - intros k y. rewrite Ef, !refs_cons, !elem_of_cons.
    destruct (decide (w = k)) as [<-|Nk].
    { rewrite lookup_insert_eq. intros [= <-]. rewrite decide_False by done. cbn. rewrite refs_zero; [auto|]. apply Hnd'. tauto. }
    rewrite lookup_insert_ne by done. destruct (decide (f = k)) as [<-|Nf].
    { rewrite lookup_insert_eq. intros [= <-]. cbn. rewrite refs_zero by (by apply Hnd'). auto. }
    rewrite lookup_insert_ne by done. intros Hy. destruct (Hr _ _ Hy). split; [lia|auto].
  - intros k Hk. rewrite Ef. destruct (decide (w = k)) as [<-|]; [rewrite lookup_insert_eq; eauto|].
    rewrite lookup_insert_ne by done. destruct (decide (f = k)) as [<-|]; [rewrite lookup_insert_eq; eauto|].
    rewrite lookup_insert_ne by done. apply Hl. rewrite !elem_of_cons in Hk. destruct Hk as [?|[?|?]]; congruence.
Qed.

(** A pipe is live exactly when an open file is one of its ends. *)
Lemma pipe_live_iff e p : ok X e ->
  (is_Some (pipes e !! p) <-> exists g x, filps e !! g = Some x /\ ftype x = FT_PIPE /\ fpipe x = p).
Proof.
  intros [_ Hl Hc]. split; [|intros (g & x & Hg & Ht & <-); by apply (Hl g)].
  intros [q Hq]. destruct (Hc _ _ Hq) as (Hr & Hw & Hpos).
  assert (exists rd, 0 < ends (filps e) p rd) as [rd Hrd].
  { destruct (decide (0 < ends (filps e) p true)); [by exists true|exists false; lia]. }
  unfold ends in Hrd. destruct (map_choose (filter (fun fx => on_end p rd (snd fx)) (filps e))) as (k & x & Hk).
  { intros E. rewrite E, map_size_empty in Hrd. done. }
  apply map_lookup_filter_Some in Hk as [Hk (Ht & E & _)]. by exists k, x.
Qed.

(** Closing one of the descriptors [f :: ds] (kernel/fs/file.c, [filp_close]): the
    counters stay the numbers of descriptors left; every other descriptor keeps its open
    file, with everything but the counter of [f] unchanged; the open file goes with its
    last descriptor; and exactly the pipes with an open end that is left stay allocated. *)
Theorem filp_close_correct e ds f : held X e (f :: ds) -> lenZ ds < 2147483647 ->
  held X (filp_close f e) ds /\
  (forall g, g ∈ ds -> exists x, filps e !! g = Some x /\
     filps (filp_close f e) !! g = Some (set_refcount (refs ds g) x)) /\
  (f ∉ ds -> filps (filp_close f e) !! f = None) /\
  (forall p, is_Some (pipes (filp_close f e) !! p) <->
     exists g x, g ∈ ds /\ filps e !! g = Some x /\ ftype x = FT_PIPE /\ fpipe x = p).
Proof.
  intros Hh Hlen. pose proof Hh as [Hok Hr Hl]. destruct (Hl f ltac:(left)) as [x Hf].
  destruct (filp_close_held e ds f x Hh Hlen Hf) as [Hh' E]. pose proof Hh' as [Hok' Hr' Hl'].
  assert (forall g, g ∈ ds -> exists y, filps e !! g = Some y /\
     filps (filp_close f e) !! g = Some (set_refcount (refs ds g) y)) as Hkeep.
  { intros g Hg. destruct (Hl' g Hg) as [y Hy]. destruct (Hr' _ _ Hy) as [<- _]. rewrite Hy. rewrite E in Hy.
    destruct (decide (g = f)) as [->|Hne].
    - rewrite decide_True, lookup_insert_eq in Hy by done. injection Hy as <-. by exists x.
    - exists y. assert (filps e !! g = Some y) as ->; [|by destruct y].
      destruct (decide (f ∈ ds)); [by rewrite lookup_insert_ne in Hy|by rewrite lookup_delete_ne in Hy]. }
  split_and!; [done|done| |].
  - intros Hn. rewrite E, decide_False by done. apply lookup_delete_eq.
  - intros p. rewrite (pipe_live_iff _ p Hok'). split.
    + intros (g & y & Hg & Ht & Hpy). destruct (Hr' _ _ Hg) as [_ Hin]. destruct (Hkeep g Hin) as (z & Hz & Ez).
      rewrite Hg in Ez. injection Ez as ->. by exists g, z.
    + intros (g & y & Hg & Hy & Ht & Hpy). destruct (Hkeep g Hg) as (z & Hz & Ez).
      rewrite Hy in Hz. injection Hz as <-. eexists g, _. split; [done|]. done.
Qed.


End objects.

(** ** Other objects *)

#[global] Instance held_objects_perm : Proper ((≡ₚ) ==> eq ==> eq ==> iff) held.
Proof.
  assert (forall l1 l2 e ds, l1 ≡ₚ l2 -> held l1 e ds -> held l2 e ds) as H.
  { intros l1 l2 e ds Hp [[A B C] D E]. split; [split|..]; try done. unfold objects. by rewrite <- Hp. }
  intros l1 l2 Hp e ? <- ds ? <-. split; by apply H.
Qed.

Lemma kmalloc_held X e ds n : held X e ds -> 0 < n <= Heap.HEAP_MAX ->
  exists p e', kmalloc n e = (p, e') /\ filps e' = filps e /\ pipes e' = pipes e /\ contexts e' = contexts e /\
    ((p = 0 /\ held X e' ds) \/ (p <> 0 /\ held (p :: X) e' ds)).
Proof.
  intros [[A B C] D E] Hn. destruct (kmalloc_blocks n e _ A Hn) as (p & h & -> & H).
  exists p, (with_heap e h). split_and!; [done..|]. destruct H as [[-> H]|[Hp H]]; [left|right]; (split; [done|]).
  - split; [split|..]; done.
  - split; [split|..]; try done. revert H. unfold objects. apply blocks_perm. cbn [filps pipes with_heap]. solve_Permutation.
Qed.

Lemma kfree_held X e ds p : held (p :: X) e ds -> held X (kfree p e) ds.
Proof.
  intros [[A B C] D E]. split; [split|..]; try done. apply kfree_blocks. revert A. unfold objects.
  apply blocks_perm. cbn [filps pipes kfree with_heap]. solve_Permutation.
Qed.

(** Two descriptors for the reading end of a pipe and one for the writing end. *)
Definition demo_heap : Heap.heap :=
  Heap.Heap {[33554432 := Heap.Block Heap.MAGIC 32 false 33554484 0;
              33554484 := Heap.Block Heap.MAGIC 4116 false 33558620 33554432;
              33558620 := Heap.Block Heap.MAGIC 32 false 33558672 33554484;
              33558672 := Heap.Block Heap.MAGIC 3932 true 0 33558620]}
    Heap.HEAP_START 33562624 33562624 (Paging.Machine (fun _ => Paging.zero_page) Pmm.small 0 0 0 0 true).

Definition demo_services : services :=
  Services demo_heap
    {[33554452 := Filp FT_PIPE 2 0 0 0 0 33554504 0; 33558640 := Filp FT_PIPE 1 0 0 0 0 33554504 1]}
    {[33554504 := Pipe.pipe_init]} ∅ 0.

Lemma demo_heap_wf : Heap.wf demo_heap [(32, false); (4116, false); (32, false); (3932, true)].
Proof.
  split; [|cbn; intuition discriminate]. split; try reflexivity; try discriminate.
  - cbn. repeat split; discriminate || reflexivity.
  - cbn. unfold Heap.HEAP_MAX. lia.
Qed.

Lemma demo_cases f x : filps demo_services !! f = Some x ->
  (f = 33554452 /\ x = Filp FT_PIPE 2 0 0 0 0 33554504 0) \/ (f = 33558640 /\ x = Filp FT_PIPE 1 0 0 0 0 33554504 1).
Proof.
  cbn [filps demo_services]. destruct (decide (f = 33554452)) as [->|]; [intros [= <-]; auto|].
  rewrite lookup_insert_ne by done. intros [<- <-]%lookup_singleton_Some. auto.
Qed.

Lemma demo_pipe p q : pipes demo_services !! p = Some q -> p = 33554504 /\ q = Pipe.pipe_init.
Proof. cbn [pipes demo_services]. by intros [<- <-]%lookup_singleton_Some. Qed.

Lemma demo_held : held [] demo_services [33554452; 33558640; 33554452].
Proof.
  split; [split; [split|..]|..].
  - exists [(32, false); (4116, false); (32, false); (3932, true)]. split; [apply demo_heap_wf|].
    intros x [[y Hx]|[[y Hx]|Hx]]%elem_of_objects; [apply demo_cases in Hx as [[-> _]|[-> _]]|
      apply demo_pipe in Hx as [-> _]|by apply not_elem_of_nil in Hx]; eexists; cbn; auto.
  - vm_compute. repeat (constructor; [set_solver|]). constructor.
  - intros [[y Hx]|[[y Hx]|Hx]]%elem_of_objects; [apply demo_cases in Hx as [[? _]|[? _]]|
      apply demo_pipe in Hx as [? _]|by apply not_elem_of_nil in Hx]; done.
  - intros f x Hx _. apply demo_cases in Hx as [[_ ->]|[_ ->]]; eexists; reflexivity.
  - intros p q [-> ->]%demo_pipe. vm_compute. auto.
  - intros f x Hx. apply demo_cases in Hx as [[-> ->]|[-> ->]]; (split; [reflexivity|]); set_solver.
  - intros f Hf. rewrite !elem_of_cons in Hf. destruct Hf as [->|[->|[->|Hf]]]; [eexists; reflexivity..|].
    by apply not_elem_of_nil in Hf.
Qed.

Lemma filp_close_correct_witness :
  held [] demo_services [33554452; 33558640; 33554452] /\
  held [] (filp_close 33554452 demo_services) [33558640; 33554452] /\
  is_Some (pipes (filp_close 33554452 demo_services) !! 33554504).
Proof.
  destruct (filp_close_correct [] demo_services [33558640; 33554452] 33554452 demo_held ltac:(done))
    as (H1 & _ & _ & H2).
  split; [exact demo_held|]. split; [exact H1|]. apply H2.
  exists 33554452, (Filp FT_PIPE 2 0 0 0 0 33554504 0). split; [set_solver|]. done.
Defined.

End FileSpec.
