(* ===== verification/Kernel.v ===== *)
(** * The kernel as a system calls see it: state, user memory and control flow

    The state is that of the parts below: scheduler (with heap, address spaces and open
    files as its environment), keyboard, console, file system and disk.  A handler of
    the kernel is a function [M A]: it returns ([Done]); gives the processor away in a
    loop that will be continued ([Waits]); never returns because its task is dead
    ([Exits]) or because it starts a program ([Enters]); or stops the machine ([Halts]:
    a page fault in the kernel prints a message and halts with interrupts disabled,
    kernel/proc/proc.c, [proc_page_fault]).  [Beyond] is what the model does not
    describe: an access to kernel memory through a user pointer, a store past the end
    of a kernel buffer, or a run list that is not a ring.

    User memory is reached through the page tables of the current address space. *)

From Stdlib Require Import String Ascii.
From stdpp Require Import base list gmap numbers.
From S2P Require Import Prelude CString Pmm Layout Disk Minix Paging AddrSpace Spaces Heap Pipe Sched.
From S2P Require Import Keyboard Console File.

#[local] Open Scope Z_scope.

Module Kernel.

(** [struct hal_trapframe] (include/hal.h). *)
Record trapframe := Trapframe {
  tf_gs : Z; tf_fs : Z; tf_es : Z; tf_ds : Z;
  edi : Z; esi : Z; ebp : Z; esp_dummy : Z; ebx : Z; edx : Z; ecx : Z; eax : Z;
  int_no : Z; err_code : Z;
  eip : Z; cs : Z; eflags : Z; useresp : Z; ss : Z }.

Definition set_eax (v : Z) (f : trapframe) : trapframe :=
  Trapframe (tf_gs f) (tf_fs f) (tf_es f) (tf_ds f) (edi f) (esi f) (ebp f) (esp_dummy f) (ebx f) (edx f)
    (ecx f) v (int_no f) (err_code f) (eip f) (cs f) (eflags f) (useresp f) (ss f).

(** The words of a trap frame, in the order of the structure. *)
Definition words_of (f : trapframe) : list Z :=
  [tf_gs f; tf_fs f; tf_es f; tf_ds f; edi f; esi f; ebp f; esp_dummy f; ebx f; edx f; ecx f; eax f;
   int_no f; err_code f; eip f; cs f; eflags f; useresp f; ss f].

Record kernel := MkKernel {
  sch : Sched.sched File.services;
  kbd : Keyboard.keyboard;
  con : Console.console;
  fs : Minix.statics;
  dsk : Disk.disk }.

Definition with_sch (k : kernel) s : kernel := MkKernel s (kbd k) (con k) (fs k) (dsk k).
Definition with_kbd (k : kernel) b : kernel := MkKernel (sch k) b (con k) (fs k) (dsk k).
Definition with_con (k : kernel) c : kernel := MkKernel (sch k) (kbd k) c (fs k) (dsk k).
Definition with_dsk (k : kernel) d : kernel := MkKernel (sch k) (kbd k) (con k) (fs k) d.

Definition cur (k : kernel) : Z := Sched.current (sch k).
Definition task_of (k : kernel) (t : Z) : Sched.task := Sched.get (sch k) t.
Definition upd_task (g : Sched.task -> Sched.task) (t : Z) (k : kernel) : kernel :=
  with_sch k (Sched.upd g t (sch k)).
Definition serv (k : kernel) : File.services := Sched.env (sch k).
Definition with_serv (k : kernel) (e : File.services) : kernel := with_sch k (Sched.with_env e (sch k)).
Definition mach (k : kernel) : Paging.machine := File.machine_of (serv k).
Definition with_mach (k : kernel) (s : Paging.machine) : kernel := with_serv k (File.with_machine (serv k) s).

(** Calls that give the processor away in a loop, with what the loop still has to do. *)
Inductive pending :=
| PReturn (r : Z)
| PConsole (va count got : Z)
| PPipeRead (p va count : Z)
| PPipeWrite (p va count done : Z)
| PWait (status : Z).

Inductive result (A : Type) : Type :=
| Done (a : A) (k : kernel)
| Waits (k : kernel) (p : pending)
| Exits (k : kernel)
| Enters (k : kernel) (entry sp : Z)
| Halts
| Beyond.
Arguments Done {A}. Arguments Waits {A}. Arguments Exits {A}. Arguments Enters {A}.
Arguments Halts {A}. Arguments Beyond {A}.

Definition M (A : Type) : Type := kernel -> result A.

#[global] Instance M_ret : MRet M := fun A a => Done a.
(** Only [Done] goes on: the other outcomes are final. *)
#[global] Instance M_bind : MBind M := fun A B g m k =>
  match m k with
  | Done a k' => g a k'
  | Waits k' p => Waits k' p
  | Exits k' => Exits k'
  | Enters k' e sp => Enters k' e sp
  | Halts => Halts
  | Beyond => Beyond
  end.
Definition gets {A} (g : kernel -> A) : M A := fun k => Done (g k) k.
Definition modify (g : kernel -> kernel) : M unit := fun k => Done tt (g k).
(** A call of another part: a function that returns a value and the new state. *)
Definition call {A} (g : kernel -> A * kernel) : M A := fun k => let '(a, k') := g k in Done a k'.
Definition halt {A} : M A := fun _ => Halts.
Definition beyond {A} : M A := fun _ => Beyond.

(** ** Running a step of a handler *)

Lemma bind_gets {A B} (f : kernel -> A) (g : A -> M B) k : (gets f ≫= g) k = g (f k) k.
Proof. done. Qed.
Lemma bind_modify {B} (f : kernel -> kernel) (g : unit -> M B) k : (modify f ≫= g) k = g tt (f k).
Proof. done. Qed.
Lemma bind_call {A B} (f : kernel -> A * kernel) (g : A -> M B) k a k' : f k = (a, k') -> (call f ≫= g) k = g a k'.
Proof. intros H. unfold mbind, M_bind, call. by rewrite H. Qed.
Lemma bind_ret {A B} (a : A) (g : A -> M B) k : (mret a ≫= g) k = g a k.
Proof. done. Qed.

(** The scheduler gives the processor away; [None] is a run list that is not a ring. *)
Definition sleep (g : Sched.sched File.services -> option (Sched.sched File.services)) (p : pending) : M Z :=
  fun k => match g (sch k) with Some s => Waits (with_sch k s) p | None => Beyond end.

(** ** User memory *)

(** The byte at [va]: a fault when the page is not mapped. *)
Definition ugetb (va : Z) : M Z := fun k =>
  if va <? Paging.USER_BASE then Beyond
  else match Spaces.ubyte (mach k) (Paging.hal_addrspace_current (mach k)) va with
       | Some b => Done b k
       | None => Halts
       end.

Definition uputb (va b : Z) : M unit := fun k =>
  if va <? Paging.USER_BASE then Beyond
  else
    let s := mach k in
    let f := Paging.dir_resolve s (Paging.hal_addrspace_current s) va in
    if f =? 0 then Halts
    else Done tt (with_mach k (Paging.set_page f (lset (Paging.mem s f) (va mod 4096) b) s)).

(** [n] bytes from [va] on, and storing the bytes [l] there. *)
Fixpoint uget (n : nat) (va : Z) : M (list Z) :=
  match n with
  | O => mret []
  | S n' => b ← ugetb va; l ← uget n' (u32 (va + 1)); mret (b :: l)
  end.

Fixpoint uput (va : Z) (l : list Z) : M unit :=
  match l with
  | [] => mret tt
  | b :: l' => uputb va b;; uput (u32 (va + 1)) l'
  end.

Definition uget32 (va : Z) : M Z := l ← uget 4 va; mret (le_val l).
Definition uput32 (va v : Z) : M unit := uput va (le_bytes 4 v).

(** The string at [va], at most [n] characters of it (what [strncpy] reads). *)
Fixpoint ustr (n : nat) (va : Z) : M (list Z) :=
  match n with
  | O => mret []
  | S n' => b ← ugetb va; if b =? 0 then mret [] else l ← ustr n' (u32 (va + 1)); mret (b :: l)
  end.

(** Up to [p] passes of a loop whose [body] goes on ([inl]) or ends ([inr]). *)
Fixpoint loop {S R} (p : positive) (body : S -> M (S + R)) (s : S) : M (S + R) :=
  match p with
  | xH => body s
  | xO q =>
      r ← loop q body s;
      match r with inl s' => loop q body s' | inr x => mret (inr x) end
  | xI q =>
      r ← body s;
      match r with
      | inl s' =>
          r ← loop q body s';
          match r with inl s'' => loop q body s'' | inr x => mret (inr x) end
      | inr x => mret (inr x)
      end
  end.

(** The whole string at [va]; a scan of all addresses leaves user memory. *)
Definition ustring (va : Z) : M (list Z) :=
  r ← loop 4294967296 (fun '(va, l) =>
        b ← ugetb va; mret (if b =? 0 then inr (rev l) else inl (u32 (va + 1), b :: l))) (va, []);
  match r with inr l => mret l | inl _ => beyond end.

(** ** Tasks and open files *)

(** The bytes of a string constant. *)
Definition str (s : string) : list Z := map (fun c => Z.of_N (N_of_ascii c)) (list_ascii_of_string s).

Definition filp_of (k : kernel) (f : Z) : File.filp := File.fget (serv k) f.

(** A store into an open file; through a null pointer it goes to the first bytes of
    memory, which nothing else uses. *)
Definition fstore (g : File.filp -> File.filp) (f : Z) (k : kernel) : kernel :=
  if f =? 0 then k else with_serv k (File.fupd g f (serv k)).

Definition set_file (t fd f : Z) (k : kernel) : kernel :=
  upd_task (fun tk => Sched.set_files (lset (Sched.files tk) fd f) tk) t k.

Definition call_serv {A} (g : File.services -> A * File.services) : M A :=
  call (fun k => let '(a, e) := g (serv k) in (a, with_serv k e)).
Definition on_serv (g : File.services -> File.services) : M unit := modify (fun k => with_serv k (g (serv k))).
Definition call_mach {A} (g : Paging.machine -> A * Paging.machine) : M A :=
  call (fun k => let '(a, s) := g (mach k) in (a, with_mach k s)).
Definition on_mach (g : Paging.machine -> Paging.machine) : M unit := modify (fun k => with_mach k (g (mach k))).
Definition call_fs (g : Minix.statics -> Disk.disk -> Z * Disk.disk) : M Z :=
  call (fun k => let '(r, d) := g (fs k) (dsk k) in (r, with_dsk k d)).
Definition on_con (g : Console.console -> Console.console) : M unit := modify (fun k => with_con k (g (con k))).

Lemma bind_call_serv {A B} (f : File.services -> A * File.services) (g : A -> M B) k a e :
  f (serv k) = (a, e) -> (call_serv f ≫= g) k = g a (with_serv k e).
Proof. intros H. unfold mbind, M_bind, call_serv, call. by rewrite H. Qed.

End Kernel.
