(* ===== verification/Syscall.v ===== *)
(** * System calls (kernel/syscall/syscall.c)

    One definition per handler, in the order of the source; [t] is always the current
    task.  Handlers run with interrupts disabled, so each is one step up to the point
    where it gives the processor away.  The calls of kernel/proc/proc.c are in Proc. *)

From stdpp Require Import base list gmap numbers.
From S2P Require Import Prelude CString Pmm Layout Disk Minix Paging AddrSpace Spaces Heap Pipe Sched.
From S2P Require Import Keyboard Console File Kernel.

#[local] Open Scope Z_scope.

Module Syscall.
Import Kernel.

Definition O_APPEND : Z := 1024.
Definition O_WRONLY : Z := 1.
Definition S_IFCHR : Z := 8192.
Definition TTY_SET_RAW : Z := 1.
Definition TTY_SET_ECHO : Z := 2.
Definition TTY_SET_FOREGROUND : Z := 3.

(** ** Stores into the task *)

Definition set_uid (v : Z) (t : Sched.task) : Sched.task :=
  Sched.Task (Sched.pid t) (Sched.ppid t) (Sched.name t) (Sched.state t) (Sched.ctx t) (Sched.kstack t)
    (Sched.time_slice t) (Sched.next t) v (Sched.gid t) (Sched.exit_code t) (Sched.addrspace t)
    (Sched.files t) (Sched.cwd t) (Sched.parent t) (Sched.waiting t) (Sched.user t) (Sched.entry t)
    (Sched.user_stack t) (Sched.brk t) (Sched.tty_raw t) (Sched.tty_echo t).
Definition set_gid (v : Z) (t : Sched.task) : Sched.task :=
  Sched.Task (Sched.pid t) (Sched.ppid t) (Sched.name t) (Sched.state t) (Sched.ctx t) (Sched.kstack t)
    (Sched.time_slice t) (Sched.next t) (Sched.uid t) v (Sched.exit_code t) (Sched.addrspace t)
    (Sched.files t) (Sched.cwd t) (Sched.parent t) (Sched.waiting t) (Sched.user t) (Sched.entry t)
    (Sched.user_stack t) (Sched.brk t) (Sched.tty_raw t) (Sched.tty_echo t).
Definition set_cwd (v : list Z) (t : Sched.task) : Sched.task :=
  Sched.Task (Sched.pid t) (Sched.ppid t) (Sched.name t) (Sched.state t) (Sched.ctx t) (Sched.kstack t)
    (Sched.time_slice t) (Sched.next t) (Sched.uid t) (Sched.gid t) (Sched.exit_code t) (Sched.addrspace t)
    (Sched.files t) v (Sched.parent t) (Sched.waiting t) (Sched.user t) (Sched.entry t)
    (Sched.user_stack t) (Sched.brk t) (Sched.tty_raw t) (Sched.tty_echo t).
Definition set_brk (v : Z) (t : Sched.task) : Sched.task :=
  Sched.Task (Sched.pid t) (Sched.ppid t) (Sched.name t) (Sched.state t) (Sched.ctx t) (Sched.kstack t)
    (Sched.time_slice t) (Sched.next t) (Sched.uid t) (Sched.gid t) (Sched.exit_code t) (Sched.addrspace t)
    (Sched.files t) (Sched.cwd t) (Sched.parent t) (Sched.waiting t) (Sched.user t) (Sched.entry t)
    (Sched.user_stack t) v (Sched.tty_raw t) (Sched.tty_echo t).
Definition set_tty (raw echo : bool) (t : Sched.task) : Sched.task :=
  Sched.Task (Sched.pid t) (Sched.ppid t) (Sched.name t) (Sched.state t) (Sched.ctx t) (Sched.kstack t)
    (Sched.time_slice t) (Sched.next t) (Sched.uid t) (Sched.gid t) (Sched.exit_code t) (Sched.addrspace t)
    (Sched.files t) (Sched.cwd t) (Sched.parent t) (Sched.waiting t) (Sched.user t) (Sched.entry t)
    (Sched.user_stack t) (Sched.brk t) raw echo.

(** The fields [sys_open] and [sys_creat] write in a new open file. *)
Definition set_inode (ino off fl dir : Z) (f : File.filp) : File.filp :=
  File.Filp File.FT_INODE (File.refcount f) ino off fl dir (File.fpipe f) (File.pipe_end f).

(** ** Descriptors and paths *)

Definition fd_alloc (t : Sched.task) : Z :=
  match find_first (fun i => lget 0 (Sched.files t) i =? 0) 0 (Z.to_nat Sched.MAX_FILES) with
  | Some i => i
  | None => -1
  end.

(** [!(fd < 0 || fd >= MAX_FILES || !t->files[fd])]. *)
Definition fd_ok (t : Sched.task) (fd : Z) : bool :=
  negb ((fd <? 0) || (Sched.MAX_FILES <=? fd) || (lget 0 (Sched.files t) fd =? 0)).

Definition slash : Z := 47.

(** The directory part of a relative path: [cwd] with a slash at its end. *)
Definition with_slash (cwd : list Z) : list Z :=
  if (lenZ cwd =? 0) || negb (lget 0 cwd (lenZ cwd - 1) =? slash) then cwd ++ [slash] else cwd.

(** The path in the buffer [out], without its terminator.  With 256 characters in it the
    count [255 - len] of the second [strncpy] is huge and the buffer overflows. *)
Definition build_path (t : Sched.task) (path : Z) : M (list Z) :=
  c ← ugetb path;
  if c =? slash then ustr 255 path
  else
    let out := with_slash (Sched.cwd t) in
    if 255 <? lenZ out then beyond
    else l ← ustr (Z.to_nat (255 - lenZ out)) path; mret (out ++ l).

(** [sched_exit], which does not return. *)
Definition leave (code : Z) : M Z := fun k =>
  match Sched.sched_exit code (sch k) with Some s => Exits (with_sch k s) | None => Beyond end.

Definition sys_exit (tf : trapframe) : M Z := leave (i32 (ebx tf)).

Section handlers.
Context `{STK : !Stack}.

(** ** Reading and writing *)

Fixpoint write_console (n : nat) (buf : Z) : M unit :=
  match n with
  | O => mret tt
  | S n' => c ← ugetb buf; on_con (Console.console_putc c);; write_console n' (u32 (buf + 1))
  end.

(** One pass of the loop of [pipe_write] with the bytes from [done] on. *)
Definition pipe_write (p buf count done : Z) : M Z :=
  q ← gets (fun k => File.pget (serv k) p);
  if count <=? done then mret (i32 done)
  else if Pipe.readers q =? 0 then mret (i32 done)
  else
    data ← uget (Z.to_nat (Z.min (count - done) (Pipe.PIPE_BUF_SIZE - Pipe.count q))) (u32 (buf + done));
    let '(done', q') := Pipe.pipe_fill data q done in
    on_serv (File.pput p q');;
    if done' <? count then sleep Sched.sched_yield (PPipeWrite p buf count done')
    else mret (i32 done').

Definition sys_write (tf : trapframe) : M Z :=
  t ← gets (fun k => task_of k (cur k));
  let fd := i32 (ebx tf) in
  let buf := ecx tf in
  let count := edx tf in
  if negb (fd_ok t fd) then mret (-1)
  else
    let f := lget 0 (Sched.files t) fd in
    x ← gets (fun k => filp_of k f);
    if File.ftype x =? File.FT_CONS then write_console (Z.to_nat count) buf;; mret (i32 count)
    else if File.ftype x =? File.FT_PIPE then
      if negb (File.pipe_end x =? 1) then mret (-1) else pipe_write (File.fpipe x) buf count 0
    else if File.ftype x =? File.FT_INODE then
      data ← uget (Z.to_nat count) buf;
      n ← call_fs (fun m d => Minix.minixfs_write m d (File.ino x) data count (File.offset x));
      modify (fun k => if 0 <? n then fstore (fun x => File.set_offset (i32 (File.offset x + n)) x) f k else k);;
      mret n
    else mret (-1).

(** The loop of [sys_read] on the console.  A pass takes one character from the
    keyboard's buffer, which holds at most 255, so 256 passes are enough to find it
    empty. *)
Fixpoint read_console (fuel : nat) (t out count got : Z) : M Z :=
  if count <=? got then mret (i32 got)
  else
    c ← call (fun k => let '(c, b) := Keyboard.keyboard_getchar (kbd k) in (c, with_kbd k b));
    if c <? 0 then sleep Sched.sched_yield (PConsole out count got)
    else
      tk ← gets (fun k => task_of k t);
      (if Sched.tty_echo tk then on_con (Console.console_putc c) else mret tt);;
      uputb (u32 (out + got)) c;;
      if Sched.tty_raw tk || (c =? 10) then mret (i32 (got + 1))
      else match fuel with
           | O => beyond
           | S fuel' => read_console fuel' t out count (got + 1)
           end.

(** One pass of the loop of [pipe_read]. *)
Definition pipe_read (p buf count : Z) : M Z :=
  q ← gets (fun k => File.pget (serv k) p);
  let '(got, q') := Pipe.pipe_drain (Z.to_nat count) q [] in
  uput buf got;;
  on_serv (File.pput p q');;
  if 0 <? lenZ got then mret (i32 (lenZ got))
  else if Pipe.writers q' =? 0 then mret 0
  else sleep Sched.sched_yield (PPipeRead p buf count).

Definition sys_read (tf : trapframe) : M Z :=
  me ← gets cur;
  t ← gets (fun k => task_of k me);
  let fd := i32 (ebx tf) in
  let buf := ecx tf in
  let count := edx tf in
  if negb (fd_ok t fd) then mret (-1)
  else
    let f := lget 0 (Sched.files t) fd in
    x ← gets (fun k => filp_of k f);
    if File.ftype x =? File.FT_CONS then read_console 256 me buf count 0
    else if File.ftype x =? File.FT_PIPE then
      if negb (File.pipe_end x =? 0) then mret (-1) else pipe_read (File.fpipe x) buf count
    else if File.ftype x =? File.FT_INODE then
      '(n, out) ← gets (fun k => Minix.minixfs_read (fs k) (dsk k) (File.ino x)
                                   (replicate (Z.to_nat count) 0) count (File.offset x));
      uput buf (lsub out 0 n);;
      modify (fun k => if 0 <? n then fstore (fun x => File.set_offset (i32 (File.offset x + n)) x) f k else k);;
      mret n
    else mret (-1).

(** ** Opening and closing *)

Definition sys_open (tf : trapframe) : M Z :=
  me ← gets cur;
  t ← gets (fun k => task_of k me);
  let flags := i32 (ecx tf) in
  full ← build_path t (ebx tf);
  r ← call_fs (fun m d => Minix.minixfs_open m d full flags (u16 (edx tf)));
  if r <? 0 then mret (-1)
  else
    let fd := fd_alloc t in
    if fd <? 0 then mret (-1)
    else
      f ← call_serv File.filp_alloc;
      if f =? 0 then mret (-1)
      else
        let ino := u32 r in
        dir ← gets (fun k => Minix.minixfs_is_dir (fs k) (dsk k) ino);
        off ← gets (fun k => if negb (Z.land flags O_APPEND =? 0)
                             then i32 (Minix.minixfs_size (fs k) (dsk k) ino) else 0);
        modify (fstore (set_inode ino off flags dir) f);;
        modify (set_file me fd f);;
        mret fd.

Definition sys_close (tf : trapframe) : M Z :=
  me ← gets cur;
  t ← gets (fun k => task_of k me);
  let fd := i32 (ebx tf) in
  if negb (fd_ok t fd) then mret (-1)
  else
    on_serv (File.filp_close (lget 0 (Sched.files t) fd));;
    modify (set_file me fd 0);;
    mret 0.

Definition sys_creat (tf : trapframe) : M Z :=
  me ← gets cur;
  t ← gets (fun k => task_of k me);
  full ← build_path t (ebx tf);
  r ← call_fs (fun m d => Minix.minixfs_creat m d full (u16 (ecx tf)));
  if r <? 0 then mret (-1)
  else
    let fd := fd_alloc t in
    if fd <? 0 then mret (-1)
    else
      f ← call_serv File.filp_alloc;
      modify (fstore (fun x => set_inode (u32 r) 0 O_WRONLY (File.is_dir x) x) f);;
      modify (set_file me fd f);;
      mret fd.

(** ** Names *)

Definition on_path (path : Z) (g : Minix.statics -> Disk.disk -> list Z -> Z * Disk.disk) : M Z :=
  t ← gets (fun k => task_of k (cur k));
  full ← build_path t path;
  call_fs (fun m d => g m d full).

Definition sys_unlink (tf : trapframe) : M Z := on_path (ebx tf) Minix.minixfs_unlink.
Definition sys_chmod (tf : trapframe) : M Z :=
  on_path (ebx tf) (fun m d full => Minix.minixfs_chmod m d full (u16 (ecx tf))).
Definition sys_mkdir (tf : trapframe) : M Z :=
  on_path (ebx tf) (fun m d full => Minix.minixfs_mkdir m d full (u16 (ecx tf))).
Definition sys_rmdir (tf : trapframe) : M Z := on_path (ebx tf) Minix.minixfs_rmdir.

Definition sys_lseek (tf : trapframe) : M Z :=
  t ← gets (fun k => task_of k (cur k));
  let fd := i32 (ebx tf) in
  let off := i32 (ecx tf) in
  let whence := i32 (edx tf) in
  if negb (fd_ok t fd) then mret (-1)
  else
    let f := lget 0 (Sched.files t) fd in
    x ← gets (fun k => filp_of k f);
    if negb (File.ftype x =? File.FT_INODE) then mret (-1)
    else
      size ← gets (fun k => Minix.minixfs_size (fs k) (dsk k) (File.ino x));
      let o := if whence =? 0 then off
               else if whence =? 1 then i32 (File.offset x + off)
               else if whence =? 2 then i32 (size + off)
               else File.offset x in
      modify (fstore (File.set_offset o) f);;
      mret o.

(** ** Identity *)

Definition of_current (g : Sched.task -> Z) : M Z :=
  gets (fun k => if cur k =? 0 then 0 else g (task_of k (cur k))).
Definition sys_getpid (tf : trapframe) : M Z := of_current Sched.pid.
Definition sys_getppid (tf : trapframe) : M Z := of_current Sched.ppid.
Definition sys_getuid (tf : trapframe) : M Z := of_current Sched.uid.
Definition sys_getgid (tf : trapframe) : M Z := of_current Sched.gid.

Definition sys_setuid (tf : trapframe) : M Z :=
  me ← gets cur;
  t ← gets (fun k => task_of k me);
  if negb (Sched.uid t =? 0) then mret (-1)
  else modify (upd_task (set_uid (u16 (ebx tf))) me);; mret 0.
Definition sys_setgid (tf : trapframe) : M Z :=
  me ← gets cur;
  t ← gets (fun k => task_of k me);
  if negb (Sched.uid t =? 0) then mret (-1)
  else modify (upd_task (set_gid (u16 (ebx tf))) me);; mret 0.

Definition sys_yield (tf : trapframe) : M Z := sleep Sched.sched_yield (PReturn 0).

(** ** Attributes and directories *)

(** The bytes of a [struct stat]. *)
Definition stat_bytes (st : Minix.stat) : list Z :=
  le_bytes 4 (Minix.st_dev st) ++ le_bytes 4 (Minix.st_ino st) ++ le_bytes 2 (Minix.st_mode st) ++
  le_bytes 2 (Minix.st_nlink st) ++ le_bytes 2 (Minix.st_uid st) ++ le_bytes 2 (Minix.st_gid st) ++
  le_bytes 4 (u32 (Minix.st_size st)) ++ le_bytes 4 (Minix.st_atime st) ++ le_bytes 4 (Minix.st_mtime st) ++
  le_bytes 4 (Minix.st_ctime st).

Definition sys_stat (tf : trapframe) : M Z :=
  t ← gets (fun k => task_of k (cur k));
  full ← build_path t (ebx tf);
  r ← gets (fun k => Minix.minixfs_stat (fs k) (dsk k) full);
  match r with
  | None => mret (-1)
  | Some st => uput (ecx tf) (stat_bytes st);; mret 0
  end.

Definition sys_fstat (tf : trapframe) : M Z :=
  t ← gets (fun k => task_of k (cur k));
  let fd := i32 (ebx tf) in
  if negb (fd_ok t fd) then mret (-1)
  else
    let f := lget 0 (Sched.files t) fd in
    x ← gets (fun k => filp_of k f);
    st ← gets (fun k =>
      if File.ftype x =? File.FT_INODE then
        Minix.Stat 0 (File.ino x)
          (if negb (Minix.minixfs_is_dir (fs k) (dsk k) (File.ino x) =? 0) then Minix.S_IFDIR else Minix.S_IFREG)
          0 0 0 (i32 (Minix.minixfs_size (fs k) (dsk k) (File.ino x))) 0 0 0
      else Minix.Stat 0 0 S_IFCHR 0 0 0 0 0 0 0);
    uput (ecx tf) (stat_bytes st);;
    mret 0.

Definition sys_getdents (tf : trapframe) : M Z :=
  t ← gets (fun k => task_of k (cur k));
  let fd := i32 (ebx tf) in
  if negb (fd_ok t fd) then mret (-1)
  else
    let f := lget 0 (Sched.files t) fd in
    x ← gets (fun k => filp_of k f);
    if negb (File.ftype x =? File.FT_INODE) then mret (-1)
    else
      r ← gets (fun k => Minix.minixfs_readdir (fs k) (dsk k) (File.ino x) (edx tf));
      match r with
      | None => mret (-1)
      | Some (ino, name) => uput (ecx tf) (le_bytes 4 ino ++ name);; mret 1
      end.

Definition sys_chdir (tf : trapframe) : M Z :=
  me ← gets cur;
  t ← gets (fun k => task_of k me);
  full ← build_path t (ebx tf);
  ino ← gets (fun k => Minix.minixfs_resolve (fs k) (dsk k) full);
  dir ← gets (fun k => Minix.minixfs_is_dir (fs k) (dsk k) ino);
  if (ino =? 0) || (dir =? 0) then mret (-1)
  else modify (upd_task (set_cwd (take 255 full)) me);; mret 0.

Definition sys_getcwd (tf : trapframe) : M Z :=
  t ← gets (fun k => task_of k (cur k));
  let l := lenZ (Sched.cwd t) in
  if ecx tf <? l + 1 then mret (-1)
  else uput (ebx tf) (Sched.cwd t ++ [0]);; mret (i32 l).

Definition sys_sync (tf : trapframe) : M Z := mret 0.

(** ** Sharing open files *)

Definition sys_dup (tf : trapframe) : M Z :=
  me ← gets cur;
  t ← gets (fun k => task_of k me);
  let fd := i32 (ebx tf) in
  if negb (fd_ok t fd) then mret (-1)
  else
    let nfd := fd_alloc t in
    if nfd <? 0 then mret (-1)
    else
      modify (set_file me nfd (lget 0 (Sched.files t) fd));;
      on_serv (File.filp_ref (lget 0 (Sched.files t) fd));;
      mret nfd.

Definition sys_dup2 (tf : trapframe) : M Z :=
  me ← gets cur;
  t ← gets (fun k => task_of k me);
  let oldfd := i32 (ebx tf) in
  let newfd := i32 (ecx tf) in
  if negb (fd_ok t oldfd) then mret (-1)
  else if (newfd <? 0) || (Sched.MAX_FILES <=? newfd) then mret (-1)
  else if oldfd =? newfd then mret newfd
  else
    let f := lget 0 (Sched.files t) newfd in
    (if negb (f =? 0) then on_serv (File.filp_close f) else mret tt);;
    modify (set_file me newfd (lget 0 (Sched.files t) oldfd));;
    on_serv (File.filp_ref (lget 0 (Sched.files t) oldfd));;
    mret newfd.

Definition sys_pipe (tf : trapframe) : M Z :=
  me ← gets cur;
  t ← gets (fun k => task_of k me);
  let rfd := fd_alloc t in
  if rfd <? 0 then mret (-1)
  else
    rf ← call_serv File.filp_alloc;
    modify (set_file me rfd rf);;
    wfd ← gets (fun k => fd_alloc (task_of k me));
    if wfd <? 0 then on_serv (File.filp_close rf);; modify (set_file me rfd 0);; mret (-1)
    else
      p ← call_serv File.pipe_create;
      if p =? 0 then on_serv (File.filp_close rf);; modify (set_file me rfd 0);; mret (-1)
      else
        wf ← call_serv File.filp_alloc;
        modify (fstore (File.set_end p 0) rf);;
        modify (fstore (File.set_end p 1) wf);;
        modify (set_file me wfd wf);;
        uput32 (ebx tf) rfd;;
        uput32 (u32 (ebx tf + 4)) wfd;;
        mret 0.

(** ** Memory, signals, terminal *)

Definition page_up (a : Z) : Z := Z.land (u32 (a + 4095)) (not32 4095).

(** Nothing keeps the break in user space: raising it from below USER_BASE maps pages into
    the kernel's half of the address space, over the kernel's own memory. *)
Definition sys_brk (tf : trapframe) : M Z :=
  me ← gets cur;
  t ← gets (fun k => task_of k me);
  let addr := ebx tf in
  let old := Sched.brk t in
  if addr =? 0 then mret (i32 old)
  else
    (if old <? addr then
       if (page_up old <? page_up addr) && (page_up old <? Paging.USER_BASE) then beyond
       else on_mach (for_loop (fun i s => snd (Paging.hal_addrspace_map_user (Sched.addrspace t)
                                            (page_up old + 4096 * i) 0 s))
                  0 (Z.to_nat ((page_up addr - page_up old) / 4096)))
     else mret tt);;
    modify (upd_task (set_brk addr) me);;
    mret (i32 addr).

Definition sys_kill (tf : trapframe) : M Z :=
  t ← gets (fun k => Sched.sched_find (i32 (ebx tf)) (sch k));
  if t =? 0 then mret (-1)
  else
    modify (fun k =>
      if negb (Sched.state (task_of k t) =? Sched.TASK_ZOMBIE)
      then with_sch k (Sched.sched_wakeup_parent t (Sched.upd (Sched.zombify 137) t (sch k)))
      else k);;
    mret 0.

Definition sys_ioctl (tf : trapframe) : M Z :=
  me ← gets cur;
  t ← gets (fun k => task_of k me);
  let fd := i32 (ebx tf) in
  let request := i32 (ecx tf) in
  let arg := edx tf in
  ft ← gets (fun k => File.ftype (filp_of k (lget 0 (Sched.files t) fd)));
  if negb (fd_ok t fd) || negb (ft =? File.FT_CONS) then mret (-1)
  else if request =? TTY_SET_RAW then
    modify (upd_task (fun t => set_tty (negb (arg =? 0)) (Sched.tty_echo t) t) me);; mret 0
  else if request =? TTY_SET_ECHO then
    modify (upd_task (fun t => set_tty (Sched.tty_raw t) (negb (arg =? 0)) t) me);; mret 0
  else if request =? TTY_SET_FOREGROUND then
    modify (fun k => with_kbd k (Keyboard.keyboard_set_foreground (i32 arg) (kbd k)));; mret 0
  else mret (-1).

Definition sys_stub (tf : trapframe) : M Z := mret (-1).

End handlers.
End Syscall.
