(* ===== verification/Elf.v ===== *)
(** * The program loader (kernel/i386/elf.c, include/elf.h)

    [elf_load] reads an executable from the file system and fills an address space
    with its segments.  It only reads the disk; the address space is part of the
    machine of Paging. *)

From stdpp Require Import base list gmap numbers.
From S2P Require Import Prelude CString Pmm Layout Disk Minix Paging.

#[local] Open Scope Z_scope.

Module Elf.

Definition rd16 (buf : list Z) (off : Z) : Z := le_val (lsub buf off 2).

Definition ET_EXEC : Z := 2.
Definition EM_386 : Z := 3.
Definition PT_LOAD : Z := 1.
Definition sizeof_ehdr : Z := 52.
Definition sizeof_phdr : Z := 32.

(** The fields of [struct elf32_ehdr] and [struct elf32_phdr] the loader uses. *)
Record elf32_ehdr := Ehdr {
  e_ident : list Z; e_type : Z; e_machine : Z; e_entry : Z; e_phoff : Z; e_phentsize : Z; e_phnum : Z }.
Record elf32_phdr := Phdr {
  p_type : Z; p_offset : Z; p_vaddr : Z; p_filesz : Z; p_memsz : Z }.

Definition decode_ehdr (b : list Z) : elf32_ehdr :=
  Ehdr (lsub b 0 16) (rd16 b 16) (rd16 b 18) (rd32 b 24) (rd32 b 28) (rd16 b 42) (rd16 b 44).
Definition decode_phdr (b : list Z) : elf32_phdr :=
  Phdr (rd32 b 0) (rd32 b 4) (rd32 b 8) (rd32 b 16) (rd32 b 20).

(** The four magic bytes, type and machine. *)
Definition ehdr_ok (h : elf32_ehdr) : bool :=
  (lget 0 (e_ident h) 0 =? 127) && (lget 0 (e_ident h) 1 =? 69) && (lget 0 (e_ident h) 2 =? 76) &&
  (lget 0 (e_ident h) 3 =? 70) && (e_type h =? ET_EXEC) && (e_machine h =? EM_386).

Definition page_down (a : Z) : Z := Z.land a (not32 4095).
Definition page_up (a : Z) : Z := Z.land (u32 (a + 4095)) (not32 4095).

(** The mapping loop of a segment: [false] when there is no frame. *)
Fixpoint map_pages (n : nat) (dir va : Z) (s : Paging.machine) : bool * Paging.machine :=
  match n with
  | O => (true, s)
  | S n' =>
      let '(r, s1) := Paging.hal_addrspace_map_user dir va 0 s in
      if r <? 0 then (false, s1) else map_pages n' dir (u32 (va + 4096)) s1
  end.

Section load.
Context `{STK : !Stack}.
Context (m : Minix.statics) (d : Disk.disk).

(** A [minixfs_read] of [n] bytes into a buffer of its own. *)
Definition read_at (ino n off : Z) : Z * list Z :=
  Minix.minixfs_read m d ino (replicate (Z.to_nat n) 0) n off.

(** The copying loop of a segment; each pass reads at least one byte. *)
Fixpoint copy_segment (fuel : nat) (dir ino : Z) (ph : elf32_phdr) (done : Z) (s : Paging.machine)
    : Paging.machine :=
  match fuel with
  | O => s
  | S f =>
      if done <? p_filesz ph then
        let chunk := Z.min (p_filesz ph - done) 4096 in
        let '(r, page) := read_at ino chunk (i32 (p_offset ph + done)) in
        if r <=? 0 then s
        else copy_segment f dir ino ph (done + r)
               (Paging.hal_addrspace_copy_to dir (u32 (p_vaddr ph + done)) page r s)
      else s
  end.

(** A segment to load: [false] when its pages cannot be mapped. *)
Definition load_segment (dir ino : Z) (ph : elf32_phdr) (s : Paging.machine) : bool * Paging.machine :=
  let seg_start := page_down (p_vaddr ph) in
  let seg_end := page_up (p_vaddr ph + p_memsz ph) in
  let '(ok, s1) := map_pages (Z.to_nat ((seg_end - seg_start) / 4096)) dir seg_start s in
  if negb ok then (false, s1)
  else
    let s2 := Paging.hal_addrspace_memset dir (p_vaddr ph) 0 (p_memsz ph) s1 in
    (true, copy_segment (Z.to_nat (p_filesz ph)) dir ino ph 0 s2).

(** The loop over the program headers, from number [i] on: the end of the highest
    segment, or [None] when a header cannot be read or a page cannot be mapped. *)
Fixpoint load_segments (n : nat) (dir ino : Z) (h : elf32_ehdr) (i brk : Z) (s : Paging.machine)
    : option Z * Paging.machine :=
  match n with
  | O => (Some brk, s)
  | S n' =>
      let phoff := i32 (e_phoff h + i * e_phentsize h) in
      let '(r, b) := read_at ino sizeof_phdr phoff in
      if negb (r =? sizeof_phdr) then (None, s)
      else
        let ph := decode_phdr b in
        if negb (p_type ph =? PT_LOAD) then load_segments n' dir ino h (i + 1) brk s
        else
          let '(ok, s1) := load_segment dir ino ph s in
          if negb ok then (None, s1)
          else
            let top := u32 (p_vaddr ph + p_memsz ph) in
            load_segments n' dir ino h (i + 1) (if brk <? top then top else brk) s1
  end.

(** The entry point and the initial break, or [None] (-1). *)
Definition elf_load (dir ino : Z) (s : Paging.machine) : option (Z * Z) * Paging.machine :=
  let '(r, b) := read_at ino sizeof_ehdr 0 in
  if negb (r =? sizeof_ehdr) then (None, s)
  else
    let h := decode_ehdr b in
    if negb (ehdr_ok h) then (None, s)
    else
      let '(brk, s1) := load_segments (Z.to_nat (e_phnum h)) dir ino h 0 0 s in
      match brk with
      | None => (None, s1)
      | Some brk => (Some (e_entry h, page_up brk), s1)
      end.

(** Whether the segments lie in user space.  [elf_load] does not look: a segment below
    USER_BASE, or one that goes round the end of the address space, is mapped and copied over
    the kernel's own memory. *)
Definition in_user (ph : elf32_phdr) : bool :=
  (Paging.USER_BASE <=? p_vaddr ph) && (p_vaddr ph + Z.max (p_memsz ph) (p_filesz ph) <=? 4294967296).
Fixpoint segments_in_user (n : nat) (ino : Z) (h : elf32_ehdr) (i : Z) : bool :=
  match n with
  | O => true
  | S n' =>
      let '(r, b) := read_at ino sizeof_phdr (i32 (e_phoff h + i * e_phentsize h)) in
      if negb (r =? sizeof_phdr) then true
      else
        let ph := decode_phdr b in
        (negb (p_type ph =? PT_LOAD) || in_user ph) && segments_in_user n' ino h (i + 1)
  end.
Definition image_in_user (ino : Z) : bool :=
  let '(r, b) := read_at ino sizeof_ehdr 0 in
  if negb (r =? sizeof_ehdr) then true
  else
    let h := decode_ehdr b in
    if negb (ehdr_ok h) then true else segments_in_user (Z.to_nat (e_phnum h)) ino h 0.

End load.
End Elf.
