(* ===== verification/Proc.v ===== *)
(** * Processes (kernel/proc/proc.c) and the dispatch of system calls

    [fork], [execve] and [wait4], the start of the first program, page faults, and
    [dispatch] with the continuation of the calls that gave the processor away. *)

From Stdlib Require Import String.
From stdpp Require Import base list gmap numbers.
From S2P Require Import Prelude CString Pmm Layout Disk Minix Paging AddrSpace Spaces Heap Pipe Sched.
From S2P Require Import Keyboard Console File Kernel Syscall Elf.

#[local] Open Scope Z_scope.

Module Proc.
Import Kernel.

Definition MAX_ARGS : Z := 32.
Definition ARG_MAX : Z := 2048.
Definition USER_STACK_TOP : Z := 3221225472.
Definition USER_STACK_SIZE : Z := 262144.

(** ** Arguments *)

(** The loop of [copy_strings] from string [n] on, with [off] bytes used: [ptr n] is
    [src[n]] and [read p] the string at [p].  The loop ends after 31 strings. *)
Fixpoint copy_strings_from (ptr : Z -> M Z) (read : Z -> M (list Z)) (fuel : nat) (n off : Z)
    : M (list (list Z)) :=
  p ← ptr n;
  if (p =? 0) || negb (n <? MAX_ARGS - 1) then mret []
  else
    s ← read p;
    let len := lenZ s + 1 in
    if ARG_MAX <? u32 (off + len) then mret []
    else match fuel with
         | O => beyond
         | S f => l ← copy_strings_from ptr read f (n + 1) (off + len); mret (s :: l)
         end.

(** [copy_strings] of an array of the kernel and of an array of the program. *)
Definition kernel_strings (src : list (list Z)) : M (list (list Z)) :=
  copy_strings_from (fun n => mret (if n <? lenZ src then n + 1 else 0)) (fun p => mret (lget [] src (p - 1)))
    (Z.to_nat MAX_ARGS) 0 0.
Definition copy_strings (src : Z) : M (list (list Z)) :=
  if src =? 0 then mret []
  else copy_strings_from (fun n => uget32 (u32 (src + 4 * n))) ustring (Z.to_nat MAX_ARGS) 0 0.

(** ** The initial stack *)

Definition total_len (l : list (list Z)) : Z := fold_right (fun s n => lenZ s + 1 + n) 0 l.

(** The loop that copies strings: their addresses, the next free byte, the machine. *)
Fixpoint put_strings (dir va : Z) (l : list (list Z)) (s : Paging.machine) : list Z * Z * Paging.machine :=
  match l with
  | [] => ([], va, s)
  | x :: l' =>
      let len := lenZ x + 1 in
      let s1 := Paging.hal_addrspace_copy_to dir va (x ++ [0]) len s in
      let '(ps, va', s2) := put_strings dir (u32 (va + len)) l' s1 in
      (va :: ps, va', s2)
  end.

Definition put32 (dir va v : Z) (s : Paging.machine) : Paging.machine :=
  Paging.hal_addrspace_copy_to dir va (le_bytes 4 (u32 v)) 4 s.

(** An array of pointers with its null terminator. *)
Fixpoint put_pointers (dir va : Z) (l : list Z) (s : Paging.machine) : Paging.machine :=
  match l with
  | [] => put32 dir va 0 s
  | p :: l' => put_pointers dir (u32 (va + 4)) l' (put32 dir va p s)
  end.

Definition map_stack (dir : Z) (s : Paging.machine) : Paging.machine :=
  for_loop (fun i s => snd (Paging.hal_addrspace_map_user dir (USER_STACK_TOP - USER_STACK_SIZE + 4096 * i) 0 s))
    0 (Z.to_nat (USER_STACK_SIZE / 4096)) s.

Definition setup_user_stack (dir : Z) (argv envp : list (list Z)) (s : Paging.machine) : Z * Paging.machine :=
  let s := map_stack dir s in
  let argc := lenZ argv in
  let envc := lenZ envp in
  let str_base := Z.land (u32 (USER_STACK_TOP - u32 (total_len argv + total_len envp))) (not32 3) in
  let '(uargv, soff, s) := put_strings dir str_base argv s in
  let '(uenvp, _, s) := put_strings dir soff envp s in
  let envp_base := u32 (str_base - (envc + 1) * 4) in
  let s := put_pointers dir envp_base uenvp s in
  let argv_base := u32 (envp_base - (argc + 1) * 4) in
  let s := put_pointers dir argv_base uargv s in
  let s := put32 dir (u32 (argv_base - 4)) envp_base s in
  let s := put32 dir (u32 (argv_base - 8)) argv_base s in
  let s := put32 dir (u32 (argv_base - 12)) argc s in
  let s := put32 dir (u32 (argv_base - 16)) 0 s in
  (u32 (argv_base - 16), s).

(** ** Stores into the task *)

(** What [proc_exec] and [sys_execve_impl] set, and what [sys_fork_impl] sets. *)
Definition set_image (dir entry sp brk : Z) (user : bool) (t : Sched.task) : Sched.task :=
  Sched.Task (Sched.pid t) (Sched.ppid t) (Sched.name t) (Sched.state t) (Sched.ctx t) (Sched.kstack t)
    (Sched.time_slice t) (Sched.next t) (Sched.uid t) (Sched.gid t) (Sched.exit_code t) dir
    (Sched.files t) (Sched.cwd t) (Sched.parent t) (Sched.waiting t) user entry sp brk
    (Sched.tty_raw t) (Sched.tty_echo t).
Definition set_addrspace (dir : Z) (t : Sched.task) : Sched.task :=
  set_image dir (Sched.entry t) (Sched.user_stack t) (Sched.brk t) (Sched.user t) t.
Definition set_child (pp : Z) (p : Sched.task) (t : Sched.task) : Sched.task :=
  Sched.Task (Sched.pid t) (Sched.pid p) (Sched.name t) (Sched.state t) (Sched.ctx t) (Sched.kstack t)
    (Sched.time_slice t) (Sched.next t) (Sched.uid p) (Sched.gid p) (Sched.exit_code t) (Sched.addrspace t)
    (Sched.files t) (Sched.cwd p) pp (Sched.waiting t) true (Sched.entry t)
    (Sched.user_stack t) (Sched.brk p) (Sched.tty_raw t) (Sched.tty_echo t).

(** [hal_addrspace_destroy(olddir)] when there is one and it is not the kernel's. *)
Definition drop_space (dir : Z) (s : Paging.machine) : Paging.machine :=
  if negb (dir =? 0) && negb (dir =? Paging.hal_paging_kernel_dir s)
  then Paging.hal_addrspace_destroy dir s else s.

(** [sched_add], which does not end when the run list is not a ring. *)
Definition add_task (t : Z) : M unit := fun k =>
  match Sched.sched_add t (sch k) with Some s => Done tt (with_sch k s) | None => Beyond end.

Definition reap (t : Z) : M unit := fun k =>
  match Sched.sched_reap t (sch k) with Some s => Done tt (with_sch k s) | None => Beyond end.

(** [hal_enter_user], which does not return. *)
Definition enter (entry sp : Z) : M Z := fun k => Enters k entry sp.

Section proc.
Context `{STK : !Stack}.

(** The new image, from [hal_addrspace_create] to the initial stack:
    directory, entry point, stack pointer and break.  A program with a segment outside user
    space would overwrite the kernel. *)
Definition load_image (ino : Z) (argv envp : list (list Z)) : M (option (Z * Z * Z * Z)) :=
  newdir ← call_mach Paging.hal_addrspace_create;
  if newdir =? 0 then mret None
  else
    user ← gets (fun k => Elf.image_in_user (fs k) (dsk k) ino);
    if negb user then beyond else
    r ← call (fun k => let '(r, s) := Elf.elf_load (fs k) (dsk k) newdir ino (mach k) in (r, with_mach k s));
    match r with
    | None => on_mach (Paging.hal_addrspace_destroy newdir);; mret None
    | Some (entry, brk) =>
        sp ← call_mach (setup_user_stack newdir argv envp);
        mret (Some (newdir, entry, sp, brk))
    end.

Definition proc_exec (t : Z) (path : list Z) (argv envp : list (list Z)) : M Z :=
  ino ← gets (fun k => Minix.minixfs_resolve (fs k) (dsk k) path);
  if ino =? 0 then mret (-1)
  else
    dir ← gets (fun k => Minix.minixfs_is_dir (fs k) (dsk k) ino);
    if negb (dir =? 0) then mret (-1)
    else
      kargv ← kernel_strings argv;
      kenvp ← kernel_strings envp;
      r ← load_image ino kargv kenvp;
      match r with
      | None => mret (-1)
      | Some (newdir, entry, sp, brk) =>
          olddir ← gets (fun k => Sched.addrspace (task_of k t));
          modify (upd_task (set_image newdir entry sp brk true) t);;
          on_mach (drop_space olddir);;
          mret 0
      end.

(** The address of [proc_bounce_entry]. *)
Definition proc_bounce_entry : Z := 20480.

Definition proc_start_init (path : list Z) : M unit :=
  t ← call (fun k => let '(t, s) := Sched.sched_alloc (str "init") (sch k) in (t, with_sch k s));
  if t =? 0 then mret tt
  else
    modify (fun k => upd_task (fun tk =>
      set_image (Paging.hal_paging_kernel_dir (mach k)) (Sched.entry tk) (Sched.user_stack tk) (Sched.brk tk) true
        (Syscall.set_cwd [47] (Syscall.set_gid 0 (Syscall.set_uid 0 tk)))) t k);;
    r ← proc_exec t path [path] [str "PATH=/bin"; str "HOME=/"];
    if r <? 0 then
      on_con (Console.console_printf (str "[init] failed to exec %s" ++ [10]) [Console.AStr (Some path)])
    else
      cons ← call_serv File.filp_alloc;
      modify (fstore (fun x => File.Filp File.FT_CONS (File.refcount x) (File.ino x) (File.offset x) (File.flags x)
                                 (File.is_dir x) (File.fpipe x) (File.pipe_end x)) cons);;
      modify (set_file t 0 cons);;
      on_serv (File.filp_ref cons);;
      modify (set_file t 1 cons);;
      on_serv (File.filp_ref cons);;
      modify (set_file t 2 cons);;
      top ← gets (fun k => Sched.kstack (task_of k t) + Sched.KSTACK_SIZE);
      c ← call_serv (File.hal_context_init top proc_bounce_entry);
      modify (upd_task (Sched.set_ctx c) t);;
      add_task t.

(** ** Fork *)

(** The loop that shares the parent's open files. *)
Definition share_files (parent child : Z) (k : kernel) : kernel :=
  for_loop (fun i k =>
      let f := lget 0 (Sched.files (task_of k parent)) i in
      if negb (f =? 0)
      then let k1 := set_file child i f k in with_serv k1 (File.filp_ref f (serv k1))
      else k)
    0 (Z.to_nat Sched.MAX_FILES) k.

(** The trap frame at the top of the child's stack, and the context below it that will
    return to user mode with it. *)
Definition fork_context (ks : Z) (tf : trapframe) (e : File.services) : Z * File.services :=
  let ctf := u32 (ks + Sched.KSTACK_SIZE - 76) in
  let c := u32 (ctf - 8 - 20) in
  (c, File.with_contexts e (<[c := File.ReturnsToUser (words_of (set_eax 0 tf))]> (File.contexts e))).

(** [sys_fork_impl] after the open files are shared, and after the address space has
    been cloned. *)
Definition fork_tail (tf : trapframe) (child : Z) : M Z :=
  ks ← gets (fun k => Sched.kstack (task_of k child));
  c ← call_serv (fork_context ks tf);
  modify (upd_task (Sched.set_ctx c) child);;
  add_task child;;
  gets (fun k => Sched.pid (task_of k child)).
Definition fork_rest (tf : trapframe) (parent child : Z) : M Z :=
  modify (share_files parent child);; fork_tail tf child.

Definition sys_fork_impl (tf : trapframe) : M Z :=
  parent ← gets cur;
  p ← gets (fun k => task_of k parent);
  child ← call (fun k => let '(t, s) := Sched.sched_alloc (Sched.name p) (sch k) in (t, with_sch k s));
  if child =? 0 then mret (-1)
  else
    modify (upd_task (set_child parent p) child);;
    dir ← call_mach (Paging.hal_addrspace_clone (Sched.addrspace p));
    modify (upd_task (set_addrspace dir) child);;
    if dir =? 0 then mret (-1) else fork_rest tf parent child.

(** What the child does first: the registers it enters user mode with. *)
Definition proc_fork_return_c (regs : list Z) (k : kernel) : list Z * kernel :=
  let t := task_of k (cur k) in
  let k1 := with_mach k (Paging.hal_paging_switch (Sched.addrspace t) (mach k)) in
  (regs, with_serv k1 (File.with_tss (serv k1) (u32 (Sched.kstack t + Sched.KSTACK_SIZE)))).

(** ** Exec *)

(** The path [full]; the buffer is left without a terminator when the name fills it. *)
Definition exec_path (t : Sched.task) (path : Z) : M (list Z) :=
  kpath ← ustr 255 path;
  if lget 0 kpath 0 =? 47 then mret kpath
  else
    let full := Syscall.with_slash (Sched.cwd t) in
    let l := lenZ full in
    if (255 <? l) || ((l <? 255) && (255 - l <=? lenZ kpath)) then beyond
    else mret (full ++ take (Z.to_nat (255 - l)) kpath).

Definition sys_execve_impl (tf : trapframe) : M Z :=
  me ← gets cur;
  t ← gets (fun k => task_of k me);
  full ← exec_path t (ebx tf);
  kargv ← copy_strings (ecx tf);
  kenvp ← copy_strings (edx tf);
  ino ← gets (fun k => Minix.minixfs_resolve (fs k) (dsk k) full);
  dir ← gets (fun k => Minix.minixfs_is_dir (fs k) (dsk k) ino);
  if (ino =? 0) || negb (dir =? 0) then mret (-1)
  else
    r ← load_image ino kargv kenvp;
    match r with
    | None => mret (-1)
    | Some (newdir, entry, sp, brk) =>
        modify (upd_task (fun tk => set_image newdir entry sp brk (Sched.user tk) tk) me);;
        on_mach (Paging.hal_paging_switch newdir);;
        on_mach (drop_space (Sched.addrspace t));;
        on_serv (fun e => File.with_tss e (u32 (Sched.kstack t + Sched.KSTACK_SIZE)));;
        enter entry sp
    end.

(** ** Waiting for children *)

Definition child_slot (parent : Z) (s : Sched.sched File.services) (i : Z) : bool :=
  let t := Sched.sched_find_slot i s in
  negb (t =? 0) && (Sched.parent (Sched.get s t) =? parent).
Definition zombie_slot (parent : Z) (s : Sched.sched File.services) (i : Z) : bool :=
  child_slot parent s i && (Sched.state (Sched.get s (Sched.sched_find_slot i s)) =? Sched.TASK_ZOMBIE).

(** One pass of the loop of [sys_wait4_impl]. *)
Definition wait4 (status : Z) : M Z :=
  parent ← gets cur;
  z ← gets (fun k => find_first (zombie_slot parent (sch k)) 0 (Z.to_nat Sched.MAX_TASKS));
  match z with
  | Some i =>
      t ← gets (fun k => Sched.sched_find_slot i (sch k));
      tk ← gets (fun k => task_of k t);
      dir ← gets (fun k => Sched.addrspace (task_of k parent));
      (if negb (status =? 0) then
         let st := Z.shiftl (Z.land (Sched.exit_code tk) 255) 8 in
         if (status <? Paging.USER_BASE) || (4294967296 <? status + 4) then beyond
         else on_mach (Paging.hal_addrspace_copy_to dir status (le_bytes 4 st) 4)
       else mret tt);;
      reap t;;
      mret (Sched.pid tk)
  | None =>
      c ← gets (fun k => find_first (child_slot parent (sch k)) 0 (Z.to_nat Sched.MAX_TASKS));
      match c with
      | None => mret (-1)
      | Some _ =>
          modify (upd_task (Sched.set_waiting true) parent);;
          sleep Sched.sched_block (PWait status)
      end
  end.

Definition sys_wait4_impl (tf : trapframe) : M Z := wait4 (ecx tf).

(** ** Faults *)

Definition segv_message : list Z :=
  [10] ++ str "[SEGV] pid=%d addr=%x eip=%x err=%x -> killing" ++ [10].

Definition proc_page_fault (tf : trapframe) (addr : Z) : M Z :=
  t ← gets (fun k => task_of k (cur k));
  me ← gets cur;
  if negb (me =? 0) && Sched.user t && (Z.land (cs tf) 3 =? 3) then
    on_con (Console.console_printf segv_message
      [Console.AWord (Sched.pid t); Console.AWord addr; Console.AWord (eip tf); Console.AWord (err_code tf)]);;
    Syscall.leave 139
  else halt.

(** ** Dispatch *)

Definition dispatch (tf : trapframe) : M Z :=
  match eax tf with
  | 1 => Syscall.sys_exit tf
  | 2 => sys_fork_impl tf
  | 3 => Syscall.sys_read tf
  | 4 => Syscall.sys_write tf
  | 5 => Syscall.sys_open tf
  | 6 => Syscall.sys_close tf
  | 7 => sys_wait4_impl tf
  | 84 => sys_wait4_impl tf
  | 8 => Syscall.sys_creat tf
  | 9 => Syscall.sys_stub tf
  | 10 => Syscall.sys_unlink tf
  | 12 => Syscall.sys_chdir tf
  | 14 => Syscall.sys_stub tf
  | 15 => Syscall.sys_chmod tf
  | 19 => Syscall.sys_lseek tf
  | 20 => Syscall.sys_getpid tf
  | 39 => Syscall.sys_getppid tf
  | 24 => Syscall.sys_getuid tf
  | 37 => Syscall.sys_kill tf
  | 41 => Syscall.sys_dup tf
  | 90 => Syscall.sys_dup2 tf
  | 42 => Syscall.sys_pipe tf
  | 47 => Syscall.sys_getgid tf
  | 23 => Syscall.sys_setuid tf
  | 181 => Syscall.sys_setgid tf
  | 54 => Syscall.sys_ioctl tf
  | 59 => sys_execve_impl tf
  | 62 => Syscall.sys_fstat tf
  | 63 => Syscall.sys_stat tf
  | 64 => Syscall.sys_getdents tf
  | 326 => Syscall.sys_getcwd tf
  | 17 => Syscall.sys_brk tf
  | 65 => Syscall.sys_yield tf
  | 66 => Syscall.sys_sync tf
  | 136 => Syscall.sys_mkdir tf
  | 137 => Syscall.sys_rmdir tf
  | _ => mret (-1)
  end.

(** A call that gave the processor away, continued when its task runs again. *)
Definition resume (p : pending) : M Z :=
  match p with
  | PReturn r => mret r
  | PConsole va count got => me ← gets cur; Syscall.read_console 256 me va count got
  | PPipeRead p va count => Syscall.pipe_read p va count
  | PPipeWrite p va count done => Syscall.pipe_write p va count done
  | PWait status => wait4 status
  end.

End proc.
End Proc.
