(* ===== verification/KernelInv.v ===== *)
(** * The kernel's bookkeeping invariant

    [sinv]: the open files, pipes, tasks and kernel stacks occupy distinct blocks of the
    heap; the counter of every open file is the number of descriptors, in all tasks, that
    refer to it; the counters of every pipe are the numbers of its open ends; and dead
    tasks have no descriptors left.  This file shows that the operations of the
    scheduler keep it. *)

From stdpp Require Import base list gmap numbers sets.
From S2P Require Import Prelude CString Pmm Layout Paging Heap HeapSpec Pipe Sched File FileSpec.

#[local] Open Scope Z_scope.

Module KernelInv.
Import Sched File FileSpec.

(** ** Lists collected over all tasks *)

#[global] Instance lenZ_perm {A} : Proper ((≡ₚ) ==> eq) (@lenZ A).
Proof. intros l1 l2 H. unfold lenZ. by rewrite H. Qed.

Definition nz (l : list Z) : list Z := filter (fun x => x <> 0) l.

Definition gather (g : Z -> task -> list Z) (st : gmap Z task) : list Z :=
  map_to_list st ≫= (fun '(a, t) => g a t).

Lemma gather_insert g st a t : st !! a = None -> gather g (<[a := t]> st) ≡ₚ g a t ++ gather g st.
Proof. intros H. unfold gather. by rewrite map_to_list_insert. Qed.

Lemma gather_delete g st a t : st !! a = Some t -> gather g st ≡ₚ g a t ++ gather g (delete a st).
Proof. intros H. unfold gather. by rewrite <- (map_to_list_delete _ _ _ H). Qed.

Lemma gather_update g st a t : gather g (<[a := t]> st) ≡ₚ g a t ++ gather g (delete a st).
Proof. rewrite <- insert_delete_eq. apply gather_insert, lookup_delete_eq. Qed.

(** The descriptors, and the heap blocks of a task: itself and its stack.  The idle task
    and its stack are static. *)
Definition descs : gmap Z task -> list Z := gather (fun _ t => nz (files t)).
Definition task_blocks (a : Z) (t : task) : list Z := if decide (a = idle_task) then [] else nz [a; kstack t].
Definition others : gmap Z task -> list Z := gather task_blocks.

(** The invariant of the tasks; [x] is the task that is exiting, if any. *)
Record tinv (x : option Z) (s : sched services) : Prop := {
  ti_held : held (others (store s)) (env s) (descs (store s));
  ti_files : forall a t, store s !! a = Some t -> lenZ (files t) = 32;
  ti_dead : forall a t, store s !! a = Some t -> Some a <> x -> state t = TASK_ZOMBIE -> nz (files t) = [];
  ti_null : store s !! 0 = None;
  ti_idle : exists t, store s !! idle_task = Some t /\ parent t = 0 }.

Record sinv (s : sched services) : Prop := {
  si_tasks : tinv None s;
  si_cur : exists t, store s !! current s = Some t /\ state t <> TASK_ZOMBIE }.

Lemma get_store (s : sched services) a t : store s !! a = Some t -> get s a = t.
Proof. apply lookup_total_correct. Qed.

(** A task with a field that [memset] does not give is in the store. *)
Lemma get_present {A} (g : task -> A) (s : sched services) a : g (get s a) <> g zero_task -> is_Some (store s !! a).
Proof.
  intros H. destruct (store s !! a) eqn:E; [eauto|]. destruct H. unfold get. by rewrite lookup_total_alt, E.
Qed.

Lemma descs_bound x s : tinv x s -> lenZ (descs (store s)) < 2147483000.
Proof.
  intros [[[Hb _ _] _ _] Hf _ H0 _]. apply blocks_bound in Hb.
  assert (lenZ (descs (store s)) <= 32 * Z.of_nat (size (store s)) /\
    Z.of_nat (size (store s)) <= lenZ (others (store s)) + (if decide (is_Some (store s !! idle_task)) then 1 else 0)) as [H1 H2].
  { revert Hf H0. clear. induction (store s) as [|a t m Ha IH] using map_ind; intros Hf H0.
    { split; [done|]. case_decide; done. }
    assert (forall b u, m !! b = Some u -> lenZ (files u) = 32) as Hf'.
    { intros b u Hb. apply (Hf b). rewrite lookup_insert_ne; [done|congruence]. }
    assert (m !! 0 = None) as H0' by (by apply lookup_insert_None in H0 as [? _]).
    assert (a <> 0) as Ha0 by (by apply lookup_insert_None in H0 as [_ ?]).
    destruct (IH Hf' H0') as [I1 I2]. rewrite map_size_insert_None by done.
    unfold descs, others, lenZ in *. rewrite !gather_insert, !length_app by done.
    pose proof (length_filter (fun x => x <> 0) (files t)) as Hl. fold (nz (files t)) in Hl.
    specialize (Hf a t ltac:(apply lookup_insert_eq)). unfold lenZ in Hf. split; [lia|].
    unfold task_blocks at 1. destruct (decide (a = idle_task)) as [->|Hi].
    - rewrite decide_True by (rewrite lookup_insert_eq; eauto). rewrite Ha in I2.
      rewrite decide_False in I2 by (intros [? ?]; done). cbn [length]. lia.
    - rewrite lookup_insert_ne by done. unfold nz at 1. rewrite filter_cons_True by done. cbn [length]. lia. }
  unfold objects, lenZ in *. rewrite !length_app in Hb. case_decide; lia.
Qed.

(** ** Changes that do not touch descriptors or blocks *)

Lemma upd_tinv x s a t g : tinv x s -> store s !! a = Some t ->
  files (g t) = files t -> kstack (g t) = kstack t ->
  (Some a <> x -> state (g t) = TASK_ZOMBIE -> state t = TASK_ZOMBIE) ->
  (a = idle_task -> parent t = 0 -> parent (g t) = 0) -> tinv x (upd g a s).
Proof.
  intros [Hh Hf Hd H0 (ti & Hi & Hip)] Ha E1 E2 E3 E4. unfold upd. rewrite (get_store _ _ _ Ha).
  split; cbn [store env].
  - revert Hh. unfold others, descs. rewrite !gather_update, !(gather_delete _ _ _ _ Ha).
    unfold task_blocks. by rewrite E1, E2.
  - intros b u. destruct (decide (b = a)) as [->|]; [rewrite lookup_insert_eq; intros [= <-]|rewrite lookup_insert_ne by done; eauto].
    rewrite E1. eauto.
  - intros b u. destruct (decide (b = a)) as [->|]; [rewrite lookup_insert_eq; intros [= <-]|rewrite lookup_insert_ne by done; eauto].
    rewrite E1. eauto.
  - rewrite lookup_insert_ne by congruence. done.
  - destruct (decide (idle_task = a)) as [<-|]; [|exists ti; by rewrite lookup_insert_ne].
    exists (g t). rewrite lookup_insert_eq. split; [done|]. apply E4; [done|]. congruence.
Qed.

Lemma upd_inv s a t g : sinv s -> store s !! a = Some t ->
  files (g t) = files t -> kstack (g t) = kstack t ->
  (state (g t) = TASK_ZOMBIE -> state t = TASK_ZOMBIE) ->
  (a = idle_task -> parent t = 0 -> parent (g t) = 0) -> sinv (upd g a s).
Proof.
  intros [Ht Hc] Ha E1 E2 E3 E4. split; [by apply (upd_tinv None s a t)|]. unfold upd. rewrite (get_store _ _ _ Ha).
  cbn [store current].
  destruct Hc as (u & Hu & Hz). destruct (decide (current s = a)) as [E|]; [|exists u; by rewrite lookup_insert_ne].
  exists (g t). rewrite E, lookup_insert_eq. split; [done|]. rewrite E, Ha in Hu. injection Hu as <-. auto.
Qed.

(** The parts of the state the invariant looks at. *)
Lemma tinv_ext x s s' : tinv x s -> store s' = store s ->
  held (others (store s)) (env s') (descs (store s)) -> tinv x s'.
Proof. intros [Hh Hf Hd H0 Hi] E1 E3. split; rewrite ?E1; done. Qed.

(** The heap's blocks do not depend on the machine; contexts and the task state segment
    are not part of it. *)
Lemma held_same X e e' ds : held X e ds -> filps e' = filps e -> pipes e' = pipes e ->
  (forall bs, Heap.wf (heap e) bs -> Heap.wf (heap e') bs) -> held X e' ds.
Proof.
  intros [[[(bs & Hw & Hu) Hn H0] Hl Hc] Hr Hv] E1 E2 Hwf.
  split; [split; [split|..]|..]; unfold objects in *; rewrite ?E1, ?E2; try done. exists bs. auto.
Qed.

Lemma held_machine X e s ds : held X e ds -> held X (with_machine e s) ds.
Proof. intros H. apply (held_same X e); [done..|]. intros bs [[A B C D F G] I]. split; [split|]; done. Qed.

Lemma held_contexts X e c ds : held X e ds -> held X (with_contexts e c) ds.
Proof. intros H. by apply (held_same X e). Qed.

Lemma held_tss X e v ds : held X e ds -> held X (with_tss e v) ds.
Proof. intros H. by apply (held_same X e). Qed.

Lemma env_tinv x s e : tinv x s -> (forall X ds, held X (env s) ds -> held X e ds) -> tinv x (with_env e s).
Proof. intros Hs He. apply (tinv_ext x s); try done. apply He, Hs. Qed.

Lemma env_inv s e : sinv s -> (forall X ds, held X (env s) ds -> held X e ds) -> sinv (with_env e s).
Proof. intros [Hs Hc] He. split; [by apply env_tinv|done]. Qed.

#[export] Hint Resolve held_machine held_contexts held_tss : fento.

(** ** The scheduler *)

Lemma switch_inv s nx : tinv None s -> is_Some (store s !! nx) -> sinv (switch_to nx s).
Proof.
  intros Hs [t Ht]. set (g := fun t => set_slice QUANTUM (set_state TASK_RUNNING t)).
  assert (tinv None (upd g nx s)) as H1 by (by apply (upd_tinv None s nx t)).
  unfold switch_to. fold g. apply env_inv.
  - split; [destruct H1 as [A B C D E]; by split|]. unfold upd. cbn [store current with_current].
    eexists. split; [apply lookup_insert_eq|]. done.
  - intros X ds Hh. cbn [kernel_env hal_tss_set_kernel_stack].
    destruct (_ && _); cbn [kernel_env hal_paging_switch]; auto with fento.
Qed.

Lemma pick_from_present fuel s st a nx : is_Some (store s !! idle_task) ->
  pick_from (E := services) fuel s st a = Some nx -> is_Some (store s !! nx).
Proof.
  intros Hs. revert a. induction fuel as [|f IH]; intros a; cbn [pick_from].
  all: destruct (runnable (get s a)) eqn:E;
    [intros [= <-]; apply (get_present runnable s a); by rewrite E|].
  all: bcase; [by intros [= <-]|].
  - done.
  - apply IH.
Qed.

Lemma pick_next_present x s nx : tinv x s -> pick_next s = Some nx -> is_Some (store s !! nx).
Proof.
  intros Hs. assert (is_Some (store s !! idle_task)) as Hi by (destruct (ti_idle _ _ Hs) as (t & Ht & _); eauto).
  unfold pick_next. cbv zeta. bcase; [by intros [= <-]|]. by apply pick_from_present.
Qed.

Lemma preempt_inv s : sinv s -> sinv (preempt_current s).
Proof.
  intros Hs. unfold preempt_current. bcase; [|done]. destruct (si_cur _ Hs) as (t & Ht & _).
  by apply (upd_inv s _ t).
Qed.

Lemma preempt_kept s a : is_Some (store s !! a) -> is_Some (store (preempt_current (E := services) s) !! a).
Proof.
  intros Ha. unfold preempt_current. bcase; [|done]. unfold upd. cbn [store].
  destruct (decide (a = current s)) as [->|]; [rewrite lookup_insert_eq; eauto|by rewrite lookup_insert_ne].
Qed.

Lemma sched_yield_inv s s' : sinv s -> sched_yield s = Some s' -> sinv s'.
Proof.
  intros Hs. unfold sched_yield. destruct (negb (started s)); [by intros [= <-]|].
  destruct (pick_next s) as [nx|] eqn:E; [|done]. cbn [mbind option_bind]. intros [= <-].
  bcase; [done|]. apply switch_inv; [apply preempt_inv, Hs|]. apply preempt_kept, (pick_next_present None); [apply Hs|done].
Qed.

Lemma sched_block_inv s s' : sinv s -> sched_block s = Some s' -> sinv s'.
Proof.
  intros Hs. unfold sched_block. cbv zeta. destruct (si_cur _ Hs) as (t & Ht & _).
  assert (sinv (upd (set_state TASK_BLOCKED) (current s) s)) as H1 by (by apply (upd_inv s _ t)).
  destruct (pick_next _) as [nx|] eqn:E; [|done]. cbn [mbind option_bind]. intros [= <-].
  bcase; [done|]. apply switch_inv; [apply H1|]. apply (pick_next_present None); [apply H1|done].
Qed.

Lemma wakeup_tinv x s t : tinv x s -> tinv x (sched_wakeup_parent t s).
Proof.
  intros Hs. unfold sched_wakeup_parent. cbv zeta.
  destruct (_ && _) eqn:E; [|done]. apply andb_true_iff in E as [E1 Ew]. apply andb_true_iff in E1 as [_ Es].
  apply Z.eqb_eq in Es. destruct (get_present state s (parent (get s t))) as [u Hu]; [by rewrite Es|].
  by apply (upd_tinv x s _ u).
Qed.

(** ** Changes to descriptors *)

(** The descriptors besides entry [i]. *)
Lemma nz_lset (l : list Z) i : 0 <= i < lenZ l -> exists R, nz l ≡ₚ nz [lget 0 l i] ++ R /\
  forall f, nz (lset l i f) ≡ₚ nz [f] ++ R.
Proof.
  intros Hi. unfold lenZ in Hi. set (n := Z.to_nat i).
  exists (nz (take n l) ++ nz (drop (S n) l)).
  assert (lookup n l = Some (lget 0 l i)) as Hn by (apply lget_lookup; unfold lenZ; lia).
  split.
  - rewrite <- (take_drop_middle l n _ Hn) at 1. unfold nz. rewrite filter_app, filter_cons, filter_cons, filter_nil.
    case_decide; cbn [app]; [by rewrite <- Permutation_middle|done].
  - intros f. unfold lset. destruct (Z.ltb_spec i 0); [lia|]. fold n.
    rewrite (insert_take_drop l n f) by lia. unfold nz. rewrite filter_app, filter_cons, filter_cons, filter_nil.
    case_decide; cbn [app]; [by rewrite <- Permutation_middle|done].
Qed.

(** Entry [fd] of task [a] becomes [f], while the environment becomes [e]. *)
Lemma set_fd_tinv x s a t fd f e : tinv x s -> store s !! a = Some t -> 0 <= fd < 32 ->
  (f <> 0 -> Some a <> x -> state t <> TASK_ZOMBIE) ->
  (forall ds, descs (store s) ≡ₚ nz [lget 0 (files t) fd] ++ ds -> lenZ ds < 2147483000 ->
     held (others (store s)) (env s) (nz [lget 0 (files t) fd] ++ ds) -> held (others (store s)) e (nz [f] ++ ds)) ->
  tinv x (upd (fun t => set_files (lset (files t) fd f) t) a (with_env e s)).
Proof.
  intros Hs Ha Hfd Hz He. pose proof (descs_bound x s Hs) as Hb. destruct Hs as [Hh Hf Hd H0 (ti & Hi & Hip)].
  pose proof (Hf a t Ha) as Hlen. destruct (nz_lset (files t) fd ltac:(lia)) as (R & HR1 & HR2).
  unfold upd. cbn [store env with_env]. change (get (with_env e s) a) with (get s a).
  rewrite (get_store _ _ _ Ha). split; cbn [store env with_env].
  - set (ds := R ++ gather (fun _ t => nz (files t)) (delete a (store s))).
    assert (descs (store s) ≡ₚ nz [lget 0 (files t) fd] ++ ds) as Hds.
    { unfold descs, ds. by rewrite (gather_delete _ _ _ _ Ha), HR1, app_assoc. }
    rewrite Hds in Hh, Hb. specialize (He ds Hds). unfold descs. rewrite gather_update. cbn [files set_files].
    rewrite HR2, <- app_assoc. fold ds. unfold others in *. rewrite gather_update.
    change (task_blocks a (set_files (lset (files t) fd f) t)) with (task_blocks a t).
    rewrite <- (gather_delete _ _ _ _ Ha). apply He; [|done]. revert Hb. unfold lenZ. rewrite !length_app. lia.
  - intros b u. destruct (decide (b = a)) as [->|]; [rewrite lookup_insert_eq; intros [= <-]|rewrite lookup_insert_ne by done; eauto].
    cbn. by rewrite lenZ_lset.
  - intros b u. destruct (decide (b = a)) as [->|]; [rewrite lookup_insert_eq; intros [= <-]|rewrite lookup_insert_ne by done; eauto].
    cbn. intros Hx Hst. assert (f = 0) as -> by (destruct (decide (f = 0)); [done|]; by destruct (Hz ltac:(done) Hx)).
    apply Permutation_nil_r. rewrite HR2. cbn. apply Permutation_nil_r.
    pose proof (Hd a t Ha Hx Hst) as Hnil. rewrite Hnil in HR1. symmetry in HR1. apply Permutation_nil_r in HR1.
    apply app_eq_nil in HR1 as [_ ->]. done.
  - rewrite lookup_insert_ne by congruence. done.
  - destruct (decide (idle_task = a)) as [<-|]; [|exists ti; by rewrite lookup_insert_ne].
    eexists. rewrite lookup_insert_eq. split; [done|]. cbn. congruence.
Qed.

Lemma close_held X e f ds : held X e (f :: ds) -> lenZ ds < 2147483000 -> held X (File.filp_close f e) ds.
Proof.
  intros Hh Hl. destruct (held_live _ _ _ Hh f ltac:(left)) as [x Hx].
  destruct (filp_close_held X e ds f x Hh ltac:(lia) Hx) as [H _]. done.
Qed.

Lemma ref_held X e f ds : held X e ds -> f ∈ ds -> lenZ ds < 2147483000 -> held X (File.filp_ref f e) (f :: ds).
Proof.
  intros Hh Hf Hl. destruct (held_live _ _ _ Hh f Hf) as [x Hx].
  destruct (filp_ref_held X e ds f x Hh Hx ltac:(lia)) as [H _]. done.
Qed.

Lemma nz_one f : f <> 0 -> nz [f] = [f].
Proof. intros H. unfold nz. by rewrite filter_cons_True. Qed.

(** Closing entry [fd] of a task. *)
Lemma close_fd_tinv x s a t fd : tinv x s -> store s !! a = Some t -> 0 <= fd < 32 -> lget 0 (files t) fd <> 0 ->
  tinv x (upd (fun t => set_files (lset (files t) fd 0) t) a
            (with_env (File.filp_close (lget 0 (files t) fd) (env s)) s)).
Proof.
  intros Hs Ha Hfd Hf. apply (set_fd_tinv x s a t); try done.
  intros ds _ Hl. rewrite nz_one by done. intros Hh. by apply close_held.
Qed.

(** ** Exit *)

Lemma orphan_tinv x s t : tinv x s -> t <> 0 -> tinv x (orphan_children t s).
Proof.
  intros Hs Ht. unfold orphan_children.
  apply (for_loop_ind (fun _ s => tinv x s)); [done|]. intros i s' _ Hs'. cbv zeta.
  destruct (_ && _) eqn:E; [|done]. apply andb_true_iff in E as [_ E%Z.eqb_eq].
  destruct (get_present parent s' (lget 0 (tasks s') i)) as [u Hu]; [by rewrite E|].
  by apply (upd_tinv x s' _ u).
Qed.

Lemma orphan_store s t a : is_Some (store s !! a) -> is_Some (store (orphan_children (E := services) t s) !! a).
Proof.
  intros Ha. unfold orphan_children.
  apply (for_loop_ind (fun _ s => is_Some (store s !! a))); [done|]. intros i s' _ Hs'. cbv zeta.
  destruct (_ && _); [|done]. unfold upd. cbn [store].
  destruct (decide (a = lget 0 (tasks s') i)) as [->|]; [rewrite lookup_insert_eq; eauto|by rewrite lookup_insert_ne].
Qed.

Lemma nz_all_zero l : (forall i, 0 <= i < lenZ l -> lget 0 l i = 0) -> nz l = [].
Proof.
  intros H. apply elem_of_nil_inv. intros y [Hne Hin]%list_elem_of_filter. apply Hne.
  apply list_elem_of_lookup in Hin as [i Hy]. pose proof (lookup_lt_Some _ _ _ Hy). rewrite <- (H (Z.of_nat i)) by (unfold lenZ; lia).
  symmetry. apply lookup_lget; [lia|]. by rewrite Nat2Z.id.
Qed.

Lemma close_files_tinv s a : tinv (Some a) s -> is_Some (store s !! a) -> tinv None (close_files a s).
Proof.
  intros Hs Ha. unfold close_files.
  pose proof (for_loop_ind (fun i s => tinv (Some a) s /\ exists t, store s !! a = Some t /\
    forall j, 0 <= j < i -> lget 0 (files t) j = 0)
    (fun i s => let f := lget 0 (files (get s a)) i in
        if negb (f =? 0)
        then upd (fun k => set_files (lset (files k) i 0) k) a (with_env (filp_close f (env s)) s)
        else s) 0 (Z.to_nat MAX_FILES) s) as H.
  destruct H as (Hs' & t & Ht & Hz).
  - split; [done|]. destruct Ha as [t Ht]. exists t. split; [done|]. lia.
  - intros i s' Hi (Hs' & t & Ht & Hz). cbv zeta. rewrite (get_store _ _ _ Ht).
    pose proof (ti_files _ _ Hs' _ _ Ht) as Hlen.
    change (Z.of_nat (Z.to_nat MAX_FILES)) with 32 in Hi.
    destruct (Z.eqb_spec (lget 0 (files t) i) 0) as [E|E]; cbn [negb].
    + split; [done|]. exists t. split; [done|]. intros j Hj. destruct (decide (j = i)) as [->|]; [done|apply Hz; lia].
    + split; [by apply (close_fd_tinv (Some a) s' a t); [..|lia|]|]. unfold upd. cbn [store with_env].
      rewrite lookup_insert_eq. eexists. split; [done|]. change (get (with_env _ s') a) with (get s' a).
      rewrite (get_store _ _ _ Ht). cbn. intros j Hj.
      rewrite lget_lset by lia. bcase; [done|apply Hz; lia].
  - destruct Hs' as [A B C D E]. split; try done.
    intros b u Hb _ Hst. destruct (decide (b = a)) as [->|]; [|apply (C b u Hb); [congruence|done]].
    assert (Some u = Some t) as [= ->] by (rewrite <- Hb; exact Ht). apply nz_all_zero. rewrite (B a t Ht). intros i Hi. by apply Hz.
Qed.

Lemma close_files_store s t a : is_Some (store s !! a) -> is_Some (store (close_files (E := services) t s) !! a).
Proof.
  intros Ha. unfold close_files.
  apply (for_loop_ind (fun _ s => is_Some (store s !! a))); [done|]. intros i s' _ Hs'. cbv zeta.
  destruct (negb _); [|done]. unfold upd. cbn [store with_env].
  destruct (decide (a = t)) as [->|]; [rewrite lookup_insert_eq; eauto|by rewrite lookup_insert_ne].
Qed.

Lemma sched_exit_inv s code s' : sinv s -> sched_exit code s = Some s' -> sinv s'.
Proof.
  intros [Hs Hc]. unfold sched_exit. cbv zeta. destruct Hc as (t & Ht & Hz).
  assert (tinv None (exit_prepare code s)) as Hp.
  { unfold exit_prepare. cbv zeta. apply wakeup_tinv, close_files_tinv.
    - apply orphan_tinv; [|intros E; rewrite E, (ti_null _ _ Hs) in Ht; done].
      apply (upd_tinv _ s (current s) t); try done. destruct Hs as [A B C D E]. split; try done.
      intros b u Hb _. by apply (C b u).
    - apply orphan_store. unfold upd. cbn [store]. rewrite lookup_insert_eq. eauto. }
  destruct (pick_next _) as [nx|] eqn:E; [|done]. cbn [mbind option_bind]. intros [= <-].
  apply switch_inv; [done|]. by apply (pick_next_present None).
Qed.

(** ** Creating and removing tasks *)

Lemma held_not_idle X e ds p : held (p :: X) e ds -> p <> idle_task /\ (p ∉ X).
Proof.
  intros [[[(bs & Hw & Hu) Hn H0] _ _] _ _]. unfold objects in *. split.
  - intros ->. destruct (Hu idle_task) as [z Hz]; [set_solver|].
    pose proof (Heap.used_range _ _ _ _ (Heap.seg_sized _ _ _ _ _ (Heap.wf_seg _ _ (Heap.wf_core _ _ Hw))) Hz) as Hr.
    unfold idle_task, Heap.HEAP_START in Hr. lia.
  - intros Hp. apply NoDup_app in Hn as (_ & _ & Hn). apply NoDup_app in Hn as (_ & _ & Hn).
    by apply NoDup_cons in Hn as [? _].
Qed.

Lemma store_in_others st a t : st !! a = Some t -> a <> idle_task -> a <> 0 -> a ∈ others st.
Proof.
  intros Ha Hi H0. unfold others. rewrite (gather_delete _ _ _ _ Ha), elem_of_app. left.
  unfold task_blocks. rewrite decide_False by done. unfold nz. rewrite filter_cons_True by done. left.
Qed.

Lemma nz_zeros : nz (replicate (Z.to_nat MAX_FILES) 0) = [].
Proof. done. Qed.

(** A new task, with its stack [ks] when there was room for it. *)
Lemma new_task_tinv x s t tk e tbl np : tinv x s -> held (nz [t; kstack tk] ++ others (store s)) e (descs (store s)) ->
  t <> 0 -> nz (files tk) = [] -> lenZ (files tk) = 32 ->
  store s !! t = None /\ t <> idle_task /\
  tinv x (MkSched (<[t := tk]> (store s)) tbl (current s) (task_list s) np (started s) e).
Proof.
  intros [Hh Hf Hd H0 Hi] He Ht Hfs Hlen.
  assert (nz [t; kstack tk] = t :: nz [kstack tk]) as E by (unfold nz; by rewrite filter_cons_True).
  rewrite E in He. cbn [app] in He. destruct (held_not_idle _ _ _ _ He) as [Hid Hnin].
  assert (store s !! t = None) as Hn.
  { destruct (store s !! t) eqn:Es; [|done]. destruct Hnin. apply elem_of_app. right. by eapply store_in_others. }
  split_and!; [done|done|]. split; cbn [store env current].
  - unfold others, descs in *. rewrite !gather_insert by done. rewrite Hfs.
    unfold task_blocks at 1. rewrite decide_False by done. by rewrite E.
  - intros a u. destruct (decide (a = t)) as [->|]; [rewrite lookup_insert_eq; by intros [= <-]|rewrite lookup_insert_ne by done; eauto].
  - intros a u. destruct (decide (a = t)) as [->|]; [rewrite lookup_insert_eq; by intros [= <-]|rewrite lookup_insert_ne by done; eauto].
  - by rewrite lookup_insert_ne.
  - destruct Hi as (ti & Hi & Hip). exists ti. by rewrite lookup_insert_ne.
Qed.

(** What [sched_alloc] may do to the store. *)
Definition allocated nm (s s' : sched services) (t : Z) : Prop :=
  (t = 0 /\ store s' = store s) \/
  (t <> 0 /\ t <> idle_task /\ store s !! t = None /\ exists tk, store s' = <[t := tk]> (store s) /\ parent tk = 0 /\
    state tk = TASK_READY /\ files tk = replicate (Z.to_nat MAX_FILES) 0 /\ pid tk = next_pid s /\ name tk = take 31 nm).

Lemma sched_alloc_tinv x nm s : tinv x s -> exists t s', sched_alloc nm s = (t, s') /\ tinv x s' /\
  current s' = current s /\ allocated nm s s' t.
Proof.
  intros Hs. unfold sched_alloc.
  destruct (kmalloc_held _ _ _ sizeof_task (ti_held _ _ Hs) ltac:(done)) as
    (t & e1 & Hk & _ & _ & _ & [[-> H1]|[Ht H1]]); cbn [Sched.kmalloc kernel_env]; rewrite Hk.
  { exists 0, (with_env e1 s). split_and!; [done| |done|by left]. by apply (tinv_ext x s). }
  destruct (Z.eqb_spec t 0); [done|].
  destruct (kmalloc_held _ _ _ KSTACK_SIZE H1 ltac:(done)) as (ks & e2 & Hk2 & _ & _ & _ & H2).
  rewrite Hk2.
  set (tk := Task _ _ _ _ _ _ _ _ _ _ _ _ _ _ _ _ _ _ _ _ _ _).
  assert (held (nz [t; kstack tk] ++ others (store s)) e2 (descs (store s))) as H3.
  { cbn [kstack tk]. destruct H2 as [[-> H2]|[Hks H2]].
    - unfold nz. by rewrite filter_cons_True, filter_cons_False by (done || (intros H; by apply H)).
    - unfold nz. rewrite !filter_cons_True by done. revert H2. apply held_objects_perm; [|done|done].
      apply Permutation_swap. }
  edestruct (new_task_tinv x s t tk e2) as (A & B & C); [done|done|done|done|done|].
  eexists t, _. split_and!; [done|apply C|done|]. right. split_and!; [done..|]. exists tk. done.
Qed.

Lemma sched_alloc_inv nm s : sinv s -> exists t s', sched_alloc nm s = (t, s') /\ sinv s' /\
  current s' = current s /\ allocated nm s s' t.
Proof.
  intros [Hs (u & Hu & Hz)]. destruct (sched_alloc_tinv None nm s Hs) as (t & s' & E & H1 & H2 & H3).
  exists t, s'. split_and!; [done| |done|done]. split; [done|]. exists u. rewrite H2.
  destruct H3 as [[_ ->]|(_ & _ & Hn & tk & -> & _)]; [done|]. rewrite lookup_insert_ne; [done|congruence].
Qed.

Lemma find_tail_present fuel s p q : find_tail (E := services) fuel s p = Some q -> task_list s <> 0 -> is_Some (store s !! q).
Proof.
  intros H Hl. revert p H. induction fuel as [|f IH]; intros p; cbn [find_tail];
    (destruct (Z.eqb_spec (next (get s p)) (task_list s)) as [En|En]; [intros [= <-]|]).
  1,3: apply (get_present next s p); by rewrite En.
  - done.
  - apply IH.
Qed.

Lemma sched_add_tinv x s t s' : tinv x s -> is_Some (store s !! t) -> sched_add t s = Some s' -> tinv x s'.
Proof.
  intros Hs [tk Ht]. unfold sched_add. destruct (Z.eqb_spec (task_list s) 0) as [E|E].
  - intros [= <-]. apply (upd_tinv x _ t tk); try done. destruct Hs as [A B C D F]. by split.
  - destruct (find_tail _ _ _) as [p|] eqn:Ef; [|done]. cbn [mbind option_bind]. intros [= <-].
    destruct (find_tail_present _ _ _ _ Ef E) as [u Hu].
    assert (tinv x (upd (set_next t) p s)) as H1 by (by apply (upd_tinv x s p u)).
    destruct (decide (t = p)) as [->|Hne].
    + apply (upd_tinv x _ p (set_next p u)); try done. unfold upd. cbn [store].
      by rewrite lookup_insert_eq, (get_store _ _ _ Hu).
    + apply (upd_tinv x _ t tk); try done. unfold upd. cbn [store]. by rewrite lookup_insert_ne.
Qed.

Lemma sched_add_keeps s t s' a u : sched_add t s = Some s' -> store s !! a = Some u ->
  (exists n, store s' !! a = Some (set_next n u)) /\ env (E := services) s' = env s /\ current s' = current s.
Proof.
  assert (forall s : sched services, forall p n a u, store s !! a = Some u ->
    exists m, store (upd (set_next n) p s) !! a = Some (set_next m u)) as Hu.
  { intros s0 p n b v Hb. unfold upd. cbn. destruct (decide (b = p)) as [->|].
    - rewrite lookup_insert_eq, (get_store _ _ _ Hb). eauto.
    - rewrite lookup_insert_ne, Hb by done. exists (next v). by destruct v. }
  intros H Ha. unfold sched_add in H. destruct (_ =? 0).
  - injection H as <-. split; [|done]. by apply Hu.
  - destruct (find_tail _ _ _) as [p|]; [|done]. injection H as <-. split; [|done].
    destruct (Hu s p t a u Ha) as [m Hm]. destruct (Hu _ t (task_list s) a _ Hm) as [n Hn]. eauto.
Qed.

Lemma sched_add_inv s t s' : sinv s -> is_Some (store s !! t) -> sched_add t s = Some s' -> sinv s'.
Proof.
  intros [Hs (u & Hu & Hz)] Ht Ha. split; [by apply (sched_add_tinv None s t)|].
  destruct (sched_add_keeps _ _ _ _ _ Ha Hu) as ([n Hn] & _ & ->). by exists (set_next n u).
Qed.

(** The tasks of [s] are those of [s'], up to their links. *)
Definition same_tasks (s s' : sched services) : Prop :=
  current s' = current s /\ env s' = env s /\
  forall a u, store s !! a = Some u -> exists n, store s' !! a = Some (set_next n u).

Lemma unlink_inv s p (b : bool) n l : sinv s -> is_Some (store s !! p) ->
  let s1 := upd (set_next n) p s in let s2 := if b then with_task_list l s1 else s1 in
  sinv s2 /\ same_tasks s s2.
Proof.
  intros Hs [u Hu] s1 s2. assert (sinv s1) as H1 by (by apply (upd_inv s p u)).
  assert (store s2 = store s1 /\ current s2 = current s1 /\ env s2 = env s1) as (E1 & E2 & E3) by (by destruct b).
  split.
  - destruct H1 as [[A B C D F] G]. split; [split|]; rewrite ?E1, ?E2, ?E3; done.
  - split_and!; [done|done|]. intros a v Ha. rewrite E1. unfold s1, upd. cbn [store].
    destruct (decide (a = p)) as [->|].
    + rewrite lookup_insert_eq, (get_store _ _ _ Ha). eauto.
    + rewrite lookup_insert_ne by done. exists (next v). rewrite Ha. by destruct v.
Qed.

Lemma reap_unlink_inv fuel t p s s' : t <> 0 -> sinv s -> reap_unlink fuel t p s = Some s' ->
  sinv s' /\ same_tasks s s'.
Proof.
  intros Ht Hs. revert p. induction fuel as [|f IH]; intros p; cbn [reap_unlink]; cbv zeta;
    destruct (Z.eqb_spec (next (get s p)) t) as [E|E].
  1,3: intros [= <-]; apply unlink_inv; [done|]; apply (get_present next s p); by rewrite E.
  all: bcase; [intros [= <-]; split_and!; [done|]; split_and!; [done|done|]; intros a u Ha; exists (next u); rewrite Ha; by destruct u|].
  - done.
  - apply IH.
Qed.

(** Reaping a dead task that is not the current one. *)
Lemma sched_reap_inv s t tk s' : sinv s -> store s !! t = Some tk -> state tk = TASK_ZOMBIE -> t <> idle_task ->
  sched_reap t s = Some s' -> sinv s' /\ current s' = current s.
Proof.
  intros Hs Ht Hz Hid. unfold sched_reap.
  assert (t <> 0) as Ht0 by (intros ->; rewrite (ti_null _ _ (si_tasks _ Hs)) in Ht; done).
  destruct (if task_list s =? 0 then Some s else reap_unlink (fuel_of s) t (task_list s) s) as [s1|] eqn:E; [|done].
  assert (sinv s1 /\ same_tasks s s1) as [H1 (Hc1 & _ & Hst)].
  { destruct (task_list s =? 0); [|by eapply reap_unlink_inv]. injection E as <-. split; [done|].
    split_and!; [done|done|]. intros a u Ha. exists (next u). rewrite Ha. by destruct u. }
  cbn [mbind option_bind]. intros [= <-]. destruct (Hst t tk Ht) as [n Hn]. set (tk1 := set_next n tk) in *.
  assert (state tk1 = TASK_ZOMBIE) as Hz1 by done. clearbody tk1. clear Hst E Ht Hz tk.
  split; [|done]. change (get (with_tasks _ s1) t) with (get s1 t). rewrite (get_store _ _ _ Hn).
  cbn [env with_tasks kernel_env Sched.kfree Sched.hal_addrspace_destroy Sched.hal_paging_kernel_dir].
  destruct H1 as [[Hh Hf Hd H0 Hi] (u & Hu & Huz)].
  assert (current s1 <> t) as Hct by (intros Ec; rewrite Ec, Hn in Hu; injection Hu as <-; done).
  unfold others, descs in Hh. rewrite !(gather_delete _ _ _ _ Hn), (Hd t tk1 Hn ltac:(done) Hz1) in Hh.
  unfold task_blocks at 1 in Hh. rewrite decide_False in Hh by done. unfold nz at 1 in Hh.
  rewrite filter_cons_True in Hh by done. cbn [app] in Hh.
  split; [split|]; cbn [store env current with_env].
  - apply kfree_held.
    match goal with |- context [if negb (addrspace tk1 =? 0) && ?b then ?x else ?y] =>
      set (e1 := if negb (addrspace tk1 =? 0) && b then x else y) end.
    assert (forall X ds, held X (env s1) ds -> held X e1 ds) as He1 by (unfold e1; destruct (_ && _); auto with fento).
    apply He1 in Hh. clearbody e1. destruct (Z.eqb_spec (kstack tk1) 0) as [Ek|Ek]; cbn [negb].
    + by rewrite Ek in Hh.
    + unfold nz at 1 in Hh. rewrite filter_cons_True in Hh by done. cbn [app] in Hh. apply kfree_held.
      revert Hh. apply held_objects_perm; [|done|done]. apply Permutation_swap.
  - intros a v Ha. apply lookup_delete_Some in Ha as [_ Ha]. eauto.
  - intros a v Ha. apply lookup_delete_Some in Ha as [_ Ha]. eauto.
  - by apply lookup_delete_None; right.
  - destruct Hi as (ti & Hi & Hip). exists ti. by rewrite lookup_delete_ne.
  - exists u. by rewrite lookup_delete_ne.
Qed.


(** ** At boot *)

(** A heap and nothing open. *)
Lemma nothing_held h bs cx ts : Heap.wf h bs -> held [] (Services h ∅ ∅ cx ts) [].
Proof.
  intros Hw. split; [split; [split|..]|..]; try done.
  - exists bs. split; [done|]. intros x Hx. by apply not_elem_of_nil in Hx.
  - constructor.
  - apply not_elem_of_nil.
  - intros f Hf. by apply not_elem_of_nil in Hf.
Qed.

Lemma sched_init_tinv e : held [] e [] -> tinv None (sched_init e).
Proof.
  intros He. unfold sched_init. cbn [Sched.hal_context_init kernel_env].
  destruct (File.hal_context_init _ _ e) as [c e'] eqn:Ec. unfold File.hal_context_init in Ec. injection Ec as <- <-.
  set (idle := Task _ _ _ _ _ _ _ _ _ _ _ _ _ _ _ _ _ _ _ _ _ _).
  assert (forall a t, ({[idle_task := idle]} : gmap Z task) !! a = Some t -> a = idle_task /\ t = idle) as Hone
    by (by intros a t [<- <-]%lookup_singleton_Some).
  split; cbn [store env current].
  - apply held_contexts. exact He.
  - by intros a t [_ ->]%Hone.
  - by intros a t [_ ->]%Hone.
  - done.
  - by exists idle.
Qed.

End KernelInv.
