(* ===== verification/SyscallInv.v ===== *)
(** * System calls keep the bookkeeping invariant

    [keeps m]: from a state that satisfies the invariant of KernelInv, the handler [m]
    only reaches states that satisfy it, whether it returns, gives the processor away,
    ends its task or starts a program. *)

From stdpp Require Import base list gmap numbers sets.
From S2P Require Import Prelude CString Pmm Layout Disk Minix Paging AddrSpace Spaces Heap HeapSpec Pipe Sched.
From S2P Require Import Keyboard Console File FileSpec Kernel Syscall Elf Proc KernelInv.

#[local] Open Scope Z_scope.

Module SyscallInv.
Import Kernel KernelInv FileSpec.

Definition kinv (k : kernel) : Prop := sinv (sch k).

(** A result whose states satisfy the invariant; the current task is still [me] when
    the handler returns. *)
Definition good {A} (me : Z) (r : result A) : Prop :=
  match r with
  | Done _ k => kinv k /\ cur k = me
  | Waits k _ | Exits k | Enters k _ _ => kinv k
  | Halts | Beyond => True
  end.

Definition keeps {A} (me : Z) (m : M A) : Prop := forall k, kinv k -> cur k = me -> good me (m k).

(** Handlers that only look at the state. *)
Definition pure {A} (m : M A) : Prop := forall k,
  match m k with Done _ k' => k' = k | Halts | Beyond => True | _ => False end.

Create HintDb keeps discriminated.

(** ** Composition *)

Section compose.
Context (me : Z).

Lemma keeps_ret {A} (a : A) : keeps me (mret a).
Proof. by intros k Hk. Qed.
Lemma keeps_bind {A B} (m : M A) (g : A -> M B) : keeps me m -> (forall a, keeps me (g a)) -> keeps me (m ≫= g).
Proof.
  intros Hm Hg k Hk Hc. unfold mbind, M_bind. specialize (Hm k Hk Hc). destruct (m k); try done.
  destruct Hm. by apply Hg.
Qed.
Lemma keeps_if {A} (b : bool) (m1 m2 : M A) : keeps me m1 -> keeps me m2 -> keeps me (if b then m1 else m2).
Proof. by destruct b. Qed.
Lemma keeps_gets {A} (g : kernel -> A) : keeps me (gets g).
Proof. by intros k Hk. Qed.
(** The value read is that of the state. *)
Lemma keeps_read {A B} (g : kernel -> A) (m : A -> M B) :
  (forall k, kinv k -> cur k = me -> good me (m (g k) k)) -> keeps me (x ← gets g; m x).
Proof. intros H k Hk Hc. by apply H. Qed.
Lemma keeps_me {B} (m : Z -> M B) : keeps me (m me) -> keeps me (x ← gets cur; m x).
Proof. intros H k Hk Hc. unfold mbind, M_bind, gets. rewrite Hc. by apply H. Qed.
Lemma keeps_modify g : (forall k, kinv k -> cur k = me -> kinv (g k) /\ cur (g k) = me) -> keeps me (modify g).
Proof. intros H k Hk Hc. by apply H. Qed.
Lemma keeps_beyond {A} : keeps me (@beyond A).
Proof. done. Qed.
Lemma keeps_halt {A} : keeps me (@halt A).
Proof. done. Qed.
Lemma keeps_call {A} (g : kernel -> A * kernel) :
  (forall k, kinv k -> cur k = me -> kinv (snd (g k)) /\ cur (snd (g k)) = me) -> keeps me (call g).
Proof. intros H k Hk Hc. specialize (H k Hk Hc). unfold call. by destruct (g k). Qed.

Lemma pure_keeps {A} (m : M A) : pure m -> keeps me m.
Proof. intros Hm k Hk Hc. specialize (Hm k). destruct (m k); try done. by subst. Qed.

(** A store into the current task that leaves its files, stack and state alone. *)
Lemma store_keeps g : (forall t, Sched.files (g t) = Sched.files t /\ Sched.kstack (g t) = Sched.kstack t /\
  Sched.state (g t) = Sched.state t /\ Sched.parent (g t) = Sched.parent t) -> keeps me (modify (upd_task g me)).
Proof.
  intros Hg. apply keeps_modify. intros k Hk Hc. split; [|done]. destruct (si_cur _ Hk) as (t & Ht & _).
  change (Sched.current (sch k)) with (cur k) in Ht. rewrite Hc in Ht. destruct (Hg t) as (E1 & E2 & E3 & E4).
  apply (upd_inv (sch k) me t); try done; [by rewrite E3|by rewrite E4].
Qed.

End compose.

Lemma pure_bind {A B} (m : M A) (g : A -> M B) : pure m -> (forall a, pure (g a)) -> pure (m ≫= g).
Proof.
  intros Hm Hg k. unfold mbind, M_bind. specialize (Hm k). destruct (m k) as [a k'| | | | |]; try done.
  subst. apply Hg.
Qed.
Lemma pure_ret {A} (a : A) : pure (mret a).
Proof. done. Qed.
Lemma pure_if {A} (b : bool) (m1 m2 : M A) : pure m1 -> pure m2 -> pure (if b then m1 else m2).
Proof. by destruct b. Qed.

#[export] Hint Resolve keeps_ret keeps_gets keeps_beyond keeps_halt pure_ret pure_if : keeps.

(** ** User memory *)

Lemma ugetb_pure va : pure (ugetb va).
Proof. intros k. unfold ugetb. destruct (_ <? _); [done|]. by destruct (Spaces.ubyte _ _ _). Qed.

Lemma uget_pure n va : pure (uget n va).
Proof.
  revert va. induction n as [|n IH]; intros va; [done|]. cbn [uget].
  apply pure_bind; [apply ugetb_pure|]. intros b. apply pure_bind; [apply IH|done].
Qed.

Lemma ustr_pure n va : pure (ustr n va).
Proof.
  revert va. induction n as [|n IH]; intros va; [done|]. cbn [ustr].
  apply pure_bind; [apply ugetb_pure|]. intros b. apply pure_if; [done|]. apply pure_bind; [apply IH|done].
Qed.

Lemma loop_pure {S R} p (body : S -> M (S + R)) s : (forall s, pure (body s)) -> pure (loop p body s).
Proof.
  intros H. revert s. induction p as [p IH|p IH|]; intros s; cbn [loop]; [| |done].
  - apply pure_bind; [done|]. intros [s'|x]; [|done]. apply pure_bind; [done|]. by intros [s''|x].
  - apply pure_bind; [done|]. by intros [s'|x].
Qed.

Lemma ustring_pure va : pure (ustring va).
Proof.
  unfold ustring. apply pure_bind; [|by intros [?|?]]. apply loop_pure. intros [a l].
  apply pure_bind; [apply ugetb_pure|done].
Qed.

Lemma build_path_pure t path : pure (Syscall.build_path t path).
Proof.
  unfold Syscall.build_path. apply pure_bind; [apply ugetb_pure|]. intros c.
  apply pure_if; [apply ustr_pure|]. cbv zeta. apply pure_if; [done|]. apply pure_bind; [apply ustr_pure|done].
Qed.

Lemma mach_kinv k s : kinv k -> kinv (with_mach k s).
Proof. intros Hk. apply env_inv; [done|]. intros X ds. apply held_machine. Qed.

Lemma uputb_keeps me va b : keeps me (uputb va b).
Proof. intros k Hk Hc. unfold uputb. destruct (_ <? _); [done|]. cbv zeta. destruct (_ =? 0); [done|].
  split; [by apply mach_kinv|done]. Qed.

Lemma uput_keeps me va l : keeps me (uput va l).
Proof.
  revert va. induction l as [|b l IH]; intros va; [apply keeps_ret|]. cbn [uput].
  apply keeps_bind; [apply uputb_keeps|]. intros _. apply IH.
Qed.

#[export] Hint Resolve ugetb_pure uget_pure ustr_pure ustring_pure build_path_pure : keeps.
#[export] Hint Resolve uputb_keeps uput_keeps pure_keeps : keeps.

(** ** Calls of the parts that hold no descriptors *)

Section calls.
Context (me : Z).

Lemma call_fs_keeps g : keeps me (call_fs g).
Proof. apply keeps_call. intros k Hk Hc. by destruct (g (fs k) (dsk k)). Qed.
Lemma on_con_keeps g : keeps me (on_con g).
Proof. by apply keeps_modify. Qed.
Lemma on_mach_keeps g : keeps me (on_mach g).
Proof. apply keeps_modify. intros k Hk Hc. split; [by apply mach_kinv|done]. Qed.
Lemma call_mach_keeps {A} (g : _ -> A * _) : keeps me (call_mach g).
Proof. apply keeps_call. intros k Hk Hc. destruct (g (mach k)). split; [by apply mach_kinv|done]. Qed.
Lemma kbd_keeps {A} (g : Keyboard.keyboard -> A * Keyboard.keyboard) :
  keeps me (call (fun k => let '(c, b) := g (kbd k) in (c, with_kbd k b))).
Proof. apply keeps_call. intros k Hk Hc. by destruct (g (kbd k)). Qed.
Lemma yield_keeps p : keeps me (sleep Sched.sched_yield p).
Proof.
  intros k Hk Hc. unfold sleep. destruct (Sched.sched_yield (sch k)) as [s|] eqn:E; [|done].
  by apply (sched_yield_inv (sch k)).
Qed.
Lemma block_keeps p : keeps me (sleep Sched.sched_block p).
Proof.
  intros k Hk Hc. unfold sleep. destruct (Sched.sched_block (sch k)) as [s|] eqn:E; [|done].
  by apply (sched_block_inv (sch k)).
Qed.
Lemma leave_keeps code : keeps me (Syscall.leave code).
Proof.
  intros k Hk Hc. unfold Syscall.leave. destruct (Sched.sched_exit code (sch k)) as [s|] eqn:E; [|done].
  by apply (sched_exit_inv (sch k) code).
Qed.
End calls.

#[export] Hint Resolve call_fs_keeps on_con_keeps on_mach_keeps call_mach_keeps kbd_keeps yield_keeps
  block_keeps leave_keeps : keeps.

(** Walks through a handler; what is left are the stores into tasks and files. *)
Ltac walk :=
  intros;
  lazymatch goal with
  | |- keeps _ (mbind _ _) => apply keeps_bind; walk
  | |- keeps _ (if _ then _ else _) => apply keeps_if; walk
  | |- keeps _ (let '_ := ?x in _) => destruct x; walk
  | |- keeps _ (match ?x with _ => _ end) => destruct x; walk
  | |- keeps _ _ => try solve [auto with keeps]
  | |- _ => idtac
  end.

(** ** Handlers without descriptors *)

Section handlers.
Context `{STK : !Stack} (me : Z).

Lemma on_path_keeps path g : keeps me (Syscall.on_path path g).
Proof. unfold Syscall.on_path. walk. Qed.
Lemma write_console_keeps n buf : keeps me (Syscall.write_console n buf).
Proof. revert buf. induction n as [|n IH]; intros buf; cbn [Syscall.write_console]; walk. Qed.
Lemma read_console_keeps fuel t out count got : keeps me (Syscall.read_console fuel t out count got).
Proof. revert got. induction fuel as [|f IH]; intros got; cbn [Syscall.read_console]; walk. Qed.
Lemma sys_setuid_keeps tf : keeps me (Syscall.sys_setuid tf).
Proof. unfold Syscall.sys_setuid. apply keeps_me. walk. by apply store_keeps. Qed.
Lemma sys_setgid_keeps tf : keeps me (Syscall.sys_setgid tf).
Proof. unfold Syscall.sys_setgid. apply keeps_me. walk. by apply store_keeps. Qed.
Lemma sys_chdir_keeps tf : keeps me (Syscall.sys_chdir tf).
Proof. unfold Syscall.sys_chdir. apply keeps_me. walk. by apply store_keeps. Qed.
Lemma sys_brk_keeps tf : keeps me (Syscall.sys_brk tf).
Proof. unfold Syscall.sys_brk. apply keeps_me. cbv zeta. walk. by apply store_keeps. Qed.
Lemma sys_ioctl_keeps tf : keeps me (Syscall.sys_ioctl tf).
Proof.
  unfold Syscall.sys_ioctl. apply keeps_me. cbv zeta. walk; (by apply store_keeps) || by apply keeps_modify.
Qed.
Lemma sys_stat_keeps tf : keeps me (Syscall.sys_stat tf).
Proof. unfold Syscall.sys_stat. walk. Qed.
Lemma sys_fstat_keeps tf : keeps me (Syscall.sys_fstat tf).
Proof. unfold Syscall.sys_fstat. cbv zeta. walk. Qed.
Lemma sys_getdents_keeps tf : keeps me (Syscall.sys_getdents tf).
Proof. unfold Syscall.sys_getdents. cbv zeta. walk. Qed.
Lemma sys_getcwd_keeps tf : keeps me (Syscall.sys_getcwd tf).
Proof. unfold Syscall.sys_getcwd. cbv zeta. walk. Qed.

End handlers.
(** ** Handlers that change descriptors *)

Lemma cur_task k : kinv k -> exists t, Sched.store (sch k) !! cur k = Some t /\ task_of k (cur k) = t /\
  Sched.state t <> Sched.TASK_ZOMBIE /\ lenZ (Sched.files t) = 32.
Proof.
  intros Hk. destruct (si_cur _ Hk) as (t & Ht & Hz). exists t. split_and!; [done|by apply get_store|done|].
  by apply (ti_files _ _ (si_tasks _ Hk) _ _ Ht).
Qed.

Lemma fd_ok_spec t fd : Syscall.fd_ok t fd = true -> 0 <= fd < 32 /\ lget 0 (Sched.files t) fd <> 0.
Proof.
  unfold Syscall.fd_ok. intros H%negb_true_iff. apply orb_false_iff in H as [H H3%Z.eqb_neq].
  apply orb_false_iff in H as [H1%Z.ltb_ge H2%Z.leb_gt]. unfold Sched.MAX_FILES in H2. lia.
Qed.

(** [fd_alloc] finds the lowest free entry. *)
Lemma fd_alloc_spec t : (Syscall.fd_alloc t = -1 /\ forall i, 0 <= i < 32 -> lget 0 (Sched.files t) i <> 0) \/
  (0 <= Syscall.fd_alloc t < 32 /\ lget 0 (Sched.files t) (Syscall.fd_alloc t) = 0 /\
   forall i, 0 <= i < Syscall.fd_alloc t -> lget 0 (Sched.files t) i <> 0).
Proof.
  unfold Syscall.fd_alloc. destruct (find_first _ _ _) as [i|] eqn:E.
  - right. apply find_first_Some in E as (Hi & Hz & Hm). change (Z.of_nat (Z.to_nat Sched.MAX_FILES)) with 32 in Hi.
    split_and!; [lia|lia|by apply Z.eqb_eq|]. intros j Hj. apply Z.eqb_neq, (Hm j). lia.
  - left. split; [done|]. intros i Hi. apply Z.eqb_neq.
    apply (find_first_None _ _ _ E i). change (Z.of_nat (Z.to_nat Sched.MAX_FILES)) with 32. lia.
Qed.

Lemma set_fd_kinv k t fd f e : kinv k -> Sched.store (sch k) !! cur k = Some t -> 0 <= fd < 32 ->
  (forall ds, descs (Sched.store (sch k)) ≡ₚ nz [lget 0 (Sched.files t) fd] ++ ds -> lenZ ds < 2147483000 ->
     held (others (Sched.store (sch k))) (serv k) (nz [lget 0 (Sched.files t) fd] ++ ds) ->
     held (others (Sched.store (sch k))) e (nz [f] ++ ds)) ->
  kinv (set_file (cur k) fd f (with_serv k e)).
Proof.
  intros Hk Ht Hfd He. destruct (si_cur _ Hk) as (u & Hu & Hz).
  assert (u = t) as -> by (unfold cur in Ht; congruence).
  split; [apply (set_fd_tinv None (sch k) (cur k) t); try done; apply Hk|].
  unfold set_file, upd_task, with_serv, Sched.upd. cbn. eexists. split; [apply lookup_insert_eq|].
  change (Sched.get (Sched.with_env e (sch k)) (cur k)) with (Sched.get (sch k) (cur k)).
  by rewrite (get_store _ _ _ Ht).
Qed.

(** The open file behind a descriptor is live. *)
Lemma fd_in_descs st a t fd : st !! a = Some t -> 0 <= fd < lenZ (Sched.files t) ->
  lget 0 (Sched.files t) fd <> 0 -> lget 0 (Sched.files t) fd ∈ descs st.
Proof.
  intros Ht Hfd Hf. unfold descs. rewrite (gather_delete _ _ _ _ Ht), elem_of_app. left.
  apply list_elem_of_filter. split; [done|]. eapply list_elem_of_lookup_2, lget_lookup; lia.
Qed.

(** Another entry of the same task is among the other descriptors. *)
Lemma fd_rest st a t i j ds : st !! a = Some t -> 0 <= i < lenZ (Sched.files t) -> 0 <= j < lenZ (Sched.files t) ->
  i <> j -> lget 0 (Sched.files t) j <> 0 -> descs st ≡ₚ nz [lget 0 (Sched.files t) i] ++ ds ->
  lget 0 (Sched.files t) j ∈ ds.
Proof.
  intros Ht Hi Hj Hne Hf Hds. destruct (nz_lset (Sched.files t) i Hi) as (R & HR1 & HR2).
  unfold descs in Hds. rewrite (gather_delete _ _ _ _ Ht), HR1, <- app_assoc in Hds.
  apply Permutation_app_inv_l in Hds. rewrite <- Hds, elem_of_app. left.
  assert (R ≡ₚ nz (lset (Sched.files t) i 0)) as -> by (by rewrite HR2).
  apply list_elem_of_filter. split; [done|].
  apply (list_elem_of_lookup_2 _ (Z.to_nat j)). rewrite (lget_lookup 0) by (rewrite lenZ_lset; lia).
  by rewrite lget_lset_ne.
Qed.

Lemma fd_live k t fd : kinv k -> Sched.store (sch k) !! cur k = Some t -> 0 <= fd < 32 ->
  lget 0 (Sched.files t) fd <> 0 -> is_Some (File.filps (serv k) !! lget 0 (Sched.files t) fd).
Proof.
  intros Hk Ht Hfd Hf. apply (held_live _ _ _ (ti_held _ _ (si_tasks _ Hk))).
  eapply fd_in_descs; [done| |done]. by rewrite (ti_files _ _ (si_tasks _ Hk) _ _ Ht).
Qed.

Section descriptors.
Context `{STK : !Stack} (me : Z).

Lemma sys_close_keeps tf : keeps me (Syscall.sys_close tf).
Proof.
  apply keeps_me, keeps_read. intros k Hk Hc. cbv zeta. destruct (Syscall.fd_ok _ _) eqn:E; [|done].
  destruct (cur_task k Hk) as (t & Ht & Et & Hz & _). rewrite Hc in Et. rewrite Et in *.
  apply fd_ok_spec in E as [Hfd Hf]. split; [|done]. rewrite <- Hc.
  apply (set_fd_kinv k t); [done|done|done|]. intros ds _ Hl. rewrite nz_one by done. intros Hh. by apply close_held.
Qed.

Lemma sys_dup_keeps tf : keeps me (Syscall.sys_dup tf).
Proof.
  apply keeps_me, keeps_read. intros k Hk Hc. cbv zeta. destruct (Syscall.fd_ok _ _) eqn:E; [|done]. cbn [negb].
  destruct (cur_task k Hk) as (t & Ht & Et & Hz & Hlen). rewrite Hc in Et. rewrite Et in *.
  apply fd_ok_spec in E as [Hfd Hf]. destruct (fd_alloc_spec t) as [[-> _]|(Hn & Hnz & _)]; [done|].
  destruct (Z.ltb_spec (Syscall.fd_alloc t) 0); [lia|]. split; [|done]. rewrite <- Hc.
  apply (set_fd_kinv k t _ _ (File.filp_ref _ (serv k))); [done|done|done|].
  intros ds Hds Hl Hh. rewrite Hnz in Hds, Hh. cbn [nz filter app] in Hds, Hh. rewrite nz_one by done.
  apply ref_held; [done| |done]. apply (fd_rest _ _ _ (Syscall.fd_alloc t) _ _ Ht); [lia|lia| |done|by rewrite Hnz].
  intros En. rewrite <- En in Hf. done.
Qed.

Lemma sys_dup2_keeps tf : keeps me (Syscall.sys_dup2 tf).
Proof.
  apply keeps_me, keeps_read. intros k Hk Hc. cbv zeta. destruct (Syscall.fd_ok _ _) eqn:E; [|done]. cbn [negb].
  destruct (cur_task k Hk) as (t & Ht & Et & Hz & Hlen). rewrite Hc in Et. rewrite Et in *.
  apply fd_ok_spec in E as [Hfd Hf]. destruct (_ || _) eqn:En; [done|].
  apply orb_false_iff in En as [Hn1%Z.ltb_ge Hn2%Z.leb_gt]. unfold Sched.MAX_FILES in Hn2.
  destruct (Z.eqb_spec (i32 (ebx tf)) (i32 (ecx tf))) as [|Hne]; [done|].
  set (old := lget 0 (Sched.files t) (i32 (ebx tf))) in *. set (nf := lget 0 (Sched.files t) (i32 (ecx tf))).
  assert (kinv (set_file (cur k) (i32 (ecx tf)) old (with_serv k
    (File.filp_ref old (if negb (nf =? 0) then File.filp_close nf (serv k) else serv k))))) as Hr.
  { apply (set_fd_kinv k t); [done|done|lia|]. intros ds Hds Hl Hh. rewrite (nz_one old) by done.
    apply ref_held; [|by apply (fd_rest _ _ _ (i32 (ecx tf)) _ _ Ht); [lia|lia|..]|done].
    fold nf in Hh. destruct (Z.eqb_spec nf 0) as [E0|E0]; cbn [negb].
    - by rewrite E0 in Hh.
    - rewrite nz_one in Hh by done. by apply close_held. }
  rewrite Hc in Hr. destruct (Z.eqb_spec nf 0); cbn [negb] in *; (split; [exact Hr|done]).
Qed.

End descriptors.
(** ** Opening files *)

Lemma good_pure {A B} me (m : M A) (g : A -> M B) k : pure m -> (forall a, good me (g a k)) -> good me ((m ≫= g) k).
Proof.
  intros Hm Hg. unfold mbind, M_bind. specialize (Hm k). destruct (m k) as [a k'| | | | |]; try done.
  subst. apply Hg.
Qed.

Lemma good_fs {B} me (f : Minix.statics -> Disk.disk -> Z * Disk.disk) (g : Z -> M B) k :
  (forall r d, good me (g r (with_dsk k d))) -> good me ((call_fs f ≫= g) k).
Proof.
  intros Hg. unfold mbind, M_bind, call_fs, call. destruct (f (fs k) (dsk k)) as [r d]. apply Hg.
Qed.

(** A new open file with the fields [g] in the free entry [fd] of the current task; when
    there was no room for it the entry stays free. *)
Lemma open_fd_kinv k t fd f e g : kinv k -> Sched.store (sch k) !! cur k = Some t -> 0 <= fd < 32 ->
  lget 0 (Sched.files t) fd = 0 -> File.filp_alloc (serv k) = (f, e) ->
  (forall x, File.refcount (g x) = File.refcount x /\ File.ftype (g x) <> File.FT_PIPE) ->
  kinv (set_file (cur k) fd f (fstore g f (with_serv k e))) /\ cur (set_file (cur k) fd f (fstore g f (with_serv k e))) = cur k.
Proof.
  intros Hk Ht Hfd Hz Hal Hg. split; [|unfold fstore; by destruct (f =? 0)].
  assert (held (others (Sched.store (sch k))) (if f =? 0 then e else File.fupd g f e)
    (nz [f] ++ descs (Sched.store (sch k)))) as He.
  { destruct (filp_alloc_held _ _ _ (ti_held _ _ (si_tasks _ Hk))) as (f' & e' & Hal' & _ & H).
    unfold serv in Hal. rewrite Hal in Hal'. injection Hal' as <- <-.
    destruct H as [(-> & _ & H)|(Hf & _ & Ef & H)]; [done|].
    destruct (Z.eqb_spec f 0); [done|]. rewrite nz_one by done.
    apply (fupd_held _ _ _ _ new_filp); [done|by rewrite Ef, lookup_insert_eq| |apply Hg].
    intros p rd. destruct (Hg new_filp) as [_ Hn]. split; intros (H1 & _); done. }
  assert (kinv (set_file (cur k) fd f (with_serv k (if f =? 0 then e else File.fupd g f e)))) as Hr.
  { apply (set_fd_kinv k t); [done|done|done|]. intros ds Hds _ _. rewrite Hz in Hds. cbn [nz filter app] in Hds.
    by rewrite <- Hds. }
  unfold fstore. by destruct (f =? 0).
Qed.

Lemma alloc_fd_kinv k t fd f e : kinv k -> Sched.store (sch k) !! cur k = Some t -> 0 <= fd < 32 ->
  lget 0 (Sched.files t) fd = 0 -> File.filp_alloc (serv k) = (f, e) ->
  kinv (set_file (cur k) fd f (with_serv k e)).
Proof.
  intros Hk Ht Hfd Hz Hal. apply (set_fd_kinv k t); [done|done|done|]. intros ds Hds _ _. rewrite Hz in Hds.
  destruct (filp_alloc_held _ _ _ (ti_held _ _ (si_tasks _ Hk))) as (f' & e' & Hal' & _ & H).
  unfold serv in Hal. rewrite Hal in Hal'. injection Hal' as <- <-. cbn [nz filter app] in Hds. rewrite <- Hds.
  destruct H as [(-> & _ & H)|(Hf & _ & _ & H)]; [done|]. by rewrite nz_one.
Qed.

Section opening.
Context `{STK : !Stack} (me : Z).

Lemma sys_open_keeps tf : keeps me (Syscall.sys_open tf).
Proof.
  apply keeps_me, keeps_read. intros k Hk Hc. cbv zeta. apply good_pure; [auto with keeps|]. intros full.
  apply good_fs. intros r d. destruct (r <? 0); [done|].
  set (k1 := with_dsk k d). assert (kinv k1) as Hk1 by done. assert (cur k1 = me) as Hc1 by done.
  change (task_of k me) with (task_of k1 me). clearbody k1.
  destruct (cur_task k1 Hk1) as (t & Ht & Et & _). rewrite Hc1 in Et. rewrite Et.
  destruct (fd_alloc_spec t) as [[-> _]|(Hn & Hz & _)]; [done|]. destruct (Z.ltb_spec (Syscall.fd_alloc t) 0); [done|].
  destruct (File.filp_alloc (serv k1)) as [f e] eqn:Ea.
  unfold mbind, M_bind at 1, call_serv, call. rewrite Ea.
  destruct (Z.eqb_spec f 0) as [->|Hf].
  { destruct (filp_alloc_held _ _ _ (ti_held _ _ (si_tasks _ Hk1))) as (f' & e' & Hal' & _ & Ha).
    unfold serv in Ea. rewrite Ea in Hal'. injection Hal' as <- <-. destruct Ha as [(_ & _ & Ha)|(Ha & _)]; [|done].
    split; [|done]. destruct Hk1 as [A B]. split; [|done]. by apply (tinv_ext None (sch k1)). }
  cbn -[set_file fstore kinv]. rewrite <- Hc1. by apply (open_fd_kinv k1 t).
Qed.

Lemma sys_creat_keeps tf : keeps me (Syscall.sys_creat tf).
Proof.
  apply keeps_me, keeps_read. intros k Hk Hc. cbv zeta. apply good_pure; [auto with keeps|]. intros full.
  apply good_fs. intros r d. destruct (r <? 0); [done|].
  set (k1 := with_dsk k d). assert (kinv k1) as Hk1 by done. assert (cur k1 = me) as Hc1 by done.
  change (task_of k me) with (task_of k1 me). clearbody k1.
  destruct (cur_task k1 Hk1) as (t & Ht & Et & _). rewrite Hc1 in Et. rewrite Et.
  destruct (fd_alloc_spec t) as [[-> _]|(Hn & Hz & _)]; [done|]. destruct (Z.ltb_spec (Syscall.fd_alloc t) 0); [done|].
  destruct (File.filp_alloc (serv k1)) as [f e] eqn:Ea.
  unfold mbind, M_bind at 1, call_serv, call. rewrite Ea.
  cbn -[set_file fstore kinv]. rewrite <- Hc1. by apply (open_fd_kinv k1 t).
Qed.

(** ** Offsets *)

(** The offset of the open file behind a descriptor changes; the machine may have. *)
Lemma offset_kinv k t fd o : kinv k -> Sched.store (sch k) !! cur k = Some t -> 0 <= fd < 32 ->
  lget 0 (Sched.files t) fd <> 0 ->
  kinv (fstore (fun x => File.set_offset (o x) x) (lget 0 (Sched.files t) fd) k).
Proof.
  intros Hk Ht Hfd Hf. unfold fstore. destruct (Z.eqb_spec (lget 0 (Sched.files t) fd) 0); [done|].
  destruct (fd_live k t fd Hk Ht Hfd Hf) as [x Hx]. destruct Hk as [A B]. split; [|done].
  apply (tinv_ext None (sch k)); [done|done|]. cbn. by apply (fupd_held _ _ _ _ x); [apply A|..].
Qed.

Lemma sys_lseek_keeps tf : keeps me (Syscall.sys_lseek tf).
Proof.
  apply keeps_read. intros k Hk Hc. cbv zeta. destruct (Syscall.fd_ok _ _) eqn:E; [|done]. cbn [negb].
  destruct (cur_task k Hk) as (t & Ht & Et & _). rewrite Et in *. apply fd_ok_spec in E as [Hfd Hf].
  unfold mbind, M_bind, gets. destruct (negb _); [done|]. cbn -[fstore kinv].
  split; [by apply offset_kinv|]. unfold fstore. by destruct (_ =? 0).
Qed.

(** Stores to user memory change the machine only. *)
Lemma uput_frame va l k : match uput va l k with
  | Done _ k' => exists s, k' = with_mach k s | Halts | Beyond => True | _ => False end.
Proof.
  revert va k. induction l as [|b l IH]; intros va k.
  { exists (mach k). destruct k as [[st tb c tl np sd [[? ? ? ? ?] ? ? ? ?]] ? ? ? ?]. done. }
  cbn [uput]. unfold mbind, M_bind, uputb. destruct (va <? _); [done|]. cbv zeta. destruct (_ =? 0); [done|].
  set (s1 := Paging.set_page _ _ _). specialize (IH (u32 (va + 1)) (with_mach k s1)).
  by destruct (uput _ _ _).
Qed.

End opening.
(** ** Pipes *)

Lemma pput_kinv k p q q' : kinv k -> File.pipes (serv k) !! p = Some q ->
  Pipe.readers q' = Pipe.readers q -> Pipe.writers q' = Pipe.writers q ->
  kinv (with_serv k (File.pput p q' (serv k))).
Proof.
  intros [A B] Hp E1 E2. split; [|done]. apply (tinv_ext None (sch k)); [done|done|].
  apply (pput_held _ _ _ _ q); [apply A|done..].
Qed.

Section pipes.
Context `{STK : !Stack} (me : Z).

Lemma pipe_read_good p buf count k : kinv k -> cur k = me -> is_Some (File.pipes (serv k) !! p) ->
  good me (Syscall.pipe_read p buf count k).
Proof.
  intros Hk Hc [q Hq]. unfold Syscall.pipe_read.
  unfold mbind at 1, M_bind at 1, gets at 1. unfold File.pget. rewrite Hq. cbn [default from_option id].
  destruct (Pipe.pipe_drain (Z.to_nat count) q []) as [got q'] eqn:Ed.
  pose proof (Pipe.pipe_drain_ends _ _ _ _ _ Ed) as [He1 He2].
  pose proof (uput_frame buf got k) as Hu. unfold mbind at 1, M_bind at 1.
  destruct (uput buf got k) as [[] k'| | | | |]; try done. destruct Hu as [s ->].
  assert (kinv (with_mach k s)) as Hk' by (by apply mach_kinv).
  assert (kinv (with_serv (with_mach k s) (File.pput p q' (serv (with_mach k s))))) as H1.
  { by apply (pput_kinv _ p q). }
  unfold mbind, M_bind, on_serv, modify. destruct (0 <? lenZ got); [done|]. destruct (_ =? 0); [done|].
  by apply yield_keeps.
Qed.

Lemma pipe_write_good p buf count n k : kinv k -> cur k = me -> is_Some (File.pipes (serv k) !! p) ->
  good me (Syscall.pipe_write p buf count n k).
Proof.
  intros Hk Hc [q Hq]. unfold Syscall.pipe_write.
  unfold mbind at 1, M_bind at 1, gets at 1. unfold File.pget. rewrite Hq. cbn [default from_option id].
  destruct (count <=? n); [done|]. destruct (_ =? 0); [done|].
  apply good_pure; [auto with keeps|]. intros data.
  destruct (Pipe.pipe_fill data q n) as [done' q'] eqn:Ed.
  pose proof (Pipe.pipe_fill_ends _ _ _ _ _ Ed) as [He1 He2].
  assert (kinv (with_serv k (File.pput p q' (serv k)))) as H1.
  { by apply (pput_kinv _ p q). }
  unfold mbind, M_bind, on_serv, modify. destruct (done' <? count); [|done]. by apply yield_keeps.
Qed.

(** The pipe behind a descriptor is live. *)
Lemma fd_pipe k t fd x : kinv k -> Sched.store (sch k) !! cur k = Some t -> 0 <= fd < 32 ->
  lget 0 (Sched.files t) fd <> 0 -> filp_of k (lget 0 (Sched.files t) fd) = x -> File.ftype x = File.FT_PIPE ->
  is_Some (File.pipes (serv k) !! File.fpipe x).
Proof.
  intros Hk Ht Hfd Hf Hx Hty. destruct (fd_live k t fd Hk Ht Hfd Hf) as [y Hy].
  unfold filp_of, File.fget in Hx. rewrite Hy in Hx. cbn in Hx. subst y.
  by apply (ok_live _ _ (held_ok _ _ _ (ti_held _ _ (si_tasks _ Hk))) _ _ Hy).
Qed.

Lemma sys_write_keeps tf : keeps me (Syscall.sys_write tf).
Proof.
  apply keeps_read. intros k Hk Hc. cbv zeta. destruct (Syscall.fd_ok _ _) eqn:E; [|done]. cbn [negb].
  destruct (cur_task k Hk) as (t & Ht & Et & _). rewrite Et in *. apply fd_ok_spec in E as [Hfd Hf].
  unfold mbind at 1, M_bind at 1, gets at 1. set (x := filp_of k _).
  destruct (Z.eqb_spec (File.ftype x) File.FT_CONS).
  { apply (keeps_bind me); [apply write_console_keeps|intros; apply keeps_ret|done|done]. }
  destruct (Z.eqb_spec (File.ftype x) File.FT_PIPE).
  { destruct (negb _); [done|]. apply pipe_write_good; [done|done|]. by eapply fd_pipe. }
  destruct (_ =? _); [|done]. apply good_pure; [auto with keeps|]. intros data. apply good_fs. intros r d.
  unfold mbind, M_bind, modify. destruct (0 <? r); [|done]. split; [by apply offset_kinv|].
  unfold fstore. by destruct (_ =? 0).
Qed.

Lemma sys_read_keeps tf : keeps me (Syscall.sys_read tf).
Proof.
  apply keeps_me, keeps_read. intros k Hk Hc. cbv zeta. destruct (Syscall.fd_ok _ _) eqn:E; [|done]. cbn [negb].
  destruct (cur_task k Hk) as (t & Ht & Et & _). rewrite Hc in Et. rewrite Et in *. apply fd_ok_spec in E as [Hfd Hf].
  unfold mbind at 1, M_bind at 1, gets at 1. set (x := filp_of k _).
  destruct (Z.eqb_spec (File.ftype x) File.FT_CONS); [by apply read_console_keeps|].
  destruct (Z.eqb_spec (File.ftype x) File.FT_PIPE).
  { destruct (negb _); [done|]. apply pipe_read_good; [done|done|]. by eapply fd_pipe. }
  destruct (_ =? _); [|done]. unfold mbind at 1, M_bind at 1, gets at 1.
  destruct (Minix.minixfs_read _ _ _ _ _ _) as [r out]. unfold mbind at 1, M_bind at 1.
  pose proof (uput_frame (ecx tf) (lsub out 0 r) k) as Hu.
  destruct (uput _ _ _) as [[] k'| | | | |]; try done. destruct Hu as [s ->].
  assert (kinv (with_mach k s)) as Hk' by (by apply mach_kinv).
  unfold mbind, M_bind, modify. destruct (0 <? r); [|done]. split; [by apply offset_kinv|].
  unfold fstore. by destruct (_ =? 0).
Qed.

End pipes.
End SyscallInv.
