(* ===== verification/ProcInv.v ===== *)
(** * Pipes, processes and the dispatch of system calls keep the invariant *)

From stdpp Require Import base list gmap numbers sets.
From S2P Require Import Prelude CString Pmm Layout Disk Minix Paging AddrSpace Spaces Heap HeapSpec Pipe Sched.
From S2P Require Import Keyboard Console File FileSpec Kernel Syscall Elf Proc KernelInv SyscallInv.

#[local] Open Scope Z_scope.

Module ProcInv.
Import Kernel KernelInv FileSpec SyscallInv.

(** ** Creating a pipe *)

(** What a store into a free entry does to the descriptors and blocks. *)
Lemma set_fd_lists k a t fd f : Sched.store (sch k) !! a = Some t -> 0 <= fd < lenZ (Sched.files t) ->
  lget 0 (Sched.files t) fd = 0 ->
  descs (Sched.store (sch (set_file a fd f k))) ≡ₚ nz [f] ++ descs (Sched.store (sch k)) /\
  others (Sched.store (sch (set_file a fd f k))) ≡ₚ others (Sched.store (sch k)) /\
  Sched.store (sch (set_file a fd f k)) !! a = Some (Sched.set_files (lset (Sched.files t) fd f) t).
Proof.
  intros Ht Hfd Hz. destruct (nz_lset (Sched.files t) fd Hfd) as (R & HR1 & HR2). rewrite Hz in HR1.
  unfold set_file, upd_task, Sched.upd. cbn [sch with_sch Sched.store]. rewrite (get_store _ _ _ Ht).
  split_and!; [| |apply lookup_insert_eq].
  - unfold descs. rewrite gather_update, (gather_delete _ _ _ _ Ht). cbn [Sched.files Sched.set_files].
    rewrite HR1, HR2. cbn [nz filter app]. by rewrite app_assoc.
  - unfold others. rewrite gather_update, (gather_delete _ _ _ _ Ht). done.
Qed.

Lemma pipe_create_null X e e' ds : held X e ds -> File.pipe_create e = (0, e') -> held X e' ds.
Proof.
  intros [[A B C] D E] Hp. destruct (pipe_create_heap e _ A) as (p & h & [(_ & Hb & Eq)|(Hn & _ & Eq)]);
    rewrite Eq in Hp; injection Hp; intros; subst; [|done]. split; [split|..]; done.
Qed.

(** The two calls of [filp_alloc] find room, unless there is none for the pipe. *)
Definition pipe_served (k : kernel) : Prop :=
  let '(rf, e1) := File.filp_alloc (serv k) in
  let '(p, e2) := File.pipe_create e1 in
  rf <> 0 /\ (p <> 0 -> fst (File.filp_alloc e2) <> 0).

Section pipe.
Context `{STK : !Stack}.

(** [sys_pipe] up to the stores to user memory: no room for an open end. *)
Lemma pipe_abort_kinv k t rfd e : kinv k -> Sched.store (sch k) !! cur k = Some t -> 0 <= rfd < 32 ->
  lget 0 (Sched.files t) rfd <> 0 ->
  (forall X ds, held X (serv k) ds -> held X e ds) ->
  kinv (set_file (cur k) rfd 0 (with_serv k (File.filp_close (lget 0 (Sched.files t) rfd) e))).
Proof.
  intros Hk Ht Hr Hf He. apply (set_fd_kinv k t); [done|done|done|].
  intros ds _ Hl. rewrite nz_one by done. intros Hh. apply close_held; [by apply He|done].
Qed.

Lemma pipe_done_kinv k t rfd rf e1 p e2 wfd wf e3 : kinv k -> Sched.store (sch k) !! cur k = Some t ->
  0 <= rfd < 32 -> lget 0 (Sched.files t) rfd = 0 ->
  File.filp_alloc (serv k) = (rf, e1) -> rf <> 0 -> File.pipe_create e1 = (p, e2) -> p <> 0 ->
  File.filp_alloc e2 = (wf, e3) -> wf <> 0 ->
  let k1 := set_file (cur k) rfd rf (with_serv k e1) in
  kinv k1 -> 0 <= wfd < 32 -> lget 0 (lset (Sched.files t) rfd rf) wfd = 0 ->
  kinv (set_file (cur k) wfd wf (fstore (File.set_end p 1) wf (fstore (File.set_end p 0) rf (with_serv k1 e3)))).
Proof.
  intros Hk Ht Hr Hz Ha1 Hrf Hp Hp0 Ha2 Hwf k1 Hk1 Hw Hz2.
  assert (lenZ (Sched.files t) = 32) as Hlen by (apply (ti_files _ _ (si_tasks _ Hk) _ _ Ht)).
  destruct (set_fd_lists (with_serv k e1) (cur k) t rfd rf Ht ltac:(lia) Hz) as (Hd & Ho & Hs1).
  rewrite nz_one in Hd by done.
  destruct (pipe_pair_held _ _ _ rf e1 p e2 wf e3 (ti_held _ _ (si_tasks _ Hk)) Ha1 Hrf Hp Hp0 Ha2 Hwf) as [Hh _].
  set (e' := File.fupd (File.set_end p 1) wf (File.fupd (File.set_end p 0) rf e3)) in *.
  assert (kinv (set_file (cur k1) wfd wf (with_serv k1 e'))) as Hfin.
  { eapply (set_fd_kinv k1); [done|apply Hs1|done|]. intros ds Hds _ _.
    cbn [Sched.files Sched.set_files] in Hds. rewrite Hz2 in Hds. cbn [nz filter app] in Hds.
    rewrite nz_one by done. cbn [app]. unfold k1. rewrite Ho. rewrite <- Hds. unfold k1. rewrite Hd. exact Hh. }
  unfold fstore. destruct (Z.eqb_spec wf 0); [done|]. destruct (Z.eqb_spec rf 0); [done|]. exact Hfin.
Qed.

Lemma sys_pipe_good tf k : kinv k -> pipe_served k -> good (cur k) (Syscall.sys_pipe tf k).
Proof.
  intros Hk Hsrv. destruct (cur_task k Hk) as (t & Ht & Et & Hnz & Hlen).
  unfold Syscall.sys_pipe. unfold mbind at 1, M_bind at 1, gets at 1. unfold mbind at 1, M_bind at 1, gets at 1.
  cbv zeta. rewrite Et. destruct (fd_alloc_spec t) as [[-> _]|(Hn & Hz & _)]; [done|].
  destruct (Z.ltb_spec (Syscall.fd_alloc t) 0); [done|]. set (rfd := Syscall.fd_alloc t) in *.
  unfold pipe_served in Hsrv. destruct (File.filp_alloc (serv k)) as [rf e1] eqn:Ea.
  destruct (File.pipe_create e1) as [p e2] eqn:Ep. destruct Hsrv as [Hrf Hwf].
  unfold mbind at 1, M_bind at 1, call_serv at 1, call at 1. rewrite Ea.
  unfold mbind at 1, M_bind at 1, modify at 1. set (k1 := set_file (cur k) rfd rf (with_serv k e1)).
  destruct (set_fd_lists (with_serv k e1) (cur k) t rfd rf Ht ltac:(lia) Hz) as (_ & _ & Hs1).
  assert (kinv k1) as Hk1.
  { by apply (alloc_fd_kinv k t). }
  unfold mbind at 1, M_bind at 1, gets at 1.
  assert (task_of k1 (cur k) = Sched.set_files (lset (Sched.files t) rfd rf) t) as -> by (by apply get_store).
  set (t1 := Sched.set_files (lset (Sched.files t) rfd rf) t) in *.
  assert (lget 0 (Sched.files t1) rfd = rf) as Hrfd by (cbn; rewrite lget_lset_eq; [done|lia]).
  destruct (fd_alloc_spec t1) as [[-> _]|(Hw & Hwz & _)].
  { split; [|done]. pose proof (pipe_abort_kinv k1 t1 rfd e1 Hk1 Hs1 ltac:(lia)) as Hab. rewrite Hrfd in Hab.
    by apply Hab. }
  destruct (Z.ltb_spec (Syscall.fd_alloc t1) 0); [lia|]. set (wfd := Syscall.fd_alloc t1) in *.
  unfold mbind at 1, M_bind at 1, call_serv at 1, call at 1. change (serv k1) with e1. rewrite Ep.
  destruct (Z.eqb_spec p 0) as [->|Hp].
  { split; [|done]. pose proof (pipe_abort_kinv k1 t1 rfd e2 Hk1 Hs1 ltac:(lia)) as Hab. rewrite Hrfd in Hab.
    apply Hab; [done|]. intros X ds Hh. by eapply pipe_create_null. }
  specialize (Hwf Hp). unfold mbind at 1, M_bind at 1, call_serv at 1, call at 1.
  change (serv (with_serv k1 e2)) with e2. destruct (File.filp_alloc e2) as [wf e3] eqn:Ew. cbn [fst] in Hwf.
  unfold mbind at 1, M_bind at 1, modify at 1. unfold mbind at 1, M_bind at 1, modify at 1.
  unfold mbind at 1, M_bind at 1, modify at 1.
  pose proof (pipe_done_kinv k t rfd rf e1 p e2 wfd wf e3 Hk Ht ltac:(lia) Hz Ea Hrf Ep Hp Ew Hwf Hk1 ltac:(lia) Hwz) as Hfin.
  assert (keeps (cur k) (uput32 (ebx tf) rfd;; uput32 (u32 (ebx tf + 4)) wfd;; mret 0)) as Hu.
  { apply keeps_bind; [apply uput_keeps|]. intros _. apply keeps_bind; [apply uput_keeps|]. intros _. apply keeps_ret. }
  apply Hu; [exact Hfin|]. unfold fstore. by destruct (wf =? 0), (rf =? 0).
Qed.

End pipe.
(** ** Fork *)

(** A store into a task other than by its descriptors, stack, state and parent. *)
Lemma upd_kinv k a t g : kinv k -> Sched.store (sch k) !! a = Some t ->
  Sched.files (g t) = Sched.files t -> Sched.kstack (g t) = Sched.kstack t -> Sched.state (g t) = Sched.state t ->
  (a = Sched.idle_task -> Sched.parent (g t) = Sched.parent t) -> kinv (upd_task g a k).
Proof.
  intros Hk Ha E1 E2 E3 E4. apply (upd_inv (sch k) a t); try done; [by rewrite E3|].
  intros Ei. by rewrite E4.
Qed.

Lemma upd_at k a t g : Sched.store (sch k) !! a = Some t -> Sched.store (sch (upd_task g a k)) !! a = Some (g t).
Proof. intros Ha. unfold upd_task, Sched.upd. cbn. by rewrite lookup_insert_eq, (get_store _ _ _ Ha). Qed.

(** One step of the loop that shares the open files. *)
Lemma share_step k c tc i f : kinv k -> Sched.store (sch k) !! c = Some tc -> c <> cur k -> 0 <= i < 32 ->
  Sched.state tc <> Sched.TASK_ZOMBIE -> lget 0 (Sched.files tc) i = 0 -> f <> 0 ->
  f ∈ descs (Sched.store (sch k)) ->
  kinv (with_serv (set_file c i f k) (File.filp_ref f (serv (set_file c i f k)))).
Proof.
  intros Hk Hc Hne Hi Hz Hf0 Hf Hin. split.
  - apply (set_fd_tinv None (sch k) c tc i f (File.filp_ref f (serv k))); try done; [apply Hk|].
    intros ds Hds Hl Hh. rewrite Hf0 in Hds, Hh. cbn [nz filter app] in Hds, Hh. rewrite nz_one by done.
    apply ref_held; [done| |done]. by rewrite <- Hds.
  - destruct (si_cur _ Hk) as (u & Hu & Huz). exists u. split; [|done]. cbn. by rewrite lookup_insert_ne.
Qed.

Lemma share_files_inv k p c tp tc : kinv k -> p = cur k -> p <> c -> Sched.store (sch k) !! p = Some tp ->
  Sched.store (sch k) !! c = Some tc -> Sched.state tc <> Sched.TASK_ZOMBIE ->
  Sched.files tc = replicate (Z.to_nat Sched.MAX_FILES) 0 ->
  let k' := Proc.share_files p c k in
  kinv k' /\ cur k' = cur k /\ Sched.store (sch k') !! p = Some tp /\
  Sched.store (sch k') !! c = Some (Sched.set_files (Sched.files tp) tc).
Proof.
  intros Hk Hp Hpc Htp Htc Hz Hfc k'.
  assert (forall t, lget 0 (replicate (Z.to_nat Sched.MAX_FILES) 0) t = 0) as Hrep.
  { intros t. unfold lget. destruct (t <? 0); [done|].
    rewrite nth_lookup. destruct (replicate _ _ !! _) as [y|] eqn:Ey; [|done]. by apply lookup_replicate in Ey as [-> _]. }
  assert (lenZ (Sched.files tp) = 32) as Hlen by (apply (ti_files _ _ (si_tasks _ Hk) _ _ Htp)).
  pose proof (for_loop_ind (fun i k1 => kinv k1 /\ cur k1 = cur k /\ Sched.store (sch k1) !! p = Some tp /\
    exists fs, Sched.store (sch k1) !! c = Some (Sched.set_files fs tc) /\ lenZ fs = 32 /\
      forall j, 0 <= j < 32 -> lget 0 fs j = if j <? i then lget 0 (Sched.files tp) j else 0)
    (fun i k =>
      let f := lget 0 (Sched.files (task_of k p)) i in
      if negb (f =? 0)
      then let k1 := set_file c i f k in with_serv k1 (File.filp_ref f (serv k1))
      else k) 0 (Z.to_nat Sched.MAX_FILES) k) as H.
  destruct H as (H1 & H2 & H3 & fs & H4 & H5 & H6).
  - split_and!; [done..|]. exists (Sched.files tc). split_and!; [by destruct tc|by rewrite Hfc|].
    intros j Hj. destruct (Z.ltb_spec j 0); [lia|]. rewrite Hfc. apply Hrep.
  - intros i k1 Hi (Hk1 & Hc1 & Hp1 & fs & Hfs & Hl & Hget). change (Z.of_nat (Z.to_nat Sched.MAX_FILES)) with 32 in Hi.
    cbv zeta. change (task_of k1 p) with (Sched.get (sch k1) p). rewrite (get_store _ _ _ Hp1).
    set (f := lget 0 (Sched.files tp) i). destruct (Z.eqb_spec f 0) as [E|E]; cbn [negb].
    + split_and!; [done..|]. exists fs. split_and!; [done..|]. intros j Hj. rewrite Hget by done.
      destruct (Z.ltb_spec j i), (Z.ltb_spec j (i + 1)); try lia; try done. assert (j = i) as -> by lia. symmetry. exact E.
    + split_and!.
      * apply (share_step k1 c (Sched.set_files fs tc)); [done|done|congruence|lia|done| |done|].
        { cbn. rewrite Hget by lia. destruct (Z.ltb_spec i i); [lia|done]. }
        apply (fd_in_descs _ p tp i); [done|lia|done].
      * done.
      * cbn. rewrite lookup_insert_ne by done. done.
      * exists (lset fs i f). cbn. rewrite lookup_insert_eq.
        rewrite (get_store _ _ _ Hfs).
        split_and!; [done|by rewrite lenZ_lset|]. intros j Hj. rewrite lget_lset by lia. rewrite Hget by done.
        destruct (Z.eqb_spec i j) as [Eij|Nij].
        { rewrite <- Eij. destruct (Z.ltb_spec i (i + 1)); [done|lia]. }
        destruct (Z.ltb_spec j i), (Z.ltb_spec j (i + 1)); lia || done.
  - unfold k', Proc.share_files. split_and!; [done..|]. etransitivity; [exact H4|]. do 2 f_equal.
    apply (lists_eq_lget 0); [congruence|]. intros j Hj. rewrite H5 in Hj. rewrite H6 by done.
    change (0 + Z.of_nat (Z.to_nat Sched.MAX_FILES)) with 32. destruct (Z.ltb_spec j 32); [done|lia].
Qed.

Lemma contexts_kinv k c : kinv k -> kinv (with_serv k (File.with_contexts (serv k) c)).
Proof. intros Hk. apply env_inv; [done|]. intros X ds. apply held_contexts. Qed.

(** What [fork] leaves behind: the child [c] with the parent's identity, files and
    memory, ready to return 0 to user mode. *)
Record forked (tf : trapframe) (k k' : kernel) (r c : Z) (t : Sched.task) : Prop := {
  fk_new : Sched.store (sch k) !! c = None;
  fk_task : Sched.store (sch k') !! c = Some t;
  fk_pid : Sched.pid t = r /\ r = Sched.next_pid (sch k);
  fk_parent : Sched.parent t = cur k /\ Sched.ppid t = Sched.pid (task_of k (cur k));
  fk_ids : Sched.uid t = Sched.uid (task_of k (cur k)) /\ Sched.gid t = Sched.gid (task_of k (cur k)) /\
    Sched.cwd t = Sched.cwd (task_of k (cur k)) /\ Sched.brk t = Sched.brk (task_of k (cur k));
  fk_files : Sched.files t = Sched.files (task_of k (cur k));
  fk_ready : Sched.state t = Sched.TASK_READY;
  fk_space : exists s1 s', Sched.sched_alloc (Sched.name (task_of k (cur k))) (sch k) = (c, s1) /\
    Paging.hal_addrspace_clone (Sched.addrspace (task_of k (cur k))) (mach (with_sch k s1)) = (Sched.addrspace t, s') /\
    mach k' = s' /\ Sched.addrspace t <> 0;
  fk_context : File.contexts (serv k') !! Sched.ctx t = Some (File.ReturnsToUser (words_of (set_eax 0 tf))) }.

(** When [fork] fails: no task, or no frame for the page directory. *)
Definition fork_fails (k : kernel) : Prop :=
  let p := task_of k (cur k) in
  let '(c, s1) := Sched.sched_alloc (Sched.name p) (sch k) in
  c = 0 \/ fst (Paging.hal_addrspace_clone (Sched.addrspace p) (mach (with_sch k s1))) = 0.

(** The contexts and the machine while open files are shared. *)
Lemma share_files_env p c k : File.contexts (serv (Proc.share_files p c k)) = File.contexts (serv k) /\
  mach (Proc.share_files p c k) = mach k.
Proof.
  unfold Proc.share_files.
  apply (for_loop_ind (fun _ k1 => File.contexts (serv k1) = File.contexts (serv k) /\ mach k1 = mach k)); [done|].
  intros i k1 _ [H1 H2]. cbv zeta. destruct (negb _); [|done]. cbn. unfold File.filp_ref. by destruct (_ =? 0).
Qed.

Lemma fork_context_spec ks tf e : exists cx, Proc.fork_context ks tf e =
  (cx, File.with_contexts e (<[cx := File.ReturnsToUser (words_of (set_eax 0 tf))]> (File.contexts e))).
Proof. eexists. unfold Proc.fork_context. reflexivity. Qed.

(** The run list is the ring [q] and the new task [c] is not on it. *)
Definition joins (k : kernel) (q : list Z) (c : Z) : Prop :=
  Sched.ring (sch k) q /\ (c ∉ q) /\ c <> 0 /\ c <> Sched.idle_task.

(** Stores that do not move links keep the ring. *)
Lemma joins_upd k q c a g : (forall t, Sched.next (g t) = Sched.next t) -> joins k q c -> joins (upd_task g a k) q c.
Proof.
  intros Hg (Hr & H). split; [|done]. revert Hr. apply Sched.ring_ext; [done| |].
  - intros p _. by apply Sched.next_upd.
  - intros p _ [u Hu]. unfold upd_task, Sched.upd. cbn. destruct (decide (p = a)) as [->|]; [rewrite lookup_insert_eq; eauto|].
    rewrite lookup_insert_ne by done. eauto.
Qed.

Lemma joins_env k q c e : joins k q c -> joins (with_serv k e) q c.
Proof. intros (Hr & H). split; [|done]. revert Hr. by apply Sched.ring_ext. Qed.

Lemma joins_share k q c p : joins k q c -> joins (Proc.share_files p c k) q c.
Proof.
  intros H. unfold Proc.share_files. apply (for_loop_ind (fun _ k1 => joins k1 q c)); [done|].
  intros i k1 _ H1. cbv zeta. destruct (negb _); [|done]. apply joins_env. by apply joins_upd.
Qed.

Lemma joins_alloc k q nm c s1 tk : Sched.sched_alloc nm (sch k) = (c, s1) -> Sched.store (sch k) !! c = None -> c <> 0 ->
  c <> Sched.idle_task -> Sched.store s1 = <[c := tk]> (Sched.store (sch k)) -> Sched.ring (sch k) q -> joins (with_sch k s1) q c.
Proof.
  intros E Hn H0 Hi Hst Hr.
  assert (Sched.task_list s1 = Sched.task_list (sch k)) as Ht.
  { revert E. unfold Sched.sched_alloc. destruct (Sched.kmalloc _ _) as [t e1]. destruct (t =? 0); [by intros [= <- <-]|].
    destruct (Sched.kmalloc Sched.KSTACK_SIZE e1). by intros [= <- <-]. }
  assert (c ∉ q) as Hq.
  { intros Hin. destruct q as [|x l]; [by apply not_elem_of_nil in Hin|]. destruct Hr as [_ [_ _ Hp _]].
    destruct (Hp c Hin) as [u Hu]. congruence. }
  split; [|done]. revert Hr. apply Sched.ring_ext; [done| |]; intros p Hp; unfold Sched.get; cbn [sch with_sch]; rewrite Hst.
  - rewrite lookup_total_insert_ne; [done|]. by intros ->.
  - intros [u Hu]. rewrite lookup_insert_ne; [eauto|]. by intros ->.
Qed.

Lemma add_child_spec k c t : kinv k -> Sched.store (sch k) !! c = Some t ->
  match (Proc.add_task c;; gets (fun k => Sched.pid (task_of k c))) k with
  | Done r k' => kinv k' /\ cur k' = cur k /\ r = Sched.pid t /\ serv k' = serv k /\
      (exists n, Sched.store (sch k') !! c = Some (Sched.set_next n t)) /\
      forall q, joins k q c -> Sched.ring (sch k') (q ++ [c])
  | Beyond => forall q, ~ joins k q c
  | _ => False end.
Proof.
  intros Hk Hc. unfold mbind, M_bind, Proc.add_task, gets.
  assert (forall q, joins k q c -> exists s, Sched.sched_add c (sch k) = Some s /\ Sched.ring s (q ++ [c])) as Hring.
  { intros q (Hr & H1 & H2 & H3). destruct (Sched.sched_add_ring (sch k) q c Hr H1 H2 H3 ltac:(eauto)) as (s & E & R & _). eauto. }
  destruct (Sched.sched_add c (sch k)) as [s|] eqn:Ea; [|intros q Hq; by destruct (Hring q Hq) as (s & [=] & _)].
  pose proof (sched_add_inv _ _ _ Hk ltac:(eauto) Ea) as Hk7.
  destruct (sched_add_keeps _ _ _ _ _ Ea Hc) as ((nx & Hn) & He & Hcur).
  change (task_of (with_sch k s) c) with (Sched.get s c). rewrite (get_store _ _ _ Hn).
  split_and!; [exact Hk7|exact Hcur|reflexivity|exact He|exists nx; exact Hn|].
  intros q Hq. destruct (Hring q Hq) as (s2 & [= <-] & R). exact R.
Qed.

Lemma fork_tail_spec tf k c t : kinv k -> Sched.store (sch k) !! c = Some t ->
  match Proc.fork_tail tf c k with
  | Done r k' => kinv k' /\ cur k' = cur k /\ r = Sched.pid t /\ mach k' = mach k /\
      (forall q, joins k q c -> Sched.ring (sch k') (q ++ [c])) /\ exists n cx,
      Sched.store (sch k') !! c = Some (Sched.set_next n (Sched.set_ctx cx t)) /\
      File.contexts (serv k') !! cx = Some (File.ReturnsToUser (words_of (set_eax 0 tf)))
  | Beyond => forall q, ~ joins k q c
  | _ => False end.
Proof.
  intros Hk Hc. unfold Proc.fork_tail. rewrite bind_gets. unfold call_serv.
  destruct (fork_context_spec (Sched.kstack (task_of k c)) tf (serv k)) as [cx Ecx].
  erewrite bind_call by (cbv beta; rewrite Ecx; reflexivity). rewrite bind_modify.
  set (e5 := File.with_contexts _ _). set (k6 := upd_task (Sched.set_ctx cx) c (with_serv k e5)).
  assert (kinv k6) as Hk6.
  { apply (upd_kinv _ c t); [apply contexts_kinv, Hk|exact Hc|reflexivity..]. }
  pose proof (upd_at (with_serv k e5) c t (Sched.set_ctx cx) Hc) as Hc6. fold k6 in Hc6.
  assert (forall q, joins k q c -> joins k6 q c) as Hj by (intros q Hq; apply joins_upd; [done|by apply joins_env]).
  pose proof (add_child_spec k6 c _ Hk6 Hc6) as H.
  destruct ((Proc.add_task c;; _) k6) as [r k'| | | | |]; try exact H.
  2:{ intros q Hq. by apply (H q), Hj. }
  destruct H as (H1 & H2 & H3 & H4 & (n & H5) & H6). split_and!; [exact H1|exact H2|exact H3| | |].
  - unfold mach. rewrite H4. reflexivity.
  - intros q Hq. by apply H6, Hj.
  - exists n, cx. split; [exact H5|]. rewrite H4. apply lookup_insert_eq.
Qed.

Lemma fork_rest_spec tf k c tp tc : kinv k -> cur k <> c -> Sched.store (sch k) !! cur k = Some tp ->
  Sched.store (sch k) !! c = Some tc -> Sched.state tc <> Sched.TASK_ZOMBIE ->
  Sched.files tc = replicate (Z.to_nat Sched.MAX_FILES) 0 ->
  match Proc.fork_rest tf (cur k) c k with
  | Done r k' => kinv k' /\ cur k' = cur k /\ r = Sched.pid tc /\ mach k' = mach k /\
      (forall q, joins k q c -> Sched.ring (sch k') (q ++ [c])) /\ exists n cx,
      Sched.store (sch k') !! c = Some (Sched.set_next n (Sched.set_ctx cx (Sched.set_files (Sched.files tp) tc))) /\
      File.contexts (serv k') !! cx = Some (File.ReturnsToUser (words_of (set_eax 0 tf)))
  | Beyond => forall q, ~ joins k q c
  | _ => False end.
Proof.
  intros Hk Hne Htp Htc Hz Hf. unfold Proc.fork_rest. rewrite bind_modify.
  destruct (share_files_inv k (cur k) c tp tc Hk eq_refl Hne Htp Htc Hz Hf) as (Hk4 & Hcur4 & Hp4 & Hc4).
  pose proof (share_files_env (cur k) c k) as [_ Hm4].
  pose proof (fork_tail_spec tf _ c _ Hk4 Hc4) as H. rewrite Hcur4, Hm4 in H.
  destruct (Proc.fork_tail tf c _) as [r k'| | | | |]; try exact H.
  - destruct H as (H1 & H2 & H3 & H4 & H5 & H6). split_and!; try done. intros q Hq. by apply H5, joins_share.
  - intros q Hq. by apply (H q), joins_share.
Qed.

Lemma sys_fork_spec tf k : kinv k -> match Proc.sys_fork_impl tf k with
  | Done r k' => kinv k' /\ cur k' = cur k /\ (r = -1 /\ fork_fails k \/ exists c t, forked tf k k' r c t /\
      forall q, Sched.ring (sch k) q -> Sched.ring (sch k') (q ++ [c]))
  | Beyond => forall q, ~ Sched.ring (sch k) q
  | _ => False end.
Proof.
  intros Hk. destruct (cur_task k Hk) as (tp & Htp & Ep & Hpz & _).
  unfold Proc.sys_fork_impl. rewrite bind_gets, bind_gets, Ep.
  destruct (sched_alloc_inv (Sched.name tp) (sch k) Hk) as (c & s1 & Es & Hs1 & Hc1 & Halloc).
  rewrite (bind_call _ _ k c (with_sch k s1)) by (by rewrite Es).
  destruct Halloc as [[-> Hst]|(Hc0 & Hcid & Hcn & tc & Hst & Hpar & Hready & Hfiles & Hpid & Hname)];
    [split_and!; [done|done|left; split; [done|]]; unfold fork_fails; rewrite Ep, Es; by left|].
  destruct (Z.eqb_spec c 0); [done|]. set (k1 := with_sch k s1). assert (kinv k1) as Hk1 by done.
  assert (Sched.store (sch k1) !! c = Some tc) as Hc1c by (cbn; rewrite Hst; apply lookup_insert_eq).
  assert (c <> cur k) as Hne by congruence.
  rewrite bind_modify. set (k2 := upd_task _ c k1). assert (kinv k2) as Hk2 by (by apply (upd_kinv k1 c tc)).
  pose proof (upd_at k1 c tc (Proc.set_child (cur k) tp) Hc1c) as Hc2. fold k2 in Hc2.
  destruct (Paging.hal_addrspace_clone (Sched.addrspace tp) (mach k2)) as [dir s'] eqn:Ecl.
  unfold call_mach. rewrite (bind_call _ _ k2 dir (with_mach k2 s')) by (by rewrite Ecl). rewrite bind_modify.
  assert (kinv (with_mach k2 s')) as Hk2' by (by apply mach_kinv).
  pose proof (upd_at (with_mach k2 s') c _ (Proc.set_addrspace dir) Hc2) as Hc3.
  set (k3 := upd_task (Proc.set_addrspace dir) c (with_mach k2 s')) in *.
  assert (kinv k3) as Hk3 by (by eapply (upd_kinv (with_mach k2 s') c)).
  assert (cur k3 = cur k) as Hcur3 by exact Hc1.
  destruct (Z.eqb_spec dir 0) as [Ed|].
  { split_and!; [done|done|left; split; [done|]]. unfold fork_fails. rewrite Ep, Es. right.
    change (mach (with_sch k s1)) with (mach k2). by rewrite Ecl. }
  assert (Sched.store (sch k3) !! cur k = Some tp) as Hp3.
  { cbn. rewrite !lookup_insert_ne by done. rewrite Hst. by rewrite lookup_insert_ne. }
  assert (mach k3 = s') as Hm3 by done.
  assert (forall q, Sched.ring (sch k) q -> joins k3 q c) as Hj.
  { intros q Hq. apply joins_upd; [done|]. apply joins_env. apply joins_upd; [done|].
    by apply (joins_alloc k q (Sched.name tp) c s1 tc). }
  clearbody k3.
  pose proof (fork_rest_spec tf k3 c tp _ Hk3 ltac:(congruence) ltac:(by rewrite Hcur3) Hc3
    ltac:(cbn; by rewrite Hready) Hfiles) as Hrest. rewrite Hcur3 in Hrest.
  destruct (Proc.fork_rest tf (cur k) c k3) as [r k'| | | | |]; try done; [|intros q Hq; by apply (Hrest q), Hj].
  destruct Hrest as (Hk' & Hcur' & Hr & Hm & Hrg & nx & cx & Ht & Hcx). split_and!; [done|done|].
  right. eexists c, _. split; [|intros q Hq; by apply Hrg, Hj]. split; [done|exact Ht|..]; rewrite ?Ep; try done.
  - split; [by rewrite Hr|by rewrite Hr].
  - exists s1, s'. split_and!; [exact Es|exact Ecl|congruence|done].
Qed.

End ProcInv.
