(* ===== verification/ElfSpec.v ===== *)
(** * Loading a segment

    What [load_segment] (kernel/i386/elf.c) leaves in the new address space: the bytes
    of the file, and zeros up to the size in memory. *)

From stdpp Require Import base list gmap numbers sets.
From S2P Require Import Prelude CString Pmm Layout Disk Minix MinixTable MinixZones MinixTree MinixFile MinixDir.
From S2P Require Import MinixBytes MinixDemo Paging AddrSpace Spaces Image SpaceDemo Elf.

#[local] Open Scope Z_scope.

Module ElfSpec.
Import MinixTable.MinixTable MinixTree.MinixTree MinixFile.MinixFile MinixBytes.MinixBytes.
Import Paging AddrSpace Spaces Image Elf.

(** ** Mapping the pages of a segment *)

(** No page of [[va, va + 4096 n)] is mapped. *)
Definition unmapped (s : machine) (dir va : Z) (n : nat) : Prop :=
  forall i, 0 <= i < Z.of_nat n -> owned s dir (page_of (va + 4096 * i)) = None.

Lemma map_pages_spec n : forall s dir va r, ok s -> space s dir -> USER_BASE <= va -> va mod 4096 = 0 ->
  va + 4096 * Z.of_nat n <= 4294967296 -> unmapped s dir va n -> avail s (2 * n + r) ->
  exists s' A, map_pages n dir va s = (true, s') /\ wrote s s' dir va va A /\ avail s' r /\
    mapped s' dir va (va + 4096 * Z.of_nat n) /\
    forall a, user_va a -> a / 4096 < va / 4096 \/ va / 4096 + Z.of_nat n <= a / 4096 ->
      owned s' dir (page_of a) = owned s dir (page_of a).
Proof.
  induction n as [|n IH]; intros s dir va r Hok Hs Hva Hal Hend Hun Hav.
  { exists s, ∅. split_and!; [done|by apply wrote_none|done| |done]. intros a Ha. lia. }
  assert (user_va va) as Hv by (unfold user_va; lia). pose proof (user_u32 _ Hv) as H32.
  destruct (map_user_grows s dir va 0 (2 * n + r) Hok Hs H32 Hva) as (f & s1 & A & Em & Hg & Hav1 & Ho & _ & Hoth).
  { rewrite <- (Z.add_0_r va). apply (Hun 0). lia. }
  { by replace (S (S (2 * n + r))) with (2 * S n + r)%nat by lia. }
  pose proof (wrote_grows _ _ _ _ va Hs Hg) as Hw1. cbn [map_pages]. rewrite Em. cbn [Z.ltb Z.compare].
  assert (forall a, user_va a -> a / 4096 <> va / 4096 -> owned s1 dir (page_of a) = owned s dir (page_of a)) as Hoth1.
  { intros a Ha Hne. apply Hoth. apply page_of_ne; [by apply user_u32|done|done]. }
  destruct n as [|n'].
  { exists s1, A. split_and!; [done|done|done| |intros a Ha Hr; apply Hoth1; [done|lia]]. intros a Ha. exists f.
    rewrite <- Ho. f_equal. apply page_of_eq; [unfold is_u32, USER_BASE in *; lia|done|dlia]. }
  assert (u32 (va + 4096) = va + 4096) as Hnx by (apply u32_small; unfold is_u32, USER_BASE in *; lia).
  destruct (IH s1 dir (va + 4096) r) as (s' & B & E' & Hw2 & Hav2 & Hm2 & Ho2).
  - apply Hg.
  - apply Hg.
  - lia.
  - dlia.
  - lia.
  - intros i Hi. replace (va + 4096 + 4096 * i) with (va + 4096 * (i + 1)) by lia.
    rewrite <- (Hun (i + 1)) by lia. apply Hoth1; [unfold user_va; lia|dlia].
  - done.
  - rewrite Hnx. exists s', (A ∪ B). split_and!; [done| |done| |].
    + apply (copied_trans s s1 s' dir va va va); [lia|done|]. destruct Hw2 as [K1 K2 K3 K4 K5 K6].
      split; try done. intros a b Ha _. by apply K6; [|lia].
    + intros a Ha. destruct (decide (a < va + 4096)) as [Hlt|Hge].
      * exists f. apply (wr_mono _ _ _ _ _ _ Hw2). rewrite <- Ho. f_equal.
        apply page_of_eq; [unfold is_u32, USER_BASE in *; lia|done|dlia].
      * apply Hm2. lia.
    + intros a Ha Hr. rewrite Ho2, Hoth1; [done|done|dlia|done|dlia].
Qed.

(** ** Copying a segment from the file *)

Section segment.
Context `{STK : !Stack} (m : Minix.statics) (d : Disk.disk) (ino : Z).
Hypothesis Hinv : fs_inv m d.
Hypothesis Hlive : live m d ino.
Hypothesis Hsize : i_size (iget m d ino) <= MAX_FILE_SIZE.

(** A program header the loader can serve: the bytes are in the file, the segment is
    in user space. *)
Record phdr_ok (ph : elf32_phdr) : Prop := {
  ph_off : 0 <= p_offset ph;
  ph_filesz : 0 <= p_filesz ph <= p_memsz ph;
  ph_file : p_offset ph + p_filesz ph <= i_size (iget m d ino);
  ph_user : USER_BASE <= p_vaddr ph;
  ph_end : p_vaddr ph + p_memsz ph + 4095 < 4294967296 }.

Lemma copy_segment_spec ph dir : phdr_ok ph -> forall fuel done s, ok s -> space s dir ->
  0 <= done <= p_filesz ph -> p_filesz ph - done <= Z.of_nat fuel ->
  mapped s dir (p_vaddr ph) (p_vaddr ph + p_filesz ph) ->
  let s' := copy_segment m d fuel dir ino ph done s in
  wrote s s' dir (p_vaddr ph + done) (p_vaddr ph + p_filesz ph) ∅ /\
  image s' dir (p_vaddr ph + done) (file_bytes m d ino (p_offset ph + done) (p_filesz ph - done)).
Proof.
  intros [H1 H2 H3 H4 H5] fuel. assert (MAX_FILE_SIZE < 2147483648) as Hm by reflexivity.
  induction fuel as [|fuel IH]; intros done s Hok Hs Hd Hf Hmap; cbn [copy_segment].
  { replace (p_filesz ph - done) with 0 by lia. split; [by apply wrote_none|apply image_nil]. }
  destruct (Z.ltb_spec done (p_filesz ph)) as [Hlt|Hge].
  2:{ replace (p_filesz ph - done) with 0 by lia. split; [by apply wrote_none|apply image_nil]. }
  set (chunk := Z.min (p_filesz ph - done) 4096). assert (0 < chunk <= p_filesz ph - done) as Hc by (unfold chunk; lia).
  unfold read_at. rewrite i32_small by lia.
  destruct (read_inside m d ino (p_offset ph + done) chunk Hinv Hlive Hsize) as (out & -> & Hlo & Hout); [lia|lia|lia|].
  destruct (Z.leb_spec chunk 0); [lia|].
  rewrite (u32_small (p_vaddr ph + done)) by (unfold is_u32, USER_BASE in *; lia).
  assert (out = file_bytes m d ino (p_offset ph + done) chunk) as Eout by (rewrite <- Hout, <- Hlo; symmetry; apply lsub_full).
  destruct (copy_mapped s dir (p_vaddr ph + done) out chunk Hok Hs) as [Hw1 Hi1]; [lia|lia|lia| | |].
  { rewrite Eout. apply file_bytes_u8; [done|done|lia|lia]. }
  { apply (mapped_sub _ _ _ _ _ _ Hmap); lia. }
  rewrite Hout in Hi1. set (s1 := hal_addrspace_copy_to _ _ _ _ _) in *.
  destruct (IH (done + chunk) s1) as [Hw2 Hi2]; [apply Hw1|apply Hw1|lia|lia|by apply (mapped_kept _ _ _ _ _ _ _ _ Hw1)|].
  set (s' := copy_segment m d fuel dir ino ph (done + chunk) s1) in *. split.
  - apply (wrote_seq s s1 s'); [apply (wrote_weaken _ _ _ _ _ _ _ _ Hw1)|apply (wrote_weaken _ _ _ _ _ _ _ _ Hw2)]; lia.
  - rewrite (file_bytes_split m d ino _ chunk) by lia. rewrite image_app, file_bytes_len by lia. split.
    + apply (image_kept _ _ _ _ _ _ _ _ Hw2); [lia|rewrite file_bytes_len by lia; lia..|done].
    + replace (p_vaddr ph + done + chunk) with (p_vaddr ph + (done + chunk)) by lia.
      replace (p_offset ph + done + chunk) with (p_offset ph + (done + chunk)) by lia.
      by replace (p_filesz ph - done - chunk) with (p_filesz ph - (done + chunk)) by lia.
Qed.

(** The pages of the segment, and whether [a] lies in one of them. *)
Definition seg_pages (ph : elf32_phdr) : nat :=
  Z.to_nat ((page_up (p_vaddr ph + p_memsz ph) - page_down (p_vaddr ph)) / 4096).
Definition in_seg (ph : elf32_phdr) (a : Z) : Prop :=
  page_down (p_vaddr ph) <= a < page_up (p_vaddr ph + p_memsz ph).

Lemma page_down_spec a : is_u32 a -> page_down a = a - a mod 4096.
Proof. apply mask_page. Qed.
Lemma page_up_spec a : 0 <= a -> a + 4095 < 4294967296 -> page_up a = a + 4095 - (a + 4095) mod 4096.
Proof.
  intros H0 H. unfold page_up. rewrite u32_small by (unfold is_u32; lia). apply mask_page. unfold is_u32. lia.
Qed.

(** What the segment is to hold in memory. *)
Definition seg_image (ph : elf32_phdr) : list Z :=
  file_bytes m d ino (p_offset ph) (p_filesz ph) ++ replicate (Z.to_nat (p_memsz ph - p_filesz ph)) 0.

Lemma load_segment_spec ph dir s r : phdr_ok ph -> ok s -> space s dir ->
  unmapped s dir (page_down (p_vaddr ph)) (seg_pages ph) -> avail s (2 * seg_pages ph + r) ->
  exists s' A, load_segment m d dir ino ph s = (true, s') /\
    wrote s s' dir (p_vaddr ph) (p_vaddr ph + p_memsz ph) A /\ avail s' r /\
    (forall a, user_va a -> ~ in_seg ph a -> owned s dir (page_of a) = None -> owned s' dir (page_of a) = None) /\
    image s' dir (p_vaddr ph) (seg_image ph).
Proof.
  intros Hph Hok Hs Hun Hav. pose proof Hph as [H1 H2 H3 H4 H5].
  assert (is_u32 (p_vaddr ph)) as Hv by (unfold is_u32, USER_BASE in *; lia).
  unfold seg_pages, in_seg in *. rewrite (page_down_spec _ Hv), page_up_spec in * by (unfold USER_BASE in *; lia).
  set (lo := p_vaddr ph - p_vaddr ph mod 4096) in *. set (e := p_vaddr ph + p_memsz ph + 4095) in *.
  set (n := Z.to_nat ((e - e mod 4096 - lo) / 4096)) in *.
  assert (lo + 4096 * Z.of_nat n = e - e mod 4096) as Hn by (unfold n, lo, e; dlia).
  destruct (map_pages_spec n s dir lo r Hok Hs) as (s1 & A & E1 & Hw1 & Hav1 & Hm1 & Ho1).
  { unfold lo, USER_BASE in *. dlia. }
  { unfold lo. dlia. }
  { unfold e in *. dlia. }
  { done. }
  { done. }
  unfold load_segment. rewrite (page_down_spec _ Hv), page_up_spec by (unfold USER_BASE in *; lia).
  fold lo e n. rewrite E1. cbn [negb].
  assert (mapped s1 dir (p_vaddr ph) (p_vaddr ph + p_memsz ph)) as Hmm.
  { apply (mapped_sub _ _ _ _ _ _ Hm1); [unfold lo; dlia|rewrite Hn; unfold e; dlia]. }
  destruct (memset_mapped s1 dir (p_vaddr ph) 0 (p_memsz ph)) as [Hw2 Hi2];
    [apply Hw1|apply Hw1|lia|lia|lia|done|]. set (s2 := hal_addrspace_memset _ _ _ _ _) in *.
  destruct (copy_segment_spec ph dir Hph (Z.to_nat (p_filesz ph)) 0 s2) as [Hw3 Hi3];
    [apply Hw2|apply Hw2|lia|lia|by apply (mapped_kept _ _ _ _ _ _ _ _ Hw2), (mapped_sub _ _ _ _ _ _ Hmm); lia|].
  rewrite !Z.add_0_r, Z.sub_0_r in *. set (s3 := copy_segment m d _ dir ino ph 0 s2) in *.
  assert (wrote s1 s3 dir (p_vaddr ph) (p_vaddr ph + p_memsz ph) ∅) as Hw13.
  { apply (wrote_seq s1 s2 s3); [done|apply (wrote_weaken _ _ _ _ _ _ _ _ Hw3); lia]. }
  exists s3, (A ∪ ∅). split_and!; [done| | | |].
  - apply (copied_trans s s1 s3 dir _ (p_vaddr ph)); [lia| |].
    + destruct Hw1 as [K1 K2 K3 K4 K5 K6]. split; try done. intros a b Ha _. apply K6; [done|lia].
    + done.
  - unfold avail in *. by rewrite (kp_free _ _ _ _ (wr_keeps _ _ _ _ _ _ Hw13)), difference_empty_L.
  - intros a Ha Hout Hnone. destruct (owned s3 dir (page_of a)) as [g|] eqn:Eg; [|done].
    apply (wr_new _ _ _ _ _ _ Hw13) in Eg as [Eg|[]%not_elem_of_empty]. rewrite Ho1 in Eg; [congruence|done|].
    assert (lo mod 4096 = 0) by (unfold lo; dlia). assert ((e - e mod 4096) mod 4096 = 0) by dlia. dlia.
  - unfold seg_image. rewrite image_app, file_bytes_len by lia. split; [done|].
    change (u8 0) with 0 in Hi2.
    replace (Z.to_nat (p_memsz ph)) with (Z.to_nat (p_filesz ph) + Z.to_nat (p_memsz ph - p_filesz ph))%nat in Hi2 by lia.
    rewrite replicate_add in Hi2. apply image_app in Hi2 as [_ Hi2].
    assert (lenZ (replicate (Z.to_nat (p_filesz ph)) 0) = p_filesz ph) as Hl by (unfold lenZ; rewrite length_replicate; lia).
    rewrite Hl in Hi2. apply (image_kept _ _ _ _ _ _ _ _ Hw3); [lia|unfold lenZ; rewrite length_replicate; lia|lia|done].
Qed.

(** ** The whole file *)

Lemma read_at_inside off n : 0 <= off -> 0 <= n -> off + n <= i_size (iget m d ino) ->
  read_at m d ino n (i32 off) = (n, file_bytes m d ino off n).
Proof.
  intros Ho Hn Hend. assert (MAX_FILE_SIZE < 2147483648) as Hm by reflexivity. unfold read_at. rewrite i32_small by lia.
  destruct (read_inside m d ino off n Hinv Hlive Hsize) as (out & -> & Hlo & Hout); [lia|lia|lia|].
  rewrite <- Hout, <- Hlo, lsub_full. done.
Qed.

(** Header number [i], and the headers from [i] on of which there is something to load. *)
Definition header (h : elf32_ehdr) (i : Z) : elf32_phdr :=
  decode_phdr (file_bytes m d ino (e_phoff h + i * e_phentsize h) sizeof_phdr).
Definition loads (h : elf32_ehdr) (i : Z) (n : nat) : list elf32_phdr :=
  filter (fun ph => p_type ph = PT_LOAD) (map (header h) (range i n)).

(** The end of the highest segment. *)
Definition top_of (brk : Z) (l : list elf32_phdr) : Z :=
  fold_left (fun b ph => Z.max b (p_vaddr ph + p_memsz ph)) l brk.
Definition pages_of (l : list elf32_phdr) : nat := fold_right (fun ph n => seg_pages ph + n)%nat 0%nat l.

(** Segments that can be loaded into [dir]: no two share a page, and nothing is there. *)
Record loadable (s : machine) (dir : Z) (l : list elf32_phdr) : Prop := {
  ld_ok : Forall phdr_ok l;
  ld_free : Forall (fun ph => unmapped s dir (page_down (p_vaddr ph)) (seg_pages ph)) l;
  ld_apart : ForallOrdPairs (fun p q => forall a, in_seg p a -> ~ in_seg q a) l }.

Lemma unmapped_in ph s dir : phdr_ok ph -> unmapped s dir (page_down (p_vaddr ph)) (seg_pages ph) <->
  forall a, user_va a -> in_seg ph a -> owned s dir (page_of a) = None.
Proof.
  intros [H1 H2 H3 H4 H5]. assert (is_u32 (p_vaddr ph)) as Hv by (unfold is_u32, USER_BASE in *; lia).
  unfold unmapped, seg_pages, in_seg. rewrite (page_down_spec _ Hv), page_up_spec by (unfold USER_BASE in *; lia).
  set (lo := p_vaddr ph - p_vaddr ph mod 4096). set (e := p_vaddr ph + p_memsz ph + 4095) in *.
  assert (lo mod 4096 = 0) as Hlo by (unfold lo; dlia). assert (USER_BASE <= lo) as Hul by (unfold lo, USER_BASE in *; dlia).
  split.
  - intros H a Ha Hin. rewrite <- (H ((a - lo) / 4096)) by dlia. f_equal.
    apply page_of_eq; unfold is_u32, user_va, USER_BASE in *; dlia.
  - intros H i Hi. apply H; unfold user_va, USER_BASE in *; dlia.
Qed.

Lemma seg_bytes ph a : phdr_ok ph -> p_vaddr ph <= a < p_vaddr ph + p_memsz ph -> user_va a /\ in_seg ph a.
Proof.
  intros [H1 H2 H3 H4 H5] Ha. assert (is_u32 (p_vaddr ph)) as Hv by (unfold is_u32, USER_BASE in *; lia).
  unfold in_seg. rewrite (page_down_spec _ Hv), page_up_spec by (unfold USER_BASE in *; lia).
  split; [unfold user_va; lia|]. split; dlia.
Qed.

Lemma seg_image_len ph : phdr_ok ph -> lenZ (seg_image ph) = p_memsz ph.
Proof.
  intros [_ H2 _ _ _]. unfold seg_image. rewrite lenZ_app, file_bytes_len by lia. unfold lenZ.
  rewrite length_replicate. lia.
Qed.

Lemma load_segments_spec h dir n : forall i brk s r, ok s -> space s dir ->
  (forall j, i <= j < i + Z.of_nat n -> 0 <= e_phoff h + j * e_phentsize h /\
     e_phoff h + j * e_phentsize h + sizeof_phdr <= i_size (iget m d ino)) ->
  loadable s dir (loads h i n) -> avail s (2 * pages_of (loads h i n) + r) ->
  exists s' A, load_segments m d n dir ino h i brk s = (Some (top_of brk (loads h i n)), s') /\
    wrote s s' dir USER_BASE 4294967296 A /\ avail s' r /\
    (forall ph, ph ∈ loads h i n -> image s' dir (p_vaddr ph) (seg_image ph)) /\
    (forall a b, user_va a -> (forall ph, ph ∈ loads h i n -> ~ in_seg ph a) ->
       ubyte s dir a = Some b -> ubyte s' dir a = Some b).
Proof.
  induction n as [|n IH]; intros i brk s r Hok Hs Hhd Hld Hav.
  { exists s, ∅. split_and!; [done|by apply wrote_none|unfold avail, pages_of in *; cbn in *; lia| |done].
    intros ph Hph. by apply not_elem_of_nil in Hph. }
  cbn [load_segments]. destruct (Hhd i ltac:(lia)) as [Hp1 Hp2].
  rewrite (read_at_inside _ sizeof_phdr Hp1 ltac:(done) Hp2). rewrite Z.eqb_refl. cbn [negb]. fold (header h i).
  unfold loads in *. cbn [range map] in *. rewrite filter_cons in *. fold (loads h (i + 1) n) in *.
  destruct (decide (p_type (header h i) = PT_LOAD)) as [Et|Et].
  2:{ destruct (Z.eqb_spec (p_type (header h i)) PT_LOAD); [done|]. cbn [negb].
      apply IH; try done. intros j Hj. apply Hhd. lia. }
  rewrite Et, Z.eqb_refl. cbn [negb]. set (ph := header h i) in *. destruct Hld as [L1 L2 L3].
  inversion L1 as [|? ? Hph L1']. inversion L2 as [|? ? Hun L2']. inversion L3 as [|? ? Hap L3']. subst.
  destruct (load_segment_spec ph dir s (2 * pages_of (loads h (i + 1) n) + r) Hph Hok Hs Hun) as
    (s1 & A & E1 & Hw1 & Hav1 & Hno & Himg).
  { unfold avail in *. cbn [pages_of fold_right] in Hav. fold (pages_of (loads h (i + 1) n)) in Hav. lia. }
  rewrite E1. cbn [negb]. pose proof Hph as [_ P2 _ P4 P5].
  rewrite u32_small by (unfold is_u32, USER_BASE in *; lia).
  replace (if brk <? p_vaddr ph + p_memsz ph then p_vaddr ph + p_memsz ph else brk)
    with (Z.max brk (p_vaddr ph + p_memsz ph)) by (destruct (Z.ltb_spec brk (p_vaddr ph + p_memsz ph)); lia).
  rewrite Forall_forall in L1', L2', Hap.
  destruct (IH (i + 1) (Z.max brk (p_vaddr ph + p_memsz ph)) s1 r) as (s' & B & E2 & Hw2 & Hav2 & Hi2 & Hb2).
  - apply Hw1.
  - apply Hw1.
  - intros j Hj. apply Hhd. lia.
  - split; [by rewrite Forall_forall| |done]. rewrite Forall_forall. intros q Hq.
    apply unmapped_in; [by apply L1'|]. intros a Ha Hin. apply Hno; [done|intros Hc; by apply (Hap q Hq a)|].
    by apply (proj1 (unmapped_in q s dir (L1' q Hq)) (L2' q Hq)).
  - done.
  - exists s', (A ∪ B). split_and!; [exact E2| |done| |].
    + apply (wrote_join s s1 s'); [|done]. apply (wrote_weaken _ _ _ _ _ _ _ _ Hw1); lia.
    + intros q [->|Hq]%elem_of_cons; [|by apply Hi2]. intros j Hj. pose proof Hj as Hj'.
      rewrite seg_image_len in Hj' by done. destruct (seg_bytes ph (p_vaddr ph + j) Hph ltac:(lia)) as [Hu Hin].
      apply Hb2; [done| |by apply Himg]. intros q Hq. by apply (Hap q Hq).
    + intros a b Ha Hout Hab. apply Hb2; [done|intros q Hq; apply Hout; by apply elem_of_cons; right|].
      apply (wr_bytes _ _ _ _ _ _ Hw1); [done| |done]. intros Hin. apply (Hout ph); [by apply elem_of_cons; left|].
      by apply seg_bytes.
Qed.

(** The header of the file, and the headers of its segments, are in the file. *)
Record elf_file (h : elf32_ehdr) : Prop := {
  ef_size : sizeof_ehdr <= i_size (iget m d ino);
  ef_head : decode_ehdr (file_bytes m d ino 0 sizeof_ehdr) = h;
  ef_ok : ehdr_ok h = true;
  ef_num : 0 <= e_phnum h;
  ef_phdrs : forall j, 0 <= j < e_phnum h -> 0 <= e_phoff h + j * e_phentsize h /\
     e_phoff h + j * e_phentsize h + sizeof_phdr <= i_size (iget m d ino) }.
Definition segments (h : elf32_ehdr) : list elf32_phdr := loads h 0 (Z.to_nat (e_phnum h)).

(** C5: Loading an executable whose segments lie in the file and in user space, share no
    page, and find their pages unmapped and enough memory: the loader returns the entry
    point and the first page after the highest segment; every segment holds its bytes
    of the file followed by zeros; nothing else that was mapped changes, and all frames
    taken were free. *)
Theorem elf_load_correct h dir s : elf_file h -> ok s -> space s dir -> loadable s dir (segments h) ->
  avail s (2 * pages_of (segments h)) ->
  exists s' A, elf_load m d dir ino s = (Some (e_entry h, page_up (top_of 0 (segments h))), s') /\
    wrote s s' dir USER_BASE 4294967296 A /\
    (forall ph, ph ∈ segments h -> image s' dir (p_vaddr ph) (seg_image ph)) /\
    (forall a b, user_va a -> (forall ph, ph ∈ segments h -> ~ in_seg ph a) ->
       ubyte s dir a = Some b -> ubyte s' dir a = Some b).
Proof.
  intros [E1 E2 E3 E4 E5] Hok Hs Hld Hav.
  destruct (load_segments_spec h dir (Z.to_nat (e_phnum h)) 0 0 s 0 Hok Hs) as (s' & A & El & Hw & _ & Hi & Hb).
  - intros j Hj. apply E5. lia.
  - done.
  - by rewrite Nat.add_0_r.
  - exists s', A. split_and!; [|done..]. unfold elf_load.
    pose proof (read_at_inside 0 sizeof_ehdr ltac:(lia) ltac:(done) E1) as Hr. change (i32 0) with 0 in Hr. rewrite Hr.
    rewrite Z.eqb_refl. cbn [negb]. rewrite E2, E3. cbn [negb]. by rewrite El.
Qed.

End segment.

(** ** Witness *)

(** An executable of one segment: four bytes of the file at 0x40001000, four zeros. *)
Definition demo_elf : list Z :=
  [127; 69; 76; 70] ++ replicate 12 0 ++ le_bytes 2 2 ++ le_bytes 2 3 ++ le_bytes 4 1 ++ le_bytes 4 1073745922 ++
  le_bytes 4 52 ++ replicate 10 0 ++ le_bytes 2 32 ++ le_bytes 2 1 ++ replicate 6 0 ++
  le_bytes 4 1 ++ le_bytes 4 84 ++ le_bytes 4 1073745920 ++ le_bytes 4 0 ++ le_bytes 4 4 ++ le_bytes 4 8 ++
  le_bytes 4 5 ++ le_bytes 4 4096 ++ [205; 128; 235; 254].
Definition elf_disk : Disk.disk := snd (Minix.minixfs_write MinixDemo.demo_fs MinixDemo.demo_disk 2 demo_elf 88 0).
Definition elf_header : elf32_ehdr := decode_ehdr (file_bytes MinixDemo.demo_fs elf_disk 2 0 sizeof_ehdr).

Lemma elf_disk_ok : fs_inv MinixDemo.demo_fs elf_disk /\ live MinixDemo.demo_fs elf_disk 2 /\
  i_size (iget MinixDemo.demo_fs elf_disk 2) = 88.
Proof.
  assert (bytes demo_elf) as Hb by (apply (bool_decide_eq_true_1 (bytes demo_elf)); vm_compute; reflexivity).
  destruct (minixfs_write_ok MinixDemo.demo_fs MinixDemo.demo_disk 2 demo_elf 88 0 0) as (d' & E & [P1 P2 _ P4 _ _] & _);
    [apply MinixDemo.demo_inv|apply MinixDemo.demo_live; lia|lia|lia|vm_compute; discriminate|vm_compute; discriminate|done
    |apply MinixDemo.demo_free; vm_compute; lia|].
  unfold elf_disk. rewrite E. cbn [snd]. split_and!; [done|apply P2, MinixDemo.demo_live; lia|rewrite P4; vm_compute; reflexivity].
Qed.

Lemma elf_segments : segments MinixDemo.demo_fs elf_disk 2 elf_header = [Phdr 1 84 1073745920 4 8].
Proof. vm_compute. reflexivity. Qed.

Lemma elf_load_correct_witness :
  exists s' A, elf_load MinixDemo.demo_fs elf_disk SpaceDemo.f_dir 2 SpaceDemo.demo = (Some (1073745922, 1073750016), s') /\
    wrote SpaceDemo.demo s' SpaceDemo.f_dir USER_BASE 4294967296 A /\
    image s' SpaceDemo.f_dir 1073745920 [205; 128; 235; 254; 0; 0; 0; 0].
Proof.
  destruct elf_disk_ok as (H1 & H2 & H3).
  destruct (elf_load_correct MinixDemo.demo_fs elf_disk 2 H1 H2 ltac:(rewrite H3; vm_compute; discriminate)
    elf_header SpaceDemo.f_dir SpaceDemo.demo) as (s' & A & E & Hw & Hi & _).
  - split; [rewrite H3; vm_compute; discriminate|reflexivity|vm_compute; reflexivity|vm_compute; discriminate|].
    rewrite H3. intros j Hj. assert (e_phnum elf_header = 1) as En by (vm_compute; reflexivity).
    assert (j = 0) as -> by lia. vm_compute. split; discriminate.
  - apply SpaceDemo.demo_ok.
  - apply SpaceDemo.demo_space.
  - rewrite elf_segments. split.
    + constructor; [|constructor]. split; rewrite ?H3; vm_compute; intuition discriminate.
    + constructor; [|constructor]. change (seg_pages (Phdr 1 84 1073745920 4 8)) with 1%nat.
      intros i Hi. replace i with 0 by lia. vm_compute. reflexivity.
    + repeat constructor.
  - rewrite elf_segments. apply SpaceDemo.demo_avail. vm_compute. lia.
  - exists s', A. rewrite elf_segments in *. split; [exact E|]. split; [exact Hw|].
    exact (Hi _ ltac:(by apply list_elem_of_singleton)).
Defined.

End ElfSpec.
