(* ===== verification/StackSpec.v ===== *)
(** * The initial stack of a program

    [setup_user_stack] (kernel/proc/proc.c) as a memory image: return address, [argc],
    [argv], [envp], the two arrays of pointers and the strings they point to. *)

From stdpp Require Import base list gmap numbers sets.
From S2P Require Import Prelude CString Pmm Layout Disk Minix Paging AddrSpace Spaces Image SpaceDemo.
From S2P Require Import Heap Pipe Sched Keyboard Console File Kernel Syscall Elf Proc.

#[local] Open Scope Z_scope.

Module StackSpec.
Import Paging AddrSpace Spaces Image Proc.

Definition STACK_LOW : Z := USER_STACK_TOP - USER_STACK_SIZE.
Definition STACK_PAGES : nat := 64.

(** ** The image *)

Definition words (l : list Z) : list Z := concat (map (le_bytes 4) l).
Definition strings (l : list (list Z)) : list Z := concat (map (fun s => s ++ [0]) l).
(** The addresses of the strings [l] when they are stored from [va] on. *)
Fixpoint addresses (va : Z) (l : list (list Z)) : list Z :=
  match l with [] => [] | s :: l' => va :: addresses (va + lenZ s + 1) l' end.

Definition str_base (argv envp : list (list Z)) : Z :=
  let a := USER_STACK_TOP - (total_len argv + total_len envp) in a - a mod 4.
Definition envp_base (argv envp : list (list Z)) : Z := str_base argv envp - 4 * (lenZ envp + 1).
Definition argv_base (argv envp : list (list Z)) : Z := envp_base argv envp - 4 * (lenZ argv + 1).

Definition stack_image (argv envp : list (list Z)) : list Z :=
  words [0; lenZ argv; argv_base argv envp; envp_base argv envp] ++
  words (addresses (str_base argv envp) argv ++ [0]) ++
  words (addresses (str_base argv envp + total_len argv) envp ++ [0]) ++
  strings argv ++ strings envp.

(** The strings fit on the stack with their pointers. *)
Definition stack_fits (argv envp : list (list Z)) : Prop :=
  total_len argv + total_len envp + 4 * (lenZ argv + lenZ envp) + 32 <= USER_STACK_SIZE.

Lemma lenZ_words l : lenZ (words l) = 4 * lenZ l.
Proof.
  induction l as [|w l IH]; [done|]. unfold words in *. cbn [map concat]. rewrite lenZ_app, lenZ_le_bytes, IH.
  unfold lenZ. cbn [length]. lia.
Qed.
Lemma lenZ_strings l : lenZ (strings l) = total_len l.
Proof.
  induction l as [|s l IH]; [done|]. unfold strings in *. cbn [map concat total_len fold_right].
  fold (total_len l). rewrite !lenZ_app, IH. change (lenZ [0]) with 1. lia.
Qed.
Lemma lenZ_addresses va l : lenZ (addresses va l) = lenZ l.
Proof. revert va. induction l as [|s l IH]; intros va; [done|]. cbn. rewrite lenZ_cons, IH. unfold lenZ. cbn. lia. Qed.
Lemma total_len_nonneg l : 0 <= total_len l.
Proof. rewrite <- lenZ_strings. apply lenZ_nonneg. Qed.

(** ** Mapping the stack *)

Lemma map_stack_spec s dir r : ok s -> space s dir -> (forall a, STACK_LOW <= a < USER_STACK_TOP -> owned s dir (page_of a) = None) ->
  avail s (2 * STACK_PAGES + r) ->
  exists A, wrote s (map_stack dir s) dir STACK_LOW STACK_LOW A /\ avail (map_stack dir s) r /\
    mapped (map_stack dir s) dir STACK_LOW USER_STACK_TOP.
Proof.
  intros Hok Hs Hun Hav.
  pose (P := fun i (s1 : machine) => exists A, wrote s s1 dir STACK_LOW STACK_LOW A /\
    avail s1 (2 * Z.to_nat (64 - i) + r) /\ mapped s1 dir STACK_LOW (STACK_LOW + 4096 * i) /\
    forall a, STACK_LOW + 4096 * i <= a < USER_STACK_TOP -> owned s1 dir (page_of a) = None).
  assert (P 64 (map_stack dir s)) as (A & H1 & H2 & H3 & _).
  { unfold map_stack. apply (for_loop_ind P _ 0 (Z.to_nat (USER_STACK_SIZE / 4096))).
    - exists ∅. split_and!; [by apply wrote_none|done|intros a Ha; lia|]. intros a Ha. apply Hun. lia.
    - intros i s1 Hi (A & Hw & Hav1 & Hm & Hun1). change (Z.of_nat (Z.to_nat (USER_STACK_SIZE / 4096))) with 64 in Hi.
      change (USER_STACK_TOP - USER_STACK_SIZE) with STACK_LOW. set (va := STACK_LOW + 4096 * i) in *.
      assert (user_va va) as Hv by (unfold va, user_va, USER_BASE, STACK_LOW, USER_STACK_TOP, USER_STACK_SIZE; lia).
      destruct (map_user_grows s1 dir va 0 (2 * Z.to_nat (64 - (i + 1)) + r)) as (f & s2 & B & -> & Hg & Hav2 & Ho & _ & Hoth);
        [apply Hw|apply Hw|by apply user_u32|apply Hv|apply Hun1; unfold va, STACK_LOW, USER_STACK_TOP, USER_STACK_SIZE; lia|
         replace (S (S (2 * Z.to_nat (64 - (i + 1)) + r))) with (2 * Z.to_nat (64 - i) + r)%nat by lia; done|].
      cbn [snd]. exists (A ∪ B). split_and!.
      + apply (wrote_join s s1 s2); [done|]. apply wrote_grows; [apply Hw|done].
      + done.
      + intros a Ha. destruct (decide (a < va)) as [Hlt|Hge].
        * destruct (Hm a) as [g Hgg]; [unfold va in *; lia|]. exists g. by apply (gr_mono _ _ _ _ Hg).
        * exists f. rewrite <- Ho. f_equal. unfold va, user_va, USER_BASE, STACK_LOW, USER_STACK_TOP, USER_STACK_SIZE in *.
          apply page_of_eq; unfold is_u32; dlia.
      + intros a Ha. assert (user_va a) as Hua by (unfold va, user_va, USER_BASE, STACK_LOW, USER_STACK_TOP, USER_STACK_SIZE in *; lia).
        assert (owned s2 dir (page_of a) = owned s1 dir (page_of a)) as ->; [|apply Hun1; unfold va in *; lia].
        apply Hoth, page_of_ne; [by apply user_u32..|]. unfold va, STACK_LOW, USER_STACK_TOP, USER_STACK_SIZE in *. dlia. }
  exists A. split_and!; [done|done|done].
Qed.

(** ** Building downwards *)

Section build.
Context (dir : Z).

(** From [s0] on, only the stack was written; from [lo] on it holds [l]. *)
Record built (s0 s : machine) (lo : Z) (l : list Z) : Prop := {
  bt_wrote : wrote s0 s dir STACK_LOW USER_STACK_TOP ∅;
  bt_mapped : mapped s dir STACK_LOW USER_STACK_TOP;
  bt_low : STACK_LOW <= lo;
  bt_high : lo + lenZ l <= USER_STACK_TOP;
  bt_image : image s dir lo l }.

(** A store below, or above, what is there. *)
Lemma built_below s0 s s' lo hi b l : built s0 s hi l -> STACK_LOW <= lo -> lo + lenZ b = hi ->
  (ok s -> space s dir -> wrote s s' dir lo hi ∅ /\ image s' dir lo b) -> built s0 s' lo (b ++ l).
Proof.
  intros [H1 H2 H3 H4 H5] Hlo Hhi Hst. destruct Hst as [Hw Hi]; [apply H1|apply H1|]. pose proof (lenZ_nonneg l).
  assert (USER_BASE <= STACK_LOW /\ USER_STACK_TOP <= 4294967296) as [U1 U2] by (split; vm_compute; discriminate).
  split; [|by apply (mapped_kept _ _ _ _ _ _ _ _ Hw)|done|rewrite lenZ_app; lia|].
  - apply (wrote_seq s0 s s'); [done|]. apply (wrote_weaken _ _ _ _ _ _ _ _ Hw); lia.
  - rewrite image_app, Hhi. split; [done|]. apply (image_kept _ _ _ _ _ _ _ _ Hw); [lia|lia|lia|done].
Qed.

Lemma built_above s0 s s' lo b l : built s0 s lo l -> lo + lenZ l + lenZ b <= USER_STACK_TOP ->
  (ok s -> space s dir -> wrote s s' dir (lo + lenZ l) (lo + lenZ l + lenZ b) ∅ /\ image s' dir (lo + lenZ l) b) ->
  built s0 s' lo (l ++ b).
Proof.
  intros [H1 H2 H3 H4 H5] Hhi Hst. destruct Hst as [Hw Hi]; [apply H1|apply H1|]. pose proof (lenZ_nonneg l).
  assert (USER_BASE <= STACK_LOW /\ USER_STACK_TOP <= 4294967296) as [U1 U2] by (split; vm_compute; discriminate).
  split; [|by apply (mapped_kept _ _ _ _ _ _ _ _ Hw)|done|rewrite lenZ_app; lia|].
  - apply (wrote_seq s0 s s'); [done|]. apply (wrote_weaken _ _ _ _ _ _ _ _ Hw); lia.
  - rewrite image_app. split; [|done]. apply (image_kept _ _ _ _ _ _ _ _ Hw); [lia|lia|lia|done].
Qed.

(** ** The loops *)

Lemma copy_stack s va b : ok s -> space s dir -> mapped s dir STACK_LOW USER_STACK_TOP -> bytes b ->
  STACK_LOW <= va -> va + lenZ b <= USER_STACK_TOP ->
  let s' := hal_addrspace_copy_to dir va b (lenZ b) s in wrote s s' dir va (va + lenZ b) ∅ /\ image s' dir va b.
Proof.
  intros Hok Hs Hm Hb Hlo Hhi. pose proof (lenZ_nonneg b).
  assert (USER_BASE <= STACK_LOW /\ USER_STACK_TOP <= 4294967296) as [U1 U2] by (split; vm_compute; discriminate).
  destruct (copy_mapped s dir va b (lenZ b) Hok Hs) as [Hw Hi]; [lia|lia|lia|done|apply (mapped_sub _ _ _ _ _ _ Hm); lia|].
  rewrite lsub_full in Hi. done.
Qed.

Lemma put_strings_spec l : forall s0 s lo L, built s0 s lo L -> lo + lenZ L + total_len l <= USER_STACK_TOP ->
  Forall bytes l -> exists s', put_strings dir (lo + lenZ L) l s =
    (addresses (lo + lenZ L) l, lo + lenZ L + total_len l, s') /\ built s0 s' lo (L ++ strings l).
Proof.
  induction l as [|x l IH]; intros s0 s lo L Hb Hfit Hby.
  { exists s. cbn [put_strings]. cbn [total_len fold_right]. rewrite Z.add_0_r. split; [done|].
    unfold strings. cbn. by rewrite app_nil_r. }
  apply Forall_cons in Hby as [Hx Hl]. cbn [put_strings total_len fold_right] in *. fold (total_len l) in *.
  pose proof (total_len_nonneg l) as Ht. assert (lenZ (x ++ [0]) = lenZ x + 1) as Hlx by (rewrite lenZ_app; done).
  pose proof (lenZ_nonneg x) as Hx0. pose proof (lenZ_nonneg L) as HL0.
  set (s1 := hal_addrspace_copy_to dir (lo + lenZ L) (x ++ [0]) (lenZ x + 1) s).
  assert (built s0 s1 lo (L ++ (x ++ [0]))) as Hb1.
  { apply (built_above s0 s); [done|lia|]. intros Hok Hs. rewrite Hlx. pose proof (bt_low _ _ _ _ Hb).
    pose proof (copy_stack s (lo + lenZ L) (x ++ [0]) Hok Hs) as Hc. rewrite Hlx in Hc.
    apply Hc; [apply Hb| |lia|lia]. apply bytes_app. split; [done|]. by repeat constructor. }
  destruct (IH s0 s1 lo (L ++ (x ++ [0])) Hb1) as (s' & E & Hb'); [rewrite lenZ_app, Hlx; lia|done|].
  rewrite lenZ_app, Hlx, Z.add_assoc in E.
  assert (USER_STACK_TOP <= 4294967296 /\ 0 <= STACK_LOW) as [U1 U2] by (split; vm_compute; discriminate).
  pose proof (bt_low _ _ _ _ Hb) as Hlow.
  rewrite u32_small by (unfold is_u32, USER_STACK_TOP in *; lia). rewrite !Z.add_assoc in *. rewrite E.
  exists s'. split; [cbn [addresses]; do 2 f_equal; lia|]. unfold strings in *. cbn [map concat].
  rewrite <- !app_assoc in Hb'. rewrite <- !app_assoc. exact Hb'.
Qed.

(** A word below what is there. *)
Lemma put32_spec s0 s lo hi v L : built s0 s hi L -> lo + 4 = hi -> STACK_LOW <= lo -> is_u32 v ->
  built s0 (put32 dir lo v s) lo (words [v] ++ L).
Proof.
  intros Hb <- Hlo Hv. pose proof (bt_high _ _ _ _ Hb). pose proof (lenZ_nonneg L).
  apply (built_below s0 s _ lo (lo + 4)); [done|done|by rewrite lenZ_words|]. intros Hok Hs.
  unfold put32, words. cbn [map concat]. rewrite app_nil_r, u32_small by done.
  exact (copy_stack s lo (le_bytes 4 v) Hok Hs (bt_mapped _ _ _ _ Hb) (bytes_le_bytes 4 v) Hlo ltac:(rewrite lenZ_le_bytes; lia)).
Qed.

(** An array of pointers below what is there: stored upwards. *)
Lemma put_pointers_wrote l : forall s va, ok s -> space s dir -> mapped s dir STACK_LOW USER_STACK_TOP ->
  Forall is_u32 l -> STACK_LOW <= va -> va + 4 * (lenZ l + 1) <= USER_STACK_TOP ->
  wrote s (put_pointers dir va l s) dir va (va + 4 * (lenZ l + 1)) ∅ /\
  image (put_pointers dir va l s) dir va (words (l ++ [0])).
Proof.
  assert (USER_BASE <= STACK_LOW /\ USER_STACK_TOP <= 4294967295) as [U1 U2] by (split; vm_compute; discriminate).
  assert (forall s va v, ok s -> space s dir -> mapped s dir STACK_LOW USER_STACK_TOP -> is_u32 v -> STACK_LOW <= va ->
    va + 4 <= USER_STACK_TOP -> wrote s (put32 dir va v s) dir va (va + 4) ∅ /\ image (put32 dir va v s) dir va (words [v])) as Hone.
  { intros s va v Hok Hs Hm Hv Hlo Hhi. unfold put32, words. cbn [map concat]. rewrite app_nil_r, u32_small by done.
    exact (copy_stack s va (le_bytes 4 v) Hok Hs Hm (bytes_le_bytes 4 v) Hlo ltac:(rewrite lenZ_le_bytes; lia)). }
  induction l as [|p l IH]; intros s va Hok Hs Hm Hl Hlo Hhi; cbn [put_pointers].
  { apply Hone; try done. }
  apply Forall_cons in Hl as [Hp Hl]. rewrite lenZ_cons in *. pose proof (lenZ_nonneg l).
  destruct (Hone s va p Hok Hs Hm Hp Hlo ltac:(lia)) as [Hw1 Hi1]. set (s1 := put32 dir va p s) in *.
  rewrite u32_small by (unfold is_u32, USER_BASE in *; lia).
  destruct (IH s1 (va + 4)) as [Hw2 Hi2]; [apply Hw1|apply Hw1|by apply (mapped_kept _ _ _ _ _ _ _ _ Hw1)|done|lia|lia|].
  set (s2 := put_pointers dir (va + 4) l s1) in *. split.
  - apply (wrote_seq s s1 s2); [apply (wrote_weaken _ _ _ _ _ _ _ _ Hw1)|apply (wrote_weaken _ _ _ _ _ _ _ _ Hw2)]; lia.
  - change (words ((p :: l) ++ [0])) with (words [p] ++ words (l ++ [0])). rewrite image_app, lenZ_words.
    change (4 * lenZ [p]) with 4. split; [|done].
    apply (image_kept _ _ _ _ _ _ _ _ Hw2); [lia|rewrite lenZ_words; change (4 * lenZ [p]) with 4; lia..|done].
Qed.

Lemma put_pointers_spec s0 s lo l L : built s0 s (lo + 4 * (lenZ l + 1)) L -> STACK_LOW <= lo -> Forall is_u32 l ->
  built s0 (put_pointers dir lo l s) lo (words (l ++ [0]) ++ L).
Proof.
  intros Hb Hlo Hl. pose proof (bt_high _ _ _ _ Hb). pose proof (lenZ_nonneg L).
  apply (built_below s0 s _ lo (lo + 4 * (lenZ l + 1))); [done|done|rewrite lenZ_words, lenZ_app; done|].
  intros Hok Hs. apply put_pointers_wrote; [done|done|apply Hb|done|done|lia].
Qed.

Lemma addresses_u32 va l : 0 <= va -> va + total_len l <= 4294967296 -> Forall is_u32 (addresses va l).
Proof.
  revert va. induction l as [|x l IH]; intros va H0 H; [constructor|]. cbn [addresses total_len fold_right] in *.
  fold (total_len l) in *. pose proof (lenZ_nonneg x). pose proof (total_len_nonneg l).
  constructor; [unfold is_u32; lia|]. apply IH; lia.
Qed.

Lemma mask_word x : is_u32 x -> Z.land x (not32 3) = x - x mod 4.
Proof. apply (mask_low 2). lia. Qed.

Lemma setup_user_stack_spec s argv envp : ok s -> space s dir ->
  (forall a, STACK_LOW <= a < USER_STACK_TOP -> owned s dir (page_of a) = None) -> avail s (2 * STACK_PAGES) ->
  Forall bytes argv -> Forall bytes envp -> stack_fits argv envp ->
  exists sp s' A, setup_user_stack dir argv envp s = (sp, s') /\ sp = argv_base argv envp - 16 /\
    wrote s s' dir STACK_LOW USER_STACK_TOP A /\ image s' dir sp (stack_image argv envp).
Proof.
  intros Hok Hs Hun Hav Ha He Hfit. unfold stack_fits in Hfit.
  destruct (map_stack_spec s dir 0 Hok Hs Hun) as (A & Hw & _ & Hm); [by rewrite Nat.add_0_r|].
  unfold setup_user_stack. set (s0 := map_stack dir s) in *. clearbody s0.
  pose proof (total_len_nonneg argv) as Hta. pose proof (total_len_nonneg envp) as Hte.
  pose proof (lenZ_nonneg argv) as Hna. pose proof (lenZ_nonneg envp) as Hne.
  assert (USER_STACK_TOP = 3221225472 /\ STACK_LOW = 3220963328 /\ USER_STACK_SIZE = 262144) as (UT & UL & US) by done.
  set (sb := str_base argv envp). set (eb := envp_base argv envp). set (ab := argv_base argv envp).
  assert (sb mod 4 = 0 /\ USER_STACK_TOP - (total_len argv + total_len envp) - 3 <= sb /\
    sb + (total_len argv + total_len envp) <= USER_STACK_TOP) as (Hs4 & Hsl & Hsh) by (unfold sb, str_base; dlia).
  assert (eb = sb - 4 * (lenZ envp + 1) /\ ab = eb - 4 * (lenZ argv + 1)) as [Eeb Eab] by done.
  rewrite (u32_small (total_len argv + total_len envp)) by (unfold is_u32; lia).
  rewrite (u32_small (USER_STACK_TOP - _)) by (unfold is_u32; lia).
  rewrite mask_word by (unfold is_u32; lia). change (USER_STACK_TOP - _ - _) with sb.
  assert (built s0 s0 sb []) as B0.
  { split; [apply wrote_none; apply Hw|done|lia|change (lenZ []) with 0; lia|apply image_nil]. }
  destruct (put_strings_spec argv s0 s0 sb [] B0) as (s1 & E1 & B1); [change (lenZ []) with 0; lia|done|].
  change (lenZ []) with 0 in E1. rewrite Z.add_0_r in E1. rewrite E1. cbn [app] in B1.
  destruct (put_strings_spec envp s0 s1 sb (strings argv) B1) as (s2 & E2 & B2); [rewrite lenZ_strings; lia|done|].
  rewrite lenZ_strings in E2. rewrite E2.
  rewrite !(u32_small (sb - _)) by (unfold is_u32; lia).
  replace (sb - (lenZ envp + 1) * 4) with eb by lia. replace (eb - (lenZ argv + 1) * 4) with ab by lia.
  rewrite (u32_small ab) by (unfold is_u32; lia).
  rewrite !(u32_small (ab - _)) by (unfold is_u32; lia).
  assert (built s0 (put_pointers dir eb (addresses (sb + total_len argv) envp) s2) eb
    (words (addresses (sb + total_len argv) envp ++ [0]) ++ strings argv ++ strings envp)) as B3.
  { apply put_pointers_spec; [|lia|apply addresses_u32; lia]. rewrite lenZ_addresses.
    by replace (eb + 4 * (lenZ envp + 1)) with sb by lia. }
  set (s3 := put_pointers dir eb _ s2) in *. clearbody s3.
  assert (built s0 (put_pointers dir ab (addresses sb argv) s3) ab (words (addresses sb argv ++ [0]) ++
    words (addresses (sb + total_len argv) envp ++ [0]) ++ strings argv ++ strings envp)) as B4.
  { apply put_pointers_spec; [|lia|apply addresses_u32; lia]. rewrite lenZ_addresses.
    by replace (ab + 4 * (lenZ argv + 1)) with eb by lia. }
  set (s4 := put_pointers dir ab _ s3) in *. clearbody s4.
  assert (is_u32 eb /\ is_u32 ab /\ is_u32 (lenZ argv) /\ is_u32 0) as (V1 & V2 & V3 & V4) by (unfold is_u32; lia).
  pose proof (put32_spec _ _ (ab - 4) ab eb _ B4 ltac:(lia) ltac:(lia) V1) as B5.
  pose proof (put32_spec _ _ (ab - 8) _ ab _ B5 ltac:(lia) ltac:(lia) V2) as B6.
  pose proof (put32_spec _ _ (ab - 12) _ (lenZ argv) _ B6 ltac:(lia) ltac:(lia) V3) as B7.
  pose proof (put32_spec _ _ (ab - 16) _ 0 _ B7 ltac:(lia) ltac:(lia) V4) as B8.
  eexists _, _, (A ∪ ∅). split; [reflexivity|]. split; [done|]. destruct B8 as [W8 _ _ _ I8]. split.
  - apply (wrote_join s s0); [apply (wrote_weaken _ _ _ _ _ _ _ _ Hw); lia|exact W8].
  - exact I8.
Qed.

(** ** What the program finds *)

(** The string [x] at the address stored at [va]. *)
Definition points_to (s : machine) (va : Z) (x : list Z) : Prop :=
  exists a, is_u32 a /\ image s dir va (le_bytes 4 a) /\ image s dir a (x ++ [0]).

Lemma strings_at s l : forall va, image s dir va (strings l) -> forall i x, l !! i = Some x ->
  exists a, addresses va l !! i = Some a /\ image s dir a (x ++ [0]).
Proof.
  induction l as [|y l IH]; intros va H i x Hi; [done|].
  change (strings (y :: l)) with ((y ++ [0]) ++ strings l) in H. apply image_app in H as [H1 H2].
  destruct i as [|i]; [injection Hi as <-; exists va; done|].
  apply IH; [|done]. rewrite lenZ_app, Z.add_assoc in H2. exact H2.
Qed.

Lemma words_at s l : forall va, image s dir va (words l) -> forall (i : nat) w, l !! i = Some w ->
  image s dir (va + 4 * Z.of_nat i) (le_bytes 4 w).
Proof.
  induction l as [|y l IH]; intros va H i w Hi; [done|].
  change (words (y :: l)) with (le_bytes 4 y ++ words l) in H. apply image_app in H as [H1 H2].
  destruct i as [|i]; [injection Hi as <-; by rewrite Z.mul_0_r, Z.add_0_r|].
  rewrite lenZ_le_bytes in H2. specialize (IH (va + 4) H2 i w Hi).
  by replace (va + 4 * Z.of_nat (S i)) with (va + 4 + 4 * Z.of_nat i) by lia.
Qed.

Lemma pointers_at s ptrs va l : image s dir ptrs (words (addresses va l ++ [0])) -> image s dir va (strings l) ->
  0 <= va -> va + total_len l <= 4294967296 ->
  (forall i x, l !! i = Some x -> points_to s (ptrs + 4 * Z.of_nat i) x) /\
  image s dir (ptrs + 4 * lenZ l) (le_bytes 4 0).
Proof.
  intros Hw Hs H0 H1. split.
  - intros i x Hi. destruct (strings_at s l va Hs i x Hi) as (a & Ha & Hx). exists a. split_and!.
    + pose proof (addresses_u32 va l H0 H1) as Hf. rewrite Forall_forall in Hf. apply Hf.
      by eapply list_elem_of_lookup_2.
    + apply (words_at s (addresses va l ++ [0])); [done|]. by apply lookup_app_l_Some.
    + done.
  - rewrite <- (lenZ_addresses va l). apply (words_at s (addresses va l ++ [0])); [done|].
    by apply list_lookup_middle.
Qed.

End build.

(** C6: The initial stack of a program, built in an address space whose stack region is
    free and with memory for it: the returned stack pointer is word aligned and inside
    the region; from it on there are a null return address, the number of arguments and
    the addresses of the two arrays; entry [i] of each array points to a copy of
    argument (or environment string) [i] with its terminator, and the array ends with a
    null pointer.  Nothing outside the region changes. *)
Theorem setup_user_stack_correct dir s argv envp : ok s -> space s dir ->
  (forall a, STACK_LOW <= a < USER_STACK_TOP -> owned s dir (page_of a) = None) -> avail s (2 * STACK_PAGES) ->
  Forall bytes argv -> Forall bytes envp -> stack_fits argv envp ->
  exists sp s' A uargv uenvp, setup_user_stack dir argv envp s = (sp, s') /\ sp mod 4 = 0 /\
    STACK_LOW <= sp < USER_STACK_TOP /\ wrote s s' dir STACK_LOW USER_STACK_TOP A /\
    image s' dir sp (le_bytes 4 0 ++ le_bytes 4 (lenZ argv) ++ le_bytes 4 uargv ++ le_bytes 4 uenvp) /\
    (forall i x, argv !! i = Some x -> points_to dir s' (uargv + 4 * Z.of_nat i) x) /\
    (forall i x, envp !! i = Some x -> points_to dir s' (uenvp + 4 * Z.of_nat i) x) /\
    image s' dir (uargv + 4 * lenZ argv) (le_bytes 4 0) /\ image s' dir (uenvp + 4 * lenZ envp) (le_bytes 4 0).
Proof.
  intros Hok Hs Hun Hav Ha He Hfit.
  destruct (setup_user_stack_spec dir s argv envp Hok Hs Hun Hav Ha He Hfit) as (sp & s' & A & E & Esp & Hw & Hi).
  unfold stack_image in Hi. rewrite !image_app, !lenZ_words, !lenZ_app, !lenZ_addresses, lenZ_strings in Hi.
  change (lenZ [0; lenZ argv; argv_base argv envp; envp_base argv envp]) with 4 in Hi. change (lenZ [0]) with 1 in Hi.
  unfold stack_fits in Hfit. pose proof (total_len_nonneg argv). pose proof (total_len_nonneg envp).
  pose proof (lenZ_nonneg argv). pose proof (lenZ_nonneg envp).
  assert (USER_STACK_TOP = 3221225472 /\ STACK_LOW = 3220963328 /\ USER_STACK_SIZE = 262144) as (UT & UL & US) by done.
  set (sb := str_base argv envp) in *.
  assert (sb mod 4 = 0 /\ USER_STACK_TOP - (total_len argv + total_len envp) - 3 <= sb /\
    sb + (total_len argv + total_len envp) <= USER_STACK_TOP) as (Hs4 & Hsl & Hsh) by (unfold sb, str_base; dlia).
  destruct Hi as (I1 & I2 & I3 & I4 & I5).
  assert (argv_base argv envp = sp + 16 /\ envp_base argv envp = sp + 16 + 4 * (lenZ argv + 1) /\
    sb = sp + 16 + 4 * (lenZ argv + 1) + 4 * (lenZ envp + 1)) as (E1 & E2 & E3).
  { rewrite Esp. unfold argv_base, envp_base. fold sb. lia. }
  destruct (pointers_at dir s' (argv_base argv envp) sb argv) as [P1 P2];
    [by rewrite E1|by replace (4 * 4) with 16 in I4 by lia; rewrite <- E3 in I4|lia|lia|].
  destruct (pointers_at dir s' (envp_base argv envp) (sb + total_len argv) envp) as [P3 P4];
    [by rewrite E2|by replace (4 * 4) with 16 in I5 by lia; rewrite <- E3 in I5|lia|lia|].
  exists sp, s', A, (argv_base argv envp), (envp_base argv envp). split_and!; try done; [dlia|lia|lia].
Qed.

(** ** Witness *)

Lemma demo_stack_free a : STACK_LOW <= a < USER_STACK_TOP -> owned SpaceDemo.demo SpaceDemo.f_dir (page_of a) = None.
Proof.
  intros Ha. destruct (owned SpaceDemo.demo SpaceDemo.f_dir (page_of a)) as [f|] eqn:E; [|done].
  apply SpaceDemo.demo_owned in E as [[E _]|[[E _]|[E _]]]; [discriminate E|discriminate E|].
  injection E as E _. assert (is_u32 a) as H32 by (unfold is_u32, STACK_LOW, USER_STACK_TOP, USER_STACK_SIZE in *; lia).
  rewrite (proj1 (indices a H32)) in E. unfold STACK_LOW, USER_STACK_TOP, USER_STACK_SIZE in *. dlia.
Qed.

Lemma setup_user_stack_correct_witness :
  exists s' uargv, setup_user_stack SpaceDemo.f_dir [[115; 104]; [45; 99]] [[72; 61; 47]] SpaceDemo.demo = (3221225424, s') /\
    points_to SpaceDemo.f_dir s' (uargv + 4) [45; 99].
Proof.
  destruct (setup_user_stack_correct SpaceDemo.f_dir SpaceDemo.demo [[115; 104]; [45; 99]] [[72; 61; 47]]
    SpaceDemo.demo_ok SpaceDemo.demo_space demo_stack_free) as (sp & s' & A & ua & ue & E & _ & _ & _ & _ & H & _).
  - apply SpaceDemo.demo_avail. unfold STACK_PAGES. lia.
  - apply (bool_decide_eq_true_1 (Forall bytes [[115; 104]; [45; 99]])). vm_compute. reflexivity.
  - apply (bool_decide_eq_true_1 (Forall bytes [[72; 61; 47]])). vm_compute. reflexivity.
  - vm_compute. discriminate.
  - exists s', ua. split; [|exact (H 1%nat [45; 99] eq_refl)].
    assert (fst (setup_user_stack SpaceDemo.f_dir [[115; 104]; [45; 99]] [[72; 61; 47]] SpaceDemo.demo) = 3221225424) as Hsp
      by (vm_compute; reflexivity).
    rewrite E in Hsp. cbn [fst] in Hsp. rewrite <- Hsp. exact E.
Defined.

End StackSpec.
