(* ===== verification/DispatchInv.v ===== *)
(** * Every system call keeps the bookkeeping invariant

    The calls of proc.c that load programs and wait for children, page faults, and
    [dispatch] as a whole. *)

From stdpp Require Import base list gmap numbers sets.
From S2P Require Import Prelude CString Pmm Layout Disk Minix Paging AddrSpace Spaces Heap HeapSpec Pipe Sched.
From S2P Require Import Keyboard Console File FileSpec Kernel Syscall Elf Proc KernelInv SyscallInv ProcInv.

#[local] Open Scope Z_scope.

Module DispatchInv.
Import Kernel KernelInv FileSpec SyscallInv ProcInv.

(** ** Programs *)

Lemma uget32_pure va : pure (uget32 va).
Proof. unfold uget32. apply pure_bind; [apply uget_pure|done]. Qed.

Lemma copy_strings_from_pure ptr read fuel n off : (forall i, pure (ptr i)) -> (forall p, pure (read p)) ->
  pure (Proc.copy_strings_from ptr read fuel n off).
Proof.
  intros Hp Hr. revert n off. induction fuel as [|f IH]; intros n off; cbn [Proc.copy_strings_from];
    (apply pure_bind; [done|]; intros p; apply pure_if; [done|];
     apply pure_bind; [done|]; intros s; cbv zeta; apply pure_if; [done|]); [done|].
  apply pure_bind; [apply IH|done].
Qed.

Lemma copy_strings_pure src : pure (Proc.copy_strings src).
Proof.
  unfold Proc.copy_strings. apply pure_if; [done|].
  apply copy_strings_from_pure; [intros; apply uget32_pure|apply ustring_pure].
Qed.

Lemma exec_path_pure t path : pure (Proc.exec_path t path).
Proof.
  unfold Proc.exec_path. apply pure_bind; [apply ustr_pure|]. intros p. apply pure_if; [done|]. cbv zeta.
  by apply pure_if.
Qed.

#[export] Hint Resolve copy_strings_pure exec_path_pure : keeps.

Section programs.
Context `{STK : !Stack} (me : Z).

Lemma load_image_keeps ino argv envp : keeps me (Proc.load_image ino argv envp).
Proof.
  unfold Proc.load_image. walk. apply keeps_call. intros k Hk Hc.
  destruct (Elf.elf_load _ _ _ _ _) as [r s]. split; [by apply mach_kinv|done].
Qed.

Lemma tss_keeps v : keeps me (on_serv (fun e => File.with_tss e v)).
Proof.
  apply keeps_modify. intros k Hk Hc. split; [|done]. apply env_inv; [done|]. intros X ds. apply held_tss.
Qed.

Lemma sys_execve_keeps tf : keeps me (Proc.sys_execve_impl tf).
Proof.
  unfold Proc.sys_execve_impl. apply keeps_me. walk.
  - apply load_image_keeps.
  - by apply store_keeps.
  - apply tss_keeps.
  - by intros k Hk Hc.
Qed.

Lemma proc_page_fault_keeps tf addr : keeps me (Proc.proc_page_fault tf addr).
Proof. unfold Proc.proc_page_fault. walk. Qed.

(** ** Waiting for children *)

Lemma child_slot_spec parent k i : kinv k -> cur k = parent -> Proc.child_slot parent (sch k) i = true ->
  exists t, Sched.store (sch k) !! Sched.sched_find_slot i (sch k) = Some t /\ Sched.parent t = parent /\
    Sched.sched_find_slot i (sch k) <> Sched.idle_task.
Proof.
  intros Hk Hc. unfold Proc.child_slot. cbv zeta. intros [H1 H2]%andb_true_iff. apply Z.eqb_eq in H2.
  assert (parent <> 0) as Hp.
  { destruct (si_cur _ Hk) as (u & Hu & _). intros E. unfold cur in Hc. rewrite Hc, E, (ti_null _ _ (si_tasks _ Hk)) in Hu. done. }
  destruct (get_present Sched.parent (sch k) (Sched.sched_find_slot i (sch k))) as [t Ht]; [by rewrite H2|].
  exists t. rewrite (get_store _ _ _ Ht) in H2. split_and!; [done|done|]. intros E.
  destruct (ti_idle _ _ (si_tasks _ Hk)) as (u & Hu & Hu0). congruence.
Qed.

Lemma reap_keeps k t tk : kinv k -> cur k = me -> Sched.store (sch k) !! t = Some tk ->
  Sched.state tk = Sched.TASK_ZOMBIE -> t <> Sched.idle_task -> good me (Proc.reap t k).
Proof.
  intros Hk Hc Ht Hz Hid. unfold Proc.reap. destruct (Sched.sched_reap t (sch k)) as [s|] eqn:E; [|done].
  destruct (sched_reap_inv _ _ _ _ Hk Ht Hz Hid E) as [H1 H2]. split; [done|]. unfold cur. cbn. by rewrite H2.
Qed.

Lemma wait4_keeps status : keeps me (Proc.wait4 status).
Proof.
  unfold Proc.wait4. apply keeps_me. apply keeps_read. intros k Hk Hc.
  destruct (find_first _ _ _) as [i|] eqn:E.
  - apply find_first_Some in E as (_ & [Hch Hz]%andb_true_iff & _). apply Z.eqb_eq in Hz.
    destruct (child_slot_spec me k i Hk Hc Hch) as (t & Ht & _ & Hid). rewrite (get_store _ _ _ Ht) in Hz.
    rewrite !bind_gets. set (c := Sched.sched_find_slot i (sch k)) in *. set (pc := Sched.pid _). clearbody pc.
    assert (forall k2, kinv k2 -> cur k2 = me -> Sched.store (sch k2) !! c = Some t ->
      good me ((Proc.reap c;; mret pc) k2)) as Hfin.
    { intros k2 H1 H2 H3. pose proof (reap_keeps k2 c t H1 H2 H3 Hz Hid) as Hr.
      unfold mbind, M_bind. by destruct (Proc.reap c k2). }
    destruct (negb _); [|by apply Hfin]. destruct (_ || _); [done|]. unfold on_mach. rewrite bind_modify. apply Hfin; [by apply mach_kinv|done|done].
  - clear E. rewrite bind_gets. destruct (find_first _ _ _) as [j|]; [|by apply keeps_ret].
    assert (keeps me (modify (upd_task (Sched.set_waiting true) me);; sleep Sched.sched_block (PWait status))) as H.
    { walk. by apply store_keeps. }
    by apply H.
Qed.

End programs.

(** The lemmas about whole handlers: found by the name of the handler. *)
Create HintDb calls discriminated.
#[export] Hint Constants Opaque : calls.
#[export] Hint Variables Opaque : calls.
#[export] Hint Resolve keeps_ret sys_execve_keeps sys_read_keeps sys_write_keeps sys_open_keeps sys_close_keeps
  sys_creat_keeps sys_chdir_keeps sys_lseek_keeps sys_dup_keeps sys_dup2_keeps sys_setuid_keeps sys_setgid_keeps
  sys_ioctl_keeps sys_fstat_keeps sys_stat_keeps sys_getdents_keeps sys_getcwd_keeps sys_brk_keeps : calls.

Section dispatch.
Context `{STK : !Stack}.

(** ** Dispatch *)

(** The calls served by one of the other parts alone, and those that only look. *)
Lemma sys_parts_keep me tf : keeps me (Syscall.sys_unlink tf) /\ keeps me (Syscall.sys_mkdir tf) /\
  keeps me (Syscall.sys_rmdir tf) /\ keeps me (Syscall.sys_chmod tf) /\ keeps me (Syscall.sys_exit tf) /\
  keeps me (Syscall.sys_yield tf).
Proof. split_and!; [apply on_path_keeps..|apply leave_keeps|apply yield_keeps]. Qed.

Lemma sys_looks_keep me tf : keeps me (Syscall.sys_getpid tf) /\ keeps me (Syscall.sys_getppid tf) /\
  keeps me (Syscall.sys_getuid tf) /\ keeps me (Syscall.sys_getgid tf) /\ keeps me (Syscall.sys_sync tf) /\
  keeps me (Syscall.sys_stub tf).
Proof. split_and!; try apply keeps_gets; apply keeps_ret. Qed.

Lemma sys_fork_keeps me tf : keeps me (Proc.sys_fork_impl tf).
Proof.
  intros k Hk Hc. pose proof (sys_fork_spec tf k Hk) as H. destruct (Proc.sys_fork_impl tf k); try done.
  destruct H as (H1 & H2 & _). split; [done|congruence].
Qed.

Lemma sys_wait4_keeps me tf : keeps me (Proc.sys_wait4_impl tf).
Proof. apply wait4_keeps. Qed.

#[local] Hint Resolve sys_fork_keeps sys_wait4_keeps : calls.

Lemma dispatch_spec tf k : kinv k -> eax tf <> 37 -> (eax tf = 42 -> pipe_served k) ->
  good (cur k) (Proc.dispatch tf k).
Proof.
  intros Hk Hkill Hpipe. destruct (sys_parts_keep (cur k) tf) as (H1 & H2 & H3 & H4 & H5 & H6).
  destruct (sys_looks_keep (cur k) tf) as (G1 & G2 & G3 & G4 & G5 & G6).
  pose proof (sys_pipe_good tf k Hk) as Hp. unfold Proc.dispatch.
  repeat match goal with |- good _ (match ?x with _ => _ end _) => destruct x end.
  all: lazymatch goal with
  | |- good _ (Syscall.sys_kill _ _) => destruct (Hkill eq_refl)
  | |- good _ (Syscall.sys_pipe _ _) => exact (Hp (Hpipe eq_refl))
  | |- good ?me (?m ?k) => refine ((_ : keeps me m) k Hk eq_refl); clear Hp Hpipe Hkill
  end.
  all: eauto with calls nocore.
Qed.

(** ** Calls that always return *)

(** [close], [lseek], [getpid], [setuid], [getuid], [getppid], [dup], [getgid], [sync], [dup2], [setgid]
    and the two stubs: no pointers, and nothing to wait for. *)
Definition direct : list Z := [6; 9; 14; 19; 20; 23; 24; 39; 41; 47; 66; 90; 181].

Definition returns {A} (m : M A) : Prop := forall k, exists a k', m k = Done a k'.

Lemma returns_bind {A B} (m : M A) (g : A -> M B) : returns m -> (forall a, returns (g a)) -> returns (m ≫= g).
Proof. intros Hm Hg k. destruct (Hm k) as (a & k' & E). unfold mbind, M_bind. rewrite E. apply Hg. Qed.
Lemma returns_ret {A} (a : A) : returns (mret a).
Proof. intros k. by eexists _, _. Qed.
Lemma returns_gets {A} (g : kernel -> A) : returns (gets g).
Proof. intros k. by eexists _, _. Qed.
Lemma returns_modify g : returns (modify g).
Proof. intros k. by eexists _, _. Qed.

Ltac return_steps :=
  intros;
  lazymatch goal with
  | |- returns (mbind _ _) => apply returns_bind; return_steps
  | |- returns (mret _) => apply returns_ret
  | |- returns (gets _) => apply returns_gets
  | |- returns (modify _) => apply returns_modify
  | |- returns (on_serv _) => apply returns_modify
  | |- returns (if ?b then _ else _) => destruct b; return_steps
  | |- _ => idtac
  end.

Lemma direct_returns tf : eax tf ∈ direct -> returns (Proc.dispatch tf).
Proof.
  intros H. unfold direct in H. rewrite !elem_of_cons, elem_of_nil in H. unfold Proc.dispatch.
  repeat (destruct H as [->|H]); [..|done]; cbv beta match zeta delta [Syscall.sys_close Syscall.sys_stub Syscall.sys_lseek Syscall.sys_getpid
    Syscall.sys_setuid Syscall.sys_getuid Syscall.sys_getppid Syscall.sys_dup Syscall.sys_getgid Syscall.sys_sync Syscall.sys_dup2
    Syscall.sys_setgid Syscall.of_current]; return_steps.
Qed.

End dispatch.
End DispatchInv.
