(* ===== verification/Ports.v ===== *)
(** * Ports and the devices behind them

    The drivers reach the interrupt controllers, the serial line and the keyboard
    controller through byte-wide ports: the class [Ports] stands for [hal_inb] and
    [hal_outb] of kernel/i386/io.c over an arbitrary state of the hardware.  The devices
    are not part of the sources.  The class [Board] says what the drivers rely on, as the
    data sheets document it: each device has a view (two 8259A interrupt controllers, a
    16550 serial line, an 8042 keyboard controller), and a port access changes the views
    the way the device's registers are defined.  Accesses that the data sheets do not
    define, or that no driver makes, are [None] and left open.  No byte arrives while a
    driver drains a device, and the serial line is ready for the next byte after a bounded
    number of polls.  [board] is a simulated machine with these devices. *)

From stdpp Require Import base list numbers.
From S2P Require Import Prelude.

#[local] Open Scope Z_scope.

Class Ports (D : Type) := {
  port_inb : D -> Z -> Z * D;
  port_outb : D -> Z -> Z -> D }.

(** ** The interrupt controller: initialisation words, mask and requests in service *)
Module Pic.

Inductive phase := Icw2 | Icw3 | Icw4 | Working.
Record chip := Chip { at_phase : phase; vectors : Z; imr : Z; isr : Z; cascade : Z; mode : Z }.

(** A command: 17 starts the initialisation of a cascaded controller with a fourth word;
    32 ends the request of the highest priority (the lowest bit) in service. *)
Definition command (v : Z) (c : chip) : option chip :=
  if v =? 17 then Some (Chip Icw2 (vectors c) 0 (isr c) (cascade c) (mode c))
  else if v =? 32 then Some (Chip (at_phase c) (vectors c) (imr c) (Z.land (isr c) (isr c - 1)) (cascade c) (mode c))
  else None.

(** The words that follow: the first vector, how the two chips are cascaded (the lines with a
    second chip for the first, the line it sits on for the second), the mode (bit 0 for the
    8086, bit 1 for automatic ends of interrupts), and then the mask. *)
Definition data (v : Z) (c : chip) : chip :=
  match at_phase c with
  | Icw2 => Chip Icw3 (Z.land v 248) (imr c) (isr c) (cascade c) (mode c)
  | Icw3 => Chip Icw4 (vectors c) (imr c) (isr c) v (mode c)
  | Icw4 => Chip Working (vectors c) (imr c) (isr c) (cascade c) v
  | Working => Chip Working (vectors c) v (isr c) (cascade c) (mode c)
  end.

Definition out (p v : Z) (c : chip * chip) : option (chip * chip) :=
  let '(m, s) := c in
  if p =? 32 then m' ← command v m; Some (m', s)
  else if p =? 33 then Some (data v m, s)
  else if p =? 160 then s' ← command v s; Some (m, s')
  else if p =? 161 then Some (m, data v s)
  else Some c.

(** The mask of the 16 request lines. *)
Definition mask (c : chip * chip) : Z := imr (fst c) + 256 * imr (snd c).
Definition working (c : chip * chip) : Prop :=
  at_phase (fst c) = Working /\ at_phase (snd c) = Working /\ is_u8 (imr (fst c)) /\ is_u8 (imr (snd c)).

(** A request on line [irq] of the first controller is passed to the processor when the
    line is not masked and nothing of its priority or a higher one is in service. *)
Definition accepts (irq : Z) (c : chip * chip) : bool :=
  negb (Z.testbit (imr (fst c)) irq) && forallb (fun i => negb (Z.testbit (isr (fst c)) i)) (range 0 (Z.to_nat (irq + 1))).
Definition accept (irq : Z) (c : chip * chip) : chip * chip :=
  (Chip (at_phase (fst c)) (vectors (fst c)) (imr (fst c)) (Z.lor (isr (fst c)) (Z.shiftl 1 irq))
     (cascade (fst c)) (mode (fst c)), snd c).
End Pic.

(** ** The serial line *)
Module Uart.

Record uart := Line { dlab : bool; divisor : Z; ier : Z; received : list Z; sent : list Z; busy : nat }.

(** A write; [n] is how long the line is busy with a byte.  A byte written while the line
    is busy takes the place of the one that waits in the holding register, which is lost. *)
Definition out (n : nat) (p v : Z) (u : uart) : uart :=
  match u with
  | Line d q i r s b =>
      if p =? 1016 then
        if d then Line d (q / 256 * 256 + v) i r s b
        else match b with
             | O => Line d q i r (s ++ [v]) n
             | S _ => Line d q i r (removelast s ++ [v]) b
             end
      else if p =? 1017 then if d then Line d (v * 256 + q mod 256) i r s b else Line d q v r s b
      else if p =? 1018 then Line d q i (if Z.testbit v 1 then [] else r) s b
      else if p =? 1019 then Line (Z.testbit v 7) q i r s b
      else u
  end.

(** The line after a read: a poll of the status lets time pass, reading the data takes a
    byte away. *)
Definition after_in (p : Z) (u : uart) : uart :=
  match u with
  | Line d q i r s b =>
      if p =? 1021 then Line d q i r s (pred b)
      else if (p =? 1016) && negb d then Line d q i (tail r) s b
      else u
  end.

Definition status (u : uart) (v : Z) : Prop :=
  Z.testbit v 0 = negb (bool_decide (received u = [])) /\ Z.testbit v 5 = bool_decide (busy u = O).
End Uart.

(** ** The devices together *)

Class Board (D : Type) `{!Ports D} := {
  pic : D -> Pic.chip * Pic.chip;
  com1 : D -> Uart.uart;
  scancodes : D -> list Z;
  busy_time : D -> nat;
  busy_max : nat;
  out_pic d p v c : Pic.out p v (pic d) = Some c -> pic (port_outb d p v) = c;
  in_pic d p : p <> 32 -> p <> 160 -> pic (snd (port_inb d p)) = pic d;
  in_mask_first d : Pic.at_phase (fst (pic d)) = Pic.Working -> fst (port_inb d 33) = Pic.imr (fst (pic d));
  in_mask_second d : Pic.at_phase (snd (pic d)) = Pic.Working -> fst (port_inb d 161) = Pic.imr (snd (pic d));
  out_com1 d p v : com1 (port_outb d p v) = Uart.out (busy_time d) p v (com1 d);
  in_com1 d p : com1 (snd (port_inb d p)) = Uart.after_in p (com1 d);
  in_status d : Uart.status (com1 d) (fst (port_inb d 1021));
  in_received d : Uart.dlab (com1 d) = false -> fst (port_inb d 1016) = hd 0 (Uart.received (com1 d));
  busy_bounded d : (Uart.busy (com1 d) <= busy_max)%nat;
  out_scancodes d p v : p <> 96 -> p <> 100 -> scancodes (port_outb d p v) = scancodes d;
  in_scancodes d p : scancodes (snd (port_inb d p)) = if p =? 96 then tail (scancodes d) else scancodes d;
  in_scancode d : fst (port_inb d 96) = hd 0 (scancodes d);
  in_full d : Z.testbit (fst (port_inb d 100)) 0 = negb (bool_decide (scancodes d = [])) }.

(** ** A simulated board *)
Module Sim.

(** The serial line is busy for [2] polls after each byte. *)
Record board := MkBoard { b_pic : Pic.chip * Pic.chip; b_com1 : Uart.uart; b_keys : list Z }.

Definition clip (u : Uart.uart) : Uart.uart :=
  Uart.Line (Uart.dlab u) (Uart.divisor u) (Uart.ier u) (Uart.received u) (Uart.sent u) (Nat.min 2 (Uart.busy u)).

Definition b2z (b : bool) : Z := if b then 1 else 0.
Definition in_value (b : board) (p : Z) : Z :=
  if p =? 33 then Pic.imr (fst (b_pic b))
  else if p =? 161 then Pic.imr (snd (b_pic b))
  else if p =? 1021 then
    b2z (negb (bool_decide (Uart.received (b_com1 b) = []))) + 32 * b2z (bool_decide (Uart.busy (clip (b_com1 b)) = O))
  else if p =? 1016 then hd 0 (Uart.received (b_com1 b))
  else if p =? 96 then hd 0 (b_keys b)
  else if p =? 100 then b2z (negb (bool_decide (b_keys b = [])))
  else 0.

#[global] Instance board_ports : Ports board := {|
  port_inb b p := (in_value b p, MkBoard (b_pic b) (Uart.after_in p (clip (b_com1 b))) (if p =? 96 then tail (b_keys b) else b_keys b));
  port_outb b p v := MkBoard (default (b_pic b) (Pic.out p v (b_pic b))) (Uart.out 2 p v (clip (b_com1 b))) (b_keys b) |}.

Lemma clip_out p v u : clip (Uart.out 2 p v (clip u)) = Uart.out 2 p v (clip u).
Proof.
  unfold clip. destruct u as [d q i r s b]. cbn [Uart.busy Uart.dlab Uart.divisor Uart.ier Uart.received Uart.sent].
  unfold Uart.out. repeat case_match; cbn -[Nat.min] in *; try done; f_equal; lia.
Qed.

Lemma clip_after_in p u : clip (Uart.after_in p (clip u)) = Uart.after_in p (clip u).
Proof.
  unfold clip. destruct u as [d q i r s b]. cbn [Uart.busy Uart.dlab Uart.divisor Uart.ier Uart.received Uart.sent].
  unfold Uart.after_in. repeat case_match; cbn -[Nat.min]; try done; f_equal; lia.
Qed.

Lemma status_bits a c : Z.testbit (b2z a + 32 * b2z c) 0 = a /\ Z.testbit (b2z a + 32 * b2z c) 5 = c.
Proof. by destruct a, c. Qed.

#[global] Program Instance board_laws : Board board := {|
  pic := b_pic; com1 b := clip (b_com1 b); scancodes := b_keys; busy_time _ := 2%nat; busy_max := 2%nat |}.
Next Obligation. intros b p v c H. cbn in *. by rewrite H. Qed.
Next Obligation. done. Qed.
Next Obligation. done. Qed.
Next Obligation. done. Qed.
Next Obligation. intros. apply clip_out. Qed.
Next Obligation. intros. apply clip_after_in. Qed.
Next Obligation. intros b. apply (status_bits (negb (bool_decide (Uart.received (b_com1 b) = [])))). Qed.
Next Obligation. done. Qed.
Next Obligation. intros b. unfold clip. cbn [Uart.busy]. lia. Qed.
Next Obligation. done. Qed.
Next Obligation. done. Qed.
Next Obligation. done. Qed.
Next Obligation. intros b. cbn. by case_bool_decide. Qed.

(** A board with unprogrammed controllers, some bytes received and some keys pressed. *)
Definition powered (r k : list Z) : board :=
  MkBoard (Pic.Chip Pic.Working 8 0 0 4 1, Pic.Chip Pic.Working 112 0 0 2 1) (Uart.Line false 12 0 r [] 0) k.
End Sim.
