(* ===== verification/Intr.v ===== *)
(** * Segments, interrupt gates, the interrupt controller and the timer

    kernel/i386/gdt.c, kernel/i386/idt.c and kernel/i386/pit.c, up to the dispatch of an
    interrupt (file Trap).  Descriptors and gates are shown to decode to what the setup
    functions were given, and the controller's mask to be what the drivers ask for. *)

From stdpp Require Import base list numbers.
From S2P Require Import Prelude Ports.

#[local] Open Scope Z_scope.

Module Intr.

(** ** Segment descriptors *)

Record gdt_entry := Gdt {
  limit_low : Z; base_low : Z; base_mid : Z; access : Z; granularity : Z; base_high : Z }.
Definition null_entry : gdt_entry := Gdt 0 0 0 0 0 0.

Definition gdt_set (i base limit acc gran : Z) (g : list gdt_entry) : list gdt_entry :=
  lset g i (Gdt (Z.land limit 65535) (Z.land base 65535) (Z.land (Z.shiftr base 16) 255) acc
    (Z.lor (Z.land (Z.shiftr limit 16) 15) (Z.land gran 240)) (Z.land (Z.shiftr base 24) 255)).

(** [struct tss_entry]; the fields between [ss0] and [es] and the last ones stay zero. *)
Record tss_entry := Tss {
  esp0 : Z; ss0 : Z; tss_es : Z; tss_cs : Z; tss_ss : Z; tss_ds : Z; tss_fs : Z; tss_gs : Z; iomap_base : Z }.
Definition sizeof_tss : Z := 104.

(** [gdt], [gdt_ptr] and [tss]. *)
Record cpu := Cpu { gdt : list gdt_entry; gdt_limit : Z; gdt_base : Z; tss : tss_entry }.

(** [tss_at] is the address of [tss]. *)
Definition tss_init (tss_at : Z) (g : list gdt_entry) : list gdt_entry * tss_entry :=
  (gdt_set 5 tss_at sizeof_tss 137 0 g, Tss 0 16 19 11 19 19 19 19 sizeof_tss).

(** [gdt_at] is the address of [gdt]; the processor then loads the tables. *)
Definition hal_cpu_init (gdt_at tss_at : Z) (g : list gdt_entry) : cpu :=
  let g := gdt_set 0 0 0 0 0 g in
  let g := gdt_set 1 0 1048575 154 207 g in
  let g := gdt_set 2 0 1048575 146 207 g in
  let g := gdt_set 3 0 1048575 250 207 g in
  let g := gdt_set 4 0 1048575 242 207 g in
  let '(g, t) := tss_init tss_at g in
  Cpu g (6 * 8 - 1) gdt_at t.

Definition hal_tss_set_kernel_stack (v : Z) (c : cpu) : cpu :=
  let t := tss c in
  Cpu (gdt c) (gdt_limit c) (gdt_base c)
    (Tss v (ss0 t) (tss_es t) (tss_cs t) (tss_ss t) (tss_ds t) (tss_fs t) (tss_gs t) (iomap_base t)).

(** ** Interrupt gates *)

Record idt_entry := Idt { off_low : Z; sel : Z; zero : Z; flags : Z; off_high : Z }.
Definition null_gate : idt_entry := Idt 0 0 0 0 0.

Definition idt_set (i base s fl : Z) (t : list idt_entry) : list idt_entry :=
  lset t i (Idt (Z.land base 65535) s 0 fl (Z.land (Z.shiftr base 16) 65535)).

(** The functions the kernel registers for interrupt requests. *)
Inductive handler := pit_handler | kbd_handler | serial_handler.

(** The statics of idt.c and pit.c: gates, handlers, whether a dispatcher is set, ticks. *)
Record intr := MkIntr {
  idt : list idt_entry;
  irq_handlers : list (option handler);
  syscall_dispatcher : bool;
  timer_ticks : Z }.

Section ports.
Context {D : Type} `{DEV : !Ports D}.
Implicit Types d : D.

Definition hal_io_wait d : D := port_outb d 128 0.

Definition pic_remap d : D :=
  let d := hal_io_wait (port_outb d 32 17) in
  let d := hal_io_wait (port_outb d 160 17) in
  let d := hal_io_wait (port_outb d 33 32) in
  let d := hal_io_wait (port_outb d 161 40) in
  let d := hal_io_wait (port_outb d 33 4) in
  let d := hal_io_wait (port_outb d 161 2) in
  let d := hal_io_wait (port_outb d 33 1) in
  let d := hal_io_wait (port_outb d 161 1) in
  let d := hal_io_wait (port_outb d 33 255) in
  hal_io_wait (port_outb d 161 255).

(** The stubs of isr_stubs.s: [isr i], [irq i] and [isr144] are their addresses. *)
Definition hal_interrupts_init (isr irq : Z -> Z) (isr144 : Z) (s : intr) d : intr * D :=
  let t := replicate 256 null_gate in
  let d := pic_remap d in
  let t := for_loop (fun i => idt_set i (isr i) 8 142) 0 32 t in
  let t := for_loop (fun i => idt_set (32 + i) (irq i) 8 142) 0 16 t in
  let t := idt_set 144 isr144 8 238 t in
  (MkIntr t (replicate 16 None) false (timer_ticks s), d).

Definition hal_syscall_set_dispatcher (s : intr) : intr := MkIntr (idt s) (irq_handlers s) true (timer_ticks s).

Definition hal_irq_register (irq : Z) (h : handler) (s : intr) : intr :=
  if (0 <=? irq) && (irq <? 16)
  then MkIntr (idt s) (lset (irq_handlers s) irq (Some h)) (syscall_dispatcher s) (timer_ticks s) else s.

Definition hal_irq_eoi (irq : Z) d : D :=
  let d := if 8 <=? irq then port_outb d 160 32 else d in
  port_outb d 32 32.

Definition hal_irq_mask (irq : Z) d : D :=
  let port := if irq <? 8 then 33 else 161 in
  let irq := if 8 <=? irq then irq - 8 else irq in
  let '(v, d) := port_inb d port in
  port_outb d port (u8 (Z.lor v (Z.shiftl 1 irq))).

Definition hal_irq_unmask (irq : Z) d : D :=
  let port := if irq <? 8 then 33 else 161 in
  let irq := if 8 <=? irq then irq - 8 else irq in
  let '(v, d) := port_inb d port in
  port_outb d port (u8 (Z.land v (not32 (Z.shiftl 1 irq)))).

(** ** The timer *)

Definition hal_timer_init (freq_hz : Z) (s : intr) d : intr * D :=
  let s := MkIntr (idt s) (irq_handlers s) (syscall_dispatcher s) 0 in
  let divisor := 1193182 / freq_hz in
  let d := port_outb d 67 54 in
  let d := port_outb d 64 (u8 (Z.land divisor 255)) in
  let d := port_outb d 64 (u8 (Z.land (Z.shiftr divisor 8) 255)) in
  (hal_irq_register 0 pit_handler s, hal_irq_unmask 0 d).

Definition hal_timer_ticks (s : intr) : Z := timer_ticks s.
End ports.

(** ** Descriptors and gates decode to what was put in *)

(** What the processor reads in a descriptor and in a gate. *)
Definition seg_base (e : gdt_entry) : Z := base_low e + 65536 * base_mid e + 16777216 * base_high e.
Definition seg_last (e : gdt_entry) : Z :=
  let l := limit_low e + 65536 * (granularity e mod 16) in
  if Z.testbit (granularity e) 7 then 4096 * l + 4095 else l.
Definition seg_dpl (e : gdt_entry) : Z := access e / 32 mod 4.
Definition seg_type (e : gdt_entry) : Z := access e mod 32.
Definition gate_offset (e : idt_entry) : Z := off_low e + 65536 * off_high e.
Definition gate_dpl (e : idt_entry) : Z := flags e / 32 mod 4.
(** A present interrupt gate of 32 bits: the processor masks interrupts when it enters. *)
Definition gate_present (e : idt_entry) : bool := (flags e / 128 =? 1) && (flags e mod 32 =? 14).

Lemma land_ones_mod x n k : k = Z.ones n -> 0 <= n -> Z.land x k = x mod 2 ^ n.
Proof. intros -> Hn. by apply Z.land_ones. Qed.

Lemma halves_join x : is_u32 x -> Z.land x 65535 + 65536 * Z.land (Z.shiftr x 16) 65535 = x.
Proof.
  intros H. rewrite !(land_ones_mod _ 16 65535) by (done || lia). rewrite Z.shiftr_div_pow2 by lia.
  change (2 ^ 16) with 65536. dlia.
Qed.

Lemma bytes_join x : is_u32 x ->
  Z.land x 65535 + 65536 * Z.land (Z.shiftr x 16) 255 + 16777216 * Z.land (Z.shiftr x 24) 255 = x.
Proof.
  intros H. rewrite (land_ones_mod _ 16 65535), !(land_ones_mod _ 8 255) by (done || lia).
  rewrite !Z.shiftr_div_pow2 by lia. change (2 ^ 16) with 65536. change (2 ^ 8) with 256.
  change (2 ^ 24) with 16777216. dlia.
Qed.

(** The gate of vector [i] leads to [base] at privilege level [dpl]. *)
Definition leads (t : list idt_entry) (i base dpl : Z) : Prop :=
  let e := lget null_gate t i in
  gate_present e = true /\ gate_offset e = base /\ sel e = 8 /\ gate_dpl e = dpl.

Lemma idt_set_leads i base fl t : is_u32 base -> 0 <= i < lenZ t -> (fl = 142 \/ fl = 238) ->
  leads (idt_set i base 8 fl t) i base (if fl =? 142 then 0 else 3).
Proof.
  intros Hb Hi Hf. unfold leads, idt_set. rewrite lget_lset_eq by done. unfold gate_offset. cbn [off_low off_high sel].
  rewrite halves_join by done. by destruct Hf as [-> | ->].
Qed.

Lemma lenZ_idt_set i b s f t : lenZ (idt_set i b s f t) = lenZ t.
Proof. apply lenZ_lset. Qed.

Lemma idt_set_other i j b s f t : i <> j -> lget null_gate (idt_set i b s f t) j = lget null_gate t j.
Proof. apply lget_lset_ne. Qed.

(** The first [n] vectors from [o] on have been set. *)
Lemma idt_loop_leads (stub : Z -> Z) o n t : (forall i, is_u32 (stub i)) -> 0 <= o -> o + Z.of_nat n <= lenZ t ->
  let t' := for_loop (fun i => idt_set (o + i) (stub i) 8 142) 0 n t in
  lenZ t' = lenZ t /\ (forall i, 0 <= i < Z.of_nat n -> leads t' (o + i) (stub i) 0) /\
  (forall j, ~ (o <= j < o + Z.of_nat n) -> lget null_gate t' j = lget null_gate t j).
Proof.
  intros Hs Ho Hn. cbv zeta.
  refine (for_loop_ind (fun m t' => lenZ t' = lenZ t /\ (forall i, 0 <= i < m -> leads t' (o + i) (stub i) 0) /\
    (forall j, ~ (o <= j < o + m) -> lget null_gate t' j = lget null_gate t j)) _ 0 n t _ _).
  { split_and!; [done|lia|done]. }
  intros i t' Hi (Hl & Hset & Hoth). split_and!.
  - by rewrite lenZ_idt_set.
  - intros j Hj. destruct (decide (j = i)) as [->|Hne].
    + apply (idt_set_leads _ _ 142); [done|lia|by left].
    + unfold leads. rewrite idt_set_other by lia. apply Hset. lia.
  - intros j Hj. rewrite idt_set_other by lia. apply Hoth. lia.
Qed.

(** The interrupt table after [hal_interrupts_init]: every exception and every request has
    the gate of its stub, which only the kernel may call; programs may call vector 144; all
    other vectors are absent. *)
Lemma idt_spec {D} `{!Ports D} isr irq isr144 s (d : D) :
  (forall i, is_u32 (isr i)) -> (forall i, is_u32 (irq i)) -> is_u32 isr144 ->
  let t := idt (fst (hal_interrupts_init isr irq isr144 s d)) in
  (forall i, 0 <= i < 32 -> leads t i (isr i) 0) /\ (forall i, 0 <= i < 16 -> leads t (32 + i) (irq i) 0) /\
  leads t 144 isr144 3 /\ (forall i, 48 <= i -> i <> 144 -> lget null_gate t i = null_gate).
Proof.
  intros Hisr Hirq H144. unfold hal_interrupts_init. cbn [fst idt].
  destruct (idt_loop_leads isr 0 32 (replicate 256 null_gate) Hisr) as (L1 & S1 & O1); [done..|].
  rewrite (for_loop_ext _ (fun i => idt_set i (isr i) 8 142)) in L1, S1, O1 by done.
  set (t1 := for_loop _ 0 32 _) in *.
  destruct (idt_loop_leads irq 32 16 t1 Hirq) as (L2 & S2 & O2); [done|by rewrite L1|].
  set (t2 := for_loop _ 0 16 _) in *. rewrite L1 in L2. change (lenZ (replicate 256 null_gate)) with 256 in L2.
  split_and!.
  - intros i Hi. unfold leads. rewrite idt_set_other, O2 by lia. by apply S1.
  - intros i Hi. unfold leads. rewrite idt_set_other by lia. by apply S2.
  - apply (idt_set_leads _ _ 238); [done|lia|by right].
  - intros i Hi Hne. rewrite idt_set_other, O2, O1 by lia. unfold lget. bcase; [done|].
    destruct (nth_in_or_default (Z.to_nat i) (replicate 256 null_gate) null_gate) as [Hin|Hin]; [|done].
    apply list_elem_of_In, elem_of_replicate in Hin as [-> _]. done.
Qed.

(** The segments [hal_cpu_init] sets up: code and data of the kernel and of programs cover
    all of memory, and the sixth is the task state. *)
Lemma gdt_spec gdt_at tss_at g : lenZ g = 6 -> is_u32 tss_at ->
  let c := hal_cpu_init gdt_at tss_at g in
  let e := lget null_entry (gdt c) in
  lenZ (gdt c) = 6 /\ e 0 = null_entry /\
  (forall i, 1 <= i < 5 -> seg_base (e i) = 0 /\ seg_last (e i) = 4294967295 /\
     seg_dpl (e i) = (if i <? 3 then 0 else 3) /\ seg_type (e i) = (if Z.odd i then 26 else 18)) /\
  seg_base (e 5) = tss_at /\ seg_last (e 5) = sizeof_tss /\ seg_dpl (e 5) = 0 /\ seg_type (e 5) = 9.
Proof.
  intros Hg Ht. destruct g as [|g0 [|g1 [|g2 [|g3 [|g4 [|g5 [|g6 g]]]]]]]; try (unfold lenZ in Hg; cbn [length] in Hg; lia).
  cbv zeta. unfold hal_cpu_init, tss_init. cbn [gdt].
  assert (forall i (P : Z -> Prop), 1 <= i < 5 -> P 1 -> P 2 -> P 3 -> P 4 -> P i) as Hcase.
  { intros i P Hi P1 P2 P3 P4. assert (i = 1 \/ i = 2 \/ i = 3 \/ i = 4) as [-> | [-> | [-> | ->]]] by lia; done. }
  split_and!; try reflexivity.
  - intros i Hi. apply (Hcase i); [done|..]; by vm_compute.
  - apply bytes_join. done.
Qed.

(** ** The interrupt controllers *)

Section board.
Context {D : Type} `{BRD : Board D}.
Implicit Types d : D.

Lemma pic_step d p v c c' : pic d = c -> Pic.out p v c = Some c' -> pic (hal_io_wait (port_outb d p v)) = c'.
Proof.
  intros Hd Hc. unfold hal_io_wait. apply out_pic. rewrite (out_pic d p v c') by (by rewrite Hd). by destruct c'.
Qed.

Lemma pic_remap_spec d : pic (pic_remap d) =
  (Pic.Chip Pic.Working 32 255 (Pic.isr (fst (pic d))) 4 1, Pic.Chip Pic.Working 40 255 (Pic.isr (snd (pic d))) 2 1).
Proof.
  destruct (pic d) as [m s] eqn:E. unfold pic_remap.
  repeat (eapply pic_step; [|]). all: try exact E. all: reflexivity.
Qed.

Lemma mask_bit c i : Pic.working c -> 0 <= i < 16 ->
  Z.testbit (Pic.mask c) i = if i <? 8 then Z.testbit (Pic.imr (fst c)) i else Z.testbit (Pic.imr (snd c)) (i - 8).
Proof.
  intros (_ & _ & H1 & H2) Hi. unfold Pic.mask. bcase.
  - rewrite <- (Z.mod_pow2_bits_low _ 8 i) by lia. f_equal. change (2 ^ 8) with 256. dlia.
  - replace i with (i - 8 + 8) at 1 by lia. rewrite <- Z.div_pow2_bits by lia. f_equal. change (2 ^ 8) with 256. dlia.
Qed.

Lemma one_bit b i : 0 <= b -> 0 <= i -> Z.testbit (Z.shiftl 1 b) i = (i =? b).
Proof.
  intros Hb Hi. rewrite Z.shiftl_spec by done. bcase; [subst; by rewrite Z.sub_diag|].
  destruct (decide (i < b)); [by rewrite Z.testbit_neg_r by lia|]. rewrite Z.bits_above_log2; [done..|]. cbn. lia.
Qed.

Lemma clear_bit v b i : 0 <= b < 8 -> 0 <= i < 8 ->
  Z.testbit (u8 (Z.land v (not32 (Z.shiftl 1 b)))) i = Z.testbit v i && negb (i =? b).
Proof.
  intros Hb Hi. unfold u8, not32. change 256 with (2 ^ 8). rewrite Z.mod_pow2_bits_low by lia.
  rewrite Z.land_spec, Z.lxor_spec, one_bit by lia. change 4294967295 with (Z.ones 32).
  rewrite Z.ones_spec_low by lia. by destruct (i =? b).
Qed.

Lemma set_bit v b i : 0 <= b < 8 -> 0 <= i < 8 ->
  Z.testbit (u8 (Z.lor v (Z.shiftl 1 b))) i = Z.testbit v i || (i =? b).
Proof.
  intros Hb Hi. unfold u8. change 256 with (2 ^ 8). rewrite Z.mod_pow2_bits_low by lia.
  by rewrite Z.lor_spec, one_bit by lia.
Qed.

(** Reading the mask of the controller of line [irq] and writing [g] of it back. *)
Definition remask (g : Z -> Z) (irq : Z) (c : Pic.chip * Pic.chip) : Pic.chip * Pic.chip :=
  let upd c := Pic.Chip (Pic.at_phase c) (Pic.vectors c) (g (Pic.imr c)) (Pic.isr c) (Pic.cascade c) (Pic.mode c) in
  if irq <? 8 then (upd (fst c), snd c) else (fst c, upd (snd c)).

Lemma remask_pic (g : Z -> Z) irq d : Pic.working (pic d) ->
  let p := if irq <? 8 then 33 else 161 in
  pic (port_outb (snd (port_inb d p)) p (g (fst (port_inb d p)))) = remask g irq (pic d).
Proof.
  intros (H1 & H2 & _). cbv zeta. apply out_pic. rewrite in_pic by (by bcase). unfold remask. bcase.
  - rewrite in_mask_first by done. destruct (pic d) as [m s]. cbn in *. unfold Pic.data. by rewrite H1.
  - rewrite in_mask_second by done. destruct (pic d) as [m s]. cbn in *. unfold Pic.data. by rewrite H2.
Qed.

Definition line (irq : Z) : Z := if 8 <=? irq then irq - 8 else irq.

Lemma unmask_pic irq d : Pic.working (pic d) ->
  pic (hal_irq_unmask irq d) = remask (fun v => u8 (Z.land v (not32 (Z.shiftl 1 (line irq))))) irq (pic d).
Proof.
  intros Hw. unfold hal_irq_unmask. rewrite <- (remask_pic _ irq d Hw).
  by destruct (port_inb d (if irq <? 8 then 33 else 161)).
Qed.

Lemma mask_pic irq d : Pic.working (pic d) ->
  pic (hal_irq_mask irq d) = remask (fun v => u8 (Z.lor v (Z.shiftl 1 (line irq)))) irq (pic d).
Proof.
  intros Hw. unfold hal_irq_mask. rewrite <- (remask_pic _ irq d Hw).
  by destruct (port_inb d (if irq <? 8 then 33 else 161)).
Qed.

Lemma remask_working g irq c : (forall v, is_u8 (g v)) -> Pic.working c -> Pic.working (remask g irq c).
Proof. intros Hg (A & B & C & E). unfold remask, Pic.working. bcase; cbn; split_and!; done || apply Hg. Qed.

Lemma remask_bits g h irq c : (forall v, is_u8 (g v)) -> Pic.working c -> 0 <= irq < 16 ->
  (forall v i, 0 <= i < 8 -> Z.testbit (g v) i = h (Z.testbit v i) (i =? line irq)) -> (forall b, h b false = b) ->
  forall i, 0 <= i < 16 -> Z.testbit (Pic.mask (remask g irq c)) i = h (Z.testbit (Pic.mask c) i) (i =? irq).
Proof.
  intros Hg Hc Hirq Hgh Hid i Hi. rewrite !mask_bit by eauto using remask_working. unfold remask.
  destruct (Z.ltb_spec irq 8), (Z.ltb_spec i 8); cbn [fst snd Pic.imr].
  - rewrite Hgh by lia. unfold line. rewrite (proj2 (Z.leb_gt 8 irq)) by lia. done.
  - by rewrite (proj2 (Z.eqb_neq i irq)) by lia.
  - by rewrite (proj2 (Z.eqb_neq i irq)) by lia.
  - rewrite Hgh by lia. f_equal. unfold line. rewrite (proj2 (Z.leb_le 8 irq)) by lia.
    destruct (Z.eqb_spec (i - 8) (irq - 8)), (Z.eqb_spec i irq); lia || done.
Qed.

Lemma unmask_bits irq d : Pic.working (pic d) -> 0 <= irq < 16 ->
  Pic.working (pic (hal_irq_unmask irq d)) /\
  forall i, 0 <= i < 16 ->
    Z.testbit (Pic.mask (pic (hal_irq_unmask irq d))) i = Z.testbit (Pic.mask (pic d)) i && negb (i =? irq).
Proof.
  intros Hw Hirq. rewrite unmask_pic by done. split; [eauto using remask_working, u8_range|].
  apply (remask_bits _ (fun b e => b && negb e)); [eauto using u8_range|done|done| |].
  - intros v i Hi. apply clear_bit; [|done]. unfold line. bcase; lia.
  - intros b. apply andb_true_r.
Qed.

Lemma mask_bits irq d : Pic.working (pic d) -> 0 <= irq < 16 ->
  Pic.working (pic (hal_irq_mask irq d)) /\
  forall i, 0 <= i < 16 ->
    Z.testbit (Pic.mask (pic (hal_irq_mask irq d))) i = Z.testbit (Pic.mask (pic d)) i || (i =? irq).
Proof.
  intros Hw Hirq. rewrite mask_pic by done. split; [eauto using remask_working, u8_range|].
  apply (remask_bits _ orb); [eauto using u8_range|done|done| |].
  - intros v i Hi. apply set_bit; [|done]. unfold line. bcase; lia.
  - apply orb_false_r.
Qed.

(** Ending a request clears the request of highest priority in service. *)
Lemma eoi_pic irq d : irq < 8 -> pic (hal_irq_eoi irq d) =
  (Pic.Chip (Pic.at_phase (fst (pic d))) (Pic.vectors (fst (pic d))) (Pic.imr (fst (pic d)))
     (Z.land (Pic.isr (fst (pic d))) (Pic.isr (fst (pic d)) - 1)) (Pic.cascade (fst (pic d))) (Pic.mode (fst (pic d))), snd (pic d)).
Proof.
  intros Hi. unfold hal_irq_eoi. rewrite (proj2 (Z.leb_gt 8 irq)) by lia. apply out_pic.
  by destruct (pic d).
Qed.

(** C24: After [hal_interrupts_init] every exception and every interrupt request has the gate of
    its stub, which only the kernel may call with [int], programs may call vector 144, and
    all other vectors are absent; the controllers deliver their requests at vectors 32 to
    47, clear of the processor's exceptions, the second is cascaded on line 2 of the first,
    both work in 8086 mode with ends of interrupts to be sent, and all lines are masked.  Unmasking a line
    then opens that line and no other. *)
Theorem hal_interrupts_init_correct isr irq isr144 s0 d :
  (forall i, is_u32 (isr i)) -> (forall i, is_u32 (irq i)) -> is_u32 isr144 ->
  let '(s, d') := hal_interrupts_init isr irq isr144 s0 d in
  (forall i, 0 <= i < 32 -> leads (idt s) i (isr i) 0) /\ (forall i, 0 <= i < 16 -> leads (idt s) (32 + i) (irq i) 0) /\
  leads (idt s) 144 isr144 3 /\ (forall i, 48 <= i -> i <> 144 -> lget null_gate (idt s) i = null_gate) /\
  Pic.working (pic d') /\ Pic.vectors (fst (pic d')) = 32 /\ Pic.vectors (snd (pic d')) = 40 /\
  Pic.cascade (fst (pic d')) = 4 /\ Pic.cascade (snd (pic d')) = 2 /\
  Pic.mode (fst (pic d')) = 1 /\ Pic.mode (snd (pic d')) = 1 /\ Pic.mask (pic d') = 65535 /\
  (forall n i, 0 <= n < 16 -> 0 <= i < 16 -> Z.testbit (Pic.mask (pic (hal_irq_unmask n d'))) i = negb (i =? n)).
Proof.
  intros H1 H2 H3. pose proof (idt_spec isr irq isr144 s0 d H1 H2 H3) as Ht.
  destruct (hal_interrupts_init isr irq isr144 s0 d) as [s d'] eqn:Ei.
  assert (d' = pic_remap d) as -> by (unfold hal_interrupts_init in Ei; congruence). clear Ei.
  destruct Ht as (T1 & T2 & T3 & T4). pose proof (pic_remap_spec d) as Hp.
  assert (Pic.working (pic (pic_remap d))) as Hw by (rewrite Hp; by split_and!).
  split_and!; try done; try (by rewrite Hp). intros n i Hn Hi.
  destruct (unmask_bits n (pic_remap d) Hw Hn) as [_ Hb]. rewrite Hb by done.
  replace (Pic.mask (pic (pic_remap d))) with (Z.ones 16) by (rewrite Hp; done). by rewrite Z.ones_spec_low by lia.
Qed.
End board.

Lemma hal_interrupts_init_correct_witness :
  let '(s, d) := hal_interrupts_init (fun i => 1048576 + 16 * i) (fun i => 1050000 + 16 * i mod 256) 1060000
                   (MkIntr [] [] true 5) (Sim.powered [] []) in
  leads (idt s) 14 1048800 0 /\ Z.testbit (Pic.mask (pic (hal_irq_unmask 1 d))) 1 = false.
Proof.
  pose proof (hal_interrupts_init_correct (fun i => 1048576 + 16 * (i mod 256)) (fun i => 1050000 + 16 * i mod 256) 1060000
    (MkIntr [] [] true 5) (Sim.powered [] []) ltac:(intros i; dlia) ltac:(intros i; dlia) ltac:(dlia)) as H.
  split; [|reflexivity]. exact (proj1 H 14 ltac:(lia)).
Defined.

End Intr.
