(* ===== verification/Serial.v ===== *)
(** * The serial line (kernel/drivers/serial.c) and the keyboard controller's setup

    Polling loops take the number of polls as fuel and return [None] when it runs out; the
    theorems show that a bounded number is enough.  What is sent is the string, in order,
    and what is received ends up in the keyboard's buffer, with carriage returns turned
    into line feeds. *)

From stdpp Require Import base list gmap numbers.
From S2P Require Import Prelude Ports Intr Sched Keyboard.

#[local] Open Scope Z_scope.

Module Serial.
Import Sched Keyboard.

Definition COM1 : Z := 1016.

Section serial.
Context {D : Type} `{DEV : !Ports D} {E : Type} `{KE : KEnv E}.
Implicit Types d : D.

Definition serial_init d : D :=
  let d := port_outb d (COM1 + 1) 0 in
  let d := port_outb d (COM1 + 3) 128 in
  let d := port_outb d (COM1 + 0) 3 in
  let d := port_outb d (COM1 + 1) 0 in
  let d := port_outb d (COM1 + 3) 3 in
  let d := port_outb d (COM1 + 2) 199 in
  port_outb d (COM1 + 4) 11.

Definition is_transmit_empty d : Z * D :=
  let '(v, d) := port_inb d (COM1 + 5) in (Z.land v 32, d).

Definition serial_received d : Z * D :=
  let '(v, d) := port_inb d (COM1 + 5) in (Z.land v 1, d).

(** [while (!poll());] *)
Fixpoint await (poll : D -> Z * D) (fuel : nat) d : option D :=
  let '(r, d) := poll d in
  if negb (r =? 0) then Some d
  else match fuel with O => None | S fuel' => await poll fuel' d end.

Definition serial_putc (fuel : nat) (c : Z) d : option D :=
  d ← await is_transmit_empty fuel d;
  Some (port_outb d COM1 (u8 c)).

(** The string [s] without its terminator. *)
Fixpoint serial_puts (fuel : nat) (s : list Z) d : option D :=
  match s with
  | [] => Some d
  | c :: s' => d ← serial_putc fuel c d; serial_puts fuel s' d
  end.

Definition serial_getc (fuel : nat) d : option (Z * D) :=
  d ← await serial_received fuel d;
  Some (port_inb d COM1).

Definition serial_getc_nb d : Z * D :=
  let '(r, d) := serial_received d in
  if r =? 0 then (-1, d) else port_inb d COM1.

(** The loop of [serial_handler] and of [serial_enable_input]. *)
Fixpoint drain (fuel : nat) (st : keyboard * sched E) d : option (keyboard * sched E * D) :=
  let '(r, d) := serial_received d in
  if r =? 0 then Some (st, d)
  else
    match fuel with
    | O => None
    | S fuel' =>
        let '(c, d) := port_inb d COM1 in
        let c := if c =? 13 then 10 else c in
        drain fuel' (keyboard_enqueue c st) d
    end.

Definition serial_handler (fuel : nat) (st : keyboard * sched E) d : option (keyboard * sched E * D) :=
  drain fuel st d.

Definition serial_enable_input (fuel : nat) (i : Intr.intr) (st : keyboard * sched E) d :
    option (Intr.intr * (keyboard * sched E) * D) :=
  let i := Intr.hal_irq_register 4 Intr.serial_handler i in
  let d := port_outb d (COM1 + 1) 1 in
  let d := Intr.hal_irq_unmask 4 d in
  '(st, d) ← drain fuel st d;
  Some (i, st, d).

(** The end of [keyboard_init]: [while (hal_inb(KBD_STATUS) & 1) hal_inb(KBD_DATA);] *)
Fixpoint discard_keys (fuel : nat) d : option D :=
  let '(v, d) := port_inb d 100 in
  if Z.land v 1 =? 0 then Some d
  else match fuel with O => None | S fuel' => discard_keys fuel' (snd (port_inb d 96)) end.

Definition keyboard_init (fuel : nat) (buf : list Z) (i : Intr.intr) d : option (keyboard * Intr.intr * D) :=
  let k := Keyboard.keyboard_init buf in
  let i := Intr.hal_irq_register 1 Intr.kbd_handler i in
  let d := Intr.hal_irq_unmask 1 d in
  d ← discard_keys fuel d;
  Some (k, i, d).
End serial.

(** ** Sending and receiving *)

Section board.
Context {D : Type} `{BRD : Board D} {E : Type} `{KE : KEnv E}.
Implicit Types (d : D) (u : Uart.uart).
Import Uart.

Lemma land_bit v n : 0 <= n -> (Z.land v (2 ^ n) =? 0) = negb (Z.testbit v n).
Proof.
  intros Hn. destruct (Z.testbit v n) eqn:Hb; cbn.
  - apply Z.eqb_neq. intros H. assert (Z.testbit (Z.land v (2 ^ n)) n = false) as Hf by (rewrite H; apply Z.bits_0).
    rewrite Z.land_spec, Hb, Z.pow2_bits_true in Hf by done. done.
  - apply Z.eqb_eq, Z.bits_inj'. intros m Hm. rewrite Z.land_spec, Z.bits_0.
    destruct (decide (m = n)) as [->|]; [by rewrite Hb|]. rewrite Z.pow2_bits_false by done. apply andb_false_r.
Qed.

Lemma land_32 v : (Z.land v 32 =? 0) = negb (Z.testbit v 5).
Proof. by apply (land_bit v 5). Qed.
Lemma land_1 v : (Z.land v 1 =? 0) = negb (Z.testbit v 0).
Proof. by apply (land_bit v 0). Qed.

(** One poll of the status. *)
Lemma poll_spec d : let '(v, d') := port_inb d (COM1 + 5) in
  (Z.land v 32 =? 0) = negb (bool_decide (busy (com1 d) = O)) /\
  (Z.land v 1 =? 0) = bool_decide (received (com1 d) = []) /\
  com1 d' = after_in 1021 (com1 d) /\ pic d' = pic d /\ scancodes d' = scancodes d.
Proof.
  pose proof (in_status d) as [H0 H5]. pose proof (in_com1 d 1021). pose proof (in_pic d 1021 ltac:(done) ltac:(done)).
  pose proof (in_scancodes d 1021). change (COM1 + 5) with 1021. destruct (port_inb d 1021) as [v d']. cbn [fst snd] in *.
  split_and!; [|..|done|done|done].
  - by rewrite land_32, H5.
  - rewrite land_1, H0. apply negb_involutive.
Qed.

(** A byte is sent once the line is ready; nothing else changes. *)
Lemma putc_spec fuel c d : dlab (com1 d) = false -> (busy (com1 d) <= fuel)%nat ->
  exists d', serial_putc fuel c d = Some d' /\ dlab (com1 d') = false /\
    sent (com1 d') = sent (com1 d) ++ [u8 c] /\ received (com1 d') = received (com1 d) /\
    pic d' = pic d /\ scancodes d' = scancodes d.
Proof.
  intros Hl Hb. unfold serial_putc.
  assert (exists d', await is_transmit_empty fuel d = Some d' /\ busy (com1 d') = O /\ dlab (com1 d') = false /\
    sent (com1 d') = sent (com1 d) /\ received (com1 d') = received (com1 d) /\ pic d' = pic d /\ scancodes d' = scancodes d)
    as (d' & -> & Hb' & Hl' & Hs & Hr & Hp & Hk).
  { revert d Hl Hb. induction fuel as [|fuel IH]; intros d Hl Hb; cbn [await]; unfold is_transmit_empty at 1;
      pose proof (poll_spec d) as Hpoll; destruct (port_inb d (COM1 + 5)) as [v d'];
      destruct Hpoll as (Hv & _ & Hu & Hp & Hk); rewrite Hv, negb_involutive; destruct (com1 d) as [l q i r s b]; cbn in *; subst l.
    - assert (b = O) as -> by lia. exists d'. by rewrite Hu.
    - case_bool_decide; [subst b; exists d'; by rewrite Hu|].
      destruct (IH d') as (d2 & H2 & ? & ? & ? & ? & ? & ?); [by rewrite Hu|rewrite Hu; cbn; lia|].
      exists d2. rewrite Hu in *. cbn in *. split_and!; congruence. }
  eexists. split; [reflexivity|]. pose proof (out_com1 d' COM1 (u8 c)) as Ho.
  rewrite Ho. destruct (com1 d') as [l q i r s b]. cbn in *. subst.
  rewrite (out_pic d' COM1 (u8 c) (pic d)) by (rewrite Hp; by destruct (pic d)).
  rewrite out_scancodes by done. by split_and!.
Qed.

Lemma puts_spec s : forall d, dlab (com1 d) = false ->
  exists d', serial_puts (@busy_max D _ _) s d = Some d' /\ dlab (com1 d') = false /\
    sent (com1 d') = sent (com1 d) ++ map u8 s /\ received (com1 d') = received (com1 d) /\
    pic d' = pic d /\ scancodes d' = scancodes d.
Proof.
  induction s as [|c s IH]; intros d Hd; cbn [serial_puts map].
  - exists d. rewrite app_nil_r. by split_and!.
  - destruct (putc_spec busy_max c d Hd (busy_bounded d)) as (d1 & -> & L1 & S1 & R1 & P1 & K1).
    destruct (IH d1 L1) as (d2 & E2 & L2 & S2 & R2 & P2 & K2). exists d2. cbn.
    rewrite E2, S2, S1, <- app_assoc, R2, R1, P2, P1, K2, K1. by split_and!.
Qed.

(** The bytes received reach the keyboard's buffer in order. *)
Definition typed (c : Z) : Z := if c =? 13 then 10 else c.
Definition enqueue_all (l : list Z) (st : keyboard * sched E) : keyboard * sched E :=
  fold_left (fun st c => keyboard_enqueue (typed c) st) l st.

Lemma drain_spec fuel : forall d st, dlab (com1 d) = false -> (length (received (com1 d)) <= fuel)%nat ->
  exists d', drain fuel st d = Some (enqueue_all (received (com1 d)) st, d') /\
    received (com1 d') = [] /\ sent (com1 d') = sent (com1 d) /\ dlab (com1 d') = false /\
    pic d' = pic d /\ scancodes d' = scancodes d.
Proof.
  assert (forall d, let '(v, d') := port_inb d COM1 in dlab (com1 d) = false ->
    v = hd 0 (received (com1 d)) /\ com1 d' = after_in COM1 (com1 d) /\ pic d' = pic d /\ scancodes d' = scancodes d) as Hdata.
  { intros d. pose proof (in_received d) as H1. pose proof (in_com1 d COM1) as H2.
    pose proof (in_pic d COM1 ltac:(done) ltac:(done)) as H3. pose proof (in_scancodes d COM1) as H4.
    unfold COM1 in *. destruct (port_inb d 1016). by auto. }
  induction fuel as [|fuel IH]; intros d st Hl Hf; cbn [drain]; unfold serial_received at 1;
    pose proof (poll_spec d) as Hpoll; destruct (port_inb d (COM1 + 5)) as [v d1];
    destruct Hpoll as (_ & Hv & Hu & Hp & Hk); rewrite Hv; destruct (com1 d) as [l q i r s b]; cbn in *; subst l.
  - destruct r; [|cbn in *; lia]. exists d1. by rewrite Hu.
  - destruct r as [|c r]; cbn [bool_decide]; [exists d1; by rewrite Hu|].
    case_bool_decide; [done|]. specialize (Hdata d1). destruct (port_inb d1 COM1) as [c' d2].
    rewrite Hu in Hdata. cbn in *. destruct Hdata as (-> & Hu2 & Hp2 & Hk2); [done|].
    destruct (IH d2 (keyboard_enqueue (if c =? 13 then 10 else c) st)) as (d3 & E3 & R3 & S3 & L3 & P3 & K3);
      [by rewrite Hu2|rewrite Hu2; cbn; lia|].
    exists d3. rewrite E3, Hu2 in *. cbn in *. split_and!; try congruence. done.
Qed.

Lemma discard_spec fuel : forall d, (length (scancodes d) <= fuel)%nat ->
  exists d', discard_keys fuel d = Some d' /\ scancodes d' = [] /\ pic d' = pic d /\ com1 d' = com1 d.
Proof.
  induction fuel as [|fuel IH]; intros d Hf; cbn [discard_keys]; pose proof (in_full d) as Hfull;
    pose proof (in_scancodes d 100) as Hk; pose proof (in_com1 d 100) as Hu;
    pose proof (in_pic d 100 ltac:(done) ltac:(done)) as Hp; destruct (port_inb d 100) as [v d1]; cbn [fst snd] in *;
    rewrite land_1, Hfull, negb_involutive;
    assert (com1 d1 = com1 d) as Hu' by (rewrite Hu; by destruct (com1 d)).
  - destruct (scancodes d); [|cbn in *; lia]. exists d1. by split_and!.
  - case_bool_decide as Hs; [exists d1; rewrite <- Hs; by split_and!|].
    destruct (IH (snd (port_inb d1 96))) as (d2 & E2 & K2 & P2 & U2).
    { rewrite in_scancodes. cbn. rewrite Hk. destruct (scancodes d); cbn in *; lia || done. }
    exists d2. rewrite E2, P2, U2, in_pic, in_com1 by done. split_and!; try congruence. rewrite Hu'. by destruct (com1 d).
Qed.

(** [serial_init] programs 38400 baud and 8 data bits and empties the receiver. *)
Lemma serial_init_spec d :
  let d' := serial_init d in
  dlab (com1 d') = false /\ divisor (com1 d') = 3 /\ received (com1 d') = [] /\ sent (com1 d') = sent (com1 d).
Proof.
  cbv zeta. unfold serial_init. rewrite !out_com1.
  change (COM1 + 0) with 1016. change (COM1 + 1) with 1017. change (COM1 + 2) with 1018. change (COM1 + 3) with 1019.
  change (COM1 + 4) with 1020. destruct (com1 d) as [[] q i r s b]; cbn -[Z.mul Z.div Z.modulo Z.add]; split_and!; done || dlia.
Qed.

(** C25: The serial line: [serial_init] sets 38400 baud and leaves the divisor latch closed.
    On a line with the latch closed [serial_puts] sends exactly the bytes of the string, in
    order and without losing one (a byte written while the line is busy would overwrite the
    one before it), with at most [busy_max] polls that find the line busy before each byte;
    and the interrupt handler moves everything received to the keyboard's buffer, in order
    and with carriage returns turned into line feeds.  Neither touches the interrupt
    controllers or the keyboard controller. *)
Theorem serial_line_correct s d : dlab (com1 d) = false ->
  dlab (com1 (serial_init d)) = false /\ divisor (com1 (serial_init d)) = 3 /\
  (exists d', serial_puts (@busy_max D _ _) s d = Some d' /\ sent (com1 d') = sent (com1 d) ++ map u8 s /\
     received (com1 d') = received (com1 d) /\ pic d' = pic d /\ scancodes d' = scancodes d) /\
  (forall (st : keyboard * sched E) fuel, (length (received (com1 d)) <= fuel)%nat ->
     exists d', serial_handler fuel st d = Some (enqueue_all (received (com1 d)) st, d') /\
       received (com1 d') = [] /\ sent (com1 d') = sent (com1 d) /\ pic d' = pic d /\ scancodes d' = scancodes d).
Proof.
  intros Hd. destruct (serial_init_spec d) as (I1 & I2 & _). split_and!; [done|done| |].
  - destruct (puts_spec s d Hd) as (d' & H1 & _ & H2 & H3 & H4 & H5). eauto 10.
  - intros st fuel Hf. destruct (drain_spec fuel d st Hd Hf) as (d' & H1 & H2 & H3 & _ & H4 & H5). eauto 10.
Qed.
End board.

#[local] Existing Instance bump_env.

(** The word [hi] is sent, and what was typed on the other side arrives. *)
Lemma serial_line_correct_witness :
  let d := Sim.powered [108; 115; 13] [] in
  (exists d', serial_puts 2 [104; 105] d = Some d' /\ Uart.sent (com1 d') = [104; 105]) /\
  exists d', serial_handler 3 (kb_state, kb_sched) d = Some (enqueue_all [108; 115; 13] (kb_state, kb_sched), d').
Proof.
  destruct (serial_line_correct (BRD := Sim.board_laws) (E := Z) [104; 105] (Sim.powered [108; 115; 13] []) eq_refl) as (_ & _ & (d1 & H1 & H2 & _) & H).
  split; [by exists d1|]. destruct (H (kb_state, kb_sched) 3%nat) as (d2 & H3 & _); [cbn; lia|]. by exists d2.
Defined.

End Serial.
