(* ===== verification/UserMem.v ===== *)
(** * User memory as system calls see it

    What the accesses of Kernel ([uget], [ustr], [uput]) do on an address space in which
    the addressed range is mapped, and the paths built from user strings. *)

From stdpp Require Import base list gmap numbers sets.
From S2P Require Import Prelude CString Pmm Layout Disk Minix Paging AddrSpace Spaces Heap Pipe Sched.
From S2P Require Import Keyboard Console File Kernel Syscall.

#[local] Open Scope Z_scope.

Module UserMem.
Import Kernel.

(** The trap frame of call [n] with arguments [a], [b] and [c]. *)
Definition call_frame (n a b c : Z) : trapframe := Trapframe 0 0 0 0 0 0 0 0 a c b n 128 0 0 27 0 0 35.

Definition udir (k : kernel) : Z := Paging.hal_addrspace_current (mach k).

(** The range from [va] on lies in user space and holds the bytes [l]. *)
Definition user_range (va n : Z) : Prop := Paging.USER_BASE <= va /\ va + n <= 4294967296.
Definition holds (k : kernel) (va : Z) (l : list Z) : Prop :=
  user_range va (lenZ l) /\ forall j, 0 <= j < lenZ l -> Spaces.ubyte (mach k) (udir k) (va + j) = Some (lget 0 l j).
Definition mapped (k : kernel) (va n : Z) : Prop :=
  user_range va n /\ forall j, 0 <= j < n -> is_Some (Spaces.ubyte (mach k) (udir k) (va + j)).

(** The string [s] at [va], with its terminator. *)
Definition holds_str (k : kernel) (va : Z) (s : list Z) : Prop := holds k va (s ++ [0]) /\ (0 ∉ s).

Lemma holds_tail k va b l : holds k va (b :: l) -> l <> [] ->
  u32 (va + 1) = va + 1 /\ holds k (va + 1) l.
Proof.
  intros [[H1 H2] H] Hl. rewrite lenZ_cons in H2. assert (0 < lenZ l) as Hpos by (destruct l; [done|rewrite lenZ_cons; pose proof (lenZ_nonneg l); lia]).
  split; [apply u32_small; unfold is_u32, Paging.USER_BASE in *; lia|]. split; [split; lia|]. intros j Hj.
  replace (va + 1 + j) with (va + (j + 1)) by lia. rewrite H by (rewrite lenZ_cons; lia).
  by rewrite lget_cons by lia.
Qed.

Lemma ugetb_holds k va b l : holds k va (b :: l) -> ugetb va k = Done b k.
Proof.
  intros [[H1 _] H]. unfold ugetb. destruct (Z.ltb_spec va Paging.USER_BASE); [lia|].
  pose proof (lenZ_nonneg l). specialize (H 0 ltac:(rewrite lenZ_cons; lia)). rewrite Z.add_0_r in H.
  unfold udir in H. by rewrite H.
Qed.

Lemma uget_holds k va l : holds k va l -> uget (length l) va k = Done l k.
Proof.
  revert va. induction l as [|b l IH]; intros va H; [done|]. cbn [uget length].
  unfold mbind, M_bind. rewrite (ugetb_holds _ _ _ _ H). destruct l as [|c l]; [done|].
  destruct (holds_tail _ _ _ _ H ltac:(done)) as [-> H']. by rewrite (IH _ H').
Qed.

Lemma ustr_holds k va s n : holds_str k va s -> ustr n va k = Done (take n s) k.
Proof.
  intros [H H0]. revert va n H H0. induction s as [|b s IH]; intros va n H H0.
  - destruct n; [done|]. cbn [ustr]. unfold mbind, M_bind. by rewrite (ugetb_holds _ _ _ _ H).
  - destruct n as [|n]; [done|]. cbn [ustr app] in *. unfold mbind, M_bind. rewrite (ugetb_holds _ _ _ _ H).
    destruct (Z.eqb_spec b 0) as [->|]; [set_solver|].
    destruct (holds_tail _ _ _ _ H) as [-> H']; [by destruct s|]. rewrite (IH _ n H'); [done|set_solver].
Qed.

Lemma with_mach_twice k s s' : with_mach (with_mach k s) s' = with_mach k s'.
Proof. by destruct k as [[st tb c tl np sd [[? ? ? ? ?] ? ? ? ?]] ? ? ? ?]. Qed.
Lemma with_mach_id k : with_mach k (mach k) = k.
Proof. by destruct k as [[st tb c tl np sd [[? ? ? ? ?] ? ? ? ?]] ? ? ? ?]. Qed.

Lemma lset_lsplice l i (b : Z) : 0 <= i < lenZ l -> lset l i b = lsplice l i [b].
Proof.
  intros Hi. apply (lists_eq_lget 0).
  - rewrite lenZ_lset, lenZ_lsplice; [done|lia|unfold lenZ in *; cbn; lia].
  - intros j Hj. rewrite lenZ_lset in Hj. rewrite lget_lset, lget_lsplice by (unfold lenZ in *; cbn; lia).
    change (lenZ [b]) with 1.
    repeat match goal with |- context [?x =? ?y] => destruct (Z.eqb_spec x y)
      | |- context [?x <=? ?y] => destruct (Z.leb_spec x y) | |- context [?x <? ?y] => destruct (Z.ltb_spec x y) end;
      cbn [andb]; try lia; try done; subst; by rewrite Z.sub_diag.
Qed.

(** Storing bytes into mapped pages: they are there afterwards, the rest of the space
    and the frames of the others are as before. *)
Lemma uput_spec l : forall k va, AddrSpace.ok (mach k) -> AddrSpace.space (mach k) (udir k) -> mapped k va (lenZ l) ->
  bytes l -> exists s, uput va l k = Done tt (with_mach k s) /\
    Spaces.wrote (mach k) s (udir k) va (va + lenZ l) ∅ /\ holds (with_mach k s) va l.
Proof.
  induction l as [|b l IH]; intros k va Hok Hsp Hm Hb.
  - exists (mach k). cbn [uput]. rewrite with_mach_id. split; [done|]. rewrite Z.add_0_r. split.
    + split; try done; [split; try done; set_solver|auto].
    + split; [apply Hm|]. intros j Hj. unfold lenZ in Hj; cbn in Hj; lia.
  - destruct Hm as [[H1 H2] Hm]. rewrite lenZ_cons in *. pose proof (lenZ_nonneg l) as Hn.
    assert (Spaces.user_va va) as Hva by (split; lia).
    destruct (Hm 0 ltac:(lia)) as [b0 Hb0]. rewrite Z.add_0_r, Spaces.ubyte_owned in Hb0 by done.
    destruct (AddrSpace.owned (mach k) (udir k) (Spaces.page_of va)) as [f|] eqn:Ef; [|done].
    assert (Paging.dir_resolve (mach k) (udir k) va = f) as Hres.
    { rewrite Spaces.dir_resolve_owned by (apply Spaces.user_u32, Hva || apply Hva). by rewrite Ef. }
    pose proof (AddrSpace.us_pos _ _ (AddrSpace.sp_used _ _ Hsp _ _ Ef)) as Hf.
    assert (0 <= va mod 4096 < 4096) as Hmod by (apply Z.mod_pos_bound; lia).
    apply Forall_cons in Hb as [Hb1 Hb2].
    destruct (Spaces.wrote_page (mach k) (udir k) va f [b] Hok Hsp Hva Ef ltac:(by constructor) ltac:(change (lenZ [b]) with 1; lia))
      as [Hw Hu]. specialize (Hu 0 ltac:(change (lenZ [b]) with 1; lia)). rewrite Z.add_0_r in Hu. change (lenZ [b]) with 1 in Hw.
    set (s1 := Paging.set_page _ _ _) in *.
    assert (uputb va b k = Done tt (with_mach k s1)) as Ep.
    { unfold uputb. destruct (Z.ltb_spec va Paging.USER_BASE); [lia|]. cbv zeta. fold (udir k). rewrite Hres.
      destruct (Z.eqb_spec f 0); [lia|]. do 3 f_equal. unfold s1. rewrite lset_lsplice; [done|].
      by rewrite (proj1 (AddrSpace.ok_mem _ Hok f)). }
    set (k1 := with_mach k s1) in *. assert (udir k1 = udir k) as Ed by done.
    destruct l as [|c l'].
    { exists s1. cbn [uput]. unfold mbind, M_bind. rewrite Ep. split_and!; [done|done|]. change (lenZ [b]) with 1 in *. split; [split; unfold lenZ in *; cbn in *; lia|].
      intros j Hj. replace j with 0 by (unfold lenZ in Hj; cbn in Hj; lia). rewrite Z.add_0_r. exact Hu. }
    rewrite lenZ_cons in Hn, H2. set (l := c :: l') in *.
    assert (u32 (va + 1) = va + 1) as Hva1.
    { apply u32_small. unfold is_u32, Paging.USER_BASE in *. pose proof (lenZ_nonneg l'). lia. }
    destruct (IH k1 (va + 1)) as (s & Es & Hw2 & Hh).
    + apply (AddrSpace.kp_ok _ _ _ _ (Spaces.wr_keeps _ _ _ _ _ _ Hw)).
    + apply (Spaces.wr_space _ _ _ _ _ _ Hw).
    + split; [split; unfold l; rewrite ?lenZ_cons; lia|]. intros j Hj.
      destruct (Hm (j + 1) ltac:(lia)) as [x Hx]. exists x.
      replace (va + 1 + j) with (va + (j + 1)) by lia. apply (Spaces.wr_bytes _ _ _ _ _ _ Hw); [|lia|done].
      unfold Spaces.user_va, l in *. rewrite lenZ_cons in Hj. lia.
    + done.
    + unfold k1 in Es, Hh. rewrite with_mach_twice in Es, Hh. exists s. cbn [uput]. unfold mbind, M_bind.
      rewrite Ep, Hva1. split; [exact Es|]. replace (va + (lenZ l + 1)) with (va + 1 + lenZ l) by lia.
      split.
      { replace (∅ : gset Z) with (∅ ∪ ∅ : gset Z) by set_solver.
        apply (Spaces.copied_trans _ s1 _ _ _ (va + 1) _ ∅ ∅); [pose proof (lenZ_nonneg l); lia|exact Hw|exact Hw2]. }
      split; [unfold l; rewrite !lenZ_cons; split; lia|].
      assert (udir (with_mach k s) = udir k) as Ed2.
      { unfold udir, Paging.hal_addrspace_current. exact (AddrSpace.kp_cur _ _ _ _ (Spaces.wr_keeps _ _ _ _ _ _ Hw2)). }
      intros j Hj. rewrite lenZ_cons in Hj. destruct (decide (j = 0)) as [->|Hj0].
      * rewrite Ed2, Z.add_0_r. apply (Spaces.wr_bytes _ _ _ _ _ _ Hw2); [done|lia|exact Hu].
      * replace j with (j - 1 + 1) at 2 by lia. rewrite lget_cons by lia. destruct Hh as [_ Hh].
        rewrite <- Hh by lia. f_equal. lia.
Qed.

(** ** Paths *)

(** [build_path] (kernel/syscall/syscall.c): what it leaves in the buffer of 256 bytes. *)
Lemma build_path_spec k t path s : holds_str k path s ->
  Syscall.build_path t path k =
    if lget 0 s 0 =? Syscall.slash then Done (take 255 s) k
    else if 255 <? lenZ (Syscall.with_slash (Sched.cwd t)) then Beyond
    else Done (take 255 (Syscall.with_slash (Sched.cwd t) ++ s)) k.
Proof.
  intros Hs. pose proof Hs as [Hh _].
  assert (exists l, s ++ [0] = lget 0 s 0 :: l) as [l El] by (destruct s; cbn; eauto).
  rewrite El in Hh. unfold Syscall.build_path. unfold mbind at 1, M_bind at 1. rewrite (ugetb_holds _ _ _ _ Hh).
  destruct (_ =? _); [by apply ustr_holds|]. destruct (Z.ltb_spec 255 (lenZ (Syscall.with_slash (Sched.cwd t)))); [done|].
  unfold mbind, M_bind. rewrite (ustr_holds _ _ _ _ Hs). unfold mret, M_ret. f_equal.
  rewrite take_app, (take_ge _ 255); [|unfold lenZ in *; lia]. do 2 f_equal. unfold lenZ. lia.
Qed.

End UserMem.
