(* ===== verification/KernelDemo.v ===== *)
(** * A small kernel

    One user task with one page of memory on the machine of SpaceDemo, nothing open, an
    empty heap of 256 KiB: the state at which the theorems about system calls are
    exercised.  That it satisfies the invariant follows from the lemmas about
    [sched_init] and [sched_alloc]. *)

From stdpp Require Import base list gmap numbers sets.
From S2P Require Import Prelude CString Pmm Layout Disk Minix MinixDemo Paging AddrSpace Spaces SpaceDemo Heap.
From S2P Require Import HeapSpec Pipe Sched Keyboard Console File FileSpec Kernel Syscall Elf Proc KernelInv.
From S2P Require Import SyscallInv ProcInv DispatchInv.

#[local] Open Scope Z_scope.

Module KernelDemo.
Import Kernel KernelInv FileSpec SyscallInv ProcInv MinixDemo.

Definition heap_size : Z := 262144.
Definition demo_machine : Paging.machine := Paging.hal_paging_switch SpaceDemo.f_dir SpaceDemo.demo.
Definition heap0 : Heap.heap :=
  Heap.Heap {[Heap.HEAP_START := Heap.Block Heap.MAGIC (heap_size - 20) true 0 0]} Heap.HEAP_START
    (Heap.HEAP_START + heap_size) (Heap.HEAP_START + heap_size) demo_machine.
Definition services0 : File.services := File.Services heap0 ∅ ∅ ∅ 0.

(** The idle task runs; then a task is allocated and given the user address space. *)
Definition set_current (t : Z) (s : Sched.sched File.services) : Sched.sched File.services :=
  Sched.MkSched (Sched.store s) (Sched.tasks s) t (Sched.task_list s) (Sched.next_pid s) (Sched.started s) (Sched.env s).
Definition idle_sched : Sched.sched File.services := set_current Sched.idle_task (Sched.sched_init services0).
Definition first : Z := fst (Sched.sched_alloc [97] idle_sched).
Definition first_sched : Sched.sched File.services :=
  set_current first (Sched.upd (Proc.set_image SpaceDemo.f_dir 0 0 1073745920 true) first
    (snd (Sched.sched_alloc [97] idle_sched))).

Definition demo : kernel :=
  MkKernel first_sched (Keyboard.keyboard_init (replicate 256 0))
    (Console.console_init (Console.Cons (replicate 2000 0) 0 0 7 0 0 0 false false [] 0))
    demo_fs demo_disk.

Lemma services0_held : held [] services0 [].
Proof.
  apply (nothing_held heap0 [(heap_size - 20, true)]).
  split; [|cbn; intuition discriminate]. split; try reflexivity; try discriminate.
  - cbn. repeat split; discriminate || reflexivity.
  - vm_compute. intuition discriminate.
Qed.

Lemma sched_init_inv e : held [] e [] -> sinv (set_current Sched.idle_task (Sched.sched_init e)).
Proof.
  intros He. pose proof (sched_init_tinv e He) as [A B C E F]. split; [by split|].
  eexists. split; [apply lookup_singleton_eq|done].
Qed.

Lemma set_current_inv s a t : sinv s -> Sched.store s !! a = Some t -> Sched.state t <> Sched.TASK_ZOMBIE ->
  sinv (set_current a s).
Proof. intros [[A B C D E] _] Ha Hz. split; [split|]; try done. by exists t. Qed.

Lemma demo_kinv : kinv demo.
Proof.
  pose proof (sched_init_inv services0 services0_held) as H0. fold idle_sched in H0.
  destruct (sched_alloc_inv [97] idle_sched H0) as (t & s' & E & Hs & _ & [[Ht _]|(Ht & Hid & _ & tk & Hst & _ & Hz & _)]).
  { assert (fst (Sched.sched_alloc [97] idle_sched) = 0) as Hf by (by rewrite E). vm_compute in Hf. done. }
  unfold kinv, demo, first_sched, first. rewrite E. cbn [fst snd sch].
  assert (Sched.store s' !! t = Some tk) as Hl by (rewrite Hst; apply lookup_insert_eq).
  eapply (set_current_inv _ t).
  - by apply (upd_inv s' t tk).
  - unfold Sched.upd. cbn [Sched.store]. rewrite (get_store _ _ _ Hl). apply lookup_insert_eq.
  - cbn. by rewrite Hz.
Qed.

(** An allocation that finds a free block does not touch the page tables. *)
Definition fits (n : Z) (e : File.services) : bool :=
  match Heap.first_fit (Heap.fuel_of (File.heap e)) (Heap.store (File.heap e)) (Z.land (u32 (n + 7)) (not32 7))
          (Heap.heap_head (File.heap e)) with inl _ => true | inr _ => false end.
Lemma kmalloc_mach n e : fits n e = true -> File.machine_of (snd (File.kmalloc n e)) = File.machine_of e.
Proof.
  unfold fits, File.kmalloc, Heap.kmalloc. destruct (n =? 0); [done|]. by destruct (Heap.first_fit _ _ _ _).
Qed.

Lemma demo_mach : mach demo = demo_machine.
Proof.
  set (e0 := Sched.env idle_sched). set (e1 := snd (File.kmalloc Sched.sizeof_task e0)).
  assert (mach demo = File.machine_of (snd (File.kmalloc Sched.KSTACK_SIZE e1))) as ->.
  { unfold mach, serv, demo, first_sched. cbn [sch set_current Sched.env Sched.upd].
    unfold Sched.sched_alloc. cbn [Sched.kmalloc File.kernel_env]. fold e0.
    assert ((fst (File.kmalloc Sched.sizeof_task e0) =? 0) = false) as Hz by (vm_compute; reflexivity).
    unfold e1. destruct (File.kmalloc Sched.sizeof_task e0) as [t e1']. cbn [fst snd] in *. rewrite Hz.
    by destruct (File.kmalloc Sched.KSTACK_SIZE e1'). }
  etransitivity; [apply kmalloc_mach; vm_compute; reflexivity|].
  etransitivity; [apply kmalloc_mach; vm_compute; reflexivity|]. reflexivity.
Qed.

Lemma switch_ok d s : AddrSpace.ok s -> AddrSpace.ok (Paging.hal_paging_switch d s).
Proof. intros [A B C]. by split. Qed.

Lemma switch_space d s dir : AddrSpace.space s dir -> AddrSpace.space (Paging.hal_paging_switch d s) dir.
Proof. intros [A B]. split; [|done]. intros p f H. destruct (A p f H). by split. Qed.

Lemma demo_machine_ok : AddrSpace.ok demo_machine.
Proof. apply switch_ok, SpaceDemo.demo_ok. Qed.

Lemma demo_machine_space : AddrSpace.space demo_machine SpaceDemo.f_dir.
Proof. apply switch_space, SpaceDemo.demo_space. Qed.

End KernelDemo.
