(* ===== verification/Trap.v ===== *)
(** * Dispatching exceptions, system calls and interrupt requests

    [isr_dispatch] and [irq_dispatch] of kernel/i386/idt.c with the handlers they call.  A
    request is ended ([hal_irq_eoi]) when its handler returns; the handler of the timer may
    give the processor to another task ([IrqLeft]), and then the request stays in service
    until a task that was itself left in [irq_dispatch] gets the processor back and runs the
    rest of it ([continue]).  A task that is new, or was switched away from in a system call,
    does not do that. *)

From stdpp Require Import base list gmap numbers.
From S2P Require Import Prelude CString Pmm Layout Disk Minix Paging AddrSpace Spaces Heap Pipe Sched.
From S2P Require Import Keyboard Console File Kernel Syscall Elf Proc KernelInv SyscallInv ProcInv DispatchInv.
From S2P Require Import Ports Intr Serial KernelDemo.

#[local] Open Scope Z_scope.

Module Trap.
Import Kernel.

Section isr.
Context `{STK : !Stack}.

(** [cr2] is the address the processor reports for a page fault. *)
Definition mm_page_fault (tf : trapframe) (cr2 : Z) : M Z := Proc.proc_page_fault tf cr2.

(** The trap frame afterwards; any other exception prints a message and halts. *)
Definition isr_dispatch (s : Intr.intr) (tf : trapframe) (cr2 : Z) : M trapframe :=
  if int_no tf =? 144 then
    if Intr.syscall_dispatcher s then r ← Proc.dispatch tf; mret (set_eax (u32 r) tf) else mret tf
  else if int_no tf =? 14 then mm_page_fault tf cr2;; mret tf
  else halt.
End isr.

Section irq.
Context {D : Type} `{DEV : !Ports D}.

Inductive irq_result :=
| IrqDone (k : kernel) (s : Intr.intr) (d : D)
| IrqLeft (k : kernel) (s : Intr.intr) (d : D) (irq : Z)
| IrqBeyond.

Definition pit_handler (k : kernel) (s : Intr.intr) : option (kernel * Intr.intr) :=
  let s := Intr.MkIntr (Intr.idt s) (Intr.irq_handlers s) (Intr.syscall_dispatcher s)
             ((Intr.timer_ticks s + 1) mod 18446744073709551616) in
  sc ← Sched.sched_tick (sch k);
  Some (with_sch k sc, s).

Definition with_input (k : kernel) (st : Keyboard.keyboard * Sched.sched File.services) : kernel :=
  with_sch (with_kbd k (fst st)) (snd st).

(** The handler of [irq]: its effect, [None] for a run list that is not a ring or a device
    that keeps sending. *)
Definition run_handler (fuel : nat) (h : option Intr.handler) (k : kernel) (s : Intr.intr) (d : D) :
    option (kernel * Intr.intr * D) :=
  match h with
  | None => Some (k, s, d)
  | Some Intr.pit_handler => '(k, s) ← pit_handler k s; Some (k, s, d)
  | Some Intr.kbd_handler =>
      let '(sc, d) := port_inb d 96 in
      Some (with_input k (Keyboard.kbd_handler sc (kbd k, sch k)), s, d)
  | Some Intr.serial_handler => '(st, d) ← Serial.serial_handler fuel (kbd k, sch k) d; Some (with_input k st, s, d)
  end.

Definition irq_dispatch (fuel : nat) (tf : trapframe) (k : kernel) (s : Intr.intr) (d : D) : irq_result :=
  let irq := i32 (int_no tf - 32) in
  let h := if (0 <=? irq) && (irq <? 16) then lget None (Intr.irq_handlers s) irq else None in
  match run_handler fuel h k s d with
  | None => IrqBeyond
  | Some (k', s', d') =>
      if cur k' =? cur k then IrqDone k' s' (Intr.hal_irq_eoi irq d') else IrqLeft k' s' d' irq
  end.

(** The rest of [irq_dispatch] when a task that was left in it runs again. *)
Definition irq_resume (irq : Z) (d : D) : D := Intr.hal_irq_eoi irq d.

(** [waiting] gives the tasks that were left in [irq_dispatch], each with its request.  Task
    [t] gets the processor: it goes on where it was left. *)
Definition continue (waiting : gmap Z Z) (t : Z) (d : D) : gmap Z Z * D :=
  match waiting !! t with
  | Some irq => (delete t waiting, irq_resume irq d)
  | None => (waiting, d)
  end.

(** The system between two instructions of the current task. *)
Record sys := Sys { waiting : gmap Z Z; kern : kernel; table : Intr.intr; dev : D }.

(** An interrupt request: [irq_dispatch], up to where the task that has the processor then
    is back in its own code. *)
Definition interrupted (fuel : nat) (tf : trapframe) (x : sys) : option sys :=
  match irq_dispatch fuel tf (kern x) (table x) (dev x) with
  | IrqDone k s d => Some (Sys (waiting x) k s d)
  | IrqLeft k s d irq =>
      let '(w, d) := continue (<[cur (kern x) := irq]> (waiting x)) (cur k) d in Some (Sys w k s d)
  | IrqBeyond => None
  end.
End irq.
Arguments irq_result : clear implicits.
Arguments sys : clear implicits.

(** ** Requests are ended *)

Section board.
Context {D : Type} `{BRD : Board D}.
Implicit Types d : D.

(** Ending the request that was accepted last restores the requests in service. *)
Lemma eoi_restores irq c : 0 <= irq < 8 -> is_u8 (Pic.isr (fst c)) -> Pic.accepts irq c = true ->
  let a := Pic.isr (fst (Pic.accept irq c)) in Z.land a (a - 1) = Pic.isr (fst c).
Proof.
  intros Hi Hc [_ Ha]%andb_true_iff. cbv zeta. unfold Pic.accept. cbn [fst Pic.isr]. revert Ha.
  set (v := Pic.isr (fst c)) in *. clearbody v.
  assert (forallb (fun v => forallb (fun irq =>
    implb (forallb (fun i => negb (Z.testbit v i)) (range 0 (Z.to_nat (irq + 1))))
      (Z.land (Z.lor v (Z.shiftl 1 irq)) (Z.lor v (Z.shiftl 1 irq) - 1) =? v)) (range 0 8)) (range 0 256) = true) as H
    by (vm_compute; reflexivity).
  intros Ha. pose proof (forallb_range _ _ _ H v ltac:(unfold is_u8 in Hc; lia)) as H1. cbv beta in H1.
  pose proof (forallb_range _ _ _ H1 irq ltac:(lia)) as H2. cbv beta in H2. rewrite Ha in H2. by apply Z.eqb_eq.
Qed.

Lemma enqueue_cur c st :
  Sched.current (snd (Keyboard.keyboard_enqueue c st)) = Sched.current (snd st : Sched.sched File.services).
Proof.
  destruct st as [k0 s0]. unfold Keyboard.keyboard_enqueue. destruct (c =? 3); [|done]. unfold Keyboard.interrupt_foreground.
  destruct (_ =? 0); [done|].
  match goal with |- context [for_loop ?f ?a ?n ?st] =>
    assert (Sched.current (fst (for_loop f a n st)) = Sched.current s0) as H end.
  { apply (for_loop_ind (fun _ st => Sched.current (fst st) = Sched.current s0)); [done|].
    intros i [s1 n1] _ H. unfold Keyboard.interrupt_slot. cbn in H. destruct (_ || _ || _); [done|]. cbn.
    unfold Sched.sched_wakeup_parent. by destruct (_ && _ && _). }
  destruct (for_loop _ _ _ _) as [s1 n1]. by destruct (negb _).
Qed.

Lemma kbd_handler_cur sc k s : Sched.current (snd (Keyboard.kbd_handler sc (k, s))) = Sched.current (s : Sched.sched File.services).
Proof.
  unfold Keyboard.kbd_handler, Keyboard.enqueue_escape. repeat case_match; rewrite ?enqueue_cur; done.
Qed.

Lemma enqueue_all_cur l st : Sched.current (snd (Serial.enqueue_all l st)) = Sched.current (snd st : Sched.sched File.services).
Proof.
  unfold Serial.enqueue_all. revert st. induction l as [|c l IH]; intros st; cbn; [done|]. by rewrite IH, enqueue_cur.
Qed.

(** What a handler does to the controllers and to the current task. *)
Lemma run_handler_spec fuel h k s d : Uart.dlab (com1 d) = false -> (length (Uart.received (com1 d)) <= fuel)%nat ->
  Sched.sched_tick (sch k) <> None ->
  exists k' s' d', run_handler fuel h k s d = Some (k', s', d') /\ pic d' = pic d /\
    (cur k' <> cur k -> h = Some Intr.pit_handler).
Proof.
  intros Hl Hf Ht. destruct h as [[| |]|]; cbn [run_handler].
  - unfold pit_handler. destruct (Sched.sched_tick (sch k)) as [sc|]; [|done]. cbn. eauto 10.
  - pose proof (in_pic d 96 ltac:(done) ltac:(done)) as Hp. destruct (port_inb d 96) as [sc d'].
    eexists _, _, _. split; [reflexivity|]. split; [done|]. intros []. unfold cur. cbn. apply kbd_handler_cur.
  - unfold Serial.serial_handler. destruct (Serial.drain_spec fuel d (kbd k, sch k) Hl Hf) as (d' & -> & _ & _ & _ & Hp & _).
    eexists _, _, _. split; [reflexivity|]. split; [done|]. intros []. unfold cur. cbn. apply enqueue_all_cur.
  - eexists _, _, _. split; [reflexivity|]. done.
Qed.

Lemma not_accepted irq j c : 0 <= irq -> irq <= j -> Pic.accepts j (Pic.accept irq c) = false.
Proof.
  intros H0 Hj. unfold Pic.accepts. apply andb_false_intro2, not_true_is_false. intros H.
  pose proof (forallb_range _ _ _ H irq ltac:(lia)) as Hb. cbv beta in Hb. unfold Pic.accept in Hb.
  cbn [fst Pic.isr] in Hb. by rewrite Z.lor_spec, Intr.one_bit, Z.eqb_refl, orb_true_r in Hb by lia.
Qed.

Lemma eoi_accepted irq c d : 0 <= irq < 8 -> is_u8 (Pic.isr (fst c)) -> Pic.accepts irq c = true ->
  pic d = Pic.accept irq c -> pic (Intr.hal_irq_eoi irq d) = c.
Proof.
  intros Hi Hu Ha Hd. rewrite Intr.eoi_pic by lia. pose proof (eoi_restores irq c Hi Hu Ha) as He. cbv zeta in He.
  rewrite Hd, He. by destruct c as [[] ?].
Qed.

Lemma irq_dispatch_spec fuel irq tf k s d c :
  0 <= irq < 8 -> int_no tf = 32 + irq -> is_u8 (Pic.isr (fst c)) -> Pic.accepts irq c = true ->
  pic d = Pic.accept irq c -> Uart.dlab (com1 d) = false -> (length (Uart.received (com1 d)) <= fuel)%nat ->
  Sched.sched_tick (sch k) <> None ->
  match irq_dispatch fuel tf k s d with
  | IrqDone k' s' d' => cur k' = cur k /\ pic d' = c
  | IrqLeft k' s' d' i =>
      i = irq /\ cur k' <> cur k /\ lget None (Intr.irq_handlers s) irq = Some Intr.pit_handler /\
      pic d' = Pic.accept irq c
  | IrqBeyond => False
  end.
Proof.
  intros Hi Hno Hu Ha Hd Hl Hf Ht. unfold irq_dispatch. replace (i32 (int_no tf - 32)) with irq
    by (rewrite i32_small; lia).
  rewrite (proj2 (Z.leb_le 0 irq)), (proj2 (Z.ltb_lt irq 16)) by lia. cbn [andb].
  destruct (run_handler_spec fuel (lget None (Intr.irq_handlers s) irq) k s d Hl Hf Ht) as (k' & s' & d' & -> & Hp & Hc).
  rewrite Hd in Hp. bcase; [split; [done|]; by apply eoi_accepted|].
  split_and!; [done|done|by apply Hc|done].
Qed.

(** The system goes on without an interrupt, and no task that was left in [irq_dispatch] gets
    the processor: the current task computes, or a system call gives the processor to a task
    that is new or was switched away from in a system call.  Tasks may be killed. *)
Inductive goes_on : sys D -> sys D -> Prop :=
| goes_on_step w w' k k' s d d' : w' ⊆ w -> pic d' = pic d -> cur k' = cur k \/ w' !! cur k' = None ->
    goes_on (Sys w k s d) (Sys w' k' s d').

Lemma goes_on_keeps x y : rtc goes_on x y -> waiting y ⊆ waiting x /\ pic (dev y) = pic (dev x).
Proof.
  induction 1 as [x|x y z [w w' k k' s d d' Hw Hp _] _ [IH1 IH2]]; [done|]. cbn in *.
  split; [by etransitivity|congruence].
Qed.

Lemma continue_ends w t i irq c d : w !! t = Some i -> 0 <= i < 8 -> 0 <= irq < 8 -> is_u8 (Pic.isr (fst c)) ->
  Pic.accepts irq c = true -> pic d = Pic.accept irq c -> pic (snd (continue w t d)) = c.
Proof.
  intros Hw Hi Hirq Hu Ha Hd. unfold continue. rewrite Hw. cbn [snd]. unfold irq_resume.
  replace (Intr.hal_irq_eoi i d) with (Intr.hal_irq_eoi irq d); [by apply eoi_accepted|].
  unfold Intr.hal_irq_eoi. by rewrite !(proj2 (Z.leb_gt 8 _)) by lia.
Qed.

(** No request of priority [irq] or lower reaches the processor. *)
Definition blocked (irq : Z) d : Prop := forall j, irq <= j < 8 -> Pic.accepts j (pic d) = false.

(** C23: When interrupt requests end.  A request on a line of the first controller is
    accepted in state [c] of the controllers.  Then either the dispatch returns to the
    interrupted task with the controllers back in state [c], so that the line can be served
    again; or the handler was the timer's and another task has the processor.  If that task
    had itself been left in its [irq_dispatch], it ends the request: the controllers are back
    in state [c].  If it is new or was switched away from in a system call, nobody ends the
    request: no request of this or a lower priority is accepted, and that stays so however
    long the system runs, until a task left in [irq_dispatch] gets the processor, which then
    ends it.  For the timer, whose line has the highest priority, that means no interrupts at
    all meanwhile: neither timer nor keyboard. *)
Theorem irq_dispatch_ends fuel irq tf w k s d c :
  0 <= irq < 8 -> int_no tf = 32 + irq -> is_u8 (Pic.isr (fst c)) -> Pic.accepts irq c = true ->
  pic d = Pic.accept irq c -> Uart.dlab (com1 d) = false -> (length (Uart.received (com1 d)) <= fuel)%nat ->
  Sched.sched_tick (sch k) <> None -> (forall t i, w !! t = Some i -> 0 <= i < 8) ->
  exists w' k' s' d', interrupted fuel tf (Sys w k s d) = Some (Sys w' k' s' d') /\
  (forall t i, w' !! t = Some i -> 0 <= i < 8) /\
  (cur k' = cur k /\ w' = w /\ pic d' = c \/
   cur k' <> cur k /\ lget None (Intr.irq_handlers s) irq = Some Intr.pit_handler /\ w' !! cur k = Some irq /\
   (is_Some (w !! cur k') /\ w' !! cur k' = None /\ pic d' = c \/
    w !! cur k' = None /\
    forall y, rtc goes_on (Sys w' k' s' d') y -> blocked irq (dev y) /\
      forall t, is_Some (waiting y !! t) -> pic (snd (continue (waiting y) t (dev y))) = c)).
Proof.
  intros Hi Hno Hu Ha Hd Hl Hf Ht Hw. unfold interrupted. cbn [kern table dev waiting].
  pose proof (irq_dispatch_spec fuel irq tf k s d c Hi Hno Hu Ha Hd Hl Hf Ht) as H.
  destruct (irq_dispatch fuel tf k s d) as [k' s' d'|k' s' d' i|]; [| |done].
  { exists w, k', s', d'. destruct H. split; [done|]. split; [done|]. by left. }
  destruct H as (-> & Hne & Hh & Hp). set (w1 := <[cur k:=irq]> w).
  assert (w1 !! cur k' = w !! cur k') as E1 by (by apply lookup_insert_ne).
  assert (forall t i, w1 !! t = Some i -> 0 <= i < 8) as Hw1.
  { intros t i. unfold w1. destruct (decide (t = cur k)) as [->|]; [|rewrite lookup_insert_ne by done; apply Hw].
    rewrite lookup_insert_eq. by intros [= <-]. }
  destruct (w1 !! cur k') as [i|] eqn:Ek.
  - pose proof (continue_ends w1 (cur k') i irq c d' Ek (Hw1 _ _ Ek) Hi Hu Ha Hp) as Hc.
    unfold continue in *. rewrite Ek in *. cbn [snd] in Hc. eexists _, k', s', _. split; [reflexivity|].
    split; [intros t j [_ Hj]%lookup_delete_Some; by eapply Hw1|]. right. split_and!; [done|done| |left].
    + rewrite lookup_delete_ne by done. apply lookup_insert_eq.
    + split_and!; [rewrite <- E1; eauto|apply lookup_delete_eq|done].
  - unfold continue at 1. rewrite Ek. eexists w1, k', s', d'. split; [reflexivity|]. split; [done|]. right.
    split_and!; [done|done|apply lookup_insert_eq|right]. split; [done|]. intros y Hy. destruct (goes_on_keeps _ _ Hy) as [K1 K2].
    cbn [waiting dev] in K1, K2. split; [intros j Hj; rewrite K2, Hp; apply not_accepted; lia|].
    intros t [i Hti]. apply (continue_ends _ t i irq); try done; [|congruence]. eapply Hw1, lookup_weaken; [exact Hti|exact K1].
Qed.
End board.

(** Two tasks in the run list, the first at the end of its slice. *)
Definition two_tasks : kernel :=
  let s := default KernelDemo.first_sched (Sched.sched_add KernelDemo.first KernelDemo.first_sched) in
  let '(b, s) := Sched.sched_alloc [98] s in
  let s := default s (Sched.sched_add b s) in
  let s := Sched.upd (Sched.set_slice 1) KernelDemo.first s in
  with_sch KernelDemo.demo
    (Sched.MkSched (Sched.store s) (Sched.tasks s) (Sched.current s) (Sched.task_list s) (Sched.next_pid s) true (Sched.env s)).

Definition tick_frame : trapframe := Trapframe 0 0 0 0 0 0 0 0 0 0 0 0 32 0 0 0 0 0 0.
(** The timer's line is open and nothing is in service; then the timer fires. *)
Definition timer_open : Pic.chip * Pic.chip := (Pic.Chip Pic.Working 32 254 0 4 1, Pic.Chip Pic.Working 40 255 0 2 1).
Definition timer_board : Sim.board := Sim.MkBoard (Pic.accept 0 timer_open) (Uart.Line false 3 1 [] [] 0) [].
Definition timer_intr : Intr.intr := Intr.hal_irq_register 0 Intr.pit_handler (Intr.MkIntr [] (replicate 16 None) true 0).

Definition left_in {D} (t : Z) (r : option (sys D)) : bool :=
  match r with Some y => bool_decide (cur (kern y) <> t) | None => false end.
Lemma two_tasks_tick : Sched.sched_tick (sch two_tasks) <> None.
Proof.
  assert (match Sched.sched_tick (sch two_tasks) with Some _ => true | None => false end = true) as H by (vm_compute; reflexivity).
  by destruct (Sched.sched_tick (sch two_tasks)).
Qed.
Lemma two_tasks_left : left_in (cur two_tasks) (interrupted 0 tick_frame (Sys ∅ two_tasks timer_intr timer_board)) = true.
Proof. vm_compute. reflexivity. Qed.

(** The second task is new: the timer switches to it and no interrupt arrives any more. *)
Lemma irq_dispatch_ends_witness :
  match interrupted 0 tick_frame (Sys ∅ two_tasks timer_intr timer_board) with
  | Some y => cur (kern y) <> cur two_tasks /\ forall z, rtc goes_on y z -> blocked 0 (dev z)
  | None => False
  end.
Proof.
  destruct (irq_dispatch_ends 0 0 tick_frame ∅ two_tasks timer_intr timer_board timer_open ltac:(lia) eq_refl
    ltac:(cbv; done) eq_refl eq_refl eq_refl (le_n _) two_tasks_tick ltac:(done)) as (w & k & s & d & E & _ & H).
  pose proof two_tasks_left as L. rewrite E in L |- *. unfold left_in in L. cbn [kern] in L |- *. apply bool_decide_eq_true_1 in L.
  destruct H as [[H _]|(_ & _ & _ & [[[i Hi] _]|[_ H]])]; [by destruct L|discriminate Hi|].
  split; [exact L|]. intros z Hz. exact (proj1 (H z Hz)).
Defined.
End Trap.
