(* ===== verification/Boot.v ===== *)
(** * Booting (kernel/main.c)

    [kernel_main] runs the initialisation of all parts in order, mounts the root file
    system, starts the first program and hands the processor to the scheduler.  It is shown
    to reach the invariant that system calls keep, with the interrupt lines of timer,
    keyboard and serial line open. *)

From Stdlib Require Import String.
From stdpp Require Import base list gmap numbers sets.
From S2P Require Import Prelude CString Pmm Layout Disk Minix Paging AddrSpace Spaces Heap HeapSpec KernelMap HeapPages Pipe Sched.
From S2P Require Import Keyboard Console File FileSpec Kernel Syscall Elf Proc KernelInv SyscallInv ProcInv DispatchInv.
From S2P Require Import Ports Intr Serial MinixDemo KernelDemo.

#[local] Open Scope Z_scope.

Module Boot.
Import Kernel.

(** [proc_bounce_entry], where the first task starts: it calls [user_bounce]. *)
Definition user_bounce : M Z :=
  t ← gets (fun k => task_of k (cur k));
  Proc.enter (Sched.entry t) (Sched.user_stack t).
Definition proc_bounce_entry : M Z := user_bounce.

(** The processor continues with the saved context of the current task; the idle task
    waits for interrupts. *)
Definition run_first : M Z := fun k =>
  match File.contexts (serv k) !! Sched.ctx (task_of k (cur k)) with
  | Some (File.Starts e) => if e =? Proc.proc_bounce_entry then proc_bounce_entry k else Done 0 k
  | _ => Beyond
  end.

(** What the machine and the image give: the multiboot information (flags and
    [mem_upper]), the end of the kernel image, addresses of the interrupt stubs and of the
    processor's tables, the result of [ata_init] with the number of sectors, and memory,
    buffers and disk as they are. *)
Record power_on := PowerOn {
  mbi : option (Z * Z);
  kernel_end : Z;
  isr_at : Z -> Z; irq_at : Z -> Z; isr144_at : Z;
  gdt_at : Z; tss_at : Z; gdt0 : list Intr.gdt_entry; intr0 : Intr.intr;
  ata : Z * Z;
  memory : Z -> list Z;
  kbuf0 : list Z;
  con0 : Console.console;
  heap_statics : gmap Z Heap.block * Z * Z * Z;
  tasks0 : Sched.sched File.services;
  fs0 : Minix.statics;
  dsk0 : Disk.disk }.

Inductive boot_result (D : Type) :=
| Booted (k : kernel) (s : Intr.intr) (c : Intr.cpu) (d : D)
| BootHalts
| BootStuck
| BootBeyond.
Arguments Booted {D}. Arguments BootHalts {D}. Arguments BootStuck {D}. Arguments BootBeyond {D}.

Definition nl (s : string) : list Z := str s ++ [10].

Section boot.
Context {D : Type} `{DEV : !Ports D} `{STK : !Stack}.

Definition mem_upper_of (p : power_on) : Z :=
  match mbi p with
  | Some (flags, upper) => if negb (Z.land flags 1 =? 0) then upper else 32768
  | None => 32768
  end.

(** [pmm_init], [hal_paging_init] and [vmm_init]: the services of the kernel. *)
Definition init_memory (p : power_on) : File.services :=
  let m := Paging.Machine (memory p) (Pmm.pmm_init (mem_upper_of p) (kernel_end p)) 0 0 0 0 false in
  let '(st, hd, e, l) := heap_statics p in
  File.Services (Heap.vmm_init (Heap.Heap st hd e l (Paging.hal_paging_init m))) ∅ ∅ ∅ 0.

(** The messages printed before the file system is mounted. *)
Definition boot_messages (p : power_on) : Console.console :=
  let pm := Pmm.pmm_init (mem_upper_of p) (kernel_end p) in
  let c := Console.console_init (con0 p) in
  let c := Console.console_set_color 10 0 c in
  let c := Console.console_printf (nl "FentoOS v0.01 booting...") [] c in
  let c := Console.console_set_color 7 0 c in
  let c := Console.console_printf (nl "[ok] GDT + TSS") [] c in
  let c := Console.console_printf (nl "[ok] IDT + PIC + serial input") [] c in
  let c := Console.console_printf (nl "[ok] PMM: %u frames total, %u free")
             [Console.AWord (Pmm.total_frames pm); Console.AWord (Pmm.free_frames pm)] c in
  let c := Console.console_printf (nl "[ok] VMM paging enabled") [] c in
  let c := Console.console_printf (nl "[ok] kernel heap ready") [] c in
  let c := Console.console_printf (nl "[ok] PS/2 keyboard") [] c in
  let c := Console.console_printf (nl "[ok] syscalls (int 0x90, BSD style)") [] c in
  let c := if fst (ata p) =? 0 then Console.console_printf (nl "[ok] ATA PIO: %u sectors") [Console.AWord (snd (ata p))] c
           else Console.console_printf (nl "[--] ATA PIO: no disk") [] c in
  Console.console_printf (nl "[ok] PIT @ 100Hz + scheduler") [] c.

Definition ready_messages (c : Console.console) : Console.console :=
  let c := Console.console_printf (nl "[ok] mounted MINIX v3 root") [] c in
  Console.console_printf ([10] ++ str "FentoOS v0.01 ready. Launching userland /bin/sh (ring 3)..." ++ [10; 10]) [] c.

(** [mount] to [sched_start], with everything else set up. *)
Definition start_system (k : kernel) (s : Intr.intr) (c : Intr.cpu) (d : D) : boot_result D :=
  let '(r, m) := Minix.minixfs_mount (fs k) (dsk k) in
  if r <? 0 then BootHalts
  else
    match Proc.proc_start_init (str "/bin/sh") (MkKernel (sch k) (kbd k) (ready_messages (con k)) m (dsk k)) with
    | Done _ k => Booted (with_sch k (Sched.sched_start (sch k))) s c d
    | _ => BootBeyond
    end.

Definition kernel_main (fuel : nat) (p : power_on) (d : D) : boot_result D :=
  let d := Serial.serial_init d in
  let c := Intr.hal_cpu_init (gdt_at p) (tss_at p) (gdt0 p) in
  let '(s, d) := Intr.hal_interrupts_init (isr_at p) (irq_at p) (isr144_at p) (intr0 p) d in
  match Serial.keyboard_init fuel (kbuf0 p) s d with
  | None => BootStuck
  | Some (kb, s, d) =>
      match Serial.serial_enable_input fuel s (kb, tasks0 p) d with
      | None => BootStuck
      | Some (s, (kb, _), d) =>
          let e := init_memory p in
          let s := Intr.hal_syscall_set_dispatcher s in
          let sc := Sched.sched_init e in
          let '(s, d) := Intr.hal_timer_init 100 s d in
          start_system (MkKernel sc kb (boot_messages p) (fs0 p) (dsk0 p)) s c d
      end
  end.
End boot.

(** ** Starting the first program *)

Section init.
Context `{STK : !Stack}.
Import KernelInv FileSpec SyscallInv ProcInv.

(** The heap can still grow by [n] bytes. *)
Definition room (n : Z) (e : File.services) : Prop :=
  Heap.heap_limit (File.heap e) = Heap.HEAP_MAX /\ Heap.heap_end (File.heap e) + n <= Heap.HEAP_MAX.

Lemma kmalloc_served n sz e L : blocks (File.heap e) L -> 0 < sz <= Heap.HEAP_MAX -> 0 < n ->
  room (n + 4096 * HeapPages.pages sz) e -> fst (File.kmalloc sz e) <> 0 /\ room n (snd (File.kmalloc sz e)).
Proof.
  intros [(bs & Hw & _) _] Hsz Hn [H1 H2]. pose proof (HeapSpec.round8_spec sz Hsz) as [Hr1 Hr2].
  destruct (HeapPages.kmalloc_room (File.heap e) bs sz Hw Hsz) as (K1 & K2 & K3); [unfold HeapPages.pages in H2; dlia|].
  unfold File.kmalloc. destruct (Heap.kmalloc sz (File.heap e)) as [p h]. cbn [fst snd] in *. split; [done|].
  split; cbn [File.heap File.with_heap]; lia.
Qed.

Lemma sched_alloc_served n nm (s : Sched.sched File.services) : tinv None s -> 0 < n -> room (n + 49152) (Sched.env s) ->
  fst (Sched.sched_alloc nm s) <> 0 /\ room n (Sched.env (snd (Sched.sched_alloc nm s))).
Proof.
  intros Hs Hn Hr. unfold Sched.sched_alloc. cbn [Sched.kmalloc File.kernel_env].
  destruct (kmalloc_served (n + 40960) Sched.sizeof_task (Sched.env s) _ (ok_heap _ _ (held_ok _ _ _ (ti_held _ _ Hs)))) as [K1 K2];
    [done|lia|by replace (n + 40960 + 4096 * HeapPages.pages Sched.sizeof_task) with (n + 49152) by (change (HeapPages.pages Sched.sizeof_task) with 2; lia)|].
  destruct (kmalloc_held _ _ _ Sched.sizeof_task (ti_held _ _ Hs) ltac:(done)) as (t & e1 & Hk & _ & _ & _ & Hh).
  rewrite Hk in *. cbn [fst snd] in *. destruct (Z.eqb_spec t 0); [done|]. destruct Hh as [[? _]|[_ Hh]]; [done|].
  destruct (kmalloc_served n Sched.KSTACK_SIZE e1 _ (ok_heap _ _ (held_ok _ _ _ Hh))) as [_ K4];
    [done|lia|by change (4096 * HeapPages.pages Sched.KSTACK_SIZE) with 40960|].
  destruct (File.kmalloc Sched.KSTACK_SIZE e1) as [ks e2]. done.
Qed.

Lemma filp_alloc_served n e X ds : held X e ds -> 0 < n -> room (n + 8192) e ->
  fst (File.filp_alloc e) <> 0 /\ room n (snd (File.filp_alloc e)).
Proof.
  intros Hh Hn Hr. unfold File.filp_alloc.
  destruct (kmalloc_served n File.sizeof_filp e _ (ok_heap _ _ (held_ok _ _ _ Hh))) as [K1 K2]; [done|lia|done|].
  destruct (File.kmalloc File.sizeof_filp e) as [f e1]. cbn [fst snd] in *. by destruct (Z.eqb_spec f 0).
Qed.

(** The first task [t] is being set up: the bookkeeping is exact, its descriptors are
    [fl], the run list is empty, the heap has room, and the file system is as mounted. *)
Context (root : Minix.statics) (rootdisk : Disk.disk).
Record setting_up (n t : Z) (fl : list Z) (k : kernel) : Prop := {
  su_inv : tinv None (sch k);
  su_task : exists tk, Sched.store (sch k) !! t = Some tk /\ Sched.files tk = fl /\ Sched.state tk = Sched.TASK_READY;
  su_list : Sched.task_list (sch k) = 0;
  su_room : room n (serv k);
  su_fs : fs k = root /\ dsk k = rootdisk }.

Definition stable {A} (J : kernel -> Prop) (m : M A) : Prop := forall k, J k -> exists a k', m k = Done a k' /\ J k'.

Lemma stable_bind {A B} J (m : M A) (g : A -> M B) : stable J m -> (forall a, stable J (g a)) -> stable J (m ≫= g).
Proof.
  intros Hm Hg k Hk. destruct (Hm k Hk) as (a & k' & E & Hk'). destruct (Hg a k' Hk') as (b & k2 & E2 & H2).
  exists b, k2. unfold mbind, M_bind. by rewrite E.
Qed.
Lemma stable_ret {A} J (a : A) : stable J (mret a).
Proof. intros k Hk. by exists a, k. Qed.
Lemma stable_gets {A} J (g : kernel -> A) : stable J (gets g).
Proof. intros k Hk. by exists (g k), k. Qed.
Lemma stable_modify J (g : kernel -> kernel) : (forall k, J k -> J (g k)) -> stable J (modify g).
Proof. intros H k Hk. exists tt, (g k). auto. Qed.
Lemma stable_call {A} J (g : kernel -> A * kernel) : (forall k, J k -> J (snd (g k))) -> stable J (call g).
Proof. intros H k Hk. specialize (H k Hk). unfold call. destruct (g k) as [a k']. by exists a, k'. Qed.

Lemma setting_up_mach n t fl k s : setting_up n t fl k -> setting_up n t fl (with_mach k s).
Proof. intros [A B C R S]. split; [|done|done|done|done]. apply env_tinv; [done|]. intros X ds. apply held_machine. Qed.

Lemma setting_up_upd n t fl k g : (forall tk, Sched.files (g tk) = Sched.files tk /\ Sched.kstack (g tk) = Sched.kstack tk /\
    Sched.state (g tk) = Sched.state tk /\ Sched.parent (g tk) = Sched.parent tk) ->
  setting_up n t fl k -> setting_up n t fl (upd_task g t k).
Proof.
  intros Hg [A (tk & B1 & B2 & B3) C R S]. destruct (Hg tk) as (G1 & G2 & G3 & G4). split; [..|done|done].
  - apply (upd_tinv None _ t tk); try done; [by rewrite G3|by rewrite G4].
  - exists (g tk). unfold upd_task, Sched.upd. cbn. rewrite (get_store _ _ _ B1), lookup_insert_eq. by rewrite G1, G3.
  - done.
Qed.

(** The first program lies in user space. *)
Definition sh_in_user : Prop :=
  let ino := Minix.minixfs_resolve root rootdisk (str "/bin/sh") in ino <> 0 -> Elf.image_in_user root rootdisk ino = true.

Lemma load_image_stable n t fl ino argv envp : Elf.image_in_user root rootdisk ino = true ->
  stable (setting_up n t fl) (Proc.load_image ino argv envp).
Proof.
  intros Hu. unfold Proc.load_image. apply stable_bind.
  { apply stable_call. intros k Hk. destruct (Paging.hal_addrspace_create _). by apply setting_up_mach. }
  intros dir. destruct (dir =? 0); [apply stable_ret|].
  intros k Hk. rewrite bind_gets. destruct (su_fs _ _ _ _ Hk) as [-> ->]. rewrite Hu. cbn [negb]. revert k Hk.
  match goal with |- forall k, _ -> exists a k', ?m k = _ /\ _ => change (stable (setting_up n t fl) m) end. apply stable_bind.
  { apply stable_call. intros k Hk. destruct (Elf.elf_load _ _ _ _ _). by apply setting_up_mach. }
  intros [[en br]|].
  - apply stable_bind; [|intros; apply stable_ret]. apply stable_call. intros k Hk.
    destruct (Proc.setup_user_stack _ _ _ _). by apply setting_up_mach.
  - apply stable_bind; [|intros; apply stable_ret]. apply stable_modify. intros k Hk. by apply setting_up_mach.
Qed.

Lemma proc_exec_stable n t fl argv envp : sh_in_user ->
  stable (setting_up n t fl) (Proc.kernel_strings argv) -> stable (setting_up n t fl) (Proc.kernel_strings envp) ->
  stable (setting_up n t fl) (Proc.proc_exec t (str "/bin/sh") argv envp).
Proof.
  intros Hu Ha He. unfold Proc.proc_exec. intros k Hk. rewrite bind_gets. destruct (su_fs _ _ _ _ Hk) as [-> ->]. unfold sh_in_user in Hu.
  set (ino := Minix.minixfs_resolve root rootdisk (str "/bin/sh")) in *. clearbody ino.
  destruct (Z.eqb_spec ino 0); [by apply stable_ret|]. revert k Hk.
  match goal with |- forall k, _ -> exists a k', ?m k = _ /\ _ => change (stable (setting_up n t fl) m) end.
  apply stable_bind; [apply stable_gets|]. intros dir. destruct (negb _); [apply stable_ret|].
  apply stable_bind; [done|]. intros ka. apply stable_bind; [done|]. intros ke. apply stable_bind; [apply load_image_stable; auto|].
  intros [[[[nd en] sp] br]|]; [|apply stable_ret]. apply stable_bind; [apply stable_gets|]. intros old.
  apply stable_bind; [apply stable_modify; intros k Hk; by apply setting_up_upd|]. intros _.
  apply stable_bind; [apply stable_modify; intros k Hk; by apply setting_up_mach|]. intros _. apply stable_ret.
Qed.

(** An entry of the task's table changes, together with the services. *)
Lemma set_fd_setting n n' t fl k fd f e : setting_up n t fl k -> 0 <= fd < 32 -> lget 0 fl fd = 0 -> room n' e ->
  (held (others (Sched.store (sch k))) (serv k) (descs (Sched.store (sch k))) ->
   held (others (Sched.store (sch k))) e (nz [f] ++ descs (Sched.store (sch k)))) ->
  setting_up n' t (lset fl fd f) (set_file t fd f (with_serv k e)).
Proof.
  intros [A (tk & B1 & B2 & B3) C R S] Hfd Hz Hroom He. split; [|..|done|done|done].
  - apply (set_fd_tinv None (sch k) t tk fd f e); try done; [by rewrite B3|].
    intros ds Hds _ _. rewrite B2, Hz in Hds. cbn [nz filter app] in Hds. rewrite <- Hds. apply He, A.
  - eexists. unfold set_file, upd_task, Sched.upd. cbn.
    change (Sched.get (Sched.with_env e (sch k)) t) with (Sched.get (sch k) t). rewrite (get_store _ _ _ B1), lookup_insert_eq.
    split_and!; [done| |done]. cbn. by rewrite B2.
Qed.

Lemma share_fd_setting n t fl k fd f : setting_up n t fl k -> 0 <= fd < 32 -> lget 0 fl fd = 0 ->
  f = 0 \/ f ∈ descs (Sched.store (sch k)) ->
  setting_up n t (lset fl fd f) (set_file t fd f (with_serv k (File.filp_ref f (serv k)))).
Proof.
  intros Hs Hfd Hz Hf. apply (set_fd_setting n n); [done..| |].
  { destruct (su_room _ _ _ _ Hs). unfold File.filp_ref. by destruct (f =? 0). }
  intros Hh. pose proof (descs_bound _ _ (su_inv _ _ _ _ Hs)).
  destruct (decide (f = 0)) as [->|Hne]; [done|]. rewrite nz_one by done. destruct Hf; [done|]. by apply ref_held.
Qed.

(** The console's open file. *)
Definition to_console (x : File.filp) : File.filp :=
  File.Filp File.FT_CONS (File.refcount x) (File.ino x) (File.offset x) (File.flags x) (File.is_dir x) (File.fpipe x) (File.pipe_end x).
Definition is_console (f : Z) (k : kernel) : Prop := f <> 0 /\ File.ftype (filp_of k f) = File.FT_CONS.

Lemma console_fd_setting t fl k f e : setting_up 8193 t fl k -> lget 0 fl 0 = 0 -> File.filp_alloc (serv k) = (f, e) ->
  setting_up 1 t (lset fl 0 f) (set_file t 0 f (fstore to_console f (with_serv k e))) /\
  is_console f (set_file t 0 f (fstore to_console f (with_serv k e))).
Proof.
  intros Hs Hz Hal. pose proof (filp_alloc_served 1 (serv k) _ _ (ti_held _ _ (su_inv _ _ _ _ Hs)) ltac:(lia) (su_room _ _ _ _ Hs)) as [Hf0 Hroom].
  rewrite Hal in Hf0, Hroom. cbn [fst snd] in *.
  assert (held (others (Sched.store (sch k))) (serv k) (descs (Sched.store (sch k))) ->
    held (others (Sched.store (sch k))) (File.fupd to_console f e) (nz [f] ++ descs (Sched.store (sch k)))) as He.
  { intros Hh. destruct (filp_alloc_held _ _ _ Hh) as (f' & e' & Hal' & _ & H). rewrite Hal in Hal'. injection Hal' as <- <-.
    destruct H as [(-> & _ & H)|(Hf & _ & Ef & H)]; [done|]. rewrite nz_one by done.
    apply (fupd_held _ _ _ _ new_filp); [done|by rewrite Ef, lookup_insert_eq| |done].
    intros p rd. split; intros (H1 & _); done. }
  pose proof (set_fd_setting 8193 1 t fl k 0 f (File.fupd to_console f e) Hs ltac:(lia) Hz ltac:(done) He) as H.
  unfold fstore. destruct (Z.eqb_spec f 0) as [|_]; [done|]. split; [done|]. split; [done|].
  unfold filp_of, File.fget, File.fupd. cbn. by rewrite lookup_insert_eq.
Qed.

Lemma is_console_ref f k : is_console f k -> is_console f (with_serv k (File.filp_ref f (serv k))).
Proof.
  intros [H0 H]. split; [done|]. unfold filp_of in *. cbn. unfold File.filp_ref. destruct (f =? 0); [done|].
  unfold File.fget at 1. cbn. rewrite lookup_insert_eq. cbn. exact H.
Qed.

Lemma fd_descs n t fl k fd : setting_up n t fl k -> 0 <= fd < lenZ fl -> lget 0 fl fd = 0 \/ lget 0 fl fd ∈ descs (Sched.store (sch k)).
Proof.
  intros [A (tk & B1 & B2 & B3) C R S] Hfd. destruct (decide (lget 0 fl fd = 0)); [by left|right].
  rewrite <- B2 in *. by apply (fd_in_descs _ t tk).
Qed.

(** The three standard descriptors. *)
Definition console_files (f : Z) : list Z := lset (lset (lset (replicate (Z.to_nat Sched.MAX_FILES) 0) 0 f) 1 f) 2 f.

(** The result of [proc_exec] for the first task. *)
Definition first_exec (k : kernel) : option Z :=
  let '(t, s) := Sched.sched_alloc (str "init") (sch k) in
  match Proc.proc_exec t (str "/bin/sh") [str "/bin/sh"] [str "PATH=/bin"; str "HOME=/"]
          (upd_task (fun tk => Proc.set_image (Paging.hal_paging_kernel_dir (mach (with_sch k s))) (Sched.entry tk) (Sched.user_stack tk)
             (Sched.brk tk) true (Syscall.set_cwd [47] (Syscall.set_gid 0 (Syscall.set_uid 0 tk)))) t (with_sch k s)) with
  | Done r _ => Some r
  | _ => None
  end.

(** What [proc_start_init] leaves: nothing to run, when that failed, or one task that starts
    in [proc_bounce_entry]. *)
Definition started_init (r : Z) (k : kernel) : Prop :=
  tinv None (sch k) /\
  (r < 0 /\ Sched.task_list (sch k) = 0 \/
   0 <= r /\ exists t tk f, Sched.task_list (sch k) = t /\ t <> 0 /\ Sched.store (sch k) !! t = Some tk /\
     Sched.files tk = console_files f /\ is_console f k /\ File.contexts (serv k) !! Sched.ctx tk = Some (File.Starts Proc.proc_bounce_entry)).

Lemma sched_alloc_list nm (s : Sched.sched File.services) : Sched.task_list (snd (Sched.sched_alloc nm s)) = Sched.task_list s.
Proof.
  unfold Sched.sched_alloc. destruct (Sched.kmalloc _ _) as [t e1]. destruct (t =? 0); [done|].
  by destruct (Sched.kmalloc Sched.KSTACK_SIZE e1).
Qed.

(** The end of [proc_start_init]: the context, and the run list. *)
Lemma start_context_spec n r t f k : setting_up n t (console_files f) k -> is_console f k -> t <> 0 -> 0 <= r ->
  exists k', (top ← gets (fun k => Sched.kstack (task_of k t) + Sched.KSTACK_SIZE);
    c ← call_serv (File.hal_context_init top Proc.proc_bounce_entry);
    modify (upd_task (Sched.set_ctx c) t);;
    Proc.add_task t) k = Done tt k' /\ started_init r k'.
Proof.
  intros H3 Hcons Ht Hr0. rewrite bind_gets. generalize (Sched.kstack (task_of k t) + Sched.KSTACK_SIZE). intros top.
  unfold File.hal_context_init. erewrite bind_call_serv by reflexivity. rewrite bind_modify.
  generalize (u32 (top - 8 - 20)). intros c. set (e3 := File.with_contexts _ _).
  assert (setting_up n t (console_files f) (with_serv k e3)) as H4.
  { destruct H3 as [A B C R S]. split; [|done|done|done|done]. apply env_tinv; [done|]. intros X ds. apply held_contexts. }
  assert (File.contexts (serv (with_serv k e3)) !! c = Some (File.Starts Proc.proc_bounce_entry)) as Hx by apply lookup_insert_eq.
  assert (is_console f (with_serv k e3)) as Hcons4 by done.
  set (k4 := with_serv k e3) in *. clearbody k4. clear e3.
  assert (setting_up n t (console_files f) (upd_task (Sched.set_ctx c) t k4)) as H5 by (by apply setting_up_upd).
  destruct H4 as [_ (tk & B1 & B2 & B3) _ _ _].
  assert (Sched.store (sch (upd_task (Sched.set_ctx c) t k4)) !! t = Some (Sched.set_ctx c tk)) as Hst by (by apply upd_at).
  assert (File.contexts (serv (upd_task (Sched.set_ctx c) t k4)) !! c = Some (File.Starts Proc.proc_bounce_entry)) as Hx5 by done.
  assert (is_console f (upd_task (Sched.set_ctx c) t k4)) as Hcons5 by done.
  set (k5 := upd_task _ t k4) in *. clearbody k5.
  unfold Proc.add_task. destruct H5 as [A _ C _ _].
  destruct (Sched.sched_add t (sch k5)) as [s'|] eqn:Es.
  2:{ unfold Sched.sched_add in Es. by rewrite C in Es. }
  eexists. split; [done|]. split; [apply (sched_add_tinv None (sch k5) t); eauto|]. right. split; [done|].
  destruct (sched_add_keeps _ _ _ _ _ Es Hst) as ([nx Hn] & He & _). exists t, (Sched.set_next nx (Sched.set_ctx c tk)), f.
  split_and!; [|done|done|done| |].
  - cbn. unfold Sched.sched_add in Es. rewrite C in Es. by injection Es as <-.
  - unfold is_console, filp_of, serv in *. cbn. by rewrite He.
  - unfold serv in *. cbn. by rewrite He.
Qed.

(** The console as standard input, output and error. *)
Lemma start_console_spec r t k : setting_up 8193 t (replicate (Z.to_nat Sched.MAX_FILES) 0) k -> t <> 0 -> 0 <= r ->
  exists k', (cons ← call_serv File.filp_alloc;
    modify (fstore (fun x => File.Filp File.FT_CONS (File.refcount x) (File.ino x) (File.offset x) (File.flags x)
                               (File.is_dir x) (File.fpipe x) (File.pipe_end x)) cons);;
    modify (set_file t 0 cons);;
    on_serv (File.filp_ref cons);;
    modify (set_file t 1 cons);;
    on_serv (File.filp_ref cons);;
    modify (set_file t 2 cons);;
    top ← gets (fun k => Sched.kstack (task_of k t) + Sched.KSTACK_SIZE);
    c ← call_serv (File.hal_context_init top Proc.proc_bounce_entry);
    modify (upd_task (Sched.set_ctx c) t);;
    Proc.add_task t) k = Done tt k' /\ started_init r k'.
Proof.
  intros Hs Ht Hr0. destruct (File.filp_alloc (serv k)) as [f e] eqn:Ea.
  rewrite (bind_call_serv _ _ _ _ _ Ea), 2!bind_modify. fold to_console.
  pose proof (console_fd_setting t _ k f e Hs eq_refl Ea) as [H1 C1].
  change (fstore _ f (with_serv k e)) with (fstore to_console f (with_serv k e)). set (k1 := set_file t 0 f _) in *. clearbody k1.
  unfold on_serv. rewrite 2!bind_modify.
  assert (f = 0 \/ f ∈ descs (Sched.store (sch k1))) as Hf1 by exact (fd_descs 1 t _ k1 0 H1 ltac:(done)).
  pose proof (share_fd_setting 1 t _ k1 1 f H1 ltac:(lia) eq_refl Hf1) as H2. pose proof (is_console_ref f k1 C1) as C2.
  change (is_console f (set_file t 1 f (with_serv k1 (File.filp_ref f (serv k1))))) in C2. set (k2 := set_file t 1 f _) in *. clearbody k2.
  rewrite 2!bind_modify.
  assert (f = 0 \/ f ∈ descs (Sched.store (sch k2))) as Hf2 by exact (fd_descs 1 t _ k2 0 H2 ltac:(done)).
  pose proof (share_fd_setting 1 t _ k2 2 f H2 ltac:(lia) eq_refl Hf2) as H3. pose proof (is_console_ref f k2 C2) as C3.
  change (is_console f (set_file t 2 f (with_serv k2 (File.filp_ref f (serv k2))))) in C3. set (k3 := set_file t 2 f _) in *. clearbody k3.
  exact (start_context_spec 1 r t f k3 H3 C3 Ht Hr0).
Qed.

Lemma kernel_strings_stable J l : (forall k, Proc.kernel_strings l k = Done l k) -> stable J (Proc.kernel_strings l).
Proof. intros H k Hk. exists l, k. by rewrite H. Qed.

Lemma proc_start_init_spec k : tinv None (sch k) -> Sched.task_list (sch k) = 0 -> room 57345 (serv k) ->
  fs k = root -> dsk k = rootdisk -> sh_in_user ->
  exists r k', first_exec k = Some r /\ Proc.proc_start_init (str "/bin/sh") k = Done tt k' /\ started_init r k'.
Proof.
  intros Hk Hl Hroom Hfs Hdk Hu. unfold Proc.proc_start_init, first_exec.
  destruct (sched_alloc_tinv None (str "init") (sch k) Hk) as (t & s & E & Hs & _ & Hal).
  pose proof (sched_alloc_list (str "init") (sch k)) as Hl2. rewrite E in Hl2. cbn [snd] in Hl2.
  pose proof (sched_alloc_served 8193 (str "init") (sch k) Hk ltac:(lia) Hroom) as [Hne Hroom2]. rewrite E in Hne, Hroom2. cbn [fst snd] in *.
  erewrite bind_call by (cbv beta; rewrite E; reflexivity). rewrite E. destruct (Z.eqb_spec t 0); [done|].
  destruct Hal as [[-> _]|(_ & _ & _ & tk & Hst & _ & Hrd & Hfl & _)]; [done|]. rewrite bind_modify.
  set (k1 := upd_task _ t _).
  assert (setting_up 8193 t (replicate (Z.to_nat Sched.MAX_FILES) 0) k1) as H1.
  { apply setting_up_upd; [done|]. split; [done| |cbn; congruence|done|done]. exists tk. cbn. rewrite Hst. split; [apply lookup_insert_eq|done]. }
  clearbody k1.
  destruct (proc_exec_stable 8193 t _ [str "/bin/sh"] [str "PATH=/bin"; str "HOME=/"] Hu
    (kernel_strings_stable _ [str "/bin/sh"] (fun k => eq_refl))
    (kernel_strings_stable _ [str "PATH=/bin"; str "HOME=/"] (fun k => eq_refl)) k1 H1) as (r & k2 & E2 & H2).
  exists r. unfold mbind at 1, M_bind at 1. rewrite E2. destruct (Z.ltb_spec r 0).
  - eexists. split; [done|]. split; [reflexivity|]. split; [apply H2|]. left. split; [done|apply H2].
  - destruct (start_console_spec r t k2 H2 Hne ltac:(done)) as (k3 & E3 & H3). by exists k3.
Qed.

(** Handing the processor to the scheduler. *)
Lemma sched_start_spec r k : started_init r k ->
  let k' := with_sch k (Sched.sched_start (sch k)) in
  kinv k' /\ Sched.started (sch k') = true /\
  (r < 0 /\ cur k' = Sched.idle_task \/
   0 <= r /\ exists tk f, Sched.store (sch k') !! cur k' = Some tk /\ Sched.state tk = Sched.TASK_RUNNING /\
     Sched.files tk = console_files f /\ is_console f k' /\ run_first k' = Enters k' (Sched.entry tk) (Sched.user_stack tk)).
Proof.
  intros [Hk Hl]. cbv zeta.
  set (t := if negb (Sched.task_list (sch k) =? 0) then Sched.task_list (sch k) else Sched.idle_task).
  assert (exists tk, Sched.store (sch k) !! t = Some tk /\ (r < 0 /\ t = Sched.idle_task \/ 0 <= r /\ exists f, Sched.files tk = console_files f /\ is_console f k /\
    File.contexts (serv k) !! Sched.ctx tk = Some (File.Starts Proc.proc_bounce_entry))) as (tk & Htk & Hcase).
  { unfold t. destruct Hl as [[Hr ->]|(Hr & u & uk & f & -> & Hu & Hs & Hf & Hx)].
    - destruct (ti_idle _ _ Hk) as (u & Hu & _). exists u. auto.
    - destruct (Z.eqb_spec u 0); [done|]. exists uk. cbn [negb]. split; [done|]. right. eauto. }
  unfold Sched.sched_start. fold t. clearbody t. cbn [Sched.current Sched.upd].
  set (s1 := Sched.upd (Sched.set_state Sched.TASK_RUNNING) t _).
  assert (tinv None s1) as H1.
  { apply (upd_tinv None _ t tk); try done. destruct Hk as [A B C E F]. by split. }
  assert (Sched.store s1 !! t = Some (Sched.set_state Sched.TASK_RUNNING tk)) as Hs1.
  { unfold s1, Sched.upd. cbn. unfold Sched.get. cbn [Sched.store]. rewrite (lookup_total_correct _ _ _ Htk). apply lookup_insert_eq. }
  set (e := if negb _ then _ else _).
  assert (forall X ds, held X (Sched.env s1) ds -> held X e ds) as He.
  { intros X ds Hh. unfold e. destruct (negb _); [apply held_machine|]; by apply held_tss. }
  assert (File.contexts e = File.contexts (serv k) /\ File.filps e = File.filps (serv k)) as [Hx Hfp] by (unfold e; by destruct (negb _)).
  split_and!; [split; [by apply env_tinv|]; by exists (Sched.set_state Sched.TASK_RUNNING tk)|done|].
  destruct Hcase as [[Hr ->]|(Hr & f & Hf & Hcons & Hb)]; [by left|right]. split; [done|]. exists (Sched.set_state Sched.TASK_RUNNING tk), f.
  split_and!; [done|done|done| |].
  { unfold is_console, filp_of, File.fget in *. change (serv (with_sch k (Sched.with_env e s1))) with e. by rewrite Hfp. }
  unfold run_first, proc_bounce_entry, user_bounce, Proc.enter.
  change (serv (with_sch k (Sched.with_env e s1))) with e. rewrite Hx.
  change (cur (with_sch k (Sched.with_env e s1))) with t. rewrite bind_gets.
  change (cur (with_sch k (Sched.with_env e s1))) with t. unfold task_of.
  change (Sched.get (sch (with_sch k (Sched.with_env e s1))) t) with (Sched.get s1 t).
  rewrite (get_store _ _ _ Hs1). change (Sched.ctx (Sched.set_state Sched.TASK_RUNNING tk)) with (Sched.ctx tk). by rewrite Hb.
Qed.
End init.


(** ** The devices *)

Section board.
Context {D : Type} `{BRD : Board D} `{STK : !Stack}.
Implicit Types d : D.
Import KernelInv SyscallInv.

(** Ports of other devices do not touch the serial line and the keyboard controller. *)
Definition elsewhere (p : Z) : Prop := p < 1016 /\ p <> 96 /\ p <> 100.

Lemma elsewhere_out d p v : elsewhere p -> com1 (port_outb d p v) = com1 d /\ scancodes (port_outb d p v) = scancodes d.
Proof.
  intros (H1 & H2 & H3). rewrite out_com1, out_scancodes by done. split; [|done]. destruct (com1 d). unfold Uart.out.
  repeat case_match; done || lia.
Qed.

Lemma elsewhere_in d p : elsewhere p -> com1 (snd (port_inb d p)) = com1 d /\ scancodes (snd (port_inb d p)) = scancodes d.
Proof.
  intros (H1 & H2 & H3). rewrite in_com1, in_scancodes. destruct (Z.eqb_spec p 96); [done|]. split; [|done].
  destruct (com1 d). unfold Uart.after_in. repeat case_match; try done; [lia|].
  by destruct (Z.eqb_spec p 1016); [lia|].
Qed.

Lemma pic_remap_elsewhere d : com1 (Intr.pic_remap d) = com1 d /\ scancodes (Intr.pic_remap d) = scancodes d.
Proof.
  assert (forall d p v, elsewhere p -> com1 (Intr.hal_io_wait (port_outb d p v)) = com1 d /\
    scancodes (Intr.hal_io_wait (port_outb d p v)) = scancodes d) as H.
  { intros d' p v Hp. unfold Intr.hal_io_wait. destruct (elsewhere_out (port_outb d' p v) 128 0) as [-> ->]; [by unfold elsewhere|].
    by apply elsewhere_out. }
  unfold Intr.pic_remap. split; repeat (etransitivity; [apply H; by unfold elsewhere|]); done.
Qed.

Lemma unmask_elsewhere n d : com1 (Intr.hal_irq_unmask n d) = com1 d /\ scancodes (Intr.hal_irq_unmask n d) = scancodes d.
Proof.
  unfold Intr.hal_irq_unmask. set (p := if n <? 8 then 33 else 161).
  assert (elsewhere p) as Hp by (unfold elsewhere, p; destruct (n <? 8); lia).
  pose proof (elsewhere_in d p Hp) as [H1 H2]. destruct (port_inb d p) as [v d']. cbn [snd] in *.
  destruct (elsewhere_out d' p (u8 (Z.land v (not32 (Z.shiftl 1 (if 8 <=? n then n - 8 else n))))) Hp) as [-> ->]. done.
Qed.

Lemma out_pic_other d p v : p <> 32 -> p <> 33 -> p <> 160 -> p <> 161 -> pic (port_outb d p v) = pic d.
Proof.
  intros H1 H2 H3 H4. apply out_pic. unfold Pic.out. destruct (pic d).
  by rewrite !(proj2 (Z.eqb_neq _ _)) by done.
Qed.

(** The lines in [l] are open and the others masked. *)
Definition lines_open (l : list Z) d : Prop :=
  Pic.working (pic d) /\ forall i, 0 <= i < 16 -> Z.testbit (Pic.mask (pic d)) i = negb (bool_decide (i ∈ l)).

Lemma unmask_opens l n d : lines_open l d -> 0 <= n < 16 -> lines_open (n :: l) (Intr.hal_irq_unmask n d).
Proof.
  intros [Hw Hb] Hn. destruct (Intr.unmask_bits n d Hw Hn) as [Hw' Hb']. split; [done|]. intros i Hi.
  rewrite Hb', Hb by done. destruct (Z.eqb_spec i n) as [->|Hne]; cbn [negb].
  - by rewrite (bool_decide_true (n ∈ n :: l)), andb_false_r by left.
  - rewrite andb_true_r. f_equal. apply bool_decide_ext. rewrite elem_of_cons. tauto.
Qed.

Lemma lines_open_pic l d d' : pic d' = pic d -> lines_open l d -> lines_open l d'.
Proof. intros E. unfold lines_open. by rewrite E. Qed.

Lemma interrupts_init_opens isr irq i144 s d :
  let '(s', d') := Intr.hal_interrupts_init isr irq i144 s d in
  lines_open [] d' /\ com1 d' = com1 d /\ scancodes d' = scancodes d /\
  Intr.irq_handlers s' = replicate 16 None /\ Intr.syscall_dispatcher s' = false.
Proof.
  unfold Intr.hal_interrupts_init. cbv zeta. destruct (pic_remap_elsewhere d) as [H1 H2]. split_and!; try done.
  unfold lines_open. rewrite Intr.pic_remap_spec. split; [by split_and!|]. intros i Hi.
  change (Pic.mask _) with (Z.ones 16). by rewrite Z.ones_spec_low by lia.
Qed.

Lemma keyboard_init_opens fuel buf s d l : lines_open l d -> (length (scancodes d) <= fuel)%nat ->
  exists d', Serial.keyboard_init fuel buf s d =
    Some (Keyboard.keyboard_init buf, Intr.hal_irq_register 1 Intr.kbd_handler s, d') /\
    lines_open (1 :: l) d' /\ com1 d' = com1 d /\ scancodes d' = [].
Proof.
  intros Hl Hf. unfold Serial.keyboard_init. destruct (unmask_elsewhere 1 d) as [H1 H2].
  destruct (Serial.discard_spec fuel (Intr.hal_irq_unmask 1 d)) as (d' & -> & Hk & Hp & Hu); [by rewrite H2|].
  exists d'. split; [done|]. split; [|by split; [congruence|]]. apply (lines_open_pic _ _ _ Hp). by apply unmask_opens.
Qed.

Lemma serial_enable_opens fuel s (st : Keyboard.keyboard * Sched.sched File.services) d l : lines_open l d ->
  Uart.dlab (com1 d) = false -> Uart.received (com1 d) = [] ->
  exists d', Serial.serial_enable_input fuel s st d = Some (Intr.hal_irq_register 4 Intr.serial_handler s, st, d') /\
    lines_open (4 :: l) d' /\ scancodes d' = scancodes d.
Proof.
  intros Hl Hd Hr. unfold Serial.serial_enable_input. set (d1 := port_outb d (Serial.COM1 + 1) 1).
  assert (pic d1 = pic d) as Hp1 by (by apply out_pic_other).
  assert (Uart.dlab (com1 d1) = false /\ Uart.received (com1 d1) = []) as [Hd1 Hr1].
  { unfold d1. rewrite out_com1. destruct (com1 d) as [? ? ? ? ? ?]. cbn in *. subst. done. }
  destruct (unmask_elsewhere 4 d1) as [H1 H2].
  assert (scancodes d1 = scancodes d) as Hk1 by (by apply out_scancodes).
  destruct (Serial.drain_spec fuel (Intr.hal_irq_unmask 4 d1) st) as (d' & -> & _ & _ & _ & Hp & Hk);
    [by rewrite H1|rewrite H1, Hr1; cbn; lia|].
  exists d'. rewrite H1, Hr1. split; [done|]. split; [|congruence]. apply (lines_open_pic _ _ _ Hp), unmask_opens; [|lia].
  by apply (lines_open_pic _ _ _ Hp1).
Qed.

Lemma timer_init_opens s d l : lines_open l d ->
  lines_open (0 :: l) (snd (Intr.hal_timer_init 100 s d)) /\ scancodes (snd (Intr.hal_timer_init 100 s d)) = scancodes d.
Proof.
  intros Hl. unfold Intr.hal_timer_init. cbn [snd]. split.
  - apply unmask_opens; [|lia]. eapply lines_open_pic; [|exact Hl]. by rewrite !out_pic_other.
  - rewrite (proj2 (unmask_elsewhere 0 _)). by rewrite !out_scancodes.
Qed.

(** The handlers after booting. *)
Definition boot_handlers : list (option Intr.handler) :=
  [Some Intr.pit_handler; Some Intr.kbd_handler; None; None; Some Intr.serial_handler] ++ replicate 11 None.

(** The kernel when the first program is started: everything is set up, the root file
    system is mounted and no task exists but the idle one. *)
Definition before_init (p : power_on) : kernel :=
  MkKernel (Sched.sched_init (init_memory p)) (Keyboard.keyboard_init (kbuf0 p)) (ready_messages (boot_messages p))
    (snd (Minix.minixfs_mount (fs0 p) (dsk0 p))) (dsk0 p).

(** What is running after booting: the idle task, when [proc_exec] could not start the first
    program, or else that program, with one open file of type [FT_CONS] as its three standard
    descriptors, about to enter user mode at its entry point. *)
Definition first_runs (p : power_on) (k : kernel) : Prop :=
  exists r, first_exec (before_init p) = Some r /\
  (r < 0 /\ cur k = Sched.idle_task \/
   0 <= r /\ exists tk f, Sched.store (sch k) !! cur k = Some tk /\ Sched.state tk = Sched.TASK_RUNNING /\
     Sched.files tk = console_files f /\ is_console f k /\ run_first k = Enters k (Sched.entry tk) (Sched.user_stack tk)).

(** The machine has frames for the kernel image and tables (33) and the first four megabytes
    of the heap (1024), and the first program, if there is one, lies in user space. *)
Record bootable (p : power_on) : Prop := {
  bt_memory : forall f, lenZ (memory p f) = 4096 /\ bytes (memory p f);
  bt_image : 0 <= kernel_end p <= 4292866048;
  bt_frames : Pmm.reserved_end (kernel_end p) / 4096 + 1057 <= Pmm.total_frames (Pmm.pmm_init (mem_upper_of p) (kernel_end p));
  bt_shell : sh_in_user (snd (Minix.minixfs_mount (fs0 p) (dsk0 p))) (dsk0 p) }.

Lemma init_memory_held p : FileSpec.held [] (init_memory p) [].
Proof.
  unfold init_memory. destruct (heap_statics p) as [[[st hd] e] l]. eapply nothing_held, HeapSpec.vmm_init_wf.
Qed.

Lemma init_memory_room p : room 57345 (Sched.env (Sched.sched_init (init_memory p))).
Proof.
  change (room 57345 (init_memory p)). unfold init_memory, room. destruct (heap_statics p) as [[[st hd] e] l]. cbn [File.heap].
  destruct (HeapPages.vmm_limit (Heap.Heap st hd e l (Paging.hal_paging_init
    (Paging.Machine (memory p) (Pmm.pmm_init (mem_upper_of p) (kernel_end p)) 0 0 0 0 false)))) as [-> ->].
  by unfold Heap.HEAP_MAX.
Qed.

Lemma init_memory_backed p : bootable p -> exists m, HeapPages.backed (File.heap (init_memory p)) m.
Proof.
  intros [H1 H2 H3 _]. unfold init_memory. destruct (heap_statics p) as [[[st hd] e] l]. cbn [File.heap].
  eexists. exact (proj1 (HeapPages.vmm_init_backed (memory p) (mem_upper_of p) (kernel_end p) st hd e l H1 H2 H3)).
Qed.

Lemma start_system_spec p s c d : bootable p ->
  match start_system (MkKernel (Sched.sched_init (init_memory p)) (Keyboard.keyboard_init (kbuf0 p)) (boot_messages p) (fs0 p) (dsk0 p)) s c d with
  | Booted k' s' c' d' => s' = s /\ d' = d /\ kinv k' /\ Sched.started (sch k') = true /\ first_runs p k'
  | BootHalts => fst (Minix.minixfs_mount (fs0 p) (dsk0 p)) < 0
  | _ => False
  end.
Proof.
  intros Hb. unfold start_system. cbn [fs dsk sch kbd con].
  pose proof (bt_shell _ Hb) as Hu.
  assert (exists r k', first_exec (before_init p) = Some r /\ Proc.proc_start_init (str "/bin/sh") (before_init p) = Done tt k' /\ started_init r k')
    as (r & k2 & Hr & Hs & Hst).
  { eapply proc_start_init_spec; [apply sched_init_tinv, init_memory_held|done|apply init_memory_room|reflexivity|reflexivity|exact Hu]. }
  unfold first_runs. unfold before_init in Hr, Hs |- *. clear Hu Hb.
  destruct (Minix.minixfs_mount (fs0 p) (dsk0 p)) as [r0 m]. cbn [fst snd] in *.
  destruct (Z.ltb_spec r0 0); [done|]. rewrite Hs. split; [done|]. split; [done|].
  destruct (sched_start_spec r k2 Hst) as (A & B & C). split; [exact A|]. split; [exact B|]. exists r. split; [exact Hr|exact C].
Qed.

Lemma kernel_main_spec fuel p d : bootable p -> (length (scancodes d) <= fuel)%nat ->
  match kernel_main fuel p d with
  | Booted k s c d' => kinv k /\ Sched.started (sch k) = true /\ first_runs p k /\
      Intr.irq_handlers s = boot_handlers /\ Intr.syscall_dispatcher s = true /\ lines_open [0; 4; 1] d' /\ scancodes d' = []
  | BootHalts => fst (Minix.minixfs_mount (fs0 p) (dsk0 p)) < 0
  | _ => False
  end.
Proof.
  intros Hb Hf. unfold kernel_main. cbv zeta. destruct (Serial.serial_init_spec d) as (I1 & _ & I2 & _).
  assert (scancodes (Serial.serial_init d) = scancodes d) as Hk by (unfold Serial.serial_init; by rewrite !out_scancodes).
  set (d0 := Serial.serial_init d) in *. clearbody d0.
  pose proof (interrupts_init_opens (isr_at p) (irq_at p) (isr144_at p) (intr0 p) d0) as Hi.
  destruct (Intr.hal_interrupts_init _ _ _ _ _) as [s1 d1]. destruct Hi as (L1 & U1 & K1 & HH & HD).
  destruct (keyboard_init_opens fuel (kbuf0 p) s1 d1 [] L1) as (d2 & -> & L2 & U2 & K2); [rewrite K1, Hk; done|].
  destruct (serial_enable_opens fuel (Intr.hal_irq_register 1 Intr.kbd_handler s1) (Keyboard.keyboard_init (kbuf0 p), tasks0 p)
    d2 [1] L2) as (d3 & -> & L3 & K3); [congruence|congruence|].
  set (s3 := Intr.hal_syscall_set_dispatcher _). pose proof (timer_init_opens s3 d3 [4; 1] L3) as [L4 K4].
  assert (Intr.irq_handlers (fst (Intr.hal_timer_init 100 s3 d3)) = boot_handlers /\
    Intr.syscall_dispatcher (fst (Intr.hal_timer_init 100 s3 d3)) = true) as [Hh Hd].
  { split; [|done]. unfold Intr.hal_timer_init. cbn [fst]. unfold s3. cbn. by rewrite HH. }
  destruct (Intr.hal_timer_init 100 s3 d3) as [s4 d4]. cbn [fst snd] in *.
  pose proof (start_system_spec p s4 (Intr.hal_cpu_init (gdt_at p) (tss_at p) (gdt0 p)) d4 Hb) as H.
  destruct (start_system _ s4 _ d4); try done. destruct H as (-> & -> & H1 & H2 & H3). split_and!; try done. congruence.
Qed.

(** C2: Booting reaches the invariant of the running system.  On a machine with enough memory
    for the kernel (whose image ends below the last two megabytes of the address space), its
    page tables and the first four megabytes of its heap, and whose /bin/sh, if it has
    one, asks for addresses in user space only: unless there is no root file system, in which
    case it halts, [kernel_main] gets through; every page of the heap [vmm_init] sets up lies
    on a frame of its own; the bookkeeping of tasks, descriptors, pipes and heap is exact,
    the state all system calls start from; the scheduler runs the idle task if [proc_exec]
    could not start the first program, and otherwise that program, whose descriptors 0, 1
    and 2 are one open file of type FT_CONS and which is about to enter user mode; handlers
    for timer, keyboard and serial line are registered, exactly their lines are open, system
    calls are dispatched, and the keys pressed so far, however many, have been discarded. *)
Theorem kernel_main_boots fuel p d : bootable p -> (length (scancodes d) <= fuel)%nat ->
  (exists m, HeapPages.backed (File.heap (init_memory p)) m) /\
  match kernel_main fuel p d with
  | Booted k s c d' => kinv k /\ Sched.started (sch k) = true /\ first_runs p k /\
      Intr.irq_handlers s = boot_handlers /\ Intr.syscall_dispatcher s = true /\ lines_open [0; 4; 1] d' /\ scancodes d' = []
  | BootHalts => fst (Minix.minixfs_mount (fs0 p) (dsk0 p)) < 0
  | _ => False
  end.
Proof. intros Hb Hf. split; [by apply init_memory_backed|by apply kernel_main_spec]. Qed.
End board.

(** A machine with 32 MiB and the disk of MinixDemo, which has no programs. *)
Definition demo_power : power_on :=
  PowerOn (Some (1, 31744)) 4194304 (fun i => 1048576 + i) (fun i => 1049000 + i) 1050000 1060000 1061000
    (replicate 6 Intr.null_entry) (Intr.MkIntr [] [] false 0) (0, 2048) (fun _ => Paging.zero_page) (replicate 256 0)
    (Console.Cons (replicate 2000 0) 0 0 7 0 0 0 false false [] 0) (∅, 0, 0, 0) KernelDemo.first_sched
    MinixDemo.demo_fs MinixDemo.demo_disk.

Lemma demo_bootable : bootable demo_power.
Proof.
  split.
  - intros f. apply AddrSpace.zero_page_ok.
  - cbn. lia.
  - vm_compute. discriminate.
  - assert (Minix.minixfs_resolve (snd (Minix.minixfs_mount (fs0 demo_power) (dsk0 demo_power))) (dsk0 demo_power) (str "/bin/sh") = 0) as E
      by (vm_compute; reflexivity).
    unfold sh_in_user. cbv zeta. intros Hino. exfalso. exact (Hino E).
Qed.

Lemma kernel_main_boots_witness :
  match kernel_main 2 demo_power (Sim.powered [] [30; 158]) with
  | Booted k s c d => SyscallInv.kinv k /\ lines_open [0; 4; 1] d /\ scancodes d = []
  | _ => False
  end.
Proof.
  assert ((length (scancodes (Sim.powered [] [30; 158]%Z)) <= 2)%nat) as Hf by (cbn; lia).
  destruct (kernel_main_boots 2 demo_power (Sim.powered [] [30; 158]) demo_bootable Hf) as [_ H].
  assert (fst (Minix.minixfs_mount (fs0 demo_power) (dsk0 demo_power)) = 0) as Em by (vm_compute; reflexivity).
  destruct (kernel_main 2 demo_power (Sim.powered [] [30; 158])) as [k s c d| | |].
  - split_and!; apply H.
  - rewrite Em in H. discriminate H.
  - exact H.
  - exact H.
Defined.
End Boot.
