(* ===== verification/FileCalls.v ===== *)
(** * Reading and writing files through descriptors

    [sys_write], [sys_lseek] and [sys_read] (kernel/syscall/syscall.c) on a descriptor
    of a regular file: the composition of user memory, open files and the file
    system. *)

From stdpp Require Import base list gmap numbers sets.
From S2P Require Import Prelude CString Pmm Layout Disk Minix MinixTable MinixZones MinixTree MinixFile MinixDir MinixBytes MinixDemo.
From S2P Require Import Paging AddrSpace Spaces SpaceDemo Heap Pipe Sched Keyboard Console File Kernel Syscall Elf Proc.
From S2P Require Import UserMem KernelDemo.

#[local] Open Scope Z_scope.

Module FileCalls.
Import Kernel UserMem MinixTable.MinixTable MinixZones.MinixZones MinixTree.MinixTree MinixFile.MinixFile MinixDir.MinixDir MinixBytes.MinixBytes.

(** The open file behind descriptor [fd] of the current task. *)
Definition fd_file (k : kernel) (fd : Z) : Z := lget 0 (Sched.files (task_of k (cur k))) fd.

(** Descriptor [fd] refers to the regular file [ino], at offset [off]. *)
Record file_at (k : kernel) (fd ino off : Z) : Prop := {
  fa_fd : Syscall.fd_ok (task_of k (cur k)) fd = true;
  fa_type : File.ftype (filp_of k (fd_file k fd)) = File.FT_INODE;
  fa_ino : File.ino (filp_of k (fd_file k fd)) = ino;
  fa_off : File.offset (filp_of k (fd_file k fd)) = off }.

(** Two states with the same tasks and file-system statics. *)
Definition same_tasks (k k' : kernel) : Prop :=
  Sched.store (sch k') = Sched.store (sch k) /\ cur k' = cur k /\ fs k' = fs k.

(** Moving the offset of the file. *)
Lemma move_file k fd ino off o (g : File.filp -> File.filp) : file_at k fd ino off ->
  (forall x, g x = File.set_offset (o x) x) -> 
  let k' := fstore g (fd_file k fd) k in
  file_at k' fd ino (o (filp_of k (fd_file k fd))) /\ same_tasks k k' /\ mach k' = mach k /\ dsk k' = dsk k.
Proof.
  intros [H1 H2 H3 H4] Hg k'. assert (fd_file k fd <> 0) as Hf.
  { unfold Syscall.fd_ok in H1. apply negb_true_iff, orb_false_iff in H1 as [_ H%Z.eqb_neq]. exact H. }
  unfold k', fstore. destruct (Z.eqb_spec (fd_file k fd) 0); [done|].
  set (k1 := with_serv k _).
  assert (filp_of k1 (fd_file k fd) = g (filp_of k (fd_file k fd))) as E.
  { unfold filp_of at 1, File.fget. cbn. by rewrite lookup_insert_eq. }
  assert (fd_file k1 fd = fd_file k fd) as Ef by done.
  split; [|done]. split; rewrite ?Ef, ?E, ?Hg; done.
Qed.

Section calls.
Context `{STK : !Stack}.

(** ** Writing *)

Lemma sys_write_file tf k ino off data :
  file_at k (i32 (ebx tf)) ino off -> holds k (ecx tf) data -> edx tf = lenZ data -> bytes data ->
  fs_inv (fs k) (dsk k) -> live (fs k) (dsk k) ino -> 0 <= off -> off + lenZ data <= MAX_FILE_SIZE ->
  has_free (fs k) (dsk k) (3 * rounds off (lenZ data) 0) ->
  exists k', Syscall.sys_write tf k = Done (lenZ data) k' /\ file_at k' (i32 (ebx tf)) ino (off + lenZ data) /\
    same_tasks k k' /\ mach k' = mach k /\ write_post (fs k) (dsk k) ino data (lenZ data) off (dsk k').
Proof.
  intros Hfa Hh Hc Hb Hinv Hl Ho Hmax Hfree. pose proof Hfa as [H1 H2 H3 H4]. pose proof (lenZ_nonneg data) as Hn.
  unfold Syscall.sys_write. rewrite bind_gets. cbv zeta. rewrite H1. cbn [negb].
  rewrite bind_gets. fold (fd_file k (i32 (ebx tf))). rewrite H2. cbn [Z.eqb Pos.eqb File.FT_INODE File.FT_CONS File.FT_PIPE].
  unfold mbind at 1, M_bind at 1. rewrite Hc. replace (Z.to_nat (lenZ data)) with (length data) by (unfold lenZ; lia).
  rewrite (uget_holds _ _ _ Hh), H3, H4.
  destruct (minixfs_write_ok (fs k) (dsk k) ino data (lenZ data) off 0 Hinv Hl Ho Hn Hmax ltac:(lia) Hb)
    as (d' & Ew & Hpost & _); [by rewrite Nat.add_0_r|].
  unfold call_fs. erewrite bind_call by (cbv beta; rewrite Ew; reflexivity). rewrite bind_modify.
  set (k1 := with_dsk k d'). assert (file_at k1 (i32 (ebx tf)) ino off) as Hfa1 by done.
  assert (fd_file k1 (i32 (ebx tf)) = fd_file k (i32 (ebx tf))) as Ef by done.
  destruct (Z.ltb_spec 0 (lenZ data)) as [Hpos|Hz].
  - destruct (move_file k1 _ ino off (fun x => i32 (File.offset x + lenZ data)) _ Hfa1 (fun x => eq_refl)) as (M1 & M2 & M3 & M4).
    rewrite (fa_off _ _ _ _ Hfa1), (i32_small (off + lenZ data)) in M1 by (unfold MAX_FILE_SIZE, MAX_FILE_BLOCKS in Hmax; lia).
    eexists. split; [reflexivity|]. rewrite <- Ef. split_and!; [exact M1|exact M2|exact M3|]. rewrite M4. exact Hpost.
  - replace (off + lenZ data) with off by lia. exists k1. split_and!; done.
Qed.

(** ** Seeking *)

Lemma sys_lseek_set tf k ino off : file_at k (i32 (ebx tf)) ino off -> i32 (edx tf) = 0 ->
  exists k', Syscall.sys_lseek tf k = Done (i32 (ecx tf)) k' /\ file_at k' (i32 (ebx tf)) ino (i32 (ecx tf)) /\
    same_tasks k k' /\ mach k' = mach k /\ dsk k' = dsk k.
Proof.
  intros Hfa Hw. pose proof Hfa as [H1 H2 H3 H4].
  unfold Syscall.sys_lseek. rewrite bind_gets. cbv zeta. rewrite H1. cbn [negb].
  rewrite bind_gets. fold (fd_file k (i32 (ebx tf))). rewrite H2. cbn [Z.eqb Pos.eqb negb File.FT_INODE].
  rewrite bind_gets, Hw. cbn [Z.eqb].
  rewrite bind_modify. eexists. split; [reflexivity|].
  exact (move_file k _ ino off (fun _ => i32 (ecx tf)) _ Hfa (fun x => eq_refl)).
Qed.

(** ** Reading *)

Lemma sys_read_file tf k ino off :
  file_at k (i32 (ebx tf)) ino off -> mapped k (ecx tf) (edx tf) -> 0 <= edx tf -> AddrSpace.ok (mach k) ->
  AddrSpace.space (mach k) (udir k) -> fs_inv (fs k) (dsk k) -> live (fs k) (dsk k) ino -> 0 <= off < 2147483648 ->
  i_size (iget (fs k) (dsk k) ino) <= MAX_FILE_SIZE -> off + edx tf < 2147483648 ->
  let n := read_len (i_size (iget (fs k) (dsk k) ino)) (edx tf) off in
  exists k', Syscall.sys_read tf k = Done n k' /\ file_at k' (i32 (ebx tf)) ino (off + n) /\
    same_tasks k k' /\ dsk k' = dsk k /\ holds k' (ecx tf) (file_bytes (fs k) (dsk k) ino off n) /\
    Spaces.wrote (mach k) (mach k') (udir k) (ecx tf) (ecx tf + n) ∅.
Proof.
  intros Hfa Hm Hc Hok Hsp Hinv Hl Ho Hsz Hmax n. pose proof Hfa as [H1 H2 H3 H4].
  unfold Syscall.sys_read. rewrite !bind_gets. cbv zeta. rewrite H1. cbn [negb].
  rewrite bind_gets. fold (fd_file k (i32 (ebx tf))). rewrite H2. cbn [Z.eqb Pos.eqb File.FT_INODE File.FT_CONS File.FT_PIPE].
  rewrite bind_gets, H3, H4.
  destruct (minixfs_read_ok (fs k) (dsk k) ino (replicate (Z.to_nat (edx tf)) 0) (edx tf) off Hinv Hl Hsz Ho Hc)
    as (out & Er & Hlen & Hget); [lia|unfold lenZ; rewrite length_replicate; lia|].
  rewrite Er. fold n. fold n in Hget. assert (0 <= n <= edx tf) as Hn by (unfold n, read_len; lia).
  assert (lenZ out = edx tf) as Hlo by (rewrite Hlen; unfold lenZ; rewrite length_replicate; lia).
  rewrite (read_prefix (fs k) (dsk k) out ino off n);
    [|lia|intros j Hj; rewrite Hget by lia; destruct (Z.ltb_spec j n); [done|lia]].
  assert (lenZ (file_bytes (fs k) (dsk k) ino off n) = n) as Hlf by (apply file_bytes_len; lia).
  destruct (uput_spec (file_bytes (fs k) (dsk k) ino off n) k (ecx tf) Hok Hsp) as (s & Eu & Hw & Hh).
  - rewrite Hlf. destruct Hm as [[A B] C]. split; [split; lia|]. intros j Hj. apply C. lia.
  - apply file_bytes_u8; [done|done|lia|]. unfold n, read_len. lia.
  - unfold mbind at 1, M_bind at 1. rewrite Eu. rewrite bind_modify, Hlf in *.
    set (k1 := with_mach k s) in *. assert (file_at k1 (i32 (ebx tf)) ino off) as Hfa1 by done.
    assert (fd_file k1 (i32 (ebx tf)) = fd_file k (i32 (ebx tf))) as Ef by done.
    destruct (Z.ltb_spec 0 n) as [Hpos|Hz].
    + destruct (move_file k1 _ ino off (fun x => i32 (File.offset x + n)) _ Hfa1 (fun x => eq_refl)) as (M1 & M2 & M3 & M4).
      rewrite (fa_off _ _ _ _ Hfa1), (i32_small (off + n)) in M1 by lia.
      eexists. split; [reflexivity|]. rewrite <- Ef. split_and!; [exact M1|exact M2|exact M4| |by rewrite M3].
      unfold holds, udir. rewrite M3. exact Hh.
    + replace (off + n) with off by lia. exists k1. split_and!; done.
Qed.

(** C3: What a program writes to a file through a descriptor is what it reads back after
    seeking to where it wrote, under these conditions: the buffers are mapped, the data ends
    within the largest file size ([MAX_FILE_SIZE], the blocks the inode can address), and the
    zone map has three free zones that lie on the disk for every block the write touches (one
    for the block and at most two for indirect blocks).  Then the three calls return the counts and the offset, the
    second buffer holds the bytes of the first, all other user memory is as it was, and
    of the file system only the bytes written (and the size of the file) changed. *)
Theorem write_seek_read k fd buf buf2 ino off data :
  file_at k fd ino off -> holds k buf data -> bytes data -> mapped k buf2 (lenZ data) ->
  AddrSpace.ok (mach k) -> AddrSpace.space (mach k) (udir k) -> fs_inv (fs k) (dsk k) -> live (fs k) (dsk k) ino ->
  i_size (iget (fs k) (dsk k) ino) <= MAX_FILE_SIZE -> 0 <= off -> off + lenZ data <= MAX_FILE_SIZE ->
  has_free (fs k) (dsk k) (3 * rounds off (lenZ data) 0) ->
  exists k1 k2 k3, Proc.dispatch (call_frame 4 fd buf (lenZ data)) k = Done (lenZ data) k1 /\
    Proc.dispatch (call_frame 19 fd off 0) k1 = Done off k2 /\
    Proc.dispatch (call_frame 3 fd buf2 (lenZ data)) k2 = Done (lenZ data) k3 /\
    holds k3 buf2 data /\ file_at k3 fd ino (off + lenZ data) /\
    (forall a b, Spaces.user_va a -> ~ (buf2 <= a < buf2 + lenZ data) ->
       Spaces.ubyte (mach k) (udir k) a = Some b -> Spaces.ubyte (mach k3) (udir k3) a = Some b) /\
    write_post (fs k) (dsk k) ino data (lenZ data) off (dsk k3).
Proof.
  intros Hfa Hh Hb Hm Hok Hsp Hinv Hl Hsz Ho Hmax Hfree. pose proof (lenZ_nonneg data) as Hn.
  assert (MAX_FILE_SIZE < 2147483648) as Hbig by reflexivity.
  assert (i32 fd = fd) as Hfd.
  { pose proof (fa_fd _ _ _ _ Hfa) as H. unfold Syscall.fd_ok, Sched.MAX_FILES in H.
    apply negb_true_iff in H. rewrite !orb_false_iff, Z.ltb_ge, Z.leb_gt in H. apply i32_small. lia. }
  destruct (sys_write_file (call_frame 4 fd buf (lenZ data)) k ino off data) as (k1 & E1 & F1 & S1 & M1 & P1);
    cbn [call_frame ebx ecx edx]; rewrite ?Hfd; try done.
  cbn [call_frame ebx ecx edx] in *. rewrite Hfd in *.
  destruct (sys_lseek_set (call_frame 19 fd off 0) k1 ino (off + lenZ data)) as (k2 & E2 & F2 & S2 & M2 & D2);
    cbn [call_frame ebx ecx edx]; [by rewrite Hfd|done|].
  cbn [call_frame ebx ecx edx] in *. rewrite Hfd in *. rewrite (i32_small off) in * by lia.
  assert (fs k2 = fs k) as Hfs by (destruct S1 as (_ & _ & S1), S2 as (_ & _ & S2); congruence).
  assert (mach k2 = mach k) as Hmk by congruence. assert (udir k2 = udir k) as Hud by (unfold udir; by rewrite Hmk).
  pose proof P1 as [Q1 Q2 Q3 Q4 Q5 Q6].
  destruct (sys_read_file (call_frame 3 fd buf2 (lenZ data)) k2 ino off) as (k3 & E3 & F3 & S3 & D3 & H3 & W3);
    cbn [call_frame ebx ecx edx]; rewrite ?Hfd, ?Hfs, ?Hmk, ?Hud, ?D2; try done; try lia.
  { unfold mapped. by rewrite Hmk, Hud. }
  { by apply Q2. }
  cbn [call_frame ebx ecx edx] in *. rewrite Hfd, Hfs, Hmk, Hud, D2 in *.
  replace (read_len (i_size (iget (fs k) (dsk k1) ino)) (lenZ data) off) with (lenZ data) in * by (unfold read_len; lia).
  assert (file_bytes (fs k) (dsk k1) ino off (lenZ data) = data) as Ed.
  { apply (lists_eq_lget 0); [by rewrite file_bytes_len by lia|]. rewrite file_bytes_len by lia. intros j Hj.
    rewrite file_bytes_get, Q6 by (done || lia). destruct (decide _) as [_|[]]; [f_equal; lia|split; [done|lia]]. }
  rewrite Ed in H3. exists k1, k2, k3. split_and!; [exact E1|exact E2|exact E3|exact H3|exact F3| |by rewrite D3].
  intros a b Ha Hout Hab. replace (udir k3) with (udir k).
  - by apply (Spaces.wr_bytes _ _ _ _ _ _ W3).
  - symmetry. unfold udir, Paging.hal_addrspace_current. exact (AddrSpace.kp_cur _ _ _ _ (Spaces.wr_keeps _ _ _ _ _ _ W3)).
Qed.

End calls.

(** ** Witness *)

(** The small kernel with descriptor 3 on the empty file [a]. *)
Definition demo_filp : Z := 33554452.
Definition demo_file : kernel :=
  set_file (cur KernelDemo.demo) 3 demo_filp
    (with_serv KernelDemo.demo (File.with_filps (serv KernelDemo.demo)
       {[demo_filp := File.Filp File.FT_INODE 1 2 1030 2 0 0 0]})).

Lemma demo_file_mach : mach demo_file = KernelDemo.demo_machine.
Proof. exact KernelDemo.demo_mach. Qed.

Lemma demo_holds va : va = 1073741824 \/ va = 1073742000 -> holds demo_file va [65; 65].
Proof.
  unfold holds, udir. rewrite demo_file_mach. change (lenZ [65; 65]) with 2.
  intros [->| ->]; (split; [split; vm_compute; discriminate|]);
    intros j Hj; assert (j = 0 \/ j = 1) as [->| ->] by lia; vm_compute; reflexivity.
Qed.

Lemma write_seek_read_witness :
  exists k1 k2 k3, Proc.dispatch (call_frame 4 3 1073741824 2) demo_file = Done 2 k1 /\
    Proc.dispatch (call_frame 19 3 1030 0) k1 = Done 1030 k2 /\
    Proc.dispatch (call_frame 3 3 1073742000 2) k2 = Done 2 k3.
Proof.
  destruct (write_seek_read demo_file 3 1073741824 1073742000 2 1030 [65; 65]) as (k1 & k2 & k3 & H1 & H2 & H3 & _).
  - split; vm_compute; reflexivity.
  - apply demo_holds. by left.
  - apply (bool_decide_eq_true_1 (bytes [65; 65])). vm_compute. reflexivity.
  - destruct (demo_holds 1073742000 ltac:(by right)) as [A B]. split; [exact A|]. intros j Hj. rewrite B by exact Hj. eauto.
  - rewrite demo_file_mach. apply KernelDemo.demo_machine_ok.
  - unfold udir. rewrite demo_file_mach. apply KernelDemo.demo_machine_space.
  - apply MinixDemo.demo_inv.
  - apply MinixDemo.demo_live. lia.
  - vm_compute. discriminate.
  - lia.
  - vm_compute. discriminate.
  - apply MinixDemo.demo_free. vm_compute. lia.
  - exists k1, k2, k3. split; [exact H1|]. split; [exact H2|exact H3].
Defined.

End FileCalls.
