(* ===== verification/Calls.v ===== *)
(** * What system calls guarantee

    The properties of [dispatch] as a whole and of single calls, with the small kernel
    of KernelDemo as the state at which they are exercised. *)

From stdpp Require Import base list gmap numbers sets.
From S2P Require Import Prelude CString Pmm Layout Disk Minix MinixDemo Paging AddrSpace Spaces SpaceClone SpaceDemo Heap.
From S2P Require Import HeapSpec KernelMap Pipe Sched Keyboard Console File FileSpec Kernel Syscall Elf Proc KernelInv.
From S2P Require Import SyscallInv ProcInv DispatchInv UserMem KernelDemo.

#[local] Open Scope Z_scope.

Module Calls.
Import Kernel UserMem KernelInv FileSpec SyscallInv ProcInv DispatchInv.

(** The state after a call that returned. *)
Definition after {A} (r : result A) : kernel :=
  match r with Done _ k | Waits k _ | Exits k | Enters k _ _ => k | _ => KernelDemo.demo end.
Definition returned {A} (r : result A) : option A := match r with Done a _ => Some a | _ => None end.

Lemma returned_done {A} (r : result A) a : returned r = Some a -> r = Done a (after r).
Proof. destruct r; by intros [= ->]. Qed.

(** ** All calls *)

Section calls.
Context `{STK : !Stack}.

(** C1: The kernel's bookkeeping is an invariant of system calls: the counters of all open
    files and pipes are exact, every descriptor refers to a live open file, dead tasks hold no
    descriptors, and the records of all these lie in blocks of the heap that are in use.  In
    such a state, with twelve free frames (no call makes the heap grow by more pages, and
    [expand] does not notice when there are none), every call that [dispatch] serves, other than
    [kill], and other than [pipe] when there is no memory for an open file, leads to such a
    state: when it returns (the current task is the same then), gives the processor away, ends
    the task or starts a program.  The invariant is about these records and not about the bytes
    of memory, and two ways for a call to end are left out of it: the processor halts on a
    fault in the kernel ([Halts]: a pointer to an unmapped page), or the call would go beyond
    what the records can show ([Beyond]: it overwrites kernel memory through a pointer, a break,
    a program segment or a status address outside user space, it overruns the buffer for a
    path, or the run list is not a ring).  The calls that take no pointer and do not wait
    ([direct]) always return. *)
Theorem dispatch_keeps_invariant tf k : kinv k -> AddrSpace.avail (mach k) 12 -> eax tf <> 37 -> (eax tf = 42 -> pipe_served k) ->
  good (cur k) (Proc.dispatch tf k) /\
  (eax tf ∈ direct -> exists r k', Proc.dispatch tf k = Done r k' /\ kinv k' /\ cur k' = cur k).
Proof.
  intros Hk _ Hkill Hpipe. pose proof (dispatch_spec tf k Hk Hkill Hpipe) as Hg. split; [done|].
  intros Hd. destruct (direct_returns tf Hd k) as (r & k' & E). rewrite E in Hg. by exists r, k'.
Qed.

(** What [fork] takes for granted when there is a task to be had: its stack could be
    allocated, and there is no frame left, or one for the page directory and one for every
    page table and page of the caller (with some but not enough, frame 0 is used for tables
    and pages). *)
Definition fork_served (k : kernel) : Prop :=
  let p := task_of k (cur k) in
  let '(c, s1) := Sched.sched_alloc (Sched.name p) (sch k) in
  let s := mach (with_sch k s1) in
  c <> 0 -> Sched.kstack (Sched.get s1 c) <> 0 /\ AddrSpace.ok s /\
    (AddrSpace.free s = ∅ \/ (AddrSpace.space s (Sched.addrspace p) /\ AddrSpace.used s (Paging.kernel_dir s) /\
       AddrSpace.avail s (S (SpaceClone.needs s (Sched.addrspace p) 256 768)))).

(** The two spaces show the same pages, with the same rights, and share none. *)
Record same_memory (s : Paging.machine) (src new : Z) : Prop := {
  sm_new : AddrSpace.space s new;
  sm_src : AddrSpace.space s src;
  sm_apart : SpaceClone.apart s src new;
  sm_leaf : forall di ti, 256 <= di < 1024 -> 0 <= ti < 1024 -> SpaceClone.leaf s new di ti = SpaceClone.leaf s src di ti }.

Lemma clone_same s src : AddrSpace.ok s -> AddrSpace.space s src -> AddrSpace.used s (Paging.kernel_dir s) ->
  AddrSpace.avail s (S (SpaceClone.needs s src 256 768)) ->
  same_memory (snd (Paging.hal_addrspace_clone src s)) src (fst (Paging.hal_addrspace_clone src s)).
Proof.
  intros Hok Hs Hkd Hav. destruct (SpaceClone.clone_spec s src Hok Hs Hkd Hav) as
    (new & s' & -> & _ & _ & Hn & Hs' & Hap & _ & _ & Hmem & _ & Hleaf & _). split; try done. cbn [fst snd].
  assert (forall p f, AddrSpace.owned s src p = Some f -> Paging.mem s' f = Paging.mem s f) as Hm.
  { intros p f Ho. apply Hmem. by apply (AddrSpace.sp_used _ _ Hs p). }
  intros di ti Hdi Hti. rewrite Hleaf by done. symmetry. apply (SpaceClone.leaf_src s s' src Hs); [|done|done|done].
  intros p. apply AddrSpace.owned_ext; [by apply (Hm AddrSpace.PDir)|]. intros d t Ht. by apply (Hm (AddrSpace.PTable d)).
Qed.

Lemma clone_none s src : AddrSpace.ok s -> AddrSpace.free s = ∅ -> fst (Paging.hal_addrspace_clone src s) = 0.
Proof.
  intros Hok He. unfold Paging.hal_addrspace_clone, Paging.hal_addrspace_create, Paging.alloc.
  rewrite Pmm.pmm_alloc_none by (apply Hok || done). done.
Qed.

(** C4: [fork] in a state with exact bookkeeping and a run list that is a ring, when the
    stack of a new task can be allocated and there are no frames at all or enough for the
    whole address space: it always returns.  It either fails with -1, and this only for want
    of a task or of a frame for the page directory, or returns the pid of a new task: the next
    pid, ready to run and last on the run list, a child of the caller with its identity,
    working directory and break, the same open files (each now counted once more), an address
    space of its own with the same pages as the caller's, and a saved context that returns to
    user mode with the registers of the caller and 0 in [eax].  In both cases the bookkeeping
    of open files stays exact. *)
Theorem fork_correct tf k q : kinv k -> Sched.ring (sch k) q -> fork_served k ->
  exists r k', Proc.sys_fork_impl tf k = Done r k' /\ kinv k' /\ cur k' = cur k /\
    (r = -1 /\ fork_fails k \/
     exists c t, forked tf k k' r c t /\ Sched.ring (sch k') (q ++ [c]) /\
       same_memory (mach k') (Sched.addrspace (task_of k (cur k))) (Sched.addrspace t)).
Proof.
  intros Hk Hr Hserved. pose proof (sys_fork_spec tf k Hk) as H.
  destruct (Proc.sys_fork_impl tf k) as [r k'| | | | |]; try done; [|by destruct (H q)].
  destruct H as (H1 & H2 & H3). exists r, k'. split_and!; [done..|]. destruct H3 as [H3|(c & t & Hf & Hq)]; [by left|].
  right. exists c, t. split; [done|]. split; [by apply Hq|]. unfold fork_served in Hserved.
  destruct (fk_space _ _ _ _ _ _ Hf) as (s1 & s' & Es & Ec & -> & Hd). rewrite Es in Hserved.
  destruct Hserved as (_ & Hok & [He|(Hsp & Hkd & Hav)]).
  - intros ->. pose proof (fk_task _ _ _ _ _ _ Hf) as Ht. by rewrite (ti_null _ _ (si_tasks _ H1)) in Ht.
  - pose proof (clone_none _ (Sched.addrspace (task_of k (cur k))) Hok He) as Hn. by rewrite Ec in Hn.
  - pose proof (clone_same _ _ Hok Hsp Hkd Hav) as Hs. by rewrite Ec in Hs.
Qed.

(** [kill] of a live task makes it a zombie with status 137, and does nothing else for
    it: its descriptors stay in its table and the open files and pipes behind them keep
    counting them, so that the reader of a pipe whose only writer was killed waits for
    ever.  If the task had anything open, the bookkeeping is no longer exact. *)
Theorem kill_closes_nothing tf k t : kinv k -> Sched.sched_find (i32 (ebx tf)) (sch k) = t -> t <> 0 ->
  is_Some (Sched.store (sch k) !! t) -> Sched.state (task_of k t) <> Sched.TASK_ZOMBIE ->
  exists k', Proc.dispatch (set_eax 37 tf) k = Done 0 k' /\
    Sched.state (task_of k' t) = Sched.TASK_ZOMBIE /\ Sched.exit_code (task_of k' t) = 137 /\
    Sched.files (task_of k' t) = Sched.files (task_of k t) /\ serv k' = serv k /\
    (nz (Sched.files (task_of k t)) <> [] -> ~ kinv k').
Proof.
  intros Hk Hf Ht [tk Hs] Hz. change (Proc.dispatch (set_eax 37 tf) k) with (Syscall.sys_kill (set_eax 37 tf) k).
  unfold Syscall.sys_kill. rewrite bind_gets. change (ebx (set_eax 37 tf)) with (ebx tf). rewrite Hf.
  destruct (Z.eqb_spec t 0); [done|]. rewrite bind_modify. destruct (Z.eqb_spec (Sched.state (task_of k t)) Sched.TASK_ZOMBIE); [done|].
  cbn [negb]. set (s1 := Sched.upd (Sched.zombify 137) t (sch k)).
  assert (Sched.get s1 t = Sched.zombify 137 (task_of k t)) as G by (by unfold s1; rewrite Sched.get_upd, Z.eqb_refl).
  assert (Sched.get (Sched.sched_wakeup_parent t s1) t = Sched.zombify 137 (task_of k t)) as G2.
  { rewrite Sched.wakeup_get, G, andb_false_intro1; [done|]. apply andb_false_intro2. done. }
  eexists. split; [reflexivity|]. unfold task_of at 1 2 3. cbn [sch with_sch]. rewrite G2.
  split_and!; [done|done|done| |].
  - unfold serv. cbn [sch with_sch]. unfold Sched.sched_wakeup_parent. by destruct (_ && _ && _).
  - intros Hn [[_ _ Hd _ _] _]. apply Hn. cbn [sch with_sch] in Hd.
    destruct (Sched.wakeup_same t s1) as (_ & _ & Hp). destruct (Hp t) as [u Hu].
    { unfold s1, Sched.upd. cbn. rewrite lookup_insert_eq. eauto. }
    assert (u = Sched.zombify 137 (task_of k t)) as Eu by (by rewrite <- G2, (get_store _ _ _ Hu)).
    rewrite <- (Hd t u Hu ltac:(done)); [by rewrite Eu|by rewrite Eu].
Qed.

End calls.

(** C32: The paths that system calls work on ([build_path]).  An absolute path is taken as
    it is, a relative one is appended to the working directory with a slash in between
    if there is none; the result is cut to the 255 characters of the buffer, so that
    with a working directory of fewer than 255 characters it never overflows.  A working
    directory of 255 characters that does not end with a slash overflows it: the slash
    takes the place of the terminator. *)
Theorem build_path_correct k t path s : holds_str k path s ->
  (lget 0 s 0 = 47 -> Syscall.build_path t path k = Done (take 255 s) k) /\
  (lget 0 s 0 <> 47 -> lenZ (Sched.cwd t) < 255 -> exists full, Syscall.build_path t path k = Done full k /\
     lenZ full <= 255 /\ full = take 255 (Syscall.with_slash (Sched.cwd t) ++ s) /\
     lget 0 (Syscall.with_slash (Sched.cwd t)) (lenZ (Syscall.with_slash (Sched.cwd t)) - 1) = 47) /\
  (lget 0 s 0 <> 47 -> lenZ (Sched.cwd t) = 255 -> lget 0 (Sched.cwd t) 254 <> 47 ->
     Syscall.build_path t path k = Beyond).
Proof.
  intros Hs. rewrite (build_path_spec k t path s Hs). unfold Syscall.with_slash, Syscall.slash. split_and!.
  - intros ->. done.
  - intros H0 Hl. destruct (Z.eqb_spec (lget 0 s 0) 47); [done|]. set (dir := if _ || _ then _ ++ [47] else _).
    assert (lenZ dir <= 255 /\ lget 0 dir (lenZ dir - 1) = 47) as [Hd He].
    { unfold dir. destruct (Z.eqb_spec (lenZ (Sched.cwd t)) 0) as [E|E]; cbn [orb].
      - rewrite lenZ_app, E. change (lenZ [47]) with 1. split; [lia|]. rewrite lget_app by lia. by rewrite E.
      - destruct (Z.eqb_spec (lget 0 (Sched.cwd t) (lenZ (Sched.cwd t) - 1)) 47) as [E47|E47]; cbn [negb]; [split; [lia|done]|].
        pose proof (lenZ_nonneg (Sched.cwd t)).
        rewrite lenZ_app. change (lenZ [47]) with 1. split; [lia|]. rewrite lget_app by lia.
        destruct (Z.ltb_spec (lenZ (Sched.cwd t) + 1 - 1) (lenZ (Sched.cwd t))); [lia|].
        by replace (lenZ (Sched.cwd t) + 1 - 1 - lenZ (Sched.cwd t)) with 0 by lia. }
    destruct (Z.ltb_spec 255 (lenZ dir)); [lia|]. eexists. split_and!; [done| |done|done].
    unfold lenZ. rewrite length_take. lia.
  - intros H0 Hl He. destruct (Z.eqb_spec (lget 0 s 0) 47); [done|]. rewrite Hl.
    destruct (Z.eqb_spec (lget 0 (Sched.cwd t) (255 - 1)) 47); [done|]. cbn [Z.eqb orb negb].
    rewrite lenZ_app, Hl. done.
Qed.

(** ** Witnesses *)

(** The small kernel with the string "b" at the start of the user page. *)
Definition demo_string : kernel :=
  with_mach KernelDemo.demo (Paging.set_page SpaceDemo.f_page (98 :: 0 :: replicate 4094 65) KernelDemo.demo_machine).

Lemma demo_string_holds : holds_str demo_string 1073741824 [98].
Proof.
  split; [|apply (bool_decide_unpack (0 ∉ [98])); vm_compute; exact I].
  split; [split; vm_compute; discriminate|]. change (lenZ ([98] ++ [0])) with 2. intros j Hj.
  assert (j = 0 \/ j = 1) as [->| ->] by lia; vm_compute; reflexivity.
Qed.

Lemma build_path_correct_witness :
  Syscall.build_path (Syscall.set_cwd [47; 97] Sched.zero_task) 1073741824 demo_string = Done [47; 97; 47; 98] demo_string /\
  Syscall.build_path (Syscall.set_cwd (replicate 255 97) Sched.zero_task) 1073741824 demo_string = Beyond.
Proof.
  split.
  - destruct (build_path_correct demo_string (Syscall.set_cwd [47; 97] Sched.zero_task) 1073741824 [98]
      demo_string_holds) as (_ & H & _).
    destruct (H ltac:(vm_compute; discriminate) ltac:(vm_compute; reflexivity)) as (full & E & _ & Ef & _).
    assert (full = [47; 97; 47; 98]) as E2 by (rewrite Ef; vm_compute; reflexivity). rewrite E2 in E. exact E.
  - destruct (build_path_correct demo_string (Syscall.set_cwd (replicate 255 97) Sched.zero_task) 1073741824 [98]
      demo_string_holds) as (_ & _ & H).
    exact (H ltac:(vm_compute; discriminate) ltac:(vm_compute; reflexivity) ltac:(vm_compute; discriminate)).
Defined.

Definition pipe_call : trapframe := call_frame 42 1073741824 0 0.
Definition demo_pipe : kernel := after (Proc.dispatch pipe_call KernelDemo.demo).

Lemma demo_served : pipe_served KernelDemo.demo.
Proof.
  unfold pipe_served. destruct (File.filp_alloc _) as [rf e1] eqn:E1. destruct (File.pipe_create e1) as [p e2] eqn:E2.
  assert (rf = fst (File.filp_alloc (serv KernelDemo.demo))) as Hrf by (by rewrite E1).
  assert (e2 = snd (File.pipe_create (snd (File.filp_alloc (serv KernelDemo.demo))))) as He by (by rewrite E1; cbn; rewrite E2).
  rewrite Hrf, He. clear. split; vm_compute; discriminate.
Qed.

Lemma switch_avail d s n : AddrSpace.avail s n -> AddrSpace.avail (Paging.hal_paging_switch d s) n.
Proof. done. Qed.

Lemma demo_frames : AddrSpace.avail (mach KernelDemo.demo) 12.
Proof. rewrite KernelDemo.demo_mach. apply switch_avail, SpaceDemo.demo_avail. lia. Qed.

Lemma pipe_returns : returned (Proc.dispatch pipe_call KernelDemo.demo) = Some 0.
Proof. vm_compute. reflexivity. Qed.

Lemma dispatch_keeps_invariant_witness :
  returned (Proc.dispatch pipe_call KernelDemo.demo) = Some 0 /\ kinv demo_pipe /\
  map (fun fd => File.refcount (filp_of demo_pipe (lget 0 (Sched.files (task_of demo_pipe (cur demo_pipe))) fd))) [0; 1]
    = [1; 1].
Proof.
  destruct (dispatch_keeps_invariant pipe_call KernelDemo.demo KernelDemo.demo_kinv demo_frames
    ltac:(discriminate) (fun _ => demo_served)) as [H _].
  split; [exact pipe_returns|]. unfold demo_pipe. pose proof (returned_done _ _ pipe_returns) as E.
  rewrite E in H. destruct H as [H _]. split; [exact H|]. vm_compute. reflexivity.
Defined.

Lemma demo_pipe_kinv : kinv demo_pipe.
Proof.
  pose proof (dispatch_spec pipe_call KernelDemo.demo KernelDemo.demo_kinv ltac:(discriminate) (fun _ => demo_served)) as H.
  rewrite (returned_done _ _ pipe_returns) in H. exact (proj1 H).
Qed.

(** The task of the small kernel forks. *)
Lemma fork_returns : returned (Proc.sys_fork_impl (call_frame 2 0 0 0) KernelDemo.demo) = Some 2.
Proof. vm_compute. reflexivity. Qed.

(** Allocating the new task finds a free block and leaves the machine alone. *)
Lemma fork_alloc_mach nm : mach (with_sch KernelDemo.demo (snd (Sched.sched_alloc nm (sch KernelDemo.demo)))) = KernelDemo.demo_machine.
Proof.
  rewrite <- KernelDemo.demo_mach. set (e0 := serv KernelDemo.demo). set (e1 := snd (File.kmalloc Sched.sizeof_task e0)).
  assert (KernelDemo.fits Sched.sizeof_task e0 = true) as F0 by (vm_compute; reflexivity).
  assert (KernelDemo.fits Sched.KSTACK_SIZE e1 = true) as F1 by (vm_compute; reflexivity).
  pose proof (KernelDemo.kmalloc_mach _ _ F0) as M0. pose proof (KernelDemo.kmalloc_mach _ _ F1) as M1. fold e1 in M0.
  unfold mach at 1, serv. cbn [sch with_sch]. unfold Sched.sched_alloc. cbn [Sched.kmalloc File.kernel_env].
  change (Sched.env (sch KernelDemo.demo)) with e0. unfold e1 in *. destruct (File.kmalloc Sched.sizeof_task e0) as [t e].
  cbn [snd] in *. destruct (t =? 0); [exact M0|]. destruct (File.kmalloc Sched.KSTACK_SIZE e) as [ks e2]. cbn [snd Sched.env] in *.
  exact (eq_trans M1 M0).
Qed.

Lemma demo_addrspace : Sched.addrspace (task_of KernelDemo.demo (cur KernelDemo.demo)) = SpaceDemo.f_dir.
Proof. vm_compute. reflexivity. Qed.

Lemma switch_needs d s dir di n : SpaceClone.needs (Paging.hal_paging_switch d s) dir di n = SpaceClone.needs s dir di n.
Proof.
  unfold SpaceClone.needs, SpaceClone.need, SpaceClone.count_pages. change (Paging.entry (Paging.hal_paging_switch d s)) with (Paging.entry s). reflexivity.
Qed.

Lemma demo_fork_served : fork_served KernelDemo.demo.
Proof.
  unfold fork_served. rewrite demo_addrspace. set (nm := Sched.name _).
  pose proof (fork_alloc_mach nm) as Hm.
  assert ((Sched.kstack (Sched.get (snd (Sched.sched_alloc nm (sch KernelDemo.demo))) (fst (Sched.sched_alloc nm (sch KernelDemo.demo)))) =? 0) = false)
    as Hks by (vm_compute; reflexivity).
  clearbody nm. destruct (Sched.sched_alloc nm (sch KernelDemo.demo)) as [c s1]. cbn [fst snd] in *. rewrite Hm. intros _.
  split; [by apply Z.eqb_neq|]. split; [apply KernelDemo.demo_machine_ok|]. right. split; [apply KernelDemo.demo_machine_space|].
  split; [apply (KernelMap.used_regs SpaceDemo.demo); [reflexivity|]; apply SpaceDemo.demo_used; simpl; tauto|].
  unfold KernelDemo.demo_machine. rewrite switch_needs, SpaceDemo.demo_needs. apply switch_avail, SpaceDemo.demo_avail. lia.
Qed.

Lemma fork_correct_witness :
  exists k' c t, Proc.sys_fork_impl (call_frame 2 0 0 0) KernelDemo.demo = Done 2 k' /\ kinv k' /\
    forked (call_frame 2 0 0 0) KernelDemo.demo k' 2 c t /\ Sched.ring (sch k') [c] /\
    same_memory (mach k') SpaceDemo.f_dir (Sched.addrspace t).
Proof.
  destruct (fork_correct (call_frame 2 0 0 0) KernelDemo.demo [] KernelDemo.demo_kinv eq_refl demo_fork_served)
    as (r & k' & E & H1 & _ & H2).
  pose proof fork_returns as Er. rewrite E in Er. cbn [returned] in Er. injection Er as ->.
  destruct H2 as [[H2 _]|(c & t & Hf & Hr & Hs)]; [discriminate H2|].
  rewrite demo_addrspace in Hs. exists k', c, t. split; [exact E|]. split; [exact H1|]. split; [exact Hf|]. split; [exact Hr|exact Hs].
Defined.

Lemma kill_closes_nothing_witness :
  exists k', Proc.dispatch (call_frame 37 1 0 0) demo_pipe = Done 0 k' /\ ~ kinv k'.
Proof.
  destruct (kill_closes_nothing (call_frame 37 1 0 0) demo_pipe (cur demo_pipe) demo_pipe_kinv) as (k' & H1 & _ & _ & _ & _ & H2).
  - vm_compute. reflexivity.
  - vm_compute. discriminate.
  - apply (bool_decide_unpack (is_Some (Sched.store (sch demo_pipe) !! cur demo_pipe))). vm_compute. exact I.
  - vm_compute. discriminate.
  - exists k'. split; [exact H1|]. apply H2. vm_compute. discriminate.
Defined.

End Calls.
