(* ===== verification/WaitSpec.v ===== *)
(** * Waiting for children ([sys_wait4_impl], kernel/proc/proc.c) *)

From stdpp Require Import base list gmap numbers sets.
From S2P Require Import Prelude CString Pmm Layout Disk Minix MinixDemo Paging AddrSpace Spaces SpaceDemo Image Heap.
From S2P Require Import HeapSpec Pipe Sched Keyboard Console File FileSpec Kernel Syscall Elf Proc KernelInv.
From S2P Require Import SyscallInv ProcInv DispatchInv UserMem KernelDemo Calls.

#[local] Open Scope Z_scope.

Module WaitSpec.
Import Kernel UserMem KernelInv FileSpec SyscallInv ProcInv DispatchInv.

(** Slot [i] holds task [t], a child of the caller. *)
Record child_at (k : kernel) (i t : Z) (tk : Sched.task) : Prop := {
  ch_slot : 0 <= i < Sched.MAX_TASKS;
  ch_task : Sched.sched_find_slot i (sch k) = t;
  ch_live : t <> 0;
  ch_store : Sched.store (sch k) !! t = Some tk;
  ch_parent : Sched.parent tk = cur k }.

Lemma child_slot_iff k i : kinv k -> 0 <= i < Sched.MAX_TASKS ->
  Proc.child_slot (cur k) (sch k) i = true <-> exists t tk, child_at k i t tk.
Proof.
  intros Hk Hi. split.
  - intros H. destruct (child_slot_spec (cur k) k i Hk eq_refl H) as (tk & Hs & Hp & _).
    exists (Sched.sched_find_slot i (sch k)), tk. split; try done. intros E.
    rewrite E, (ti_null _ _ (si_tasks _ Hk)) in Hs. done.
  - intros (t & tk & [_ H2 H3 H4 H5]). unfold Proc.child_slot. cbv zeta. rewrite H2, (get_store _ _ _ H4), H5, Z.eqb_refl.
    by destruct (Z.eqb_spec t 0).
Qed.

Lemma zombie_slot_iff k i : kinv k -> 0 <= i < Sched.MAX_TASKS ->
  Proc.zombie_slot (cur k) (sch k) i = true <-> exists t tk, child_at k i t tk /\ Sched.state tk = Sched.TASK_ZOMBIE.
Proof.
  intros Hk Hi. unfold Proc.zombie_slot. rewrite andb_true_iff, child_slot_iff by done. split.
  - intros [(t & tk & H) Hz%Z.eqb_eq]. exists t, tk. split; [done|]. destruct H as [_ H2 _ H4 _].
    by rewrite H2, (get_store _ _ _ H4) in Hz.
  - intros (t & tk & H & Hz). split; [by exists t, tk|]. destruct H as [_ H2 _ H4 _].
    by rewrite H2, (get_store _ _ _ H4), Hz.
Qed.

(** The machine after the status word has been stored for the caller. *)
Definition status_word (code : Z) : Z := Z.shiftl (Z.land code 255) 8.
Definition stored_status (k : kernel) (status : Z) (tk : Sched.task) : kernel :=
  if status =? 0 then k
  else with_mach k (Paging.hal_addrspace_copy_to (Sched.addrspace (task_of k (cur k))) status
                      (le_bytes 4 (status_word (Sched.exit_code tk))) 4 (mach k)).

Lemma wait4_reaps status k i t tk : kinv k -> child_at k i t tk -> Sched.state tk = Sched.TASK_ZOMBIE ->
  (forall j u uk, 0 <= j < i -> child_at k j u uk -> Sched.state uk <> Sched.TASK_ZOMBIE) -> (status <> 0 -> user_range status 4) ->
  Proc.wait4 status k = (Proc.reap t;; mret (Sched.pid tk)) (stored_status k status tk).
Proof.
  intros Hk Hc Hz Hfirst Hur. pose proof Hc as [H1 H2 H3 H4 H5].
  assert (find_first (Proc.zombie_slot (cur k) (sch k)) 0 (Z.to_nat Sched.MAX_TASKS) = Some i) as E.
  { change (Z.to_nat Sched.MAX_TASKS) with 64%nat. change Sched.MAX_TASKS with 64 in H1. apply find_first_spec; [lia| |].
    - apply zombie_slot_iff; [done..|]. by exists t, tk.
    - intros j Hj. destruct (Proc.zombie_slot (cur k) (sch k) j) eqn:Ez; [|done].
      apply zombie_slot_iff in Ez as (u & uk & Hu & Hzu); [|done|change Sched.MAX_TASKS with 64; lia].
      by destruct (Hfirst j u uk ltac:(lia) Hu). }
  unfold Proc.wait4. rewrite bind_gets, bind_gets, E, bind_gets, H2, bind_gets, bind_gets.
  change (task_of k t) with (Sched.get (sch k) t). rewrite (get_store _ _ _ H4). unfold stored_status.
  destruct (Z.eqb_spec status 0) as [|Hs]; cbn [negb]; [done|]. destruct (Hur Hs) as [U1 U2].
  rewrite (proj2 (Z.ltb_ge _ _) U1), (proj2 (Z.ltb_ge _ _) U2). done.
Qed.

(** Blocking gives the processor to another task. *)
Lemma sched_block_away (s : Sched.sched File.services) q1 q2 : Sched.ring s (q1 ++ Sched.current s :: q2) ->
  exists s', Sched.sched_block s = Some s' /\ Sched.current s' <> Sched.current s /\
    Sched.get s' (Sched.current s) = Sched.set_state Sched.TASK_BLOCKED (Sched.get s (Sched.current s)).
Proof.
  intros Hr. pose proof (Sched.ring_cyc _ _ _ _ Hr) as Hc. set (c := Sched.current s) in *.
  set (s1 := Sched.upd (Sched.set_state Sched.TASK_BLOCKED) c s).
  assert (Sched.cyc s1 c (q2 ++ q1)) as Hc1.
  { apply (Sched.cyc_ext s); [intros p; by apply Sched.next_upd| |done].
    intros p [t Ht]. unfold s1, Sched.upd. cbn. destruct (decide (p = c)) as [->|]; [rewrite lookup_insert_eq; eauto|].
    rewrite lookup_insert_ne by done. eauto. }
  assert (Sched.get s1 c = Sched.set_state Sched.TASK_BLOCKED (Sched.get s c)) as G by (unfold s1; by rewrite Sched.get_upd, Z.eqb_refl).
  assert (Sched.current s1 = c) as Ec by done.
  unfold Sched.sched_block. fold c s1. cbv zeta. rewrite (Sched.pick_next_cyc s1 c _ Hc1 Ec). cbn [mbind option_bind].
  set (nx := Sched.first_runnable s1 _). assert (nx <> c) as Hne.
  { unfold nx, Sched.first_runnable. destruct (List.find _ _) as [x|] eqn:Ef.
    - apply find_some in Ef as [_ Hx]. intros ->. by rewrite G in Hx.
    - intros E. destruct (Sched.cyc_valid _ _ _ Hc) as [_ Hi]. apply Hi. rewrite E. apply elem_of_cons. by left. }
  rewrite Ec. destruct (Z.eqb_spec nx c); [done|]. eexists. split; [reflexivity|]. split; [by rewrite Sched.switch_current|].
  rewrite Sched.switch_get. destruct (Z.eqb_spec nx c); [done|exact G].
Qed.

Lemma no_zombie k : kinv k -> (forall i t tk, child_at k i t tk -> Sched.state tk <> Sched.TASK_ZOMBIE) ->
  find_first (Proc.zombie_slot (cur k) (sch k)) 0 (Z.to_nat Sched.MAX_TASKS) = None.
Proof.
  intros Hk Hno. destruct (find_first _ _ _) as [i|] eqn:E; [|done]. apply find_first_Some in E as (Hi & Hz & _).
  apply zombie_slot_iff in Hz as (t & tk & Hc & Hz); [by destruct (Hno i t tk Hc)|done|exact Hi].
Qed.

Lemma wait4_blocks status k q1 q2 : kinv k -> Sched.ring (sch k) (q1 ++ cur k :: q2) ->
  (exists i t tk, child_at k i t tk) ->
  (forall i t tk, child_at k i t tk -> Sched.state tk <> Sched.TASK_ZOMBIE) ->
  exists k', Proc.wait4 status k = Waits k' (PWait status) /\ kinv k' /\ cur k' <> cur k /\
    Sched.state (task_of k' (cur k)) = Sched.TASK_BLOCKED /\ Sched.waiting (task_of k' (cur k)) = true.
Proof.
  intros Hk Hr (i & t & tk & Hc) Hno. pose proof (no_zombie k Hk Hno) as Ez. pose proof (ch_slot _ _ _ _ Hc) as Hi.
  destruct (find_first_exists (Proc.child_slot (cur k) (sch k)) 0 (Z.to_nat Sched.MAX_TASKS) i) as (j & Ej & _).
  { change (Z.of_nat (Z.to_nat Sched.MAX_TASKS)) with Sched.MAX_TASKS. lia. }
  { apply child_slot_iff; [done..|eauto]. }
  set (k1 := upd_task (Sched.set_waiting true) (cur k) k).
  assert (Sched.ring (sch k1) (q1 ++ Sched.current (sch k1) :: q2)) as Hr1.
  { apply (Sched.ring_ext (sch k)); [done|intros p _; by apply Sched.next_upd| |exact Hr].
    intros p _ [u Hu]. unfold k1, upd_task, Sched.upd. cbn. destruct (decide (p = cur k)) as [->|]; [rewrite lookup_insert_eq; eauto|].
    rewrite lookup_insert_ne by done. eauto. }
  destruct (sched_block_away (sch k1) q1 q2 Hr1) as (s' & Eb & Hcur & Hg).
  assert (Proc.wait4 status k = Waits (with_sch k1 s') (PWait status)) as Ew.
  { unfold Proc.wait4. rewrite bind_gets, bind_gets, Ez, bind_gets, Ej, bind_modify. unfold sleep. fold k1. by rewrite Eb. }
  exists (with_sch k1 s'). pose proof (wait4_keeps (cur k) status k Hk eq_refl) as Hkeep. rewrite Ew in Hkeep.
  split_and!; [exact Ew|exact Hkeep|exact Hcur|..]; unfold task_of; cbn [sch with_sch];
    change (Sched.current (sch k1)) with (cur k) in Hg; rewrite Hg; [done|].
  cbn. unfold k1, upd_task. cbn [sch with_sch]. by rewrite Sched.get_upd, Z.eqb_refl.
Qed.

Lemma wait4_none status k : kinv k -> (forall i t tk, ~ child_at k i t tk) -> Proc.wait4 status k = Done (-1) k.
Proof.
  intros Hk Hno. assert (find_first (Proc.zombie_slot (cur k) (sch k)) 0 (Z.to_nat Sched.MAX_TASKS) = None) as Ez.
  { apply no_zombie; [done|]. intros i t tk Hc. by destruct (Hno i t tk). }
  unfold Proc.wait4. rewrite bind_gets, bind_gets, Ez, bind_gets. clear Ez.
  destruct (find_first _ _ _) as [i|] eqn:E; [|reflexivity]. apply find_first_Some in E as (Hi & Hc & _).
  apply child_slot_iff in Hc as (t & tk & Hc); [by destruct (Hno i t tk)|done|exact Hi].
Qed.

(** What the caller reads at the address it gave. *)
Definition status_at (k k1 : kernel) (status code : Z) : Prop :=
  if decide (status = 0) then k1 = k else exists s, k1 = with_mach k s /\
    Image.image s (Sched.addrspace (task_of k (cur k))) status (le_bytes 4 (Z.shiftl (Z.land code 255) 8)).

Lemma stored_status_spec k status tk :
  (status <> 0 -> AddrSpace.ok (mach k) /\ AddrSpace.space (mach k) (Sched.addrspace (task_of k (cur k))) /\
     user_range status 4 /\ Image.mapped (mach k) (Sched.addrspace (task_of k (cur k))) status (status + 4)) ->
  status_at k (stored_status k status tk) status (Sched.exit_code tk).
Proof.
  intros H. unfold status_at, stored_status. destruct (Z.eqb_spec status 0) as [->|Hs]; [by rewrite decide_True|].
  rewrite decide_False by done. destruct (H Hs) as (H1 & H2 & [H3 H4] & H5). eexists. split; [reflexivity|].
  set (w := status_word (Sched.exit_code tk)).
  pose proof (Image.copy_mapped (mach k) _ status (le_bytes 4 w) 4 H1 H2 H3 H4
    ltac:(rewrite lenZ_le_bytes; lia) (bytes_le_bytes 4 w) H5) as [_ Hi].
  exact Hi.
Qed.

Lemma wait4_zombie status k q1 q2 i t tk : kinv k -> Sched.ring (sch k) (q1 ++ cur k :: q2) ->
  child_at k i t tk -> Sched.state tk = Sched.TASK_ZOMBIE ->
  (forall j u uk, 0 <= j < i -> child_at k j u uk -> Sched.state uk <> Sched.TASK_ZOMBIE) -> t ∈ q1 ++ q2 ->
  (status <> 0 -> user_range status 4) ->
  let k1 := stored_status k status tk in
  exists k', Proc.wait4 status k = Done (Sched.pid tk) k' /\ kinv k' /\ cur k' = cur k /\
    Sched.store (sch k') !! t = None /\ (t ∉ Sched.tasks (sch k')) /\ Sched.sched_reap t (sch k1) = Some (sch k').
Proof.
  intros Hk Hr Hc Hz Hfirst Hin Hur k1. pose proof (wait4_reaps status k i t tk Hk Hc Hz Hfirst Hur) as Ew. fold k1 in Ew.
  assert (exists a b, q1 ++ cur k :: q2 = a ++ t :: b) as (a & b & Eq).
  { apply list_elem_of_split. apply elem_of_app. apply elem_of_app in Hin as [|]; [by left|right; by apply elem_of_cons; right]. }
  assert (Sched.ring (sch k1) (a ++ t :: b)) as Hr1.
  { rewrite <- Eq. unfold k1, stored_status. destruct (status =? 0); [exact Hr|]. apply (Sched.ring_ext (sch k)); done. }
  destruct (Sched.sched_reap_ring (sch k1) a t b Hr1) as (s' & Es & _ & Hst & Hta & _ & _).
  pose proof (wait4_keeps (cur k) status k Hk eq_refl) as Hkeep.
  unfold mbind, M_bind, Proc.reap in Ew. rewrite Es in Ew. rewrite Ew in *. destruct Hkeep as [G1 G2].
  eexists. split; [reflexivity|]. split_and!; [exact G1|exact G2|exact Hst|exact Hta|exact Es].
Qed.

(** C13: [wait4] in a state with exact bookkeeping, the caller being on the run list.
    With a dead child (the first in the task table) on the run list, it returns that
    child's pid, removes the child, and stores its exit code, shifted, at the given
    address.  With living children only, the caller is marked as waiting and blocked,
    another task gets the processor, and the search will be repeated when the caller
    runs again.  Without children the result is -1 and nothing changes. *)
Theorem wait4_correct status k q1 q2 : kinv k -> Sched.ring (sch k) (q1 ++ cur k :: q2) ->
  (forall i t tk, child_at k i t tk -> Sched.state tk = Sched.TASK_ZOMBIE ->
     (forall j u uk, 0 <= j < i -> child_at k j u uk -> Sched.state uk <> Sched.TASK_ZOMBIE) ->
     t ∈ q1 ++ q2 ->
     (status <> 0 -> AddrSpace.ok (mach k) /\ AddrSpace.space (mach k) (Sched.addrspace (task_of k (cur k))) /\
        user_range status 4 /\ Image.mapped (mach k) (Sched.addrspace (task_of k (cur k))) status (status + 4)) ->
     exists k1 k', Proc.wait4 status k = Done (Sched.pid tk) k' /\ kinv k' /\ cur k' = cur k /\
       Sched.store (sch k') !! t = None /\ (t ∉ Sched.tasks (sch k')) /\
       Sched.sched_reap t (sch k1) = Some (sch k') /\ status_at k k1 status (Sched.exit_code tk)) /\
  ((exists i t tk, child_at k i t tk) ->
   (forall i t tk, child_at k i t tk -> Sched.state tk <> Sched.TASK_ZOMBIE) ->
   exists k', Proc.wait4 status k = Waits k' (PWait status) /\ kinv k' /\ cur k' <> cur k /\
     Sched.state (task_of k' (cur k)) = Sched.TASK_BLOCKED /\ Sched.waiting (task_of k' (cur k)) = true) /\
  ((forall i t tk, ~ child_at k i t tk) -> Proc.wait4 status k = Done (-1) k).
Proof.
  intros Hk Hr. split_and!; [|by apply wait4_blocks with q1 q2|by apply wait4_none].
  intros i t tk Hc Hz Hfirst Hin Hmem.
  destruct (wait4_zombie status k q1 q2 i t tk Hk Hr Hc Hz Hfirst Hin (fun Hs => proj1 (proj2 (proj2 (Hmem Hs))))) as (k' & H1 & H2 & H3 & H4 & H5 & H6).
  exists (stored_status k status tk), k'. split_and!; try done. by apply stored_status_spec.
Qed.

(** ** Witness *)

(** The task of KernelDemo, on the run list, forks and waits; its child exits with 9. *)
Definition listed : kernel := Calls.after (Proc.add_task KernelDemo.first KernelDemo.demo).
Definition with_child : kernel := Calls.after (Proc.dispatch (call_frame 2 0 0 0) listed).
Definition waits : kernel := Calls.after (Proc.dispatch (call_frame 7 0 0 0) with_child).
Definition child_gone : kernel := Calls.after (Proc.dispatch (call_frame 1 9 0 0) waits).

Lemma listed_kinv : kinv listed.
Proof.
  unfold listed, Proc.add_task. destruct (Sched.sched_add _ _) as [s|] eqn:E; [|exact KernelDemo.demo_kinv].
  apply (sched_add_inv (sch KernelDemo.demo) KernelDemo.first s KernelDemo.demo_kinv); [|exact E].
  apply (bool_decide_unpack (is_Some (Sched.store (sch KernelDemo.demo) !! KernelDemo.first))). vm_compute. exact I.
Qed.

(** A call other than [pipe] and [kill] leads to a state with exact bookkeeping. *)
Lemma after_kinv tf k : kinv k -> eax tf <> 37 -> eax tf <> 42 -> kinv (Calls.after (Proc.dispatch tf k)).
Proof.
  intros Hk H1 H2. pose proof (dispatch_spec tf k Hk H1 (fun E => False_ind _ (H2 E))) as H.
  destruct (Proc.dispatch tf k); try apply H; apply KernelDemo.demo_kinv.
Qed.

Lemma child_gone_kinv : kinv child_gone.
Proof. apply after_kinv; [|done..]. apply after_kinv; [|done..]. apply after_kinv; [|done..]. apply listed_kinv. Qed.

Definition child : Z := 33587748.

Lemma child_gone_ring : Sched.ring (sch child_gone) ([] ++ cur child_gone :: [child]).
Proof.
  assert (cur child_gone = KernelDemo.first) as -> by (vm_compute; reflexivity).
  split; [vm_compute; reflexivity|]. split.
  - apply (bool_decide_unpack (NoDup [KernelDemo.first; child])). vm_compute. exact I.
  - vm_compute. repeat split.
  - intros p Hp. rewrite !elem_of_cons, elem_of_nil in Hp.
    destruct Hp as [->|[->|[]]]; apply (bool_decide_unpack (is_Some (Sched.store (sch child_gone) !! _))); vm_compute; exact I.
  - split; apply (bool_decide_unpack (_ ∉ [KernelDemo.first; child])); vm_compute; exact I.
Qed.

Lemma wait4_correct_witness :
  exists k', Proc.wait4 0 child_gone = Done 2 k' /\ kinv k' /\ Sched.store (sch k') !! child = None.
Proof.
  destruct (wait4_correct 0 child_gone [] [child] child_gone_kinv child_gone_ring) as [H _].
  destruct (H 1 child (task_of child_gone child)) as (k1 & k' & E & Hk & _ & Hs & _).
  - split; try (vm_compute; reflexivity || discriminate).
    vm_compute. split; [discriminate|reflexivity].
  - vm_compute. reflexivity.
  - intros j u uk Hj [_ H1 _ H2 _]. assert (j = 0) as -> by lia. intros Hz.
    assert (u = KernelDemo.first) as -> by (rewrite <- H1; vm_compute; reflexivity).
    apply get_store in H2. rewrite <- H2 in Hz. vm_compute in Hz. discriminate Hz.
  - by apply list_elem_of_singleton.
  - done.
  - exists k'. split; [|split; [exact Hk|exact Hs]].
    assert (Sched.pid (task_of child_gone child) = 2) as Ep by (vm_compute; reflexivity). rewrite Ep in E. exact E.
Defined.

End WaitSpec.
