(* ===== verification/FdCalls.v ===== *)
(** * The kernel's calls on descriptors keep the promise of Fds.v

    kernel/syscall/syscall.c changes the table of open files of the current task the way
    programs rely on: the handlers of [close], [dup2], [open] and [pipe] refine the
    operations on descriptor tables, with file pointers as entries and 0 as the free one. *)

From stdpp Require Import base list gmap numbers.
From S2P Require Import Prelude Disk Minix Paging Sched File Kernel Syscall KernelInv SyscallInv ProcInv MinixDemo UserMem KernelDemo Calls Fds.

#[local] Open Scope Z_scope.

Module FdCalls.
Import Kernel SyscallInv ProcInv UserMem.

Definition table_of (k : kernel) : list Z := Sched.files (task_of k (cur k)).

Lemma fd_ok_ok t fd : Syscall.fd_ok t fd = Fds.ok 0 (Sched.files t) fd.
Proof.
  unfold Syscall.fd_ok, Fds.ok, Sched.MAX_FILES, Fds.NFILES. rewrite negb_orb, negb_orb.
  rewrite <- Z.leb_antisym, <- Z.ltb_antisym. do 2 f_equal.
  destruct (Z.eqb_spec (lget 0 (Sched.files t) fd) 0); [by rewrite bool_decide_eq_true_2|by rewrite bool_decide_eq_false_2].
Qed.

Lemma fd_alloc_alloc t : Syscall.fd_alloc t = match Fds.alloc 0 (Sched.files t) with Some i => i | None => -1 end.
Proof.
  unfold Syscall.fd_alloc, Fds.alloc. erewrite find_first_ext; [reflexivity|]. intros i _.
  destruct (Z.eqb_spec (lget 0 (Sched.files t) i) 0); [by rewrite bool_decide_eq_true_2|by rewrite bool_decide_eq_false_2].
Qed.

Lemma table_set_file k fd f : table_of (set_file (cur k) fd f k) = lset (table_of k) fd f.
Proof.
  unfold table_of, set_file, upd_task, task_of, cur. cbn [sch with_sch].
  change (Sched.current (Sched.upd ?g ?p ?s)) with (Sched.current s). by rewrite Sched.get_upd, Z.eqb_refl.
Qed.
Lemma table_serv k e : table_of (with_serv k e) = table_of k.
Proof. done. Qed.
Lemma table_fstore k g f : table_of (fstore g f k) = table_of k /\ cur (fstore g f k) = cur k.
Proof. unfold fstore. by destruct (f =? 0). Qed.

Section calls.
Context `{STK : !Stack}.

Lemma close_refines tf k : exists k', Syscall.sys_close tf k = Done (fst (Fds.close 0 (i32 (ebx tf)) (table_of k))) k' /\
  table_of k' = snd (Fds.close 0 (i32 (ebx tf)) (table_of k)).
Proof.
  unfold Syscall.sys_close. rewrite !bind_gets. cbv zeta. rewrite fd_ok_ok. fold (table_of k). unfold Fds.close.
  destruct (Fds.ok 0 (table_of k) (i32 (ebx tf))); cbn [negb fst snd]; [|by exists k].
  unfold on_serv. rewrite !bind_modify. eexists. split; [reflexivity|].
  change (cur k) with (cur (with_serv k (File.filp_close (lget 0 (table_of k) (i32 (ebx tf))) (serv k)))). by rewrite table_set_file.
Qed.

Lemma dup2_refines tf k : exists k', Syscall.sys_dup2 tf k = Done (fst (Fds.dup2 0 (i32 (ebx tf)) (i32 (ecx tf)) (table_of k))) k' /\
  table_of k' = snd (Fds.dup2 0 (i32 (ebx tf)) (i32 (ecx tf)) (table_of k)).
Proof.
  unfold Syscall.sys_dup2. rewrite !bind_gets. cbv zeta. rewrite fd_ok_ok. fold (table_of k). unfold Fds.dup2.
  destruct (Fds.ok 0 (table_of k) (i32 (ebx tf))); cbn [negb fst snd]; [|by exists k].
  change Sched.MAX_FILES with Fds.NFILES. destruct ((i32 (ecx tf) <? 0) || (Fds.NFILES <=? i32 (ecx tf))); [by exists k|].
  destruct (i32 (ebx tf) =? i32 (ecx tf)); [by exists k|]. cbn [fst snd].
  set (old := lget 0 (table_of k) (i32 (ebx tf))). set (nf := lget 0 (table_of k) (i32 (ecx tf))).
  assert (exists e, (if negb (nf =? 0) then on_serv (File.filp_close nf) else mret tt) k = Done tt (with_serv k e)) as [e E].
  { destruct (nf =? 0); cbn [negb]; [exists (serv k); by destruct k as [[]]|by eexists]. }
  unfold mbind at 1, M_bind at 1. rewrite E. unfold on_serv. rewrite !bind_modify. eexists. split; [reflexivity|].
  change (cur k) with (cur (with_serv k e)). by rewrite table_serv, table_set_file.
Qed.

(** [open] takes the lowest free entry or fails with the table unchanged. *)
Lemma open_refines tf k : match Syscall.sys_open tf k with
  | Done fd k' => fd = -1 /\ table_of k' = table_of k \/ exists f, f <> 0 /\ Fds.open 0 f (table_of k) = (fd, table_of k')
  | _ => True end.
Proof.
  unfold Syscall.sys_open. rewrite !bind_gets. cbv zeta. unfold mbind at 1, M_bind at 1.
  pose proof (build_path_pure (task_of k (cur k)) (ebx tf) k) as Hp. destruct (Syscall.build_path _ _ k) as [full k0| | | | |]; try done. subst k0.
  unfold call_fs at 1. destruct (Minix.minixfs_open (fs k) (dsk k) full (i32 (ecx tf)) (u16 (edx tf))) as [r d] eqn:Er.
  erewrite bind_call by (cbv beta; rewrite Er; reflexivity). destruct (r <? 0); [by left|].
  rewrite fd_alloc_alloc. fold (table_of k). unfold Fds.open. destruct (Fds.alloc 0 (table_of k)) as [a|] eqn:Ea; [|by left].
  apply Fds.alloc_Some in Ea as [Ha _]. rewrite (proj2 (Z.ltb_ge a 0)) by lia.
  destruct (File.filp_alloc (serv (with_dsk k d))) as [f e] eqn:Ef.
  rewrite (bind_call_serv _ _ _ _ _ Ef). destruct (Z.eqb_spec f 0); [by left|].
  rewrite !bind_gets, !bind_modify. right. exists f. split; [done|]. f_equal.
  match goal with |- _ = table_of (set_file (cur k) a f (fstore ?g f ?k1)) => destruct (table_fstore k1 g f) as [T1 C1];
    change (cur k) with (cur k1); rewrite <- C1, table_set_file, T1 end. done.
Qed.

(** [pipe] puts its two ends in the lowest free entries or fails with the table unchanged,
    when the allocations of the open files find room. *)
Lemma pipe_refines tf k : lenZ (table_of k) = 32 -> pipe_served k -> match Syscall.sys_pipe tf k with
  | Done r k' => r = -1 /\ table_of k' = table_of k \/
      r = 0 /\ exists rf wf a b, rf <> 0 /\ wf <> 0 /\ a <> b /\ Fds.pipe 0 rf wf (table_of k) = (Some (a, b), table_of k')
  | _ => True end.
Proof.
  intros Hl Hserved. unfold pipe_served in Hserved. unfold Syscall.sys_pipe. rewrite !bind_gets. cbv zeta. rewrite fd_alloc_alloc. fold (table_of k). unfold Fds.pipe.
  destruct (Fds.alloc 0 (table_of k)) as [a|] eqn:Ea; [|by left].
  apply Fds.alloc_Some in Ea as [Ha Hz]. rewrite (proj2 (Z.ltb_ge a 0)) by lia.
  destruct (File.filp_alloc (serv k)) as [rf e1] eqn:Ef.
  rewrite (bind_call_serv _ _ _ _ _ Ef). rewrite bind_modify, bind_gets.
  destruct (File.pipe_create e1) as [p e2] eqn:Ep. destruct Hserved as [Hrf Hwf].
  set (k1 := set_file (cur k) a rf (with_serv k e1)).
  assert (table_of k1 = lset (table_of k) a rf) as T1 by (unfold k1; change (cur k) with (cur (with_serv k e1)); by rewrite table_set_file).
  assert (cur k1 = cur k) as C1 by done. rewrite fd_alloc_alloc, <- C1. fold (table_of k1).
  assert (forall e, table_of (set_file (cur k1) a 0 (with_serv k1 e)) = table_of k) as Hback.
  { intros e. change (cur k1) with (cur (with_serv k1 e)). rewrite table_set_file, table_serv, T1. apply (Fds.lset_free 0); [|done]. rewrite Hl. exact Ha. }
  change e1 with (serv k1) in Ep. clearbody k1. destruct (Fds.alloc 0 (table_of k1)) as [b|] eqn:Eb; [|left; split; [done|apply Hback]].
  destruct (Fds.alloc_Some _ _ _ Eb) as [Hb Hzb]. rewrite (proj2 (Z.ltb_ge b 0)) by lia.
  assert (a <> b) as Hab by (intros ->; rewrite T1, lget_lset_eq in Hzb by (rewrite Hl; exact Hb); done).
  rewrite (bind_call_serv _ _ _ _ _ Ep).
  destruct (Z.eqb_spec p 0) as [|Hp]; [left; split; [done|]; exact (Hback (File.filp_close rf e2))|].
  specialize (Hwf Hp). change e2 with (serv (with_serv k1 e2)) in Hwf.
  destruct (File.filp_alloc (serv (with_serv k1 e2))) as [wf e3] eqn:Ew. cbn [fst] in Hwf.
  rewrite (bind_call_serv _ _ _ _ _ Ew). rewrite !bind_modify.
  match goal with |- context [set_file (cur k1) b wf (fstore ?g wf (fstore ?h rf ?k2))] =>
    destruct (table_fstore k2 h rf) as [T2 C2]; destruct (table_fstore (fstore h rf k2) g wf) as [T3 C3]; set (k3 := fstore g wf (fstore h rf k2)) in * end.
  assert (table_of (set_file (cur k1) b wf k3) = lset (table_of k1) b wf) as T4.
  { replace (cur k1) with (cur k3) by (rewrite C3, C2; done). rewrite table_set_file, T3, T2. done. }
  clearbody k3. set (k4 := set_file _ b wf k3) in *. clearbody k4. unfold mbind, M_bind, uput32.
  pose proof (uput_frame (ebx tf) (le_bytes 4 a) k4) as U1. destruct (uput _ _ k4) as [[] k5| | | | |]; try done. destruct U1 as [s5 ->].
  pose proof (uput_frame (u32 (ebx tf + 4)) (le_bytes 4 b) (with_mach k4 s5)) as U2. destruct (uput _ _ (with_mach k4 s5)) as [[] k6| | | | |]; try done. destruct U2 as [s6 ->].
  right. split; [done|]. exists rf, wf, a, b. rewrite <- T1, Eb. by rewrite <- T4.
Qed.

(** C8: The handlers of [close], [dup2], [open] and [pipe] change the open files of the calling
    task as the operations on descriptor tables say: [close] and [dup2] always return with
    the table and result of the specification; when [open] returns (the path it is given
    lies in user space and fits the buffer) it has failed with the table unchanged or put an
    open file into the lowest free entry; when [pipe] returns (its argument lies in user space)
    and the heap had room for its two open files ([filp_alloc] is not checked there), it has
    failed with the table unchanged or put two open files into the two lowest free entries,
    which are different. *)
Theorem descriptor_calls_refine tf k : kinv k ->
  (exists k', Syscall.sys_close tf k = Done (fst (Fds.close 0 (i32 (ebx tf)) (table_of k))) k' /\
    table_of k' = snd (Fds.close 0 (i32 (ebx tf)) (table_of k))) /\
  (exists k', Syscall.sys_dup2 tf k = Done (fst (Fds.dup2 0 (i32 (ebx tf)) (i32 (ecx tf)) (table_of k))) k' /\
    table_of k' = snd (Fds.dup2 0 (i32 (ebx tf)) (i32 (ecx tf)) (table_of k))) /\
  match Syscall.sys_open tf k with
  | Done fd k' => fd = -1 /\ table_of k' = table_of k \/ exists f, f <> 0 /\ Fds.open 0 f (table_of k) = (fd, table_of k')
  | _ => True end /\
  (pipe_served k -> match Syscall.sys_pipe tf k with
  | Done r k' => r = -1 /\ table_of k' = table_of k \/
      r = 0 /\ exists rf wf a b, rf <> 0 /\ wf <> 0 /\ a <> b /\ Fds.pipe 0 rf wf (table_of k) = (Some (a, b), table_of k')
  | _ => True end).
Proof.
  intros Hk. destruct (cur_task k Hk) as (t & _ & Et & _ & Hl).
  split; [apply close_refines|]. split; [apply dup2_refines|]. split; [apply open_refines|]. apply pipe_refines.
  unfold table_of. by rewrite Et.
Qed.
End calls.

(** The current task of the kernel at work makes a pipe: entries 0 and 1. *)
Definition pipe_frame : trapframe := call_frame 42 1073741824 0 0.
Lemma demo_pipe_call : exists k', Syscall.sys_pipe pipe_frame KernelDemo.demo = Done 0 k'.
Proof.
  assert (match Syscall.sys_pipe pipe_frame KernelDemo.demo with Done r _ => r =? 0 | _ => false end = true) as E by (vm_compute; reflexivity).
  destruct (Syscall.sys_pipe pipe_frame KernelDemo.demo) as [r k'| | | | |]; try discriminate. apply Z.eqb_eq in E as ->. by exists k'.
Qed.

Lemma descriptor_calls_refine_witness : exists rf wf k' a b, Syscall.sys_pipe pipe_frame KernelDemo.demo = Done 0 k' /\
  rf <> 0 /\ wf <> 0 /\ a <> b /\ Fds.pipe 0 rf wf (table_of KernelDemo.demo) = (Some (a, b), table_of k').
Proof.
  destruct (descriptor_calls_refine pipe_frame KernelDemo.demo KernelDemo.demo_kinv) as (_ & _ & _ & H).
  specialize (H Calls.demo_served). revert H. generalize demo_pipe_call. generalize (Syscall.sys_pipe pipe_frame KernelDemo.demo). intros x (k' & ->).
  intros [[Hr _]|(_ & rf & wf & a & b & H)]; [discriminate Hr|]. exists rf, wf, k', a, b. split; [reflexivity|exact H].
Defined.
End FdCalls.
