(* ===== verification/Unistd.v ===== *)
(** * The system calls of programs (user/lib/unistd.c)

    Every wrapper of the C library puts a number of syscall_nr.h and its arguments in
    registers; the stubs of user/lib/syscall.s leave the other registers ([ctx]) alone.  The
    numbers and the registers are shown to be those the kernel's [dispatch] expects. *)

From stdpp Require Import base list gmap numbers.
From S2P Require Import Prelude Disk Minix Paging Sched File Kernel Syscall Proc.
From S2P Require Import MinixDemo UserMem KernelDemo.

#[local] Open Scope Z_scope.

Module Unistd.
Import Kernel UserMem.

(** The stubs [syscall0] to [syscall3]. *)
Definition regs (ctx : trapframe) (n b c d : Z) : trapframe :=
  Trapframe (tf_gs ctx) (tf_fs ctx) (tf_es ctx) (tf_ds ctx) (edi ctx) (esi ctx) (ebp ctx) (esp_dummy ctx) b d c n
    (int_no ctx) (err_code ctx) (eip ctx) (cs ctx) (eflags ctx) (useresp ctx) (ss ctx).
Definition syscall0 (n : Z) (ctx : trapframe) : trapframe := regs ctx n (ebx ctx) (ecx ctx) (edx ctx).
Definition syscall1 (n a : Z) (ctx : trapframe) : trapframe := regs ctx n a (ecx ctx) (edx ctx).
Definition syscall2 (n a b : Z) (ctx : trapframe) : trapframe := regs ctx n a b (edx ctx).
Definition syscall3 (n a b c : Z) (ctx : trapframe) : trapframe := regs ctx n a b c.

(** The wrappers with their arguments; pointers are addresses. *)
Inductive call :=
| exit_ (code : Z) | fork | execve (path argv envp : Z) | waitpid (pid status options : Z) | wait (status : Z)
| read (fd buf count : Z) | write (fd buf count : Z) | open (path flags mode : Z) | close (fd : Z) | creat (path mode : Z)
| unlink (path : Z) | chdir (path : Z) | chmod (path mode : Z) | lseek (fd off whence : Z)
| getpid | getppid | getuid | getgid | setuid (uid : Z) | setgid (gid : Z) | kill (pid sig : Z)
| ioctl (fd request arg : Z) | dup (fd : Z) | dup2 (oldfd newfd : Z) | pipe (fds : Z)
| mkdir (path mode : Z) | rmdir (path : Z) | stat (path st : Z) | fstat (fd st : Z) | getdents (fd out index : Z)
| yield | sync | getcwd (buf size : Z) | brk (addr : Z).

(** The registers each wrapper traps with (the numbers are those of syscall_nr.h). *)
Definition traps (c : call) : trapframe -> trapframe :=
  match c with
  | exit_ code => syscall1 1 (u32 code)
  | fork => syscall0 2
  | execve path argv envp => syscall3 59 path argv envp
  | waitpid pid status options => syscall3 7 (u32 pid) status (u32 options)
  | wait status => syscall3 7 (u32 (-1)) status 0
  | read fd buf count => syscall3 3 (u32 fd) buf (u32 count)
  | write fd buf count => syscall3 4 (u32 fd) buf (u32 count)
  | open path flags mode => syscall3 5 path (u32 flags) (u32 mode)
  | close fd => syscall1 6 (u32 fd)
  | creat path mode => syscall2 8 path (u32 mode)
  | unlink path => syscall1 10 path
  | chdir path => syscall1 12 path
  | chmod path mode => syscall2 15 path (u32 mode)
  | lseek fd off whence => syscall3 19 (u32 fd) (u32 off) (u32 whence)
  | getpid => syscall0 20
  | getppid => syscall0 39
  | getuid => syscall0 24
  | getgid => syscall0 47
  | setuid uid => syscall1 23 (u32 uid)
  | setgid gid => syscall1 181 (u32 gid)
  | kill pid sig => syscall2 37 (u32 pid) (u32 sig)
  | ioctl fd request arg => syscall3 54 (u32 fd) (u32 request) (u32 arg)
  | dup fd => syscall1 41 (u32 fd)
  | dup2 oldfd newfd => syscall2 90 (u32 oldfd) (u32 newfd)
  | pipe fds => syscall1 42 fds
  | mkdir path mode => syscall2 136 path (u32 mode)
  | rmdir path => syscall1 137 path
  | stat path st => syscall2 63 path st
  | fstat fd st => syscall2 62 (u32 fd) st
  | getdents fd out index => syscall3 64 (u32 fd) out (u32 index)
  | yield => syscall0 65
  | sync => syscall0 66
  | getcwd buf size => syscall2 326 buf (u32 size)
  | brk addr => syscall1 17 addr
  end.

(** What [getcwd] returns: the buffer, or a null pointer. *)
Definition getcwd_result (buf r : Z) : Z := if r <? 0 then 0 else buf.

(** ** The handlers the calls are meant for *)

Section handlers.
Context `{STK : !Stack}.

Definition handler (c : call) : trapframe -> M Z :=
  match c with
  | exit_ _ => Syscall.sys_exit | fork => Proc.sys_fork_impl | execve _ _ _ => Proc.sys_execve_impl
  | waitpid _ _ _ | wait _ => Proc.sys_wait4_impl
  | read _ _ _ => Syscall.sys_read | write _ _ _ => Syscall.sys_write | open _ _ _ => Syscall.sys_open
  | close _ => Syscall.sys_close | creat _ _ => Syscall.sys_creat | unlink _ => Syscall.sys_unlink
  | chdir _ => Syscall.sys_chdir | chmod _ _ => Syscall.sys_chmod | lseek _ _ _ => Syscall.sys_lseek
  | getpid => Syscall.sys_getpid | getppid => Syscall.sys_getppid | getuid => Syscall.sys_getuid | getgid => Syscall.sys_getgid
  | setuid _ => Syscall.sys_setuid | setgid _ => Syscall.sys_setgid | kill _ _ => Syscall.sys_kill
  | ioctl _ _ _ => Syscall.sys_ioctl | dup _ => Syscall.sys_dup | dup2 _ _ => Syscall.sys_dup2 | pipe _ => Syscall.sys_pipe
  | mkdir _ _ => Syscall.sys_mkdir | rmdir _ => Syscall.sys_rmdir | stat _ _ => Syscall.sys_stat | fstat _ _ => Syscall.sys_fstat
  | getdents _ _ _ => Syscall.sys_getdents | yield => Syscall.sys_yield | sync => Syscall.sys_sync
  | getcwd _ _ => Syscall.sys_getcwd | brk _ => Syscall.sys_brk
  end.

(** The descriptor or number that a handler takes from its first register. *)
Definition first_int (c : call) : option Z :=
  match c with
  | exit_ x | read x _ _ | write x _ _ | close x | lseek x _ _ | kill x _ | ioctl x _ _ | dup x | dup2 x _ | fstat x _ | getdents x _ _ => Some x
  | _ => None
  end.

Lemma i32_u32 x : i32 (u32 x) = i32 x.
Proof. unfold i32. by rewrite (u32_small (u32 x)) by apply u32_range. Qed.

(** The number a wrapper traps with does not depend on the other registers. *)
Definition number (c : call) : Z := eax (traps c (Trapframe 0 0 0 0 0 0 0 0 0 0 0 0 0 0 0 0 0 0 0)).
Lemma traps_number c ctx : eax (traps c ctx) = number c.
Proof. by destruct c. Qed.
Lemma dispatch_number c tf k : eax tf = number c -> Proc.dispatch tf k = handler c tf k.
Proof.
  intros E. unfold Proc.dispatch, handler. rewrite E. clear E.
  destruct c; cbv [number traps syscall0 syscall1 syscall2 syscall3 regs eax]; cbv iota; reflexivity.
Qed.

(** Every wrapper reaches the handler it is meant for, with its integer argument as the
    handler reads it. *)
Theorem calls_reach_handlers c ctx k : Proc.dispatch (traps c ctx) k = handler c (traps c ctx) k /\
  match first_int c with Some x => -2147483648 <= x < 2147483648 -> i32 (ebx (traps c ctx)) = x | None => True end.
Proof.
  split; [apply dispatch_number, traps_number|].
  destruct c; cbn [first_int traps]; try done; intros Hx; unfold syscall1, syscall2, syscall3; cbn [ebx regs]; rewrite i32_u32; by apply i32_small.
Qed.
End handlers.

(** [close(-1)] is refused by the handler of [close]. *)
Lemma calls_reach_handlers_witness :
  i32 (ebx (traps (close (-1)) (call_frame 0 0 0 0))) = -1 /\
  Proc.dispatch (traps (close (-1)) (call_frame 0 0 0 0)) KernelDemo.demo = Syscall.sys_close (traps (close (-1)) (call_frame 0 0 0 0)) KernelDemo.demo.
Proof.
  destruct (calls_reach_handlers (close (-1)) (call_frame 0 0 0 0) KernelDemo.demo) as [E H]. split; [apply H; lia|exact E].
Defined.
End Unistd.
