(* ===== verification/UMalloc.v ===== *)
(** * Memory of programs (user/lib/malloc.c and sbrk of user/lib/unistd.c)

    [malloc] keeps a singly linked list of blocks, each with a header of 12 bytes in front
    of it, takes the first free one that is large enough and otherwise moves the program's
    break.  The break is the kernel's: [brk_call] is what [sys_brk] does to it, as
    [sys_brk_break] shows. *)

From stdpp Require Import base list gmap numbers sets.
From S2P Require Import Prelude CString ULib Pmm Layout Disk Minix Paging Spaces Heap Pipe Sched Keyboard Console File.
From S2P Require Import Kernel Syscall.

#[local] Open Scope Z_scope.

Module UMalloc.

(** [struct block]. *)
Record block := Block { size : Z; next : Z; free : bool }.
Definition sizeof_block : Z := 12.

(** The blocks by address, [head], and the break. *)
Record heap := Heap { blocks : gmap Z block; head : Z; brk : Z }.

(** ** The break *)

(** The system call: the result and the new break. *)
Definition brk_call (addr b : Z) : Z * Z := if addr =? 0 then (b, b) else (addr, addr).

Definition sbrk (incr : Z) (b : Z) : Z * Z :=
  let '(cur, b) := brk_call 0 b in
  if incr =? 0 then (cur, b)
  else
    let '(nw, b) := brk_call (u32 (cur + u32 incr)) b in
    if negb (nw =? u32 (cur + u32 incr)) then (4294967295, b) else (cur, b).

(** ** Blocks *)

Definition ALIGN (x : Z) : Z := Z.land (u32 (x + 7)) (not32 7).

(** The loop of [malloc]: the first free block of at least [sz] bytes, or else the last
    block of the list (0 when it is empty).  A turn moves to another block of the list, so
    the number of blocks bounds the turns. *)
Fixpoint search (fuel : nat) (m : gmap Z block) (sz b last : Z) : Z + Z :=
  if b =? 0 then inr last
  else
    match m !! b with
    | None => inr last
    | Some x =>
        if free x && (sz <=? size x) then inl b
        else match fuel with O => inr last | S f => search f m sz (next x) b end
    end.

Definition set_next (v : Z) (x : block) : block := Block (size x) v (free x).
Definition set_free (v : bool) (x : block) : block := Block (size x) (next x) v.

Definition malloc (sz : Z) (h : heap) : Z * heap :=
  let sz := ALIGN sz in
  match search (base.size (blocks h)) (blocks h) sz (head h) 0 with
  | inl b => (u32 (b + sizeof_block), Heap (alter (set_free false) b (blocks h)) (head h) (brk h))
  | inr last =>
      let need := u32 (sz + sizeof_block) in
      let '(nb, b) := sbrk (i32 need) (brk h) in
      if nb =? 4294967295 then (0, Heap (blocks h) (head h) b)
      else
        let m := <[nb := Block sz 0 false]> (blocks h) in
        if negb (last =? 0) then (u32 (nb + sizeof_block), Heap (alter (set_next nb) last m) (head h) b)
        else (u32 (nb + sizeof_block), Heap m nb b)
  end.

(** The function [free]. *)
Definition ufree (p : Z) (h : heap) : heap :=
  if p =? 0 then h
  else Heap (alter (set_free true) (u32 (p - sizeof_block)) (blocks h)) (head h) (brk h).

(** ** The list of blocks *)

(** From [a] the list holds the blocks [bs]: address, size, and whether it is free. *)
Fixpoint chain (m : gmap Z block) (a : Z) (bs : list (Z * Z * bool)) : Prop :=
  match bs with
  | [] => a = 0
  | (b, s, f) :: bs' => a = b /\ exists nx, m !! b = Some (Block s nx f) /\ chain m nx bs'
  end.

(** The blocks follow each other in memory, headers and contents, between [lo] and [hi]. *)
Fixpoint regions (lo : Z) (bs : list (Z * Z * bool)) (hi : Z) : Prop :=
  match bs with
  | [] => lo <= hi
  | (b, s, _) :: bs' => lo <= b /\ 0 <= s /\ regions (b + 12 + s) bs' hi
  end.

Record wf (h : heap) (bs : list (Z * Z * bool)) : Prop := {
  wf_chain : chain (blocks h) (head h) bs;
  wf_regions : exists lo, 0 < lo /\ regions lo bs (brk h);
  wf_brk : brk h < 4294967295;
  wf_all : forall b, is_Some (blocks h !! b) -> b ∈ bs.*1.*1 }.

Lemma regions_le lo bs hi : regions lo bs hi -> lo <= hi.
Proof. revert lo. induction bs as [|[[b s] f] bs IH]; intros lo; cbn; [done|]. intros (H1 & H2 & H3). apply IH in H3. lia. Qed.

Lemma regions_in lo bs hi b s f : regions lo bs hi -> (b, s, f) ∈ bs -> lo <= b /\ 0 <= s /\ b + 12 + s <= hi.
Proof.
  revert lo. induction bs as [|[[b' s'] f'] bs IH]; intros lo; [by intros _ H%not_elem_of_nil|]. cbn.
  intros (H1 & H2 & H3) [[= -> -> ->]|Hin]%elem_of_cons.
  - apply regions_le in H3. lia.
  - destruct (IH _ H3 Hin). lia.
Qed.

Lemma regions_app lo bs1 x bs2 hi : regions lo (bs1 ++ x :: bs2) hi -> (forall y, y ∈ bs1 \/ y ∈ bs2 ->
  y.1.1 + 12 + y.1.2 <= x.1.1 \/ x.1.1 + 12 + x.1.2 <= y.1.1).
Proof.
  revert lo. induction bs1 as [|[[b s] f] bs1 IH]; intros lo; destruct x as [[bx sx] fx]; cbn.
  - intros (H1 & H2 & H3) [[yb ys] yf] [Hy|Hy]; [by apply not_elem_of_nil in Hy|].
    destruct (regions_in _ _ _ _ _ _ H3 Hy). cbn. lia.
  - intros (H1 & H2 & H3) y [[->|Hy]%elem_of_cons|Hy].
    + left. cbn. pose proof (regions_in _ _ _ bx sx fx H3 ltac:(apply elem_of_app; right; left)). lia.
    + apply (IH _ H3). by left.
    + apply (IH _ H3). by right.
Qed.

(** Addresses of blocks are distinct. *)
Lemma regions_nodup lo bs hi : regions lo bs hi -> NoDup bs.*1.*1.
Proof.
  revert lo. induction bs as [|[[b s] f] bs IH]; intros lo; cbn; [constructor|]. intros (H1 & H2 & H3).
  constructor; [|by eapply IH]. rewrite list_elem_of_fmap. intros ([b' s'] & Eb & Hin). cbn in Eb. subst b'.
  apply list_elem_of_fmap in Hin as ([[b2 s2] f2] & [= -> ->] & Hin).
  destruct (regions_in _ _ _ _ _ _ H3 Hin). lia.
Qed.

Lemma uchain_ext m m' a bs : (forall b, b ∈ bs.*1.*1 -> m' !! b = m !! b) -> chain m a bs -> chain m' a bs.
Proof.
  revert a. induction bs as [|[[b s] f] bs IH]; intros a Hm; cbn; [done|]. intros (-> & nx & Hb & Hc). split; [done|].
  exists nx. split; [rewrite Hm; [done|left]|]. apply IH; [|done]. intros b' Hb'. apply Hm. by right.
Qed.

(** Splitting the list at a block. *)
Lemma chain_split m a bs1 b s f bs2 : chain m a (bs1 ++ (b, s, f) :: bs2) ->
  exists nx, m !! b = Some (Block s nx f) /\ chain m nx bs2.
Proof. revert a. induction bs1 as [|[[b' s'] f'] bs1 IH]; intros a; cbn; [|naive_solver]. intros (-> & nx & H1 & H2). eauto. Qed.

(** Changing one block without its link. *)
Lemma chain_set m a bs1 b s f bs2 f' : chain m a (bs1 ++ (b, s, f) :: bs2) -> NoDup (bs1 ++ (b, s, f) :: bs2).*1.*1 ->
  chain (alter (set_free f') b m) a (bs1 ++ (b, s, f') :: bs2).
Proof.
  revert a. induction bs1 as [|[[b' s'] g'] bs1 IH]; intros a; cbn.
  - intros (-> & nx & Hb & Hc) [Hn _]%NoDup_cons. split; [done|]. exists nx. rewrite lookup_alter_eq, Hb. split; [done|].
    revert Hc. apply uchain_ext. intros c Hc. rewrite lookup_alter_ne; [done|]. by intros ->.
  - intros (-> & nx & Hb & Hc) [Hn Hd]%NoDup_cons. split; [done|]. exists nx. split; [|by apply IH].
    rewrite lookup_alter_ne; [done|]. intros ->. apply Hn. rewrite !fmap_app. apply elem_of_app. right. left.
Qed.

(** Appending a block at the end. *)
Lemma chain_append m a bs1 b s f nb sz : chain m a (bs1 ++ [(b, s, f)]) -> NoDup (bs1 ++ [(b, s, f)]).*1.*1 ->
  nb <> 0 -> nb ∉ (bs1 ++ [(b, s, f)]).*1.*1 ->
  chain (alter (set_next nb) b (<[nb := Block sz 0 false]> m)) a (bs1 ++ [(b, s, f); (nb, sz, false)]).
Proof.
  intros Hc Hd H0 Hn. revert a Hc Hd Hn. induction bs1 as [|[[b' s'] g'] bs1 IH]; intros a; cbn.
  - intros (-> & nx & Hb & ->) _ Hn. assert (nb <> b) by (intros ->; apply Hn; left). split; [done|]. exists nb.
    rewrite lookup_alter_eq, lookup_insert_ne, Hb by done. split; [done|]. split; [done|]. exists 0.
    rewrite lookup_alter_ne, lookup_insert_eq by done. done.
  - intros (-> & nx & Hb & Hc) [Hn1 Hd]%NoDup_cons Hn. rewrite not_elem_of_cons in Hn. destruct Hn as [Hn2 Hn3].
    split; [done|]. exists nx. split; [|by apply IH]. rewrite lookup_alter_ne, lookup_insert_ne; [done|done|].
    intros ->. apply Hn1. rewrite !fmap_app. apply elem_of_app. right. left.
Qed.

(** ** Searching *)

Definition last_addr (bs : list (Z * Z * bool)) (d : Z) : Z := match last bs with Some x => x.1.1 | None => d end.

Lemma search_spec m sz bs : forall fuel a l, chain m a bs -> (forall b, b ∈ bs.*1.*1 -> b <> 0) -> (length bs <= fuel)%nat ->
  (exists bs1 b s bs2, bs = bs1 ++ (b, s, true) :: bs2 /\ sz <= s /\ (forall b' s', (b', s', true) ∈ bs1 -> s' < sz) /\
     search fuel m sz a l = inl b) \/
  ((forall b' s', (b', s', true) ∈ bs -> s' < sz) /\ search fuel m sz a l = inr (last_addr bs l)).
Proof.
  induction bs as [|[[b s] f] bs IH]; intros fuel a l Hc H0 Hf.
  - cbn in Hc. subst a. right. split; [intros b' s' H; by apply not_elem_of_nil in H|]. by destruct fuel.
  - destruct Hc as (-> & nx & Hb & Hc). assert (b <> 0) as Hb0 by (apply H0; left).
    assert (search fuel m sz b l = if f && (sz <=? s) then inl b else match fuel with O => inr l | S f => search f m sz nx b end) as Es.
    { destruct fuel; cbn [search]; rewrite (proj2 (Z.eqb_neq b 0)), Hb by done; done. }
    rewrite Es. clear Es. destruct (f && (sz <=? s)) eqn:Ef.
    { apply andb_true_iff in Ef as [-> Hle%Z.leb_le]. left. exists [], b, s, bs. split_and!; try done.
      intros b' s' H. by apply not_elem_of_nil in H. }
    assert (forall b' s', (b', s', true) = (b, s, f) -> s' < sz) as Hthis.
    { intros b' s' [= -> -> <-]. cbn [andb] in Ef. by apply Z.leb_gt in Ef. }
    destruct fuel as [|fuel]; [cbn in Hf; lia|].
    destruct (IH fuel nx b Hc) as [(bs1 & b1 & s1 & bs2 & -> & Hle & Hno & E)|(Hno & E)].
    { intros c Hin. apply H0. by right. } { cbn in Hf. lia. }
    + left. exists ((b, s, f) :: bs1), b1, s1, bs2. split_and!; try done. intros b' s' [H|H]%elem_of_cons; eauto.
    + right. split; [intros b' s' [H|H]%elem_of_cons; eauto|]. rewrite E. f_equal. unfold last_addr. destruct bs as [|x bs]; [done|].
      change (last ((b, s, f) :: x :: bs)) with (last (x :: bs)). destruct (last (x :: bs)) eqn:El; [done|]. by apply last_None in El.
Qed.

Lemma regions_snoc lo bs hi s f : regions lo bs hi -> 0 <= s -> regions lo (bs ++ [(hi, s, f)]) (hi + 12 + s).
Proof.
  revert lo. induction bs as [|[[b s'] g] bs IH]; intros lo; cbn; [|naive_solver]. intros. split_and!; lia.
Qed.

Lemma regions_set lo bs1 b s f f' bs2 hi : regions lo (bs1 ++ (b, s, f) :: bs2) hi -> regions lo (bs1 ++ (b, s, f') :: bs2) hi.
Proof. revert lo. induction bs1 as [|[[b' s'] g] bs1 IH]; intros lo; cbn; naive_solver. Qed.

(** There are as many blocks as the list has, so the fuel is enough. *)
Lemma chain_in m bs : forall a b, chain m a bs -> b ∈ bs.*1.*1 -> is_Some (m !! b).
Proof.
  induction bs as [|[[b s] f] bs IH]; intros a c; cbn; [by intros _ H%not_elem_of_nil|].
  intros (-> & nx & Hb & Hc) [->|Hin]%elem_of_cons; eauto.
Qed.

Lemma chain_fuel m a bs : chain m a bs -> NoDup bs.*1.*1 -> (length bs <= base.size m)%nat.
Proof.
  intros Hc Hd. rewrite <- (length_fmap fst bs), <- (length_fmap fst (bs.*1)).
  rewrite <- (size_list_to_set (C := gset Z)) by done. rewrite <- size_dom. apply subseteq_size. intros b.
  rewrite elem_of_list_to_set, elem_of_dom. by apply (chain_in m bs a).
Qed.

Lemma ALIGN_spec n : 0 <= n <= 4294967288 -> ALIGN n = (n + 7) / 8 * 8.
Proof.
  intros Hn. unfold ALIGN. rewrite u32_small by dlia. set (x := n + 7). assert (0 < x < 4294967296) as Hx by (unfold x; lia).
  assert (Z.land x (not32 7) = Z.ldiff x 7) as ->.
  { apply Z.bits_inj'. intros i Hi. rewrite Z.land_spec, Z.ldiff_spec. unfold not32. rewrite Z.lxor_spec.
    destruct (Z.lt_ge_cases i 32).
    - change 4294967295 with (Z.ones 32). rewrite Z.ones_spec_low by lia. by destruct (Z.testbit 7 i).
    - rewrite (Z.bits_above_log2 x); [done|lia|]. apply Z.log2_lt_pow2; [lia|].
      apply Z.lt_le_trans with (2 ^ 32); [lia|]. apply Z.pow_le_mono_r; lia. }
  change 7 with (Z.ones 3). rewrite Z.ldiff_ones_r by lia. rewrite Z.shiftl_mul_pow2, Z.shiftr_div_pow2 by lia. done.
Qed.

Lemma sbrk_grows n b : 0 < n -> 0 < b -> b + n < 4294967296 -> sbrk (i32 n) b = (b, b + n).
Proof.
  intros Hn Hb Hlt. unfold sbrk, brk_call. cbn [Z.eqb]. rewrite ULib.u32_i32, (u32_small n), (u32_small (b + n)) by dlia.
  destruct (Z.eqb_spec (i32 n) 0) as [E|_].
  { apply (f_equal u32) in E. rewrite ULib.u32_i32, (u32_small n) in E by dlia. change (u32 0) with 0 in E. lia. }
  rewrite (proj2 (Z.eqb_neq (b + n) 0)) by lia. by rewrite Z.eqb_refl.
Qed.

(** ** Allocation *)

Lemma wf_nonzero h bs b : wf h bs -> b ∈ bs.*1.*1 -> b <> 0.
Proof.
  intros [_ (lo & Hlo & Hr) _ _] Hin. apply list_elem_of_fmap in Hin as ([b' s'] & -> & Hin).
  apply list_elem_of_fmap in Hin as ([[b2 s2] f2] & [= -> ->] & Hin). destruct (regions_in _ _ _ _ _ _ Hr Hin). cbn. lia.
Qed.

Lemma wf_nodup h bs : wf h bs -> NoDup bs.*1.*1.
Proof. intros [_ (lo & _ & Hr) _ _]. by apply (regions_nodup lo _ (brk h)). Qed.

Lemma malloc_reuse h bs1 b s bs2 : wf h (bs1 ++ (b, s, true) :: bs2) ->
  wf (Heap (alter (set_free false) b (blocks h)) (head h) (brk h)) (bs1 ++ (b, s, false) :: bs2).
Proof.
  intros Hw. pose proof (wf_nodup _ _ Hw) as Hd. destruct Hw as [Hc (lo & Hlo & Hr) Hb Ha]. split; cbn [blocks head brk].
  - by apply (chain_set _ _ _ _ _ true).
  - exists lo. split; [done|]. by apply (regions_set lo _ _ _ true).
  - done.
  - intros c Hs. rewrite lookup_alter_is_Some in Hs. apply Ha in Hs. revert Hs. by rewrite !fmap_app, !fmap_cons.
Qed.

Lemma last_split (bs : list (Z * Z * bool)) : bs <> [] -> exists bs1 b s f, bs = bs1 ++ [(b, s, f)] /\ last_addr bs 0 = b.
Proof.
  intros H. destruct (exists_last H) as (bs1 & [[b s] f] & ->). exists bs1, b, s, f. split; [done|].
  unfold last_addr. by rewrite last_snoc.
Qed.

Lemma malloc_grow h bs sz : wf h bs -> 0 <= sz -> brk h + 12 + sz < 4294967295 ->
  let m := <[brk h := Block sz 0 false]> (blocks h) in
  let l := last_addr bs 0 in
  wf (if negb (l =? 0) then Heap (alter (set_next (brk h)) l m) (head h) (brk h + 12 + sz) else Heap m (brk h) (brk h + 12 + sz))
    (bs ++ [(brk h, sz, false)]).
Proof.
  intros Hw Hsz Hlim. cbv zeta. pose proof (wf_nodup _ _ Hw) as Hd. pose proof (wf_nonzero h bs) as Hnz.
  pose proof Hw as [Hc (lo & Hlo & Hr) Hb Ha]. pose proof (regions_le _ _ _ Hr) as Hle.
  assert (brk h ∉ bs.*1.*1) as Hn.
  { intros Hin. apply list_elem_of_fmap in Hin as ([b' s'] & Eb & Hin). cbn in Eb. subst b'.
    apply list_elem_of_fmap in Hin as ([[b2 s2] f2] & [= <- <-] & Hin). destruct (regions_in _ _ _ _ _ _ Hr Hin). lia. }
  assert (forall c (m' : gmap Z block), (forall b, is_Some (m' !! b) -> b = brk h \/ is_Some (blocks h !! b)) -> is_Some (m' !! c) ->
    c ∈ (bs ++ [(brk h, sz, false)]).*1.*1) as Hall.
  { intros c m' Hm Hs. rewrite !fmap_app. apply elem_of_app. destruct (Hm c Hs) as [->|H]; [right; left|left; by apply Ha]. }
  assert (forall b, is_Some (<[brk h := Block sz 0 false]> (blocks h) !! b) -> b = brk h \/ is_Some (blocks h !! b)) as Hins.
  { intros b. rewrite lookup_insert_is_Some. intros [<-|[_ H]]; auto. }
  destruct (decide (bs = [])) as [->|Hne].
  - change (last_addr [] 0) with 0. cbn [Z.eqb negb app]. split; cbn [blocks head brk].
    + split; [done|]. exists 0. by rewrite lookup_insert_eq.
    + exists lo. split; [done|]. cbn in *. split_and!; lia.
    + done.
    + intros c Hs. by apply (Hall c _ Hins).
  - destruct (last_split bs Hne) as (bs1 & b & s & f & -> & ->).
    assert (b <> 0) as Hb0.
    { apply Hnz; [done|]. rewrite !fmap_app. apply elem_of_app. right. left. }
    destruct (Z.eqb_spec b 0); [done|]. cbn [negb]. rewrite <- app_assoc. cbn [app]. split; cbn [blocks head brk].
    + apply chain_append; try done. lia.
    + exists lo. split; [done|]. pose proof (regions_snoc lo _ _ sz false Hr Hsz) as H. by rewrite <- app_assoc in H.
    + done.
    + intros c Hs. rewrite lookup_alter_is_Some in Hs. pose proof (Hall c _ Hins Hs) as H. by rewrite <- app_assoc in H.
Qed.

(** What [malloc] does to the list. *)
Lemma malloc_spec h bs n : wf h bs -> 0 <= n -> brk h + n + 19 < 4294967295 ->
  let sz := (n + 7) / 8 * 8 in
  (exists bs1 b s bs2, bs = bs1 ++ (b, s, true) :: bs2 /\ sz <= s /\ (forall b' s', (b', s', true) ∈ bs1 -> s' < sz) /\
     fst (malloc n h) = b + 12 /\ wf (snd (malloc n h)) (bs1 ++ (b, s, false) :: bs2) /\ brk (snd (malloc n h)) = brk h) \/
  ((forall b' s', (b', s', true) ∈ bs -> s' < sz) /\
     fst (malloc n h) = brk h + 12 /\ wf (snd (malloc n h)) (bs ++ [(brk h, sz, false)]) /\
     brk (snd (malloc n h)) = brk h + 12 + sz).
Proof.
  intros Hw Hn Hlim. cbv zeta. unfold malloc. pose proof (regions_le) as Hrl.
  destruct (wf_regions _ _ Hw) as (lo & Hlo & Hr). pose proof (Hrl _ _ _ Hr) as Hle. clear Hrl.
  rewrite ALIGN_spec by lia. set (sz := (n + 7) / 8 * 8). assert (0 <= sz <= n + 7) as Hsz by (unfold sz; dlia).
  destruct (search_spec (blocks h) sz bs (base.size (blocks h)) (head h) 0) as
    [(bs1 & b & s & bs2 & -> & Hfit & Hno & ->)|(Hno & ->)].
  { apply Hw. } { intros b. by apply wf_nonzero with h. } { apply (chain_fuel _ (head h)); [apply Hw|by apply wf_nodup with h]. }
  - left. exists bs1, b, s, bs2. cbn [fst snd brk]. split_and!; try done.
    + pose proof (regions_in _ _ _ b s true Hr ltac:(apply elem_of_app; right; left)). unfold sizeof_block. rewrite u32_small by dlia. done.
    + by apply malloc_reuse.
  - right. split; [done|]. unfold sizeof_block. rewrite (u32_small (sz + 12)) by dlia.
    rewrite sbrk_grows by lia. rewrite (proj2 (Z.eqb_neq (brk h) 4294967295)) by lia.
    rewrite (u32_small (brk h + 12)) by dlia. pose proof (malloc_grow h bs sz Hw ltac:(lia) ltac:(lia)) as Hg. cbv zeta in Hg.
    replace (brk h + (sz + 12)) with (brk h + 12 + sz) by lia. destruct (negb _); cbn [fst snd brk]; by split_and!.
Qed.

Lemma ufree_spec h bs1 b s f bs2 : wf h (bs1 ++ (b, s, f) :: bs2) -> b + 12 + s <= brk h ->
  wf (ufree (b + 12) h) (bs1 ++ (b, s, true) :: bs2).
Proof.
  intros Hw Hle. pose proof (wf_nodup _ _ Hw) as Hd. destruct Hw as [Hc (lo & Hlo & Hr) Hb Ha].
  pose proof (regions_in _ _ _ b s f Hr ltac:(apply elem_of_app; right; left)) as Hin.
  unfold ufree. destruct (Z.eqb_spec (b + 12) 0); [lia|]. unfold sizeof_block. replace (b + 12 - 12) with b by lia.
  rewrite u32_small by dlia. split; cbn [blocks head brk].
  - by apply (chain_set _ _ _ _ _ f).
  - exists lo. split; [done|]. by apply (regions_set lo _ _ _ f).
  - done.
  - intros c Hs. rewrite lookup_alter_is_Some in Hs. apply Ha in Hs. revert Hs. by rewrite !fmap_app, !fmap_cons.
Qed.

(** C10: Allocating in a program whose break stays below 4 GiB.  [malloc] returns a block of at
    least the requested size: the first free block that has the requested size rounded up to
    a multiple of 8 (every free block before it is smaller), or a new one of the rounded size
    at the break, which grows by it and a header, and this only when no free block fits.  The block lies apart from all other blocks and their headers, none of
    which changes, and [free] makes it available again. *)
Theorem malloc_correct h bs n : wf h bs -> 0 <= n -> brk h + n + 19 < 4294967295 ->
  let '(p, h') := malloc n h in
  p <> 0 /\ exists bs1 s bs2,
    wf h' (bs1 ++ (p - 12, s, false) :: bs2) /\ n <= s /\
    (bs = bs1 ++ (p - 12, s, true) :: bs2 /\ (n + 7) / 8 * 8 <= s /\ brk h' = brk h /\
     (forall b' s', (b', s', true) ∈ bs1 -> s' < (n + 7) / 8 * 8) \/
     bs = bs1 /\ bs2 = [] /\ p = brk h + 12 /\ s = (n + 7) / 8 * 8 /\ brk h' = brk h + 12 + s /\
     forall b' s', (b', s', true) ∈ bs -> s' < (n + 7) / 8 * 8) /\
    (forall b s' f, (b, s', f) ∈ bs1 ++ bs2 -> b + 12 + s' <= p - 12 \/ p + s <= b) /\
    wf (ufree p h') (bs1 ++ (p - 12, s, true) :: bs2).
Proof.
  intros Hw Hn Hlim. pose proof (malloc_spec h bs n Hw Hn Hlim) as Hm. cbv zeta in Hm. destruct (malloc n h) as [p h']. cbn [fst snd] in Hm.
  set (sz := (n + 7) / 8 * 8) in *. assert (n <= sz < n + 8) as Hsz by (unfold sz; dlia).
  assert (forall bs1 s bs2, wf h' (bs1 ++ (p - 12, s, false) :: bs2) -> p <> 0 /\
    (forall b s' f, (b, s', f) ∈ bs1 ++ bs2 -> b + 12 + s' <= p - 12 \/ p + s <= b) /\
    wf (ufree p h') (bs1 ++ (p - 12, s, true) :: bs2)) as Hrest.
  { intros bs1 s bs2 Hw'. destruct (wf_regions _ _ Hw') as (lo & Hlo & Hr).
    pose proof (regions_in _ _ _ (p - 12) s false Hr ltac:(apply elem_of_app; right; left)) as Hin. split_and!; [lia| |].
    - intros b s' f Hb%elem_of_app. pose proof (regions_app _ _ _ _ _ Hr (b, s', f) Hb) as H. cbn in H. lia.
    - replace p with (p - 12 + 12) at 1 by lia. apply (ufree_spec h' bs1 _ s false); [done|lia]. }
  destruct Hm as [(bs1 & b & s & bs2 & -> & Hfit & Hno & -> & Hw' & Hb)|(Hno & -> & Hw' & Hb)].
  - replace (b + 12 - 12) with b in * by lia. destruct (Hrest bs1 s bs2 Hw') as (H1 & H2 & H3). split; [done|].
    exists bs1, s, bs2. split_and!; [done|lia|by left|done|done].
  - replace (brk h + 12 - 12) with (brk h) in * by lia. destruct (Hrest bs sz [] Hw') as (H1 & H2 & H3). split; [done|].
    exists bs, sz, []. split_and!; [done|lia| |done|done]. right. split_and!; (done || lia).
Qed.

(** A program with one free block of 16 bytes. *)
Definition small_heap : heap := Heap {[1073750016 := Block 16 0 true]} 1073750016 1073750044.
Lemma small_heap_wf : wf small_heap [(1073750016, 16, true)].
Proof.
  split.
  - split; [done|]. exists 0. done.
  - exists 1073750016. cbn. lia.
  - cbn. lia.
  - intros b [x Hx]. unfold small_heap in Hx. cbn [blocks] in Hx. apply lookup_singleton_Some in Hx as [<- _]. left.
Qed.

Lemma malloc_correct_witness :
  let '(p, h') := malloc 10 small_heap in
  p <> 0 /\ exists bs1 s bs2, wf h' (bs1 ++ (p - 12, s, false) :: bs2) /\ 10 <= s.
Proof.
  pose proof (malloc_correct small_heap [(1073750016, 16, true)] 10 small_heap_wf ltac:(lia) ltac:(cbn; lia)) as H.
  destruct (malloc 10 small_heap) as [p h']. destruct H as (H1 & bs1 & s & bs2 & H2 & H3 & _).
  split; [exact H1|]. exists bs1, s, bs2. exact (conj H2 H3).
Defined.

(** Requests beyond the end of the address space succeed too: when the new break would pass
    4 GiB, the kernel moves it below the old one, [sbrk] does not notice, and [malloc]
    hands out a block that lies beyond the program's memory. *)
Theorem malloc_huge_succeeds h bs n : wf h bs -> 0 < n <= 4294967276 -> (forall b s, (b, s, true) ∈ bs -> s < n) ->
  4294967296 < brk h + 12 + (n + 7) / 8 * 8 ->
  let '(p, h') := malloc n h in
  p = u32 (brk h + 12) /\ blocks h' !! brk h = Some (Block ((n + 7) / 8 * 8) 0 false) /\ brk h' < brk h.
Proof.
  intros Hw Hn Hno Hbig. unfold malloc. rewrite ALIGN_spec by lia. set (sz := (n + 7) / 8 * 8) in *.
  assert (n <= sz <= n + 7) as Hsz by (unfold sz; dlia). assert (sz <= 4294967280) as Hs8 by (unfold sz; dlia).
  destruct (wf_regions _ _ Hw) as (lo & Hlo & Hr). pose proof (regions_le _ _ _ Hr) as Hle. pose proof (wf_brk _ _ Hw) as Hbk.
  destruct (search_spec (blocks h) sz bs (base.size (blocks h)) (head h) 0) as
    [(bs1 & b & s & bs2 & -> & Hfit & _)|(_ & ->)].
  { apply Hw. } { intros b. by apply wf_nonzero with h. } { apply (chain_fuel _ (head h)); [apply Hw|by apply wf_nodup with h]. }
  { pose proof (Hno b s ltac:(apply elem_of_app; right; left)). lia. }
  unfold sizeof_block. rewrite (u32_small (sz + 12)) by dlia. unfold sbrk, brk_call. cbn [Z.eqb]. rewrite ULib.u32_i32, (u32_small (sz + 12)) by dlia.
  destruct (Z.eqb_spec (i32 (sz + 12)) 0) as [E|_].
  { apply (f_equal u32) in E. rewrite ULib.u32_i32, (u32_small (sz + 12)) in E by dlia. change (u32 0) with 0 in E. lia. }
  assert (u32 (brk h + (sz + 12)) = brk h + (sz + 12) - 4294967296) as -> by dlia.
  rewrite (proj2 (Z.eqb_neq (brk h + (sz + 12) - 4294967296) 0)), Z.eqb_refl by lia. cbn [negb].
  rewrite (proj2 (Z.eqb_neq (brk h) 4294967295)) by lia.
  destruct (Z.eqb_spec (last_addr bs 0) 0) as [E|E]; cbn [negb fst snd blocks brk].
  - split_and!; [done|apply lookup_insert_eq|lia].
  - split_and!; [done| |lia]. rewrite lookup_alter_ne, lookup_insert_eq; [done|]. intros El.
    assert (bs <> []) as Hne by (intros ->; done). destruct (last_split bs Hne) as (bs1 & b & s & f & -> & Eb).
    destruct (regions_in _ _ _ b s f Hr ltac:(apply elem_of_app; right; left)). lia.
Qed.

Lemma malloc_huge_succeeds_witness :
  fst (malloc 3221225472 small_heap) = 1073750056 /\ brk (snd (malloc 3221225472 small_heap)) < brk small_heap.
Proof.
  pose proof (malloc_huge_succeeds small_heap [(1073750016, 16, true)] 3221225472 small_heap_wf ltac:(lia)
    ltac:(intros b s H; apply list_elem_of_singleton in H; injection H as -> ->; lia) ltac:(vm_compute; reflexivity)) as H.
  destruct (malloc 3221225472 small_heap) as [p h']. destruct H as (H1 & _ & H2). split; [exact H1|exact H2].
Defined.

(** ** The kernel's break *)

Lemma page_up_multiple x : is_u32 x -> Syscall.page_up x = if x <=? 4294963200 then (x + 4095) / 4096 * 4096 else 0.
Proof.
  intros Hx. unfold Syscall.page_up. assert (is_u32 (u32 (x + 4095))) as H by apply u32_range.
  rewrite mask_page by done.
  destruct (Z.leb_spec x 4294963200).
  - rewrite u32_small by dlia. dlia.
  - unfold u32. replace ((x + 4095) mod 4294967296) with (x + 4095 - 4294967296) by dlia. dlia.
Qed.

(** [sys_brk] moves the break of a task, when it is in user space, as [brk_call] says. *)
Lemma sys_brk_break tf k : Paging.USER_BASE <= Sched.brk (Kernel.task_of k (Kernel.cur k)) < 4294967296 -> is_u32 (Kernel.ebx tf) ->
  exists k', Syscall.sys_brk tf k = Kernel.Done (i32 (fst (brk_call (Kernel.ebx tf) (Sched.brk (Kernel.task_of k (Kernel.cur k)))))) k' /\
  Sched.brk (Kernel.task_of k' (Kernel.cur k')) = snd (brk_call (Kernel.ebx tf) (Sched.brk (Kernel.task_of k (Kernel.cur k)))).
Proof.
  intros Hb Hx. unfold Syscall.sys_brk. rewrite !Kernel.bind_gets. unfold brk_call. destruct (Kernel.ebx tf =? 0); [by exists k|].
  assert ((Sched.brk (Kernel.task_of k (Kernel.cur k)) <? Kernel.ebx tf) = true ->
    (Syscall.page_up (Sched.brk (Kernel.task_of k (Kernel.cur k))) <? Syscall.page_up (Kernel.ebx tf)) &&
    (Syscall.page_up (Sched.brk (Kernel.task_of k (Kernel.cur k))) <? Paging.USER_BASE) = false) as Hg.
  { intros Hlt%Z.ltb_lt. unfold Paging.USER_BASE in *. rewrite !page_up_multiple by (done || unfold is_u32; lia).
    destruct (Z.leb_spec (Sched.brk (Kernel.task_of k (Kernel.cur k))) 4294963200), (Z.leb_spec (Kernel.ebx tf) 4294963200); try lia;
      apply andb_false_iff; rewrite !Z.ltb_ge; dlia. }
  destruct (_ <? _); [rewrite Hg by done|]; eexists; (split; [reflexivity|]); unfold Kernel.task_of, Kernel.cur; cbn; unfold Sched.get; cbn; by rewrite lookup_total_insert_eq.
Qed.
End UMalloc.
